(* ===== verification/_CoqProject ===== *)
-Q . S2P
Prelude.v
Encoding.v
EncodingFacts.v
Json.v
JsonFacts.v
Codec.v
CodecFacts.v
StateRecords.v
StateRecordFacts.v
Journal.v
JournalFacts.v
JournalDurability.v
Randomness.v
Records.v
Memory.v
MemoryFacts.v
World.v
QueueBackend.v
Scenarios.v
Scheduling.v
Diagnostics.v
Factories.v
Warehouse.v
Sinks.v
SinksFacts.v
Probability.v
Attestation.v
Engine.v
EngineFacts.v
Boundary.v
BoundaryFacts.v
BoundaryProtocol.v
Jobs.v
JobsFacts.v
JobsProgress.v
Containers.v
Stores.v
Resources.v
Preemption.v
Recovery.v
