(* ===== verification/Prelude.v ===== *)
(** * SOSE: header placeholder *)
From Stdlib Require Export Sorted ZArith Lia.
From Stdlib Require Import Ascii.
From stdpp Require Export base gmap strings sets fin_maps option.
From stdpp Require Export list.

(** ** Exceptions and results *)

(** The exception classes the modelled code raises, with their messages.
    [SystemExit], which no [except Exception] catches, stands for the end of the process. *)
Inductive exn : Type :=
  | KeyError (msg : string)
  | ValueError (msg : string)
  | RuntimeError (msg : string)
  | PermissionError (msg : string)
  | TypeError (msg : string)
  | AttributeError (msg : string)
  | IndexError (msg : string)
  | SystemExit (msg : string).

#[global] Instance exn_eq_dec : EqDecision exn.
Proof. solve_decision. Defined.

(** What a Python call returns: a value, or the exception that escapes it. *)
Inductive res (A : Type) : Type :=
  | Ok (a : A)
  | Err (e : exn).
Arguments Ok {A} a.
Arguments Err {A} e.

#[global] Instance res_ret : MRet res := λ A a, Ok a.
#[global] Instance res_bind : MBind res := λ A B f m,
  match m with Ok a => f a | Err e => Err e end.

Definition is_ok {A} (r : res A) : bool :=
  match r with Ok _ => true | Err _ => false end.

(** [if b: raise e]. *)
Definition fail_if (b : bool) (e : exn) : res unit := if b then Err e else Ok tt.

(** ** Programs: state passing with exceptions

    [prog W A] is a method over mutable objects [W]: it returns a value or an
    exception together with the objects as it leaves them.  An exception does
    not undo the mutations made before it, exactly as in Python; only
    [transaction] (Persistence) rolls back. *)
Definition prog (W A : Type) : Type := W → res A * W.

#[global] Instance prog_ret W : MRet (prog W) := λ A a w, (Ok a, w).
#[global] Instance prog_bind W : MBind (prog W) := λ A B f m w,
  match m w with
  | (Ok a, w') => f a w'
  | (Err e, w') => (Err e, w')
  end.

Definition raise {W A} (e : exn) : prog W A := λ w, (Err e, w).
Definition gets {W A} (f : W → A) : prog W A := λ w, (Ok (f w), w).
Definition modify {W} (f : W → W) : prog W unit := λ w, (Ok tt, f w).
Definition lift {W A} (r : res A) : prog W A := λ w, (r, w).

(** [if b: raise e] inside a method. *)
Definition raise_if {W} (b : bool) (e : exn) : prog W unit := lift (fail_if b e).

(** Run a method of a component on the part of the objects it owns. *)
Definition focus {W V A} (get : W → V) (put : V → W → W) (m : prog V A) : prog W A :=
  λ w, let '(r, v) := m (get w) in (r, put v w).

(** [for x in xs: body(x)]. *)
Fixpoint for_each {W A} (xs : list A) (body : A → prog W unit) : prog W unit :=
  match xs with
  | [] => mret tt
  | x :: xs => body x ;; for_each xs body
  end.

(** [n = 0; for x in xs: n += body(x)]. *)
Fixpoint sum_each {W A} (xs : list A) (body : A → prog W Z) : prog W Z :=
  match xs with
  | [] => mret 0%Z
  | x :: xs => n ← body x ; m ← sum_each xs body ; mret (n + m)%Z
  end.

(** [ys = []; for x in xs: ys.extend(body(x))]. *)
Fixpoint collect {W A B} (xs : list A) (body : A → prog W (list B)) : prog W (list B) :=
  match xs with
  | [] => mret []
  | x :: xs => ys ← body x ; zs ← collect xs body ; mret (ys ++ zs)%list
  end.

(** [try: r = m() except Exception as e: r = e]: the outcome as a value. *)
Definition attempt {W A} (m : prog W A) : prog W (res A) := λ w, let '(r, w') := m w in (Ok r, w').

(** [try: m() except Exception as e: handler(e)]. *)
Definition except {W A} (m : prog W A) (handler : exn → prog W A) : prog W A := λ w,
  match m w with
  | (Err (SystemExit _), _) | (Ok _, _) => m w
  | (Err e, w') => handler e w'
  end.

(** [f"{type(exc).__name__}: {exc}"]; the text of a [KeyError] is the [repr] of
    its argument, quoted here for arguments without quotes and escapes. *)
Definition exn_text (e : exn) : string :=
  (match e with
   | KeyError m => "KeyError: '" +:+ m +:+ "'"
   | ValueError m => "ValueError: " +:+ m
   | RuntimeError m => "RuntimeError: " +:+ m
   | PermissionError m => "PermissionError: " +:+ m
   | TypeError m => "TypeError: " +:+ m
   | AttributeError m => "AttributeError: " +:+ m
   | IndexError m => "IndexError: " +:+ m
   | SystemExit m => "SystemExit: " +:+ m
   end)%string.

(** ** Invariant-preserving programs *)

(** [keeps I m]: running [m] from a state where [I] holds leaves a state where
    [I] holds, whether [m] returns or raises. *)
Definition keeps {W A} (I : W → Prop) (m : prog W A) : Prop :=
  ∀ w, I w → I (m w).2.

(** [grows R m]: [m] only moves along the relation [R] (used with preorders,
    for facts that are never lost). *)
Definition grows {W A} (R : relation W) (m : prog W A) : Prop :=
  ∀ w, R w (m w).2.

Create HintDb keeps discriminated.
#[global] Hint Constants Opaque : keeps.

Section keeps.
Context {W : Type} (I : W → Prop).

Lemma keeps_ret {A} (a : A) : keeps I (mret a).
Proof. by intros w. Qed.

Lemma keeps_raise {A} e : keeps I (raise (A:=A) e).
Proof. by intros w. Qed.

Lemma keeps_lift {A} (r : res A) : keeps I (lift r).
Proof. by intros w. Qed.

Lemma keeps_raise_if b e : keeps I (raise_if b e).
Proof. by intros w. Qed.

Lemma keeps_gets {A} (f : W → A) : keeps I (gets f).
Proof. by intros w. Qed.

Lemma keeps_modify f : (∀ w, I w → I (f w)) → keeps I (modify f).
Proof. intros H w; apply H. Qed.

Lemma keeps_bind {A B} (m : prog W A) (f : A → prog W B) :
  keeps I m → (∀ a, keeps I (f a)) → keeps I (m ≫= f).
Proof.
  intros Hm Hf w Hw. specialize (Hm w Hw). unfold mbind, prog_bind.
  destruct (m w) as [[a|e] w']; cbn in *; [by apply Hf|done].
Qed.

Lemma keeps_bind_at {A B} (m : prog W A) (f : A → prog W B) w :
  I (m w).2 → (∀ a, keeps I (f a)) → I ((m ≫= f) w).2.
Proof.
  unfold mbind, prog_bind. destruct (m w) as [[a|e] w']; cbn; [|done]. intros H Hf. by apply Hf.
Qed.

Lemma keeps_if {A} (b : bool) (m1 m2 : prog W A) :
  keeps I m1 → keeps I m2 → keeps I (if b then m1 else m2).
Proof. by destruct b. Qed.

Lemma keeps_option {A B} (o : option A) (f : A → prog W B) (g : prog W B) :
  (∀ a, keeps I (f a)) → keeps I g →
  keeps I (match o with Some a => f a | None => g end).
Proof. by destruct o. Qed.

Lemma keeps_for_each {A} (xs : list A) (body : A → prog W unit) :
  (∀ x, keeps I (body x)) → keeps I (for_each xs body).
Proof.
  intros Hb. induction xs as [|x xs IH]; cbn; [apply keeps_ret|].
  by apply keeps_bind.
Qed.

Lemma keeps_sum_each {A} (xs : list A) (body : A → prog W Z) :
  (∀ x, keeps I (body x)) → keeps I (sum_each xs body).
Proof.
  intros Hb. induction xs as [|x xs IH]; cbn; [apply keeps_ret|].
  apply keeps_bind; [done|]. intros n. apply keeps_bind; [done|]. intros m. apply keeps_ret.
Qed.

Lemma keeps_collect {A B} (xs : list A) (body : A → prog W (list B)) :
  (∀ x, keeps I (body x)) → keeps I (collect xs body).
Proof.
  intros Hb. induction xs as [|x xs IH]; cbn; [apply keeps_ret|].
  apply keeps_bind; [done|]. intros ys. apply keeps_bind; [done|]. intros zs. apply keeps_ret.
Qed.
End keeps.

#[export] Hint Resolve keeps_ret keeps_raise keeps_lift keeps_raise_if keeps_gets
  keeps_bind keeps_if keeps_option keeps_for_each keeps_sum_each keeps_collect : keeps.

Section grows.
Context {W : Type} (R : relation W) `{!PreOrder R}.

Lemma grows_pure {A} (m : prog W A) : (∀ w, (m w).2 = w) → grows R m.
Proof. intros H w. by rewrite H. Qed.

Lemma grows_bind {A B} (m : prog W A) (f : A → prog W B) :
  grows R m → (∀ a, grows R (f a)) → grows R (m ≫= f).
Proof.
  intros Hm Hf w. specialize (Hm w). unfold mbind, prog_bind.
  destruct (m w) as [[a|e] w']; cbn in *; [|done].
  by etrans; [|apply Hf].
Qed.

Lemma grows_option {A B} (o : option A) (f : A → prog W B) (g : prog W B) :
  (∀ a, grows R (f a)) → grows R g →
  grows R (match o with Some a => f a | None => g end).
Proof. by destruct o. Qed.
End grows.

(** ** Tactics *)

(** Evaluate the monadic plumbing of a program applied to a state. *)
Ltac prog_unfold :=
  cbv [mbind prog_bind mret prog_ret gets modify lift raise raise_if fail_if
       res_bind res_ret] in *.

(** Split every [match]/[if] of the goal, closing the contradictory branches. *)
Ltac split_matches :=
  repeat (case_match; simplify_eq/=; try done).

(** Split every [match]/[if] of a hypothesis. *)
Ltac split_matches_in H :=
  repeat match type of H with
    | context [match ?x with _ => _ end] => destruct x eqn:?; simplify_eq/=; try done
    end.

(** ** Inverting a run

    [inv_prog] goes through the successful and the raising ways to get the
    result in the hypotheses, one bind at a time. *)
Section inversion.
Context {W : Type}.

Lemma bind_inv {A B} (m : prog W A) (f : A → prog W B) w r w' :
  (m ≫= f) w = (r, w') →
  (∃ a w1, m w = (Ok a, w1) ∧ f a w1 = (r, w')) ∨ (∃ e, m w = (Err e, w') ∧ r = Err e).
Proof.
  unfold mbind, prog_bind. destruct (m w) as [[a|e] w1].
  - intros H. left. by exists a, w1.
  - intros [= <- <-]. right. by exists e.
Qed.

Lemma ret_inv {A} (a : A) (w : W) r w' : (mret a : prog W A) w = (r, w') → r = Ok a ∧ w' = w.
Proof. by intros [= <- <-]. Qed.

Lemma raise_inv {A} e (w : W) (r : res A) w' : raise e w = (r, w') → r = Err e ∧ w' = w.
Proof. by intros [= <- <-]. Qed.

Lemma gets_inv {A} (f : W → A) w r w' : gets f w = (r, w') → r = Ok (f w) ∧ w' = w.
Proof. by intros [= <- <-]. Qed.

Lemma modify_inv (f : W → W) w r w' : modify f w = (r, w') → r = Ok tt ∧ w' = f w.
Proof. by intros [= <- <-]. Qed.

Lemma lift_inv {A} (x : res A) (w : W) r w' : lift x w = (r, w') → r = x ∧ w' = w.
Proof. by intros [= <- <-]. Qed.

Lemma raise_if_inv b e (w : W) r w' :
  raise_if b e w = (r, w') → r = (if b then Err e else Ok tt) ∧ w' = w.
Proof. by intros [= <- <-]. Qed.

Lemma attempt_inv {A} (m : prog W A) w r w' :
  attempt m w = (r, w') → ∃ a, r = Ok a ∧ m w = (a, w').
Proof. unfold attempt. destruct (m w) as [a v]. intros [= <- <-]. eauto. Qed.

Lemma res_bind_inv {A B} (m : res A) (f : A → res B) b :
  Ok b = (m ≫= f) → ∃ a, m = Ok a ∧ Ok b = f a.
Proof. destruct m as [a|e]; [by exists a|done]. Qed.

Lemma fail_if_false b e : b = false → fail_if b e = Ok tt.
Proof. by intros ->. Qed.

Lemma fail_if_inv b e u : fail_if b e = Ok u → b = false.
Proof. by destruct b. Qed.
End inversion.

Ltac inv_step :=
  match goal with
  | H : (_ ≫= _) _ = (_, _) |- _ =>
    apply bind_inv in H as [(? & ? & ? & H)|(? & H & ?)]; [cbv beta in H|]
  | H : mret _ _ = (_, _) |- _ => apply ret_inv in H as [??]
  | H : raise _ _ = (_, _) |- _ => apply raise_inv in H as [??]
  | H : gets _ _ = (_, _) |- _ => apply gets_inv in H as [??]
  | H : modify _ _ = (_, _) |- _ => apply modify_inv in H as [??]
  | H : lift _ _ = (_, _) |- _ => apply lift_inv in H as [??]
  | H : raise_if _ _ _ = (_, _) |- _ => apply raise_if_inv in H as [??]
  | H : (match ?x with _ => _ end) _ = (_, _) |- _ => destruct x eqn:?
  | H : Ok _ = (if ?b then Err _ else Ok _) |- _ => destruct b eqn:?
  | H : Ok _ = (_ ≫= _) |- _ => apply res_bind_inv in H as (? & ? & H)
  | H : fail_if _ _ = Ok _ |- _ => apply fail_if_inv in H
  | H : Ok _ = mret _ |- _ => injection H as H
  | H : Err _ = (if ?b then Err _ else Ok _) |- _ => destruct b eqn:?
  end; simplify_eq.
Ltac inv_prog := repeat inv_step.

(** ** Executing a run

    [run] rewrites a program applied to a state step by step, using the facts
    given as rewriting rules. *)
Section execution.
Context {W A B : Type}.
Implicit Types (w : W) (f : A → prog W B).

Lemma run_assoc {C} (m : prog W C) (g : C → prog W A) f w :
  ((m ≫= g) ≫= f) w = (m ≫= λ c, g c ≫= f) w.
Proof. unfold mbind, prog_bind. by destruct (m w) as [[]]. Qed.

Lemma run_bind (m : prog W A) f w a w1 : m w = (Ok a, w1) → (m ≫= f) w = f a w1.
Proof. unfold mbind, prog_bind. by intros ->. Qed.

Lemma run_bind_err (m : prog W A) f w e w1 : m w = (Err e, w1) → (m ≫= f) w = (Err e, w1).
Proof. unfold mbind, prog_bind. by intros ->. Qed.

Lemma run_bind_eq (m : prog W A) f w a w1 x : m w = (Ok a, w1) → f a w1 = x → (m ≫= f) w = x.
Proof. intros H <-. by apply run_bind. Qed.

Lemma run_bind_cong (m m' : prog W A) f f' w :
  m w = m' w → (∀ a w', m' w = (Ok a, w') → f a w' = f' a w') → (m ≫= f) w = (m' ≫= f') w.
Proof.
  unfold mbind, prog_bind. intros ->. destruct (m' w) as [[a|e] w'] eqn:E; [|done].
  intros H. by apply H.
Qed.

Lemma run_ret a f w : (mret a ≫= f) w = f a w.
Proof. done. Qed.

Lemma run_ret_r (m : prog W unit) w : (m ≫= λ _, mret tt) w = m w.
Proof. unfold mbind, prog_bind. by destruct (m w) as [[[]|]]. Qed.

Lemma run_gets (g : W → A) f w : (gets g ≫= f) w = f (g w) w.
Proof. done. Qed.

Lemma run_modify g (f : unit → prog W B) w : (modify g ≫= f) w = f tt (g w).
Proof. done. Qed.

Lemma run_lift a f w : (lift (Ok a) ≫= f) w = f a w.
Proof. done. Qed.

Lemma run_lift_ret a f w : (lift (mret a) ≫= f) w = f a w.
Proof. done. Qed.

Lemma run_res_ok (a : A) (f : A → res B) : (Ok a ≫= f) = f a.
Proof. done. Qed.

Lemma run_lift_err e f w : (lift (Err e) ≫= f) w = (Err e, w).
Proof. done. Qed.

Lemma run_raise e f w : (raise e ≫= f) w = (Err e, w).
Proof. done. Qed.

Lemma run_raise_if b e (f : unit → prog W B) w :
  (raise_if b e ≫= f) w = if b then (Err e, w) else f tt w.
Proof. by destruct b. Qed.

Lemma run_attempt (m : prog W A) (f : res A → prog W B) w r w' :
  m w = (r, w') → (attempt m ≫= f) w = f r w'.
Proof. intros E. unfold mbind, prog_bind, attempt. by rewrite E. Qed.
End execution.

(** A run by its result. *)
Lemma pair_fst {A C} (p : A * C) a : p.1 = a → p = (a, p.2).
Proof. destruct p. by intros <-. Qed.

#[export] Hint Rewrite @run_assoc @run_ret @run_gets @run_modify @run_lift @run_lift_ret @run_res_ok @run_lift_err
  @run_raise @run_raise_if : run.
Ltac run := repeat (progress (autorewrite with run; cbv beta iota)).

(** ** Record fields *)

(** [Eta R] lists the fields of a record once; every field update is derived
    from it by [Update]. *)
Class Eta (R : Type) := eta_expand : R → R.
Class Update {R E : Type} (g : R → E) := update_field : (E → E) → R → R.
#[global] Hint Mode Update - - ! : typeclass_instances.

Ltac derive_update g :=
  exact (λ change record, ltac:(
    let t := eval hnf in (eta_expand record) in
    match t with
    | context C [g record] => let t' := context C [change (g record)] in exact t'
    end)).
#[global] Hint Extern 1 (Update ?g) => derive_update g : typeclass_instances.

Declare Scope sose_scope.
Delimit Scope sose_scope with sose.
Notation "r <| g ::= f |>" := (update_field (g:=g) f r)
  (at level 12, g at next level, left associativity) : sose_scope.
Notation "r <| g := v |>" := (update_field (g:=g) (λ _, v) r)
  (at level 12, g at next level, left associativity) : sose_scope.
Open Scope sose_scope.
Open Scope string_scope.
Open Scope Z_scope.

(** ** Strings

    A Python [str] is the list of its UTF-8 bytes.  Byte-wise comparison of
    UTF-8 strings is code-point comparison, which is Python's. *)

(** [not s.strip()]: the string is made of white space (the characters for
    which [str.isspace] holds, in UTF-8). *)
Definition ascii_space (n : nat) : bool :=
  bool_decide (9 ≤ n ≤ 13)%nat || bool_decide (28 ≤ n ≤ 32)%nat.

Definition space2 (a b : nat) : bool :=
  bool_decide (a = 194)%nat && (bool_decide (b = 133)%nat || bool_decide (b = 160)%nat).

Definition space3 (a b c : nat) : bool :=
  (bool_decide (a = 225 ∧ b = 154 ∧ c = 128)%nat)
  || (bool_decide (a = 226 ∧ b = 128)%nat
      && (bool_decide (128 ≤ c ≤ 138)%nat || bool_decide (168 ≤ c ≤ 169)%nat
          || bool_decide (c = 175)%nat))
  || (bool_decide (a = 226 ∧ b = 129 ∧ c = 159)%nat)
  || (bool_decide (a = 227 ∧ b = 128 ∧ c = 128)%nat).

Fixpoint blank (s : string) : bool :=
  match s with
  | EmptyString => true
  | String a r =>
    if ascii_space (nat_of_ascii a) then blank r else
    match r with
    | EmptyString => false
    | String b r1 =>
      if space2 (nat_of_ascii a) (nat_of_ascii b) then blank r1 else
      match r1 with
      | EmptyString => false
      | String c r2 =>
        if space3 (nat_of_ascii a) (nat_of_ascii b) (nat_of_ascii c) then blank r2 else false
      end
    end
  end.

(** Concatenation. *)
Lemma string_app_inv (s s' t t' : string) :
  String.length s = String.length s' → s +:+ t = s' +:+ t' → s = s' ∧ t = t'.
Proof.
  revert s'. induction s as [|a s IH]; intros [|b s'] Hl E; try discriminate; [done|].
  injection E as -> E. injection Hl as Hl. destruct (IH _ Hl E) as [-> ->]. done.
Qed.

Lemma string_length_app (s t : string) : String.length (s +:+ t) = (String.length s + String.length t)%nat.
Proof. induction s as [|a s IH]; [done|]. exact (f_equal S IH). Qed.

Lemma string_app_assoc (r s t : string) : (r +:+ s) +:+ t = r +:+ (s +:+ t).
Proof. induction r as [|a r IH]; [done|]. exact (f_equal (String a) IH). Qed.

Lemma string_app_empty (s : string) : s +:+ EmptyString = s.
Proof. induction s as [|c s IH]; [done|]. exact (f_equal (String c) IH). Qed.

Lemma string_app_cancel (s s' t : string) : s +:+ t = s' +:+ t → s = s'.
Proof.
  intros E. apply (string_app_inv s s' t t); [|done].
  apply (f_equal String.length) in E. rewrite !string_length_app in E. lia.
Qed.

(** [not s]: the string is empty. *)
Definition is_empty (s : string) : bool := bool_decide (s = "").

(** ** Python orders *)

(** The comparison used by [sorted]: integers, strings, and tuples compared
    lexicographically. *)
Class PyOrd (A : Type) := py_compare : A → A → comparison.

Class PyOrdLaws (A : Type) `{PyOrd A} : Prop := {
  py_compare_eq (x y : A) : py_compare x y = Eq → x = y;
  py_compare_refl (x : A) : py_compare x x = Eq;
  py_compare_sym (x y : A) : py_compare y x = CompOpp (py_compare x y);
  py_compare_lt_trans (x y z : A) :
    py_compare x y = Lt → py_compare y z = Lt → py_compare x z = Lt }.

#[global] Hint Mode PyOrd ! : typeclass_instances.
#[global] Hint Mode PyOrdLaws ! - : typeclass_instances.

#[global] Instance Z_pyord : PyOrd Z := Z.compare.
#[global] Instance string_pyord : PyOrd string := String.compare.
#[global] Instance bool_pyord : PyOrd bool := λ x y,
  match x, y with false, true => Lt | true, false => Gt | _, _ => Eq end.
#[global] Instance prod_pyord {A B} `{PyOrd A, PyOrd B} : PyOrd (A * B) := λ x y,
  match py_compare x.1 y.1 with Eq => py_compare x.2 y.2 | c => c end.

#[global] Instance Z_pyord_laws : PyOrdLaws Z.
Proof.
  split; unfold py_compare, Z_pyord.
  - intros x y; apply Z.compare_eq.
  - apply Z.compare_refl.
  - intros x y; apply Z.compare_antisym.
  - intros x y z; rewrite !Z.compare_lt_iff; lia.
Qed.

Lemma string_compare_refl s : String.compare s s = Eq.
Proof.
  induction s as [|a s IH]; cbn; [done|].
  unfold Ascii.compare. by rewrite N.compare_refl.
Qed.

Lemma string_compare_lt_trans (x y z : string) :
  String.compare x y = Lt → String.compare y z = Lt → String.compare x z = Lt.
Proof.
  revert y z. induction x as [|a x IH]; intros [|b y] [|c z]; cbn; try done.
  unfold Ascii.compare.
  destruct (N.compare_spec (N_of_ascii a) (N_of_ascii b)) as [E1|E1|E1];
    destruct (N.compare_spec (N_of_ascii b) (N_of_ascii c)) as [E2|E2|E2]; try done.
  all: destruct (N.compare_spec (N_of_ascii a) (N_of_ascii c)) as [E3|E3|E3]; try done; try lia.
  all: by apply IH.
Qed.

#[global] Instance string_pyord_laws : PyOrdLaws string.
Proof.
  split; unfold py_compare, string_pyord.
  - intros x y. apply String.compare_eq_iff.
  - apply string_compare_refl.
  - intros x y; apply String.compare_antisym.
  - apply string_compare_lt_trans.
Qed.

#[global] Instance bool_pyord_laws : PyOrdLaws bool.
Proof.
  split; unfold py_compare, bool_pyord;
    repeat match goal with |- ∀ _ : bool, _ => intros [] end; cbn; try done.
Qed.

#[global] Instance prod_pyord_laws {A B} `{PyOrdLaws A, PyOrdLaws B} : PyOrdLaws (A * B).
Proof.
  split; unfold py_compare, prod_pyord.
  - intros [a b] [a' b']; cbn.
    destruct (py_compare a a') eqn:E; try done.
    intros E'%py_compare_eq. apply py_compare_eq in E. congruence.
  - intros [a b]; cbn. by rewrite !py_compare_refl.
  - intros [a b] [a' b']; cbn. rewrite (py_compare_sym a a').
    destruct (py_compare a a'); cbn; [apply py_compare_sym|done..].
  - intros [a1 b1] [a2 b2] [a3 b3]; cbn.
    destruct (py_compare a1 a2) eqn:E1; [|intros _|done].
    + apply py_compare_eq in E1 as ->.
      destruct (py_compare a2 a3); [apply py_compare_lt_trans|done..].
    + destruct (py_compare a2 a3) eqn:E2; [apply py_compare_eq in E2 as ->; by rewrite E1| |done].
      by rewrite (py_compare_lt_trans _ _ _ E1 E2).
Qed.

Definition py_leb {A} `{PyOrd A} (x y : A) : bool :=
  match py_compare x y with Gt => false | _ => true end.

Section py_leb.
Context {A : Type} `{PyOrdLaws A}.

Lemma py_leb_total (x y : A) : py_leb x y = false → py_leb y x = true.
Proof. unfold py_leb. rewrite (py_compare_sym x y). by destruct (py_compare x y). Qed.

Lemma py_leb_antisym (x y : A) : py_leb x y = true → py_leb y x = true → x = y.
Proof.
  unfold py_leb. rewrite (py_compare_sym x y).
  destruct (py_compare x y) eqn:E; try done. intros; by apply py_compare_eq.
Qed.

Lemma py_leb_refl (x : A) : py_leb x x = true.
Proof. unfold py_leb. by rewrite py_compare_refl. Qed.

Lemma py_leb_trans (x y z : A) : py_leb x y = true → py_leb y z = true → py_leb x z = true.
Proof.
  unfold py_leb.
  destruct (py_compare x y) eqn:E1; try done.
  - by apply py_compare_eq in E1 as ->.
  - destruct (py_compare y z) eqn:E2; try done.
    + apply py_compare_eq in E2 as ->. by rewrite E1.
    + by rewrite (py_compare_lt_trans _ _ _ E1 E2).
Qed.
End py_leb.

(** ** [sorted(xs, key=...)]: stable insertion sort on a key *)

Section sorting.
Context {A K : Type} `{PyOrdLaws K} (key : A → K).

Fixpoint insert_on (x : A) (l : list A) : list A :=
  match l with
  | [] => [x]
  | y :: l' => if py_leb (key x) (key y) then x :: l else y :: insert_on x l'
  end.

Definition sort_on (l : list A) : list A := foldr insert_on [] l.

Definition key_le (x y : A) : Prop := py_leb (key x) (key y) = true.

Lemma insert_on_perm x l : insert_on x l ≡ₚ x :: l.
Proof.
  induction l as [|y l IH]; cbn; [done|].
  case_match; [done|]. rewrite IH. by constructor.
Qed.

Lemma sort_on_perm l : sort_on l ≡ₚ l.
Proof. induction l as [|x l IH]; cbn; [done|]. by rewrite insert_on_perm, IH. Qed.

Lemma elem_of_sort_on x l : x ∈ sort_on l ↔ x ∈ l.
Proof. by rewrite sort_on_perm. Qed.

Lemma insert_on_sorted x l :
  StronglySorted key_le l → StronglySorted key_le (insert_on x l).
Proof.
  induction 1 as [|y l Hl IH Hy]; cbn; [repeat constructor|].
  destruct (py_leb (key x) (key y)) eqn:E.
  - repeat constructor; auto.
    eapply Forall_impl; [exact Hy|]. intros z Hz. by eapply py_leb_trans.
  - constructor; [done|]. apply py_leb_total in E.
    rewrite insert_on_perm. by constructor.
Qed.

Lemma sort_on_sorted l : StronglySorted key_le (sort_on l).
Proof. induction l; cbn; [constructor|by apply insert_on_sorted]. Qed.

(** Two sorted permutations of one list with distinct keys are equal. *)
Lemma sorted_perm_unique l1 l2 :
  NoDup (key <$> l1) → l1 ≡ₚ l2 →
  StronglySorted key_le l1 → StronglySorted key_le l2 → l1 = l2.
Proof.
  intros Hnd Hp H1. revert l2 Hp Hnd.
  induction H1 as [|x l1 H1 IH Hx]; intros l2 Hp Hnd H2.
  { by apply Permutation_nil_l in Hp as ->. }
  destruct H2 as [|y l2 H2 Hy]; [by apply Permutation_nil_r in Hp|].
  assert (x = y) as <-.
  { assert (x ∈ y :: l2) as Hin by (rewrite <-Hp; by constructor).
    assert (y ∈ x :: l1) as Hin' by (rewrite Hp; by constructor).
    apply elem_of_cons in Hin as [->|Hin]; [done|].
    apply elem_of_cons in Hin' as [->|Hin']; [done|].
    rewrite Forall_forall in Hx, Hy.
    assert (key x = key y) as E.
    { apply py_leb_antisym; [exact (Hx _ Hin')|exact (Hy _ Hin)]. }
    cbn in Hnd. apply NoDup_cons in Hnd as [Hnd _]. destruct Hnd. rewrite E.
    by apply list_elem_of_fmap_2. }
  f_equal. apply IH; [by eapply Permutation_cons_inv| |done].
  cbn in Hnd. by apply NoDup_cons in Hnd as [_ ?].
Qed.

Lemma sort_on_unique l1 l2 :
  NoDup (key <$> l1) → l1 ≡ₚ l2 → sort_on l1 = sort_on l2.
Proof.
  intros Hnd Hp. apply sorted_perm_unique; [|by rewrite !sort_on_perm|apply sort_on_sorted..].
  by rewrite (fmap_Permutation key _ _ (sort_on_perm l1)).
Qed.

(** A sorted list is its own sort. *)
Lemma sort_on_idemp l : StronglySorted key_le l → sort_on l = l.
Proof.
  unfold sort_on. induction 1 as [|x l Hl IH Hx]; cbn; [done|]. rewrite IH.
  destruct Hx as [|y l Hxy _]; cbn; [done|]. unfold key_le in Hxy. by rewrite Hxy.
Qed.

(** The first element is a minimum. *)
Lemma sort_on_head x l l' y : sort_on l = x :: l' → y ∈ l → py_leb (key x) (key y) = true.
Proof.
  intros E Hy. pose proof (sort_on_sorted l) as Hs. rewrite E in Hs.
  apply elem_of_sort_on in Hy. rewrite E in Hy.
  inversion Hs as [|? ? ? Hall]; subst.
  apply elem_of_cons in Hy as [->|Hy]; [apply py_leb_refl|].
  rewrite Forall_forall in Hall. exact (Hall _ Hy).
Qed.
End sorting.

(** ** Reading dictionaries *)

(** [tuple(d[k] for k in sorted(d))]. *)
Definition sorted_values {K A} `{Countable K, PyOrd K} (m : gmap K A) : list A :=
  (sort_on fst (map_to_list m)).*2.

(** [tuple(sorted(d.values(), key=key))]. *)
Definition values_on {I A K} `{Countable I, PyOrd K} (key : A → K) (m : gmap I A) : list A :=
  sort_on key (map_to_list m).*2.

(** [next((x for x in xs if p(x)), None)]. *)
Definition find_first {A} (p : A → bool) (l : list A) : option A := List.find p l.

Section readers.
Context {A : Type}.

Lemma elem_of_sorted_values {K} `{Countable K, !PyOrd K, !PyOrdLaws K} (m : gmap K A) x :
  x ∈ sorted_values m ↔ ∃ k, m !! k = Some x.
Proof.
  unfold sorted_values. rewrite list_elem_of_fmap. split.
  - intros ([k y] & -> & Hin). exists k. by apply elem_of_sort_on, elem_of_map_to_list in Hin.
  - intros [k Hk]. exists (k, x). split; [done|]. by apply elem_of_sort_on, elem_of_map_to_list.
Qed.

Lemma length_sorted_values {K} `{Countable K, !PyOrd K, !PyOrdLaws K} (m : gmap K A) : length (sorted_values m) = size m.
Proof. unfold sorted_values. by rewrite length_fmap, sort_on_perm, length_map_to_list. Qed.

Lemma length_values_on {I K} `{Countable I, PyOrdLaws K} (key : A → K) (m : gmap I A) : length (values_on key m) = size m.
Proof. unfold values_on. by rewrite sort_on_perm, length_fmap, length_map_to_list. Qed.

Lemma elem_of_values_on {I K} `{Countable I, PyOrdLaws K} (key : A → K) (m : gmap I A) x :
  x ∈ values_on key m ↔ ∃ k, m !! k = Some x.
Proof.
  unfold values_on. rewrite elem_of_sort_on, list_elem_of_fmap. split.
  - intros ([k y] & -> & Hin). exists k. by apply elem_of_map_to_list in Hin.
  - intros [k Hk]. exists (k, x). split; [done|]. by apply elem_of_map_to_list.
Qed.

Lemma find_first_Some (p : A → bool) l x :
  find_first p l = Some x → x ∈ l ∧ p x = true.
Proof. intros [? ?]%List.find_some. by rewrite list_elem_of_In. Qed.

Lemma find_first_None (p : A → bool) l :
  find_first p l = None ↔ ∀ x, x ∈ l → p x = false.
Proof.
  split.
  - intros H x Hx. eapply List.find_none; [done|]. by apply list_elem_of_In.
  - induction l as [|y l IH]; cbn; [done|]. intros H.
    rewrite H by constructor. apply IH. intros x Hx. apply H. by constructor.
Qed.

(** A search by a field that identifies the element finds it. *)
Lemma find_first_unique (p : A → bool) l x :
  x ∈ l → p x = true → (∀ y, y ∈ l → p y = true → y = x) →
  find_first p l = Some x.
Proof.
  intros Hin Hp Huniq. destruct (find_first p l) as [y|] eqn:E.
  - apply find_first_Some in E as [Hy Hpy]. by rewrite (Huniq y Hy Hpy).
  - rewrite find_first_None in E. specialize (E x Hin). congruence.
Qed.
End readers.

(** The records of a keyed dictionary have distinct identities. *)
Lemma NoDup_map_values {A} (id : A → string) (m : gmap string A) :
  map_Forall (λ k x, id x = k) m → NoDup (id <$> (map_to_list m).*2).
Proof.
  intros Hk. rewrite <-list_fmap_compose.
  rewrite (list_fmap_ext _ fst).
  - apply NoDup_fst_map_to_list.
  - intros i [k x] Hi. cbn. apply Hk. apply elem_of_map_to_list. by eapply list_elem_of_lookup_2.
Qed.

Lemma NoDup_sorted_values {A} (id : A → string) (m : gmap string A) :
  map_Forall (λ k x, id x = k) m → NoDup (id <$> sorted_values m).
Proof. intros Hk. unfold sorted_values. rewrite sort_on_perm. by apply NoDup_map_values. Qed.

Lemma NoDup_values_on {A K} `{PyOrdLaws K} (key : A → K) (id : A → string) (m : gmap string A) :
  map_Forall (λ k x, id x = k) m → NoDup (id <$> values_on key m).
Proof. intros Hk. unfold values_on. rewrite sort_on_perm. by apply NoDup_map_values. Qed.

(** Inserting before a list of larger elements. *)
Lemma insert_on_least {A K} `{PyOrd K} (key : A → K) x l :
  Forall (key_le key x) l → insert_on key x l = x :: l.
Proof. destruct 1 as [|y l Hy _]; [done|]. cbn. unfold key_le in Hy. by rewrite Hy. Qed.

(** Insertion commutes with a projection that drops elements and keeps keys. *)
Lemma insert_on_bind {A C K} `{PyOrdLaws K} (key : A → K) (key' : C → K) (g : A → list C) x i l :
  (∀ y, g y = [] ∨ ∃ j, g y = [j] ∧ key' j = key y) → g x = [i] →
  StronglySorted (key_le key) l →
  insert_on key x l ≫= g = insert_on key' i (l ≫= g).
Proof.
  intros Hg Hx. assert (key' i = key x) as Hi.
  { destruct (Hg x) as [E|(j & E & Hj)]; rewrite Hx in E; by simplify_eq. }
  assert (∀ y (l : list A), Forall (key_le key y) l → Forall (λ z, py_leb (key y) (key' z) = true) (l ≫= g)) as Hle.
  { intros y l'. induction 1 as [|z l' Hz _ IH]; cbn; [constructor|].
    apply Forall_app. split; [|done]. destruct (Hg z) as [->|(j & -> & Hj)]; [constructor|].
    repeat constructor. by rewrite Hj. }
  induction 1 as [|y l Hl IH Hy]; cbn; [by rewrite Hx|].
  destruct (py_leb (key x) (key y)) eqn:E; cbn.
  - rewrite Hx. cbn. symmetry. apply insert_on_least.
    assert (Forall (key_le key x) (y :: l)) as Hall.
    { constructor; [done|]. eapply Forall_impl; [exact Hy|]. intros z. by apply py_leb_trans. }
    apply Hle in Hall. eapply Forall_impl; [exact Hall|]. intros z. unfold key_le. by rewrite Hi.
  - rewrite IH. destruct (Hg y) as [->|(j & -> & Hj)]; [done|]. cbn. by rewrite Hi, Hj, E.
Qed.

Section values_on_changes.
Context {A K : Type} `{PyOrdLaws K} (key : A → K) (id : A → string).
Hypothesis key_id : ∀ x y, key x = key y → id x = id y.
Implicit Types m : gmap string A.

Lemma NoDup_keys m : map_Forall (λ k x, id x = k) m → NoDup (key <$> (map_to_list m).*2).
Proof.
  intros Hm. pose proof (NoDup_map_values id m Hm) as Hnd. apply NoDup_fmap_2_strong; [|by eapply NoDup_fmap_1].
  intros x y Hx Hy E. apply key_id in E. apply list_elem_of_fmap in Hx as ([k x'] & -> & Hx).
  apply list_elem_of_fmap in Hy as ([j y'] & -> & Hy). cbn in *.
  apply elem_of_map_to_list in Hx, Hy. rewrite (Hm _ _ Hx), (Hm _ _ Hy) in E. congruence.
Qed.

Lemma values_on_insert m x :
  map_Forall (λ k x, id x = k) m → m !! id x = None →
  values_on key (<[id x := x]> m) = insert_on key x (values_on key m).
Proof.
  intros Hm Hn. unfold values_on. change (insert_on key x (sort_on key (map_to_list m).*2))
    with (sort_on key (x :: (map_to_list m).*2)).
  apply sort_on_unique.
  - apply NoDup_keys. by apply map_Forall_insert_2.
  - by rewrite (map_to_list_insert m (id x) x Hn).
Qed.

Lemma filter_sorted (P : A → Prop) `{∀ x, Decision (P x)} l :
  StronglySorted (key_le key) l → StronglySorted (key_le key) (filter P l).
Proof.
  induction 1 as [|x l Hl IH Hx]; [constructor|]. rewrite filter_cons. case_decide; [|done].
  constructor; [done|]. apply Forall_forall. intros y [_ Hy]%list_elem_of_filter.
  by eapply Forall_forall in Hx.
Qed.

Lemma values_on_delete m k :
  map_Forall (λ k x, id x = k) m →
  values_on key (delete k m) = filter (λ x, id x ≠ k) (values_on key m).
Proof.
  intros Hm. apply (sorted_perm_unique key).
  - unfold values_on. rewrite (fmap_Permutation key _ _ (sort_on_perm key _)).
    by apply NoDup_keys, map_Forall_delete.
  - unfold values_on. rewrite !sort_on_perm. apply NoDup_Permutation.
    + eapply NoDup_fmap_1, NoDup_keys. by apply map_Forall_delete.
    + apply NoDup_filter. by eapply NoDup_fmap_1, NoDup_keys.
    + intros x. rewrite list_elem_of_filter, !list_elem_of_fmap. split.
      * intros ([j y] & -> & Hj%elem_of_map_to_list). apply lookup_delete_Some in Hj as [Hne Hj]. cbn.
        split; [by rewrite (Hm _ _ Hj)|]. exists (j, y). split; [done|]. by apply elem_of_map_to_list.
      * intros (Hne & [j y] & -> & Hj%elem_of_map_to_list). cbn in Hne. exists (j, y). split; [done|].
        apply elem_of_map_to_list, lookup_delete_Some. split; [|done]. rewrite (Hm _ _ Hj) in Hne. done.
  - apply sort_on_sorted.
  - apply filter_sorted, sort_on_sorted.
Qed.
End values_on_changes.

(** [find_id id ids l]: the search of a record by its identity in the sorted
    values of a dictionary keyed by it is the dictionary lookup. *)
Lemma find_first_key {A} (id : A → string) (m : gmap string A) (l : list A) k :
  (∀ x, x ∈ l ↔ ∃ k, m !! k = Some x) →
  (∀ k x, m !! k = Some x → id x = k) →
  find_first (λ x, bool_decide (id x = k)) l = m !! k.
Proof.
  intros Hl Hid. destruct (m !! k) as [x|] eqn:E.
  - apply find_first_unique.
    + apply Hl. by exists k.
    + apply bool_decide_eq_true. by apply Hid.
    + intros y [k' Hk']%Hl Hy%bool_decide_eq_true. apply Hid in Hk' as Hk''. congruence.
  - apply find_first_None. intros x [k' Hk']%Hl. apply bool_decide_eq_false.
    intros Hx. apply Hid in Hk' as Hk''. congruence.
Qed.

Lemma filter_none {A} (P : A → Prop) `{∀ x, Decision (P x)} (l : list A) :
  (∀ x, x ∈ l → ¬ P x) → filter P l = [].
Proof.
  induction l as [|x l IH]; intros Hl; [done|].
  rewrite filter_cons, decide_False by (apply Hl; by constructor).
  apply IH. intros y Hy. apply Hl. by constructor.
Qed.

Lemma filter_all {A} (P : A → Prop) `{∀ x, Decision (P x)} (l : list A) :
  (∀ x, x ∈ l → P x) → filter P l = l.
Proof.
  induction l as [|x l IH]; intros Hl; [done|].
  rewrite filter_cons, decide_True by (apply Hl; by constructor).
  f_equal. apply IH. intros y Hy. apply Hl. by constructor.
Qed.

Lemma filter_iff_in {A} (P Q : A → Prop) `{∀ x, Decision (P x), ∀ x, Decision (Q x)} (l : list A) :
  (∀ x, x ∈ l → P x ↔ Q x) → filter P l = filter Q l.
Proof.
  intros Hl. induction l as [|x l IH]; [done|]. rewrite !filter_cons, IH by (intros y Hy; apply Hl; by constructor).
  assert (P x ↔ Q x) as Hx by (apply Hl; constructor). repeat case_decide; naive_solver.
Qed.

(** In a sorted list, the elements of a downward closed property come first. *)
Lemma filter_prefix {A} (R : A → A → Prop) (P : A → Prop) `{∀ x, Decision (P x)} (l : list A) :
  StronglySorted R l → (∀ x y, R x y → P y → P x) →
  l = (filter P l ++ filter (λ x, ¬ P x) l)%list.
Proof.
  intros Hl HP. induction Hl as [|x l Hl IH Hx]; [done|]. rewrite !filter_cons. destruct (decide (P x)) as [Px|Px].
  - rewrite decide_False by naive_solver. cbn. by rewrite <-IH.
  - rewrite decide_True by done. rewrite filter_none; [cbn; f_equal|].
    + symmetry. apply filter_all. intros y Hy Py. apply Px. by apply (HP x y), Py; eapply Forall_forall in Hx.
    + intros y Hy Py. apply Px. apply (HP x y); [|done]. by eapply Forall_forall in Hx.
Qed.

Section for_each.
Context {W A : Type}.

(** A loop whose body passes on every element passes. *)
Lemma for_each_pass (l : list A) (f : A → prog W unit) w :
  (∀ x, x ∈ l → f x w = (Ok tt, w)) → for_each l f w = (Ok tt, w).
Proof.
  induction l as [|x l IH]; intros H; [done|]. cbn.
  rewrite (run_bind _ _ w tt w); [|apply H; by constructor].
  apply IH. intros y Hy. apply H. by constructor.
Qed.

(** A collecting loop that only reads. *)
Lemma collect_pass {B} (l : list A) (f : A → prog W (list B)) (g : A → list B) w :
  (∀ x, x ∈ l → f x w = (Ok (g x), w)) → collect l f w = (Ok (l ≫= g), w).
Proof.
  induction l as [|x l IH]; intros H; [done|]. cbn.
  rewrite (run_bind _ _ w (g x) w) by (apply H; by constructor).
  rewrite (run_bind _ _ w (l ≫= g) w); [done|].
  apply IH. intros y Hy. apply H. by constructor.
Qed.

(** A collecting loop can be replayed: if each turn, once done, gives the same
    elements and changes nothing in every state reached later, so does the loop. *)
Lemma collect_replay {B} (R : relation W) `{!PreOrder R} (l : list A) (f : A → prog W (list B)) w ys w' :
  (∀ x w ys w', x ∈ l → f x w = (Ok ys, w') → R w w' ∧ ∀ v, R w' v → f x v = (Ok ys, v)) →
  collect l f w = (Ok ys, w') → R w w' ∧ ∀ v, R w' v → collect l f v = (Ok ys, v).
Proof.
  revert w ys. induction l as [|x l IH]; intros w ys Hf; cbn.
  - by intros [= <- <-].
  - intros Hrun. apply bind_inv in Hrun as [(y1 & w1 & H1 & Hrun)|(? & _ & ?)]; [|done].
    apply bind_inv in Hrun as [(y2 & w2 & H2 & Hrun)|(? & _ & ?)]; [|done].
    injection Hrun as <- <-.
    destruct (Hf x w y1 w1) as [Hx Hr]; [by constructor|done|].
    destruct (IH w1 y2) as [Hl Hrl]; [intros; eapply Hf; [by constructor|done]|done|].
    split; [by trans w1|]. intros v Hv. unfold mbind, prog_bind. rewrite Hr by by trans w2.
    by rewrite Hrl.
Qed.

(** A loop that checks, one of whose checks fails. *)
Lemma for_each_fails (Q : exn → Prop) (l : list A) (f : A → prog W unit) w x e :
  (∀ x, x ∈ l → f x w = (Ok tt, w) ∨ ∃ e, Q e ∧ f x w = (Err e, w)) →
  x ∈ l → f x w = (Err e, w) → ∃ e, Q e ∧ for_each l f w = (Err e, w).
Proof.
  induction l as [|y l IH]; intros Hl Hx Hf; [by apply not_elem_of_nil in Hx|]. cbn.
  destruct (Hl y) as [Hy|(e' & He & Hy)]; [by constructor| |].
  - rewrite (run_bind _ _ w tt w Hy). apply IH; [|..|done].
    + intros z Hz. apply Hl. by constructor.
    + apply elem_of_cons in Hx as [->|]; [congruence|done].
  - exists e'. split; [done|]. unfold mbind, prog_bind. by rewrite Hy.
Qed.

(** A loop that checks without changing anything, and passes. *)
Lemma for_each_pass_inv (l : list A) (f : A → prog W unit) w w' :
  (∀ x, keeps (λ v, v = w) (f x)) → for_each l f w = (Ok tt, w') →
  w' = w ∧ ∀ x, x ∈ l → f x w = (Ok tt, w).
Proof.
  intros Hf. induction l as [|x l IH]; cbn.
  - intros [= <-]. split; [done|]. intros x Hx. by apply not_elem_of_nil in Hx.
  - intros [([] & w1 & H1 & H2)|(e & _ & ?)]%bind_inv; [|done].
    pose proof (Hf x w eq_refl) as Hx. rewrite H1 in Hx. cbn in Hx. subst w1.
    destruct (IH H2) as [-> Hl]. split; [done|].
    intros y [->|Hy]%elem_of_cons; [done|by apply Hl].
Qed.

(** Two loops whose bodies agree where an invariant of the second holds. *)
Lemma sum_each_ext_at (I : W → Prop) (l : list A) (f g : A → prog W Z) w :
  I w → (∀ x, keeps I (g x)) → (∀ x w, x ∈ l → I w → f x w = g x w) →
  sum_each l f w = sum_each l g w.
Proof.
  intros Hw Hk. revert w Hw. induction l as [|x l IH]; intros w Hw H; [done|]. cbn.
  apply run_bind_cong; [apply H; [by constructor|done]|]. intros n w' E.
  apply run_bind_cong; [|done].
  apply IH; [pose proof (Hk x w Hw) as Hw'; by rewrite E in Hw'|].
  intros y w1 Hy. apply H. by constructor.
Qed.

Lemma sum_each_ext (l : list A) (f g : A → prog W Z) w :
  (∀ x w, x ∈ l → f x w = g x w) → sum_each l f w = sum_each l g w.
Proof. intros H. apply (sum_each_ext_at (λ _, True)); try done. by auto. Qed.

Lemma sum_each_fmap {C} (h : C → A) (l : list C) (f : A → prog W Z) w :
  sum_each (h <$> l) f w = sum_each l (λ c, f (h c)) w.
Proof.
  revert w. induction l as [|x l IH]; intros w; [done|]. cbn.
  apply run_bind_cong; [done|]. intros n w' _. apply run_bind_cong; [apply IH|done].
Qed.

Lemma for_each_ext (l : list A) (f g : A → prog W unit) w :
  (∀ x w, x ∈ l → f x w = g x w) → for_each l f w = for_each l g w.
Proof.
  revert w. induction l as [|x l IH]; intros w H; [done|]. cbn. unfold mbind, prog_bind.
  rewrite (H x w) by constructor. destruct (g x w) as [[]]; [|done].
  apply IH. intros y w' Hy. apply H. by constructor.
Qed.

Lemma for_each_fmap {C} (h : C → A) (l : list C) (f : A → prog W unit) w :
  for_each (h <$> l) f w = for_each l (λ c, f (h c)) w.
Proof.
  revert w. induction l as [|x l IH]; intros w; [done|]. cbn. unfold mbind, prog_bind.
  destruct (f (h x) w) as [[]]; [|done]. apply IH.
Qed.
End for_each.

(** ** Dictionaries iterated in insertion order *)

Section dict.
Context {A : Type}.
Implicit Types (d : list (string * A)).

(** [d.get(k)]. *)
Fixpoint dict_get (k : string) d : option A :=
  match d with
  | [] => None
  | (i, x) :: d => if bool_decide (i = k) then Some x else dict_get k d
  end.

(** [d[k] = x]: an existing key keeps its position. *)
Fixpoint dict_set (k : string) (x : A) d : list (string * A) :=
  match d with
  | [] => [(k, x)]
  | (i, y) :: d => if bool_decide (i = k) then (i, x) :: d else (i, y) :: dict_set k x d
  end.

(** [d.pop(k, None)]. *)
Fixpoint dict_pop (k : string) d : list (string * A) :=
  match d with
  | [] => []
  | (i, y) :: d => if bool_decide (i = k) then d else (i, y) :: dict_pop k d
  end.

(** [{key(x): x for x in l}]. *)
Definition dict_of (key : A → string) (l : list A) : list (string * A) :=
  foldl (λ d x, dict_set (key x) x d) [] l.

Lemma dict_get_set k x d j :
  dict_get j (dict_set k x d) = if bool_decide (k = j) then Some x else dict_get j d.
Proof.
  induction d as [|[i y] d IH]; cbn; [done|].
  repeat case_bool_decide; subst; cbn; repeat case_bool_decide; try done.
Qed.

Lemma dict_pop_set k x d : dict_get k d = None → dict_pop k (dict_set k x d) = d.
Proof.
  induction d as [|[i y] d IH]; cbn; [by rewrite bool_decide_eq_true_2|].
  case_bool_decide as Hi; [done|]. cbn. intros Hd. by rewrite bool_decide_eq_false_2, IH.
Qed.

Lemma dict_set_fresh k x d : k ∉ d.*1 → dict_set k x d = (d ++ [(k, x)])%list.
Proof.
  induction d as [|[i y] d IH]; cbn; [done|]. rewrite not_elem_of_cons. intros [? ?].
  rewrite bool_decide_eq_false_2 by done. by rewrite IH.
Qed.

(** A comprehension over values with distinct keys keeps them all, in order. *)
Lemma dict_of_distinct (key : A → string) l :
  NoDup (key <$> l) → dict_of key l = (λ x, (key x, x)) <$> l.
Proof.
  unfold dict_of. intros Hnd.
  enough (∀ d, NoDup (d.*1 ++ (key <$> l))%list →
            foldl (λ d x, dict_set (key x) x d) d l = (d ++ ((λ x, (key x, x)) <$> l))%list) as H.
  { by apply (H []). }
  clear Hnd. induction l as [|x l IH]; intros d Hd; cbn; [by rewrite app_nil_r|].
  cbn in Hd. assert (key x ∉ d.*1) as Hx.
  { intros Hin. apply NoDup_app in Hd as (_ & Hd & _). by apply (Hd _ Hin); constructor. }
  rewrite dict_set_fresh by done. rewrite IH.
  - by rewrite <-app_assoc.
  - rewrite fmap_app. cbn. by rewrite <-app_assoc.
Qed.

Lemma dict_get_distinct (key : A → string) l x :
  NoDup (key <$> l) → x ∈ l → dict_get (key x) ((λ x, (key x, x)) <$> l) = Some x.
Proof.
  induction l as [|y l IH]; cbn; [set_solver|]. intros [Hy Hnd]%NoDup_cons [->|Hx]%elem_of_cons.
  - by rewrite bool_decide_eq_true_2.
  - rewrite bool_decide_eq_false_2; [by apply IH|].
    intros E. apply Hy. rewrite E. by apply list_elem_of_fmap_2.
Qed.

Lemma dict_get_none (key : A → string) l k :
  (∀ x, x ∈ l → key x ≠ k) → dict_get k ((λ x, (key x, x)) <$> l) = None.
Proof.
  induction l as [|y l IH]; intros H; [done|]. cbn.
  rewrite bool_decide_eq_false_2 by (apply H; by constructor).
  apply IH. intros x Hx. apply H. by constructor.
Qed.

Lemma elem_of_dict_set j k x d : j ∈ (dict_set k x d).*1 ↔ j = k ∨ j ∈ d.*1.
Proof.
  induction d as [|[i y] d IH]; cbn; [set_solver|].
  case_bool_decide as Hi; cbn; [subst; set_solver|]. rewrite !elem_of_cons, IH. tauto.
Qed.

Lemma dict_set_NoDup k x d : NoDup d.*1 → NoDup (dict_set k x d).*1.
Proof.
  induction d as [|[i y] d IH]; cbn; [intros _; repeat constructor; set_solver|].
  intros [Hi Hd]%NoDup_cons. case_bool_decide; cbn; constructor; [done..| |by apply IH].
  rewrite elem_of_dict_set. naive_solver.
Qed.

Lemma elem_of_dict k x d : NoDup d.*1 → (k, x) ∈ d ↔ dict_get k d = Some x.
Proof.
  induction d as [|[i y] d IH]; cbn; [set_solver|]. intros [Hi Hd]%NoDup_cons.
  rewrite elem_of_cons, IH by done. case_bool_decide as Hk; [subst i|].
  - split; [intros [[= ->]|Hx]; [done|]|intros [= ->]; by left].
    destruct Hi. apply (list_elem_of_fmap_2 fst _ (k, x)). by apply IH.
  - naive_solver.
Qed.
End dict.

(** ** [max([...], default=0) + 1] *)

Definition py_max_default (d : Z) (l : list Z) : Z :=
  match l with [] => d | x :: l => foldl Z.max x l end.

Lemma foldl_max_ge l a : a ≤ foldl Z.max a l ∧ ∀ x, x ∈ l → x ≤ foldl Z.max a l.
Proof.
  revert a. induction l as [|y l IH]; intros a; cbn; [split; [lia|set_solver]|].
  destruct (IH (a `max` y)) as [H1 H2]. split; [lia|].
  intros x [->|Hx]%elem_of_cons; [lia|by apply H2].
Qed.

Lemma py_max_default_ge d l x : x ∈ l → x ≤ py_max_default d l.
Proof.
  destruct l as [|y l]; [set_solver|]. cbn.
  destruct (foldl_max_ge l y) as [H1 H2].
  intros [->|Hx]%elem_of_cons; [done|by apply H2].
Qed.

Lemma py_max_default_pos l : (∀ x, x ∈ l → 0 ≤ x) → 0 ≤ py_max_default 0 l.
Proof.
  destruct l as [|y l]; cbn; [lia|]. intros H.
  destruct (foldl_max_ge l y) as [H1 _]. specialize (H y ltac:(by constructor)). lia.
Qed.

(** ** Dictionaries of records

    A dictionary of the store is keyed by an identity of its records, refers to
    other dictionaries, and excludes some of their keys. *)

Section record_maps.
Context {A B : Type}.
Implicit Types (m : gmap string A) (d : gmap string B) (x : A).

(** Every record is stored under its own identity. *)
Definition keyed (id : A → string) m : Prop := map_Forall (λ k x, id x = k) m.

(** Every record of [m] refers to an entry of [d]. *)
Definition refers (f : A → string) m d : Prop := map_Forall (λ _ x, is_Some (d !! f x)) m.

(** No record of [m] has its [f]-identity in [d]. *)
Definition apart (f : A → string) m d : Prop := map_Forall (λ _ x, d !! f x = None) m.

(** [f] identifies the records of [m]. *)
Definition unique (f : A → string) m : Prop :=
  ∀ i j x y, m !! i = Some x → m !! j = Some y → f x = f y → i = j.

Lemma keyed_insert id m x : keyed id m → keyed id (<[id x := x]> m).
Proof. intros H. by apply map_Forall_insert_2. Qed.

Lemma keyed_delete id m k : keyed id m → keyed id (delete k m).
Proof. apply map_Forall_delete. Qed.

Lemma refers_insert f m d k x :
  refers f m d → is_Some (d !! f x) → refers f (<[k := x]> m) d.
Proof. intros ??. by apply map_Forall_insert_2. Qed.

Lemma refers_delete f m d k : refers f m d → refers f (delete k m) d.
Proof. apply map_Forall_delete. Qed.

Lemma refers_define f m d k y : refers f m d → refers f m (<[k := y]> d).
Proof.
  intros H i x Hi. destruct (decide (f x = k)) as [->|Hne].
  - rewrite lookup_insert_eq. by eexists.
  - rewrite lookup_insert_ne by done. by apply (H i).
Qed.

Lemma apart_insert_l f m d k x :
  apart f m d → d !! f x = None → apart f (<[k := x]> m) d.
Proof. intros ??. by apply map_Forall_insert_2. Qed.

Lemma apart_delete_l f m d k : apart f m d → apart f (delete k m) d.
Proof. apply map_Forall_delete. Qed.

Lemma apart_insert_r f m d k y :
  apart f m d → (∀ i x, m !! i = Some x → f x ≠ k) → apart f m (<[k := y]> d).
Proof.
  intros H Hk i x Hi. rewrite lookup_insert_ne; [by apply (H i)|].
  intros E. by apply (Hk i x Hi).
Qed.

Lemma apart_delete_r f m d k : apart f m d → apart f m (delete k d).
Proof. intros H i x Hi. apply lookup_delete_None. right. by apply (H i). Qed.

Lemma unique_insert f m k x :
  unique f m → (∀ i y, m !! i = Some y → f y = f x → i = k) → unique f (<[k := x]> m).
Proof.
  intros H Hk i j y z. rewrite !lookup_insert_Some.
  intros [[<- <-]|[Hi Hy]] [[<- <-]|[Hj Hz]] E; eauto. symmetry. eauto.
Qed.

Lemma unique_delete f m k : unique f m → unique f (delete k m).
Proof.
  intros H i j y z. rewrite !lookup_delete_Some. intros [_ Hy] [_ Hz]. by apply H.
Qed.

(** A keyed dictionary whose records are identified by [f]: searching by [f]
    finds the record. *)
Lemma find_first_unique_field (f : A → string) m (l : list A) k x :
  (∀ y, y ∈ l ↔ ∃ i, m !! i = Some y) → unique f m → m !! k = Some x →
  find_first (λ y, bool_decide (f y = f x)) l = Some x.
Proof.
  intros Hl Hu Hk. apply find_first_unique.
  - apply Hl. by exists k.
  - by apply bool_decide_eq_true.
  - intros y [j Hj]%Hl Hy%bool_decide_eq_true.
    assert (j = k) as -> by eauto. congruence.
Qed.
End record_maps.

Create HintDb maps discriminated.
#[export] Hint Resolve keyed_insert keyed_delete refers_insert refers_delete refers_define
  apart_insert_l apart_delete_l apart_delete_r unique_delete : maps.

(** Invariant of an existing key that an insertion may overwrite. *)
Lemma keyed_lookup {A} (id : A → string) (m : gmap string A) k x :
  keyed id m → m !! k = Some x → id x = k.
Proof. intros H. apply H. Qed.

(** Filtering after a deletion filters one key more. *)
Lemma delete_filter_cons {A} (m : gmap string A) x (l : list string) :
  filter (λ kv : string * A, kv.1 ∉ l) (delete x m) = filter (λ kv : string * A, kv.1 ∉ (x :: l)) m.
Proof.
  apply map_eq. intros k. apply option_eq. intros y.
  rewrite !map_lookup_filter_Some, lookup_delete_Some, not_elem_of_cons. cbn. naive_solver.
Qed.
