(* ===== verification/Encoding.v ===== *)
(** * Values and deterministic identities

    [src/src/sose/core/encoding.py] and [identity.py]: the type-tagged,
    length-prefixed encoding of scope parts, and the identities computed from
    it.  [pyobj] has one constructor per type the encoder supports, in the order
    the code tests them; a value of any other type raises [TypeError] in the
    code and has no counterpart here. *)
From S2P Require Import Prelude.
From stdpp Require Import pretty.
From Stdlib Require Import Ascii.
From Stdlib Require Export SpecFloat.
Open Scope string_scope.
Open Scope Z_scope.

(** ** Floats

    A Python [float] is an IEEE binary64 number; Stdlib's [SpecFloat] gives its
    arithmetic (round to nearest even, infinities, NaN) as plain definitions. *)
#[global] Instance float_eq_dec : EqDecision spec_float.
Proof. solve_decision. Defined.

Definition fadd : spec_float → spec_float → spec_float := SFadd 53 1024.
Definition fsub : spec_float → spec_float → spec_float := SFsub 53 1024.
Definition fmul : spec_float → spec_float → spec_float := SFmul 53 1024.
Definition fdiv : spec_float → spec_float → spec_float := SFdiv 53 1024.
Definition flt (x y : spec_float) : bool := SFltb x y.
Definition fle (x y : spec_float) : bool := SFleb x y.
Definition feq (x y : spec_float) : bool := SFeqb x y.
Definition fzero : spec_float := S754_zero false.
Definition fone : spec_float := S754_finite false 4503599627370496 (-52).

(** [float(z)] for an integer. *)
Definition float_of_Z (z : Z) : spec_float := binary_normalize 53 1024 z 0 false.

(** [math.isfinite]. *)
Definition isfinite (x : spec_float) : bool :=
  match x with S754_zero _ | S754_finite _ _ _ => true | _ => false end.

(** ** Python values *)
Inductive pyobj : Type :=
  | PNone
  | PEnum (cls_module cls_qualname : string) (value : pyobj)
  | PBool (b : bool)
  | PInt (z : Z)
  | PFloat (f : spec_float)
  | PStr (s : string)
  | PBytes (s : string)
  | PUuid (bytes : string)
  | PDatetime (us : Z)
  | PDate (days : Z)
  | PTuple (l : list pyobj)
  | PList (l : list pyobj)
  | PMap (items : list (pyobj * pyobj)).

#[global] Instance pyobj_eq_dec : EqDecision pyobj.
Proof.
  refine (fix go (x y : pyobj) : Decision (x = y) :=
    let r : EqDecision pyobj := @go in
    match x, y with
    | PNone, PNone => left _
    | PEnum m q v, PEnum m' q' v' => cast_if (decide (m = m' ∧ q = q' ∧ v = v'))
    | PBool b, PBool b' => cast_if (decide (b = b'))
    | PInt z, PInt z' => cast_if (decide (z = z'))
    | PFloat f, PFloat f' => cast_if (decide (f = f'))
    | PStr s, PStr s' => cast_if (decide (s = s'))
    | PBytes s, PBytes s' => cast_if (decide (s = s'))
    | PUuid s, PUuid s' => cast_if (decide (s = s'))
    | PDatetime u, PDatetime u' => cast_if (decide (u = u'))
    | PDate u, PDate u' => cast_if (decide (u = u'))
    | PTuple l, PTuple l' => cast_if (decide (l = l'))
    | PList l, PList l' => cast_if (decide (l = l'))
    | PMap l, PMap l' => cast_if (decide (l = l'))
    | _, _ => right _
    end); clear r go; abstract naive_solver.
Defined.

(** ** Text of numbers and dates *)

Definition digit (n : N) : ascii := ascii_of_N (48 + n).
Definition hex_digit (n : N) : ascii := ascii_of_N (if (n <? 10)%N then 48 + n else 87 + n)%N.

(** [n] in [width] digits of base [b], most significant first. *)
Fixpoint digits (b : N) (dig : N → ascii) (width : nat) (n : N) : string :=
  match width with
  | O => EmptyString
  | S width => digits b dig width (n / b)%N +:+ String (dig (n mod b)%N) EmptyString
  end.

(** [len(payload).to_bytes(8, "big")]; a payload is a Python object in memory,
    so its length is below [2 ^ 63]. *)
Definition to_bytes8 (n : nat) : string := digits 256 ascii_of_N 8 (N.of_nat n).

(** [bytes.hex()]. *)
Fixpoint hex (s : string) : string :=
  match s with
  | EmptyString => EmptyString
  | String a s => digits 16 hex_digit 2 (N_of_ascii a) +:+ hex s
  end.

(** [float.hex()]: thirteen hexadecimal digits after the point; a subnormal has
    leading digit 0 and exponent [-1022]. *)
Definition float_hex (f : spec_float) : string :=
  let sign (s : bool) := if s then "-" else "" in
  let exponent (e : Z) := "p" +:+ (if (e <? 0)%Z then "" else "+") +:+ pretty e in
  match f with
  | S754_nan => "nan"
  | S754_infinity s => sign s +:+ "inf"
  | S754_zero s => sign s +:+ "0x0.0p+0"
  | S754_finite s m e =>
    if Zpos m <? 2 ^ 52
    then sign s +:+ "0x0." +:+ digits 16 hex_digit 13 (Npos m) +:+ exponent (-1022)%Z
    else sign s +:+ "0x1." +:+ digits 16 hex_digit 13 (Npos m - 2 ^ 52)%N +:+ exponent (e + 52)%Z
  end.

(** The proleptic Gregorian date of a day number counted from 1970-01-01. *)
Definition civil_from_days (days : Z) : Z * Z * Z :=
  let z := days + 719468 in
  let era := z / 146097 in
  let doe := z mod 146097 in
  let yoe := (doe - doe / 1460 + doe / 36524 - doe / 146096) / 365 in
  let doy := doe - (365 * yoe + yoe / 4 - yoe / 100) in
  let mp := (5 * doy + 2) / 153 in
  let d := doy - (153 * mp + 2) / 5 + 1 in
  let m := if mp <? 10 then mp + 3 else mp - 9 in
  ((yoe + era * 400 + (if m <=? 2 then 1 else 0)), m, d).

Definition dec (width : nat) (z : Z) : string := digits 10 digit width (Z.to_N z).

(** [date.isoformat()]. *)
Definition date_isoformat (days : Z) : string :=
  let '(y, m, d) := civil_from_days days in
  dec 4 y +:+ "-" +:+ dec 2 m +:+ "-" +:+ dec 2 d.

(** [datetime.isoformat()] of a UTC-aware instant in microseconds. *)
Definition datetime_isoformat (us : Z) : string :=
  let day := 86400000000 in
  let t := us mod day in
  let s := t / 1000000 in
  let f := t mod 1000000 in
  date_isoformat (us / day) +:+ "T" +:+ dec 2 (s / 3600) +:+ ":" +:+ dec 2 (s / 60 mod 60)
    +:+ ":" +:+ dec 2 (s mod 60) +:+ (if bool_decide (f = 0) then "" else "." +:+ dec 6 f)
    +:+ "+00:00".

(** ** The encoder *)

Definition tagged (tag payload : string) : string :=
  tag +:+ to_bytes8 (String.length payload) +:+ payload.

Fixpoint concat_str (l : list string) : string :=
  match l with [] => EmptyString | s :: l => s +:+ concat_str l end.

(** [_encode_sequence], on the frames of the elements. *)
Definition encode_sequence (frames : list string) : string :=
  to_bytes8 (length frames) +:+ concat_str frames.

(** [_encode_mapping], on the frames of keys and values. *)
Definition encode_mapping (frames : list (string * string)) : string :=
  let encoded_items := sort_on fst frames in
  to_bytes8 (length encoded_items)
    +:+ concat_str ((λ '(key, item), key +:+ item) <$> encoded_items).

(** [_encode_scalar]: the first class of [_SCALAR_ENCODERS] that matches. *)
Definition encode_scalar (v : pyobj) : option (string * string) :=
  match v with
  | PInt z => Some ("i", pretty z)
  | PFloat f => Some ("f", float_hex f)
  | PStr s => Some ("s", s)
  | PBytes s => Some ("y", s)
  | PUuid s => Some ("u", s)
  | PDatetime us => Some ("d", datetime_isoformat us)
  | PDate days => Some ("D", date_isoformat days)
  | _ => None
  end.

Fixpoint frame (v : pyobj) : string :=
  match v with
  | PNone => tagged "n" ""
  | PEnum m q w => tagged "e" (tagged "s" m +:+ tagged "s" q +:+ frame w)
  | PBool b => tagged "b" (if b then "1" else "0")
  | PTuple l => tagged "t" (encode_sequence (frame <$> l))
  | PList l => tagged "l" (encode_sequence (frame <$> l))
  | PMap items => tagged "m" (encode_mapping ((λ '(k, w), (frame k, frame w)) <$> items))
  | _ => match encode_scalar v with
         | Some (tag, payload) => tagged tag payload
         | None => EmptyString
         end
  end.

Definition encode_deterministic_parts (parts : list pyobj) : string :=
  concat_str (frame <$> parts).

(** ** Identities *)

(** [str(uuid5(SOSE_NAMESPACE, name))]: a standard-library digest. *)
Class Uuid5 := uuid5 : string → string.

Section identity.
Context `{Uuid5}.

Definition deterministic_id (kind : string) (parts : list pyobj) : string :=
  uuid5 (hex (encode_deterministic_parts (PStr kind :: parts))).
End identity.
