(* ===== verification/EncodingFacts.v ===== *)
(** * The canonical encoding has no collisions

    Properties of [Encoding.v]: a frame is a tag, the length of its payload in
    eight bytes and the payload, so a frame can be told from what follows it;
    the payloads of each type are injective (decimal and hexadecimal numerals,
    [float.hex], ISO dates); hence two lists of values have one encoding exactly
    when they are the same values, mappings taken without the order of their
    items. *)
From S2P Require Import Prelude Encoding.
From stdpp Require Import pretty.
From Stdlib Require Import Ascii.
Open Scope string_scope.
Open Scope Z_scope.

(** ** Numerals *)

Section digits.
Context (b : N) (dig : N → ascii).

Lemma length_digits w n : String.length (digits b dig w n) = w.
Proof. revert n. induction w as [|w IH]; intros n; cbn; [done|]. rewrite string_length_app, IH. cbn. lia. Qed.

Lemma digits_inj w n m :
  (0 < b)%N →
  (∀ i j, (i < b)%N → (j < b)%N → dig i = dig j → i = j) →
  (n < b ^ N.of_nat w)%N → (m < b ^ N.of_nat w)%N →
  digits b dig w n = digits b dig w m → n = m.
Proof.
  intros Hb Hdig. revert n m. induction w as [|w IH]; intros n m Hn Hm E.
  { cbn in Hn, Hm. lia. }
  rewrite Nat2N.inj_succ, N.pow_succ_r' in Hn, Hm. cbn in E.
  apply string_app_inv in E as [E [= D]]; [|by rewrite !length_digits].
  apply IH in E; [|by apply N.Div0.div_lt_upper_bound..].
  apply Hdig in D; [|apply N.mod_lt; lia..].
  rewrite (N.div_mod n b), (N.div_mod m b) by lia. by rewrite E, D.
Qed.
End digits.

Lemma ascii_of_N_inj i j : (i < 256)%N → (j < 256)%N → ascii_of_N i = ascii_of_N j → i = j.
Proof. intros Hi Hj E. apply (f_equal N_of_ascii) in E. by rewrite !N_ascii_embedding in E. Qed.

Lemma digit_inj i j : (i < 10)%N → (j < 10)%N → digit i = digit j → i = j.
Proof. intros Hi Hj E%ascii_of_N_inj; lia. Qed.

Lemma hex_digit_inj i j : (i < 16)%N → (j < 16)%N → hex_digit i = hex_digit j → i = j.
Proof.
  intros Hi Hj. unfold hex_digit. destruct (N.ltb_spec i 10), (N.ltb_spec j 10); intros E%ascii_of_N_inj; lia.
Qed.

Lemma to_bytes8_inj n m :
  Z.of_nat n < 2 ^ 64 → Z.of_nat m < 2 ^ 64 → to_bytes8 n = to_bytes8 m → n = m.
Proof.
  intros Hn Hm E. apply Nat2N.inj. revert E. apply digits_inj; [done|apply ascii_of_N_inj|..]; cbn; lia.
Qed.

Lemma dec_inj w a b :
  0 ≤ a < 10 ^ Z.of_nat w → 0 ≤ b < 10 ^ Z.of_nat w → dec w a = dec w b → a = b.
Proof.
  intros Ha Hb E. apply (Z2N.inj a b); [lia..|]. revert E. apply digits_inj; [done|apply digit_inj|..].
  all: apply N2Z.inj_lt; rewrite N2Z.inj_pow, nat_N_Z, Z2N.id by lia; cbn; lia.
Qed.

Lemma length_dec w z : String.length (dec w z) = w.
Proof. apply length_digits. Qed.

Lemma hex_inj s t : hex s = hex t → s = t.
Proof.
  revert t. induction s as [|a s IH]; intros [|b t] E; try done.
  cbn [hex] in E. apply string_app_inv in E as [D E]; [|by rewrite !length_digits].
  apply digits_inj in D; [|done|apply hex_digit_inj|apply N_ascii_bounded..].
  rewrite (IH _ E). by rewrite <-(ascii_N_embedding a), <-(ascii_N_embedding b), D.
Qed.

(** ** Floats *)

(** The number of binary digits of a mantissa. *)
Lemma digits2_pos_bounds m : 2 ^ (Zpos (digits2_pos m) - 1) ≤ Zpos m < 2 ^ Zpos (digits2_pos m).
Proof.
  induction m as [m IH|m IH|]; cbn [digits2_pos]; [| |by cbn].
  all: rewrite Pos2Z.inj_succ, Z.pow_succ_r by lia.
  all: replace (Z.succ (Zpos (digits2_pos m)) - 1) with (Z.succ (Zpos (digits2_pos m) - 1)) by lia.
  all: rewrite Z.pow_succ_r by lia; lia.
Qed.

(** A finite binary64 number is normal, or subnormal with the least exponent. *)
Lemma valid_mantissa s m e :
  valid_binary 53 1024 (S754_finite s m e) = true →
  Zpos m < 2 ^ 53 ∧ (Zpos m < 2 ^ 52 → e = -1074).
Proof.
  cbn. unfold bounded, canonical_mantissa, fexp, emin. intros [E%Zeq_bool_eq _]%andb_prop.
  pose proof (digits2_pos_bounds m) as [Hlo Hhi].
  assert (Zpos (digits2_pos m) ≤ 53) as Hd by lia. split.
  - eapply Z.lt_le_trans; [exact Hhi|]. apply Z.pow_le_mono_r; lia.
  - intros Hm. assert (Zpos (digits2_pos m) - 1 < 52); [|lia].
    apply (Z.pow_lt_mono_r_iff 2); lia.
Qed.

#[local] Opaque digits.

Lemma hex13_inj n m s t :
  (n < 2 ^ 52)%N → (m < 2 ^ 52)%N →
  digits 16 hex_digit 13 n +:+ s = digits 16 hex_digit 13 m +:+ t → n = m ∧ s = t.
Proof.
  intros Hn Hm E. apply string_app_inv in E as [D E]; [|by rewrite !length_digits].
  split; [|done]. revert D. apply digits_inj; [done|apply hex_digit_inj|done..].
Qed.

Lemma exponent_inj (e e' : Z) :
  (if e <? 0 then "" else "+") +:+ pretty e = (if e' <? 0 then "" else "+") +:+ pretty e' → e = e'.
Proof.
  destruct (Z.ltb_spec e 0), (Z.ltb_spec e' 0); intros E.
  - exact (inj pretty e e' E).
  - destruct e; try lia. discriminate E.
  - destruct e'; try lia. discriminate E.
  - injection E as E. exact (inj pretty e e' E).
Qed.

(** The text of a finite number after its sign. *)
Definition finite_hex (m : positive) (e : Z) : string :=
  let exponent (e : Z) := "p" +:+ ((if e <? 0 then "" else "+") +:+ pretty e) in
  if Zpos m <? 2 ^ 52
  then "0x0." +:+ (digits 16 hex_digit 13 (Npos m) +:+ exponent (-1022))
  else "0x1." +:+ (digits 16 hex_digit 13 (Npos m - 2 ^ 52)%N +:+ exponent (e + 52)).

Lemma float_hex_finite s m e :
  float_hex (S754_finite s m e) = (if s then "-" else "") +:+ finite_hex m e.
Proof. unfold float_hex, finite_hex. by destruct (Zpos m <? 2 ^ 52), s. Qed.

Lemma finite_hex_head m e : ∃ t, finite_hex m e = "0x" +:+ t ∧ (14 < String.length t)%nat.
Proof.
  unfold finite_hex. case_match.
  1: eexists ("0." +:+ _). 2: eexists ("1." +:+ _).
  all: split; [reflexivity|]; rewrite !string_length_app, length_digits; cbn [String.length]; lia.
Qed.

Lemma finite_hex_inj m e m' e' :
  valid_binary 53 1024 (S754_finite false m e) = true →
  valid_binary 53 1024 (S754_finite false m' e') = true →
  finite_hex m e = finite_hex m' e' → m = m' ∧ e = e'.
Proof.
  intros [Hm He]%valid_mantissa [Hm' He']%valid_mantissa. unfold finite_hex.
  destruct (Z.ltb_spec (Zpos m) (2 ^ 52)), (Z.ltb_spec (Zpos m') (2 ^ 52));
    intros [Hd E]%string_app_inv; try done; clear Hd.
  - apply hex13_inj in E as [D _]; [|lia..]. split; [congruence|]. by rewrite He, He'.
  - apply hex13_inj in E as [D E]; [|lia..]. apply string_app_inv in E as [_ E]; [|done].
    apply exponent_inj in E. split; lia.
Qed.

(** [float.hex()] loses nothing. *)
Lemma float_hex_inj f g :
  valid_binary 53 1024 f = true → valid_binary 53 1024 g = true → float_hex f = float_hex g → f = g.
Proof.
  destruct f as [s|s| |s m e], g as [s'|s'| |s' m' e']; intros Hf Hg; rewrite ?float_hex_finite.
  all: try destruct (finite_hex_head m e) as (t & E & Ht); try destruct (finite_hex_head m' e') as (t' & E' & Ht').
  all: try (destruct s); try (destruct s'); intros D; try done; rewrite ?E, ?E' in D; try discriminate D.
  all: rewrite <-?E, <-?E' in D; try (apply (string_app_inv "-" "-") in D as [_ D]; [|done]).
  all: try (apply finite_hex_inj in D as [-> ->]; [done|exact Hf|exact Hg]).
  all: rewrite ?E, ?E' in D; apply (f_equal String.length) in D; rewrite ?string_length_app in D; cbn in D.
  all: try change (String.length (EmptyString +:+ "0x0.0p+0")) with 8%nat in D; lia.
Qed.

(** ** Dates *)

(** The day number of a date, the inverse of [civil_from_days]. *)
Definition days_from_civil (date : Z * Z * Z) : Z :=
  let '(year, m, d) := date in
  let y := year - (if m <=? 2 then 1 else 0) in
  let mp := if m <=? 2 then m + 9 else m - 3 in
  let yoe := y mod 400 in
  y / 400 * 146097 + (365 * yoe + yoe / 4 - yoe / 100) + ((153 * mp + 2) / 5 + d - 1) - 719468.

Lemma civil_era doe :
  0 ≤ doe < 146097 →
  let yoe := (doe - doe / 1460 + doe / 36524 - doe / 146096) / 365 in
  0 ≤ yoe < 400 ∧ 0 ≤ doe - (365 * yoe + yoe / 4 - yoe / 100) ≤ 365.
Proof. intros H yoe. subst yoe. Z.to_euclidean_division_equations; lia. Qed.

Lemma civil_month doy :
  0 ≤ doy ≤ 365 →
  let mp := (5 * doy + 2) / 153 in
  0 ≤ mp ≤ 11 ∧ 1 ≤ doy - (153 * mp + 2) / 5 + 1 ≤ 31.
Proof. intros H mp. subst mp. Z.to_euclidean_division_equations; lia. Qed.

(** The month and the day of a date have two digits, and the date determines its
    day number. *)
Lemma civil_from_days_spec days :
  let '(y, m, d) := civil_from_days days in
  1 ≤ m ≤ 12 ∧ 1 ≤ d ≤ 31 ∧ days_from_civil (y, m, d) = days.
Proof.
  unfold civil_from_days. set (z := days + 719468). set (doe := z mod 146097).
  assert (0 ≤ doe < 146097) as Hdoe by (apply Z.mod_pos_bound; lia).
  pose proof (civil_era doe Hdoe) as [Hyoe Hdoy]. cbv zeta in Hyoe, Hdoy.
  set (yoe := (doe - doe / 1460 + doe / 36524 - doe / 146096) / 365) in *.
  set (doy := doe - (365 * yoe + yoe / 4 - yoe / 100)) in *.
  pose proof (civil_month doy Hdoy) as [Hmp Hd]. cbv zeta in Hmp, Hd.
  set (mp := (5 * doy + 2) / 153) in *. set (era := z / 146097).
  assert (z = 146097 * era + doe) as Hz by (apply Z.div_mod; lia).
  assert ((yoe + era * 400) / 400 = era ∧ (yoe + era * 400) mod 400 = yoe) as [Hq Hr].
  { rewrite Z.div_add, Z.mod_add, Z.div_small, Z.mod_small by lia. lia. }
  unfold days_from_civil.
  destruct (Z.ltb_spec mp 10).
  - assert (mp + 3 <=? 2 = false) as -> by lia. rewrite Z.add_0_r, Z.sub_0_r, Hq, Hr.
    replace (mp + 3 - 3) with mp by lia. subst doy z. lia.
  - assert (mp - 9 <=? 2 = true) as -> by lia. rewrite Z.add_simpl_r, Hq, Hr.
    replace (mp - 9 + 9) with mp by lia. subst doy z. lia.
Qed.

(** [datetime.date] knows the years 1 to 9999. *)
Definition date_range (days : Z) : Prop := let '(y, _, _) := civil_from_days days in 1 ≤ y ≤ 9999.

Lemma length_date_isoformat days : String.length (date_isoformat days) = 10%nat.
Proof.
  unfold date_isoformat. destruct (civil_from_days days) as [[y m] d].
  by rewrite !string_length_app, !length_dec.
Qed.

Lemma date_isoformat_inj a b : date_range a → date_range b → date_isoformat a = date_isoformat b → a = b.
Proof.
  unfold date_range, date_isoformat. pose proof (civil_from_days_spec a) as Ha. pose proof (civil_from_days_spec b) as Hb.
  destruct (civil_from_days a) as [[y m] d], (civil_from_days b) as [[y' m'] d'].
  destruct Ha as (Hm & Hd & <-), Hb as (Hm' & Hd' & <-). intros Hy Hy' E.
  apply string_app_inv in E as [Ey E]; [|by rewrite !length_dec]. apply string_app_inv in E as [_ E]; [|done].
  apply string_app_inv in E as [Em E]; [|by rewrite !length_dec]. apply string_app_inv in E as [_ Ed]; [|done].
  apply dec_inj in Ey, Em, Ed; try (cbn; lia). by subst.
Qed.

(** An instant is told from its ISO text, microseconds included. *)
Lemma datetime_isoformat_inj a b :
  date_range (a / 86400000000) → date_range (b / 86400000000) → datetime_isoformat a = datetime_isoformat b → a = b.
Proof.
  intros Ha Hb E. unfold datetime_isoformat in E.
  set (ta := a mod 86400000000) in E. set (tb := b mod 86400000000) in E.
  assert (0 ≤ ta < 86400000000) as Ra by (apply Z.mod_pos_bound; lia).
  assert (0 ≤ tb < 86400000000) as Rb by (apply Z.mod_pos_bound; lia).
  apply string_app_inv in E as [Ed E]; [|by rewrite !length_date_isoformat].
  apply date_isoformat_inj in Ed; [|done..].
  apply string_app_inv in E as [_ E]; [|done]. apply string_app_inv in E as [Eh E]; [|by rewrite !length_dec].
  apply string_app_inv in E as [_ E]; [|done]. apply string_app_inv in E as [Em E]; [|by rewrite !length_dec].
  apply string_app_inv in E as [_ E]; [|done]. apply string_app_inv in E as [Es E]; [|by rewrite !length_dec].
  assert (∀ t, 0 ≤ t < 86400000000 → 0 ≤ t / 1000000 / 3600 < 24 ∧ 0 ≤ t / 1000000 / 60 mod 60 < 60
    ∧ 0 ≤ t / 1000000 mod 60 < 60 ∧ 0 ≤ t mod 1000000 < 1000000) as Hr.
  { intros t Ht. Z.to_euclidean_division_equations; lia. }
  destruct (Hr ta Ra) as (Hh & Hm & Hs & Hf), (Hr tb Rb) as (Hh' & Hm' & Hs' & Hf').
  apply dec_inj in Eh, Em, Es; [|cbn; lia..].
  assert (ta mod 1000000 = tb mod 1000000) as Ef.
  { repeat case_bool_decide; try (discriminate E); [congruence|].
    apply string_app_cancel, (string_app_inv "." ".") in E as [_ E]; [|done]. apply dec_inj in E; [done|cbn; lia..]. }
  rewrite (Z.div_mod a 86400000000), (Z.div_mod b 86400000000) by lia. fold ta tb. rewrite Ed. f_equal.
  clear -Eh Em Es Ef. Z.to_euclidean_division_equations; lia.
Qed.

(** ** Frames *)

(** A length that eight bytes can say. *)
Definition fits (s : string) : Prop := Z.of_nat (String.length s) < 2 ^ 64.

(** A string that says where it ends. *)
Definition is_frame (s : string) : Prop :=
  ∃ tag payload, s = tagged tag payload ∧ String.length tag = 1%nat ∧ fits payload.

Lemma length_tagged tag payload :
  String.length (tagged tag payload) = (String.length tag + 8 + String.length payload)%nat.
Proof. unfold tagged, to_bytes8. rewrite !string_length_app, length_digits. lia. Qed.

Lemma tagged_inv tag payload tag' payload' s t :
  String.length tag = 1%nat → String.length tag' = 1%nat → fits payload → fits payload' →
  tagged tag payload +:+ s = tagged tag' payload' +:+ t → tag = tag' ∧ payload = payload' ∧ s = t.
Proof.
  intros Ht Ht' Hp Hp' E. unfold tagged in E. rewrite !string_app_assoc in E.
  apply string_app_inv in E as [-> E]; [|by rewrite Ht, Ht'].
  apply string_app_inv in E as [L E]; [|unfold to_bytes8; by rewrite !length_digits].
  apply to_bytes8_inj in L; [|done..]. by apply string_app_inv in E as [-> ->].
Qed.

Lemma is_frame_inv x y s t : is_frame x → is_frame y → x +:+ s = y +:+ t → x = y ∧ s = t.
Proof.
  intros (a & p & -> & Ha & Hp) (b & q & -> & Hb & Hq) E.
  by apply tagged_inv in E as (-> & -> & ->).
Qed.

Lemma is_frame_nonempty x s : is_frame x → x +:+ s ≠ "".
Proof. intros (a & p & -> & Ha & _) E. apply (f_equal String.length) in E. rewrite string_length_app, length_tagged in E. cbn in E. lia. Qed.

Lemma frames_inv l l' : Forall is_frame l → Forall is_frame l' → concat_str l = concat_str l' → l = l'.
Proof.
  intros Hl. revert l'. induction Hl as [|x l Hx _ IH]; intros l' [|y l1 Hy Hl'] E; [done|..]; cbn in E.
  - by apply eq_sym, is_frame_nonempty in E.
  - by apply is_frame_nonempty in E.
  - apply is_frame_inv in E as [-> E]; [|done..]. by rewrite (IH _ Hl' E).
Qed.

Lemma frame_pairs_inv (l l' : list (string * string)) :
  Forall (λ x, is_frame x.1 ∧ is_frame x.2) l → Forall (λ x, is_frame x.1 ∧ is_frame x.2) l' →
  concat_str ((λ '(key, item), key +:+ item) <$> l) = concat_str ((λ '(key, item), key +:+ item) <$> l') → l = l'.
Proof.
  assert (∀ m : list (string * string), concat_str ((λ '(key, item), key +:+ item) <$> m) =
    concat_str (m ≫= λ x, [x.1; x.2])) as Hflat.
  { intros m. induction m as [|[k v] m IH]; cbn; [done|]. rewrite IH. apply string_app_assoc. }
  assert (∀ m : list (string * string), Forall (λ x, is_frame x.1 ∧ is_frame x.2) m →
    Forall is_frame (m ≫= λ x, [x.1; x.2])) as Hall.
  { intros m. induction 1 as [|[k v] m [Hk Hv] _ IH]; cbn; auto. }
  intros Hl Hl' E. rewrite !Hflat in E. apply frames_inv in E; [|by apply Hall..]. clear -E.
  revert l' E. induction l as [|[k v] l IH]; intros [|[k' v'] l'] E; try done.
  injection E as -> -> E. by rewrite (IH _ E).
Qed.

Lemma frame_shape v : ∃ tag payload, frame v = tagged tag payload ∧ String.length tag = 1%nat.
Proof. destruct v; do 2 eexists; (split; [reflexivity|done]). Qed.

Lemma frame_is_frame v : fits (frame v) → is_frame (frame v).
Proof.
  destruct (frame_shape v) as (a & p & E & Ha). rewrite E. unfold fits. rewrite length_tagged.
  intros Hv. exists a, p. split_and!; [done..|]. unfold fits. lia.
Qed.

(** *** Sizes *)

Lemma fits_app s t : fits (s +:+ t) → fits s ∧ fits t.
Proof. unfold fits. rewrite string_length_app. lia. Qed.

Lemma fits_tagged tag payload : fits (tagged tag payload) → fits payload.
Proof. unfold fits. rewrite length_tagged. lia. Qed.

Lemma fits_concat l : fits (concat_str l) → Forall fits l.
Proof. induction l as [|s l IH]; cbn; intros E; constructor; apply fits_app in E as [? ?]; auto. Qed.

Lemma fits_sequence frames : fits (encode_sequence frames) → Forall fits frames.
Proof. intros [_ E]%fits_app. by apply fits_concat. Qed.

Lemma fits_mapping (frames : list (string * string)) :
  fits (encode_mapping frames) → Forall (λ x, fits x.1 ∧ fits x.2) frames.
Proof.
  intros [_ E%fits_concat]%fits_app. rewrite Forall_fmap in E.
  rewrite <-(sort_on_perm fst frames). eapply Forall_impl; [exact E|]. intros [k v] Hx. by apply fits_app in Hx.
Qed.

(** ** The same values *)

(** The values Python can hold: binary64 floats, dates of the years 1 to 9999,
    mappings with distinct keys. *)
Fixpoint python_value (v : pyobj) : bool :=
  match v with
  | PFloat f => valid_binary 53 1024 f
  | PDate days => let '(y, _, _) := civil_from_days days in (1 <=? y) && (y <=? 9999)
  | PDatetime us => let '(y, _, _) := civil_from_days (us / 86400000000) in (1 <=? y) && (y <=? 9999)
  | PEnum _ _ w => python_value w
  | PTuple l | PList l => forallb python_value l
  | PMap items => forallb (λ '(k, w), python_value k && python_value w) items
                  && bool_decide (NoDup ((λ '(k, _), frame k) <$> items))
  | _ => true
  end.

(** Equality, except that a mapping does not remember the order of its items. *)
Inductive same : pyobj → pyobj → Prop :=
  | same_refl v : same v v
  | same_enum m q v w : same v w → same (PEnum m q v) (PEnum m q w)
  | same_tuple l l' : Forall2 same l l' → same (PTuple l) (PTuple l')
  | same_list l l' : Forall2 same l l' → same (PList l) (PList l')
  | same_map items l items' :
      items ≡ₚ l → Forall2 (λ x y, same x.1 y.1 ∧ same x.2 y.2) l items' → same (PMap items) (PMap items').

Lemma pyobj_nested_ind (P : pyobj → Prop) :
  (∀ v, match v with PEnum _ _ _ | PTuple _ | PList _ | PMap _ => False | _ => True end → P v) →
  (∀ m q v, P v → P (PEnum m q v)) →
  (∀ l, Forall P l → P (PTuple l)) → (∀ l, Forall P l → P (PList l)) →
  (∀ items, Forall (λ x, P x.1 ∧ P x.2) items → P (PMap items)) → ∀ v, P v.
Proof.
  intros Hs He Ht Hl Hm. fix go 1. intros v. destruct v as [| | | | | | | | | |l|l|items]; try by apply Hs.
  - apply He, go.
  - apply Ht. induction l; constructor; [apply go|assumption].
  - apply Hl. induction l; constructor; [apply go|assumption].
  - apply Hm. induction items as [|[k w] items IH]; constructor; [split; apply go|assumption].
Qed.

(** *** Equal values have equal frames *)

Lemma Forall2_frames l l' :
  Forall (λ v, python_value v = true → ∀ w, same v w → frame v = frame w) l → forallb python_value l = true →
  Forall2 same l l' → frame <$> l = frame <$> l'.
Proof.
  intros IH Hl H2. induction H2 as [|v w l l' Hvw _ IH2]; [done|]. inversion IH as [|? ? Hv IH']; subst.
  cbn in Hl. apply andb_prop in Hl as [Hp Hl]. cbn. by rewrite (Hv Hp w Hvw), (IH2 IH' Hl).
Qed.

Lemma Forall2_item_frames (l l' : list (pyobj * pyobj)) :
  Forall (λ x, (∀ w, same x.1 w → frame x.1 = frame w) ∧ (∀ w, same x.2 w → frame x.2 = frame w)) l →
  Forall2 (λ x y, same x.1 y.1 ∧ same x.2 y.2) l l' →
  (λ '(k, w), (frame k, frame w)) <$> l = (λ '(k, w), (frame k, frame w)) <$> l'.
Proof.
  intros Hl. induction 1 as [|[k v] [k' v'] l l' [Hk Hv] _ IH]; [done|].
  inversion Hl as [|? ? [Hk' Hv'] Hl']; subst. cbn in *. by rewrite (Hk' _ Hk), (Hv' _ Hv), (IH Hl').
Qed.

Lemma same_frame v : python_value v = true → ∀ w, same v w → frame v = frame w.
Proof.
  induction v as [v Hv|m q v IH|l IH|l IH|items IH] using pyobj_nested_ind; intros Hp w Hw.
  - inversion Hw; subst; done.
  - inversion Hw; subst; [done|]. cbn. by rewrite (IH Hp w0).
  - inversion Hw as [| |? l' H2| |]; subst; [done|]. cbn. by rewrite (Forall2_frames l l').
  - inversion Hw as [| | |? l' H2|]; subst; [done|]. cbn. by rewrite (Forall2_frames l l').
  - inversion Hw as [| | | |? l1 l' Hperm H2]; subst; [done|]. cbn in Hp. apply andb_prop in Hp as [Hp Hnd].
    apply bool_decide_eq_true in Hnd. cbn. f_equal. unfold encode_mapping.
    assert ((λ '(k, w), (frame k, frame w)) <$> l1 = (λ '(k, w), (frame k, frame w)) <$> l') as <-.
    { apply Forall2_item_frames; [|done]. rewrite <-Hperm. apply Forall_forall. intros [k v] Hin.
      rewrite Forall_forall in IH. destruct (IH _ Hin) as [Hk Hv]. cbn in *.
      rewrite forallb_forall in Hp. apply list_elem_of_In, Hp, andb_prop in Hin as [??]. auto. }
    rewrite (sort_on_unique fst _ ((λ '(k, w), (frame k, frame w)) <$> l1)); [done|..|by rewrite Hperm].
    rewrite <-list_fmap_compose. erewrite list_fmap_ext; [exact Hnd|]. by intros i [k v] _.
Qed.

(** *** Equal frames come from equal values *)

Definition framed_apart (v : pyobj) : Prop :=
  ∀ w, python_value v = true → python_value w = true → fits (frame v) → frame v = frame w → same v w.

Lemma frames_same l l' :
  Forall framed_apart l → forallb python_value l = true → forallb python_value l' = true →
  Forall fits (frame <$> l) → frame <$> l = frame <$> l' → Forall2 same l l'.
Proof.
  intros IH. revert l'. induction IH as [|v l Hv _ IH]; intros [|w l'] Hl Hl' Hf E; try done.
  cbn in *. apply andb_prop in Hl as [? ?], Hl' as [? ?]. inversion Hf; subst. injection E as Ev El. auto.
Qed.

Lemma item_frames_same (l l' : list (pyobj * pyobj)) :
  Forall (λ x, framed_apart x.1 ∧ framed_apart x.2) l →
  Forall (λ x, python_value x.1 && python_value x.2 = true) l →
  Forall (λ x, python_value x.1 && python_value x.2 = true) l' →
  Forall (λ x, fits x.1 ∧ fits x.2) ((λ '(k, w), (frame k, frame w)) <$> l) →
  (λ '(k, w), (frame k, frame w)) <$> l = (λ '(k, w), (frame k, frame w)) <$> l' →
  Forall2 (λ x y, same x.1 y.1 ∧ same x.2 y.2) l l'.
Proof.
  intros IH. revert l'. induction IH as [|[k v] l [Hk Hv] _ IH]; intros [|[k' v'] l'] Hl Hl' Hf E; try done.
  inversion Hl as [|? ? [? ?]%andb_prop]; inversion Hl' as [|? ? [? ?]%andb_prop]; inversion Hf as [|? ? [? ?]]; subst.
  cbn in *. injection E as Ek Ev El. constructor; [split; auto|auto].
Qed.

Lemma Forall_items (l : list (pyobj * pyobj)) :
  forallb (λ '(k, w), python_value k && python_value w) l = true →
  Forall (λ x, python_value x.1 && python_value x.2 = true) l.
Proof. intros Hl. apply Forall_forall. intros [k w] Hin. rewrite forallb_forall in Hl. by apply list_elem_of_In, Hl in Hin. Qed.

Lemma items_are_frames (l : list (pyobj * pyobj)) :
  Forall (λ x, fits x.1 ∧ fits x.2) ((λ '(k, w), (frame k, frame w)) <$> l) →
  Forall (λ x, is_frame x.1 ∧ is_frame x.2) (sort_on fst ((λ '(k, w), (frame k, frame w)) <$> l)).
Proof.
  intros Hl. rewrite sort_on_perm. revert Hl. rewrite !Forall_fmap. intros Hl. eapply Forall_impl; [exact Hl|].
  intros [k w] [Hk Hw]. split; by apply frame_is_frame.
Qed.

Lemma frames_are_frames l : Forall fits (frame <$> l) → Forall is_frame (frame <$> l).
Proof. rewrite !Forall_fmap. intros Hl. eapply Forall_impl; [exact Hl|]. apply frame_is_frame. Qed.

Lemma sequence_inv l l' :
  fits (encode_sequence (frame <$> l)) → fits (encode_sequence (frame <$> l')) →
  encode_sequence (frame <$> l) = encode_sequence (frame <$> l') → frame <$> l = frame <$> l'.
Proof.
  intros Hf Hf' E. apply fits_sequence in Hf, Hf'. unfold encode_sequence in E.
  apply string_app_inv in E as [_ E]; [|unfold to_bytes8; by rewrite !length_digits].
  apply frames_inv in E; [done|by apply frames_are_frames..].
Qed.

Lemma mapping_inv (l l' : list (pyobj * pyobj)) :
  let pairs m := (λ '(k, w), (frame k, frame w)) <$> m in
  fits (encode_mapping (pairs l)) → fits (encode_mapping (pairs l')) →
  encode_mapping (pairs l) = encode_mapping (pairs l') → ∃ l1, l ≡ₚ l1 ∧ pairs l1 = pairs l'.
Proof.
  intros pairs Hf Hf' E. apply fits_mapping in Hf, Hf'. unfold encode_mapping in E.
  apply string_app_inv in E as [_ E]; [|unfold to_bytes8; by rewrite !length_digits].
  apply frame_pairs_inv in E; [|by apply items_are_frames..].
  assert (pairs l' ≡ₚ pairs l) as Hp by (by rewrite <-(sort_on_perm fst (pairs l)), E, sort_on_perm).
  apply Permutation_map_inv in Hp as (l1 & E1 & Hp). by exists l1.
Qed.

Lemma tagged_inj tag payload tag' payload' :
  String.length tag = String.length tag' → tagged tag payload = tagged tag' payload' → tag = tag' ∧ payload = payload'.
Proof.
  intros Ht E. apply string_app_inv in E as [Etag E]; [|done].
  by apply string_app_inv in E as [_ E]; [|unfold to_bytes8; by rewrite !length_digits].
Qed.

Lemma enum_payload_inv m q v m' q' v' :
  let payload m q v := tagged "s" m +:+ tagged "s" q +:+ frame v in
  fits (payload m q v) → fits (payload m' q' v') → payload m q v = payload m' q' v' → m = m' ∧ q = q' ∧ frame v = frame v'.
Proof.
  intros payload [Hm [Hq _]%fits_app]%fits_app [Hm' [Hq' _]%fits_app]%fits_app E. unfold payload in E.
  apply fits_tagged in Hm, Hq, Hm', Hq'.
  apply tagged_inv in E as (_ & -> & E); [|done..]. by apply tagged_inv in E as (_ & -> & ->).
Qed.

Lemma python_date days : python_value (PDate days) = true → date_range days.
Proof. unfold date_range. cbn. destruct (civil_from_days days) as [[y m] d]. lia. Qed.
Lemma python_datetime us : python_value (PDatetime us) = true → date_range (us / 86400000000).
Proof. exact (python_date (us / 86400000000)). Qed.

Lemma frame_same v : framed_apart v.
Proof.
  induction v as [v Hv|m q v IH|l IH|l IH|items IH] using pyobj_nested_ind; intros w Hp Hw Hf E; pose proof Hf as Hf'; rewrite E in Hf'.
  - destruct v; try done; destruct w; apply tagged_inj in E as [Etag E]; try done; try discriminate Etag.
    + constructor.
    + destruct b, b0; try discriminate E; constructor.
    + apply (inj pretty) in E as ->. constructor.
    + apply float_hex_inj in E as ->; [constructor|done..].
    + subst. constructor.
    + subst. constructor.
    + subst. constructor.
    + apply datetime_isoformat_inj in E as ->; [constructor|by apply python_datetime..].
    + apply date_isoformat_inj in E as ->; [constructor|by apply python_date..].
  - destruct w; apply tagged_inj in E as [Etag E]; try done; try discriminate Etag. apply fits_tagged in Hf, Hf'.
    pose proof Hf as [_ [_ Hfv]%fits_app]%fits_app. apply enum_payload_inv in E as (-> & -> & E); [|done..]. constructor. by apply IH.
  - destruct w; apply tagged_inj in E as [Etag E]; try done; try discriminate Etag. apply fits_tagged in Hf, Hf'.
    constructor. apply frames_same; [done..|by apply fits_sequence|by apply sequence_inv].
  - destruct w; apply tagged_inj in E as [Etag E]; try done; try discriminate Etag. apply fits_tagged in Hf, Hf'.
    constructor. apply frames_same; [done..|by apply fits_sequence|by apply sequence_inv].
  - destruct w as [| | | | | | | | | | | |items']; apply tagged_inj in E as [Etag E]; try done; try discriminate Etag.
    apply fits_tagged in Hf, Hf'. apply mapping_inv in E as (l1 & Hperm & E); [|done..].
    apply (same_map _ l1); [done|]. cbn in Hp, Hw. apply andb_prop in Hp as [Hp _], Hw as [Hw _].
    apply item_frames_same; [by rewrite <-Hperm|rewrite <-Hperm; by apply Forall_items|by apply Forall_items| |done].
    rewrite <-Hperm. by apply fits_mapping.
Qed.

Lemma parts_are_frames parts :
  fits (encode_deterministic_parts parts) → Forall fits (frame <$> parts).
Proof. apply fits_concat. Qed.

(** One encoding, the same parts. *)
Lemma parts_same l l' :
  forallb python_value l = true → forallb python_value l' = true → fits (encode_deterministic_parts l) →
  encode_deterministic_parts l = encode_deterministic_parts l' ↔ Forall2 same l l'.
Proof.
  intros Hl Hl' Hfl. split.
  - intros E. pose proof Hfl as Hfl'. rewrite E in Hfl'. apply parts_are_frames in Hfl, Hfl'.
    apply frames_inv in E; [|by apply frames_are_frames..].
    apply frames_same; [apply Forall_forall; intros v _; apply frame_same|done..].
  - intros H2. unfold encode_deterministic_parts. f_equal.
    apply Forall2_frames; [apply Forall_forall; intros v _; apply same_frame|done..].
Qed.

Section identity.
Context `{!Uuid5}.

(** Without collisions of the digest, an identity determines its kind and parts. *)
Lemma deterministic_id_same `{!Inj (=) (=) uuid5} kind kind' parts parts' :
  forallb python_value parts = true → forallb python_value parts' = true →
  fits (encode_deterministic_parts (PStr kind :: parts)) →
  deterministic_id kind parts = deterministic_id kind' parts' → kind = kind' ∧ Forall2 same parts parts'.
Proof.
  intros Hp Hp' Hf E. unfold deterministic_id in E. apply (inj uuid5), hex_inj, parts_same in E; [|done..].
  inversion E as [|? ? ? ? Hk]; subst. by inversion Hk; subst.
Qed.

End identity.

(** Two orders of the items of one mapping, and two splits of one text. *)
Definition order_scope (l : list (string * Z)) : list pyobj :=
  [PMap ((λ '(k, z), (PStr k, PInt z)) <$> l); PFloat fone].

