(* ===== verification/Json.v ===== *)
(** * JSON texts

    The part of Python's [json] module the persistence code uses: [json.dumps]
    with [sort_keys=True], in the compact separators with [ensure_ascii=False]
    and in the default style, and [json.loads].  A string is the UTF-8 bytes of a
    Python [str].  The decoder is total on any text: malformed texts, texts cut
    short included, are refused. *)
From S2P Require Import Prelude Encoding EncodingFacts.
From stdpp Require Import pretty.
From Stdlib Require Import Ascii.
Open Scope string_scope.
Open Scope Z_scope.

(** ** Documents *)

(** What [json.loads] can return; a number with a fraction or an exponent and the
    constants [NaN] and [Infinity] are kept as their literal.  An object is a
    dictionary in insertion order. *)
Inductive json : Type :=
  | JNull
  | JBool (b : bool)
  | JInt (z : Z)
  | JFloat (literal : string)
  | JStr (s : string)
  | JArr (l : list json)
  | JObj (members : list (string * json)).

Lemma json_nested_ind (P : json → Prop) :
  (∀ j, match j with JArr _ | JObj _ => False | _ => True end → P j) →
  (∀ l, Forall P l → P (JArr l)) →
  (∀ members, Forall (λ x, P x.2) members → P (JObj members)) → ∀ j, P j.
Proof.
  intros Hs Ha Ho. fix go 1. intros j. destruct j as [| | | | |l|members]; try by apply Hs.
  - apply Ha. induction l; constructor; [apply go|assumption].
  - apply Ho. induction members as [|[k j] members IH]; constructor; [apply go|assumption].
Qed.

#[global] Instance json_eq_dec : EqDecision json.
Proof.
  refine (fix go (x y : json) : Decision (x = y) :=
    let r : EqDecision json := @go in
    match x, y with
    | JNull, JNull => left _
    | JBool b, JBool b' => cast_if (decide (b = b'))
    | JInt z, JInt z' => cast_if (decide (z = z'))
    | JFloat s, JFloat s' => cast_if (decide (s = s'))
    | JStr s, JStr s' => cast_if (decide (s = s'))
    | JArr l, JArr l' => cast_if (decide (l = l'))
    | JObj l, JObj l' => cast_if (decide (l = l'))
    | _, _ => right _
    end); clear r go; abstract naive_solver.
Defined.

(** ** Characters *)

Definition dquote : ascii := "034"%char.
Definition backslash : ascii := "092"%char.

(** The code points of a UTF-8 text. *)
Fixpoint decode_from (missing : nat) (acc : N) (s : string) : list N :=
  match s with
  | EmptyString => []
  | String c s =>
    let b := N_of_ascii c in
    match missing with
    | O => if (b <? 128)%N then b :: decode_from 0 0 s
           else if (b <? 224)%N then decode_from 1 (b mod 32)%N s
           else if (b <? 240)%N then decode_from 2 (b mod 16)%N s
           else decode_from 3 (b mod 8)%N s
    | S O => (acc * 64 + b mod 64)%N :: decode_from 0 0 s
    | S missing => decode_from missing (acc * 64 + b mod 64)%N s
    end
  end.
Definition code_points (s : string) : list N := decode_from 0 0 s.

(** The UTF-8 bytes of a code point. *)
Definition utf8 (u : N) : string :=
  let cont (n : N) := ascii_of_N (128 + n mod 64)%N in
  if (u <? 128)%N then String (ascii_of_N u) EmptyString
  else if (u <? 2048)%N then String (ascii_of_N (192 + u / 64)) (String (cont u) EmptyString)
  else if (u <? 65536)%N
  then String (ascii_of_N (224 + u / 4096)) (String (cont (u / 64)%N) (String (cont u) EmptyString))
  else String (ascii_of_N (240 + u / 262144))
         (String (cont (u / 4096)%N) (String (cont (u / 64)%N) (String (cont u) EmptyString))).

(** [list(s)]: the characters of a string. *)
Definition chars (s : string) : list string := utf8 <$> code_points s.

(** ** [json.dumps] *)

(** The separators and [ensure_ascii]. *)
Record style := mkStyle { item_separator : string; key_separator : string; ensure_ascii : bool }.
Definition compact : style := mkStyle "," ":" false.
Definition default_style : style := mkStyle ", " ": " true.

Definition unicode_escape (u : N) : string := "\u" +:+ digits 16 hex_digit 4 u.

(** The two-character escapes. *)
Definition short_escape (n : N) : option ascii :=
  if (n =? 34)%N then Some dquote
  else if (n =? 92)%N then Some backslash
  else if (n =? 10)%N then Some "n"%char
  else if (n =? 13)%N then Some "r"%char
  else if (n =? 9)%N then Some "t"%char
  else if (n =? 12)%N then Some "f"%char
  else if (n =? 8)%N then Some "b"%char
  else None.

(** A byte of a string with [ensure_ascii=False]. *)
Definition escape (c : ascii) : string :=
  match short_escape (N_of_ascii c) with
  | Some e => String backslash (String e EmptyString)
  | None => if (N_of_ascii c <? 32)%N then unicode_escape (N_of_ascii c) else String c EmptyString
  end.

(** A code point of a string with [ensure_ascii=True]. *)
Definition escape_ascii (u : N) : string :=
  match short_escape u with
  | Some e => String backslash (String e EmptyString)
  | None =>
    if ((32 <=? u) && (u <=? 126))%N then String (ascii_of_N u) EmptyString
    else if (u <? 65536)%N then unicode_escape u
    else unicode_escape (55296 + (u - 65536) / 1024)%N +:+ unicode_escape (56320 + (u - 65536) mod 1024)%N
  end.

Fixpoint escape_bytes (s : string) : string :=
  match s with EmptyString => EmptyString | String c s => escape c +:+ escape_bytes s end.

Definition quoted (text : string) : string := String dquote (text +:+ String dquote EmptyString).

Definition print_string (o : style) (s : string) : string :=
  quoted (if ensure_ascii o then concat_str (escape_ascii <$> code_points s) else escape_bytes s).

Fixpoint str_join (sep : string) (l : list string) : string :=
  match l with
  | [] => EmptyString
  | [s] => s
  | s :: l => s +:+ (sep +:+ str_join sep l)
  end.

(** [json.dumps(j, sort_keys=True, ...)]. *)
Fixpoint print (o : style) (j : json) : string :=
  match j with
  | JNull => "null"
  | JBool b => if b then "true" else "false"
  | JInt z => pretty z
  | JFloat literal => literal
  | JStr s => print_string o s
  | JArr l => "[" +:+ (str_join (item_separator o) (print o <$> l) +:+ "]")
  | JObj members =>
    "{" +:+ (str_join (item_separator o)
      ((λ '(k, text), print_string o k +:+ (key_separator o +:+ text))
         <$> sort_on fst ((λ '(k, w), (k, print o w)) <$> members)) +:+ "}")
  end.

(** ** [json.loads] *)

Definition is_space (c : ascii) : bool :=
  let n := N_of_ascii c in ((n =? 32) || (n =? 9) || (n =? 10) || (n =? 13))%N.

(** White space is skipped before and after every token. *)
Fixpoint skip (s : string) : string :=
  match s with
  | String c r => if is_space c then skip r else s
  | EmptyString => EmptyString
  end.

(** [s] without the text [p] it begins with. *)
Fixpoint after (p s : string) : option string :=
  match p, s with
  | EmptyString, _ => Some s
  | String a p, String b s => if ascii_dec a b then after p s else None
  | String _ _, EmptyString => None
  end.

Definition hex_value (c : ascii) : option N :=
  let n := N_of_ascii c in
  if ((48 <=? n) && (n <=? 57))%N then Some (n - 48)%N
  else if ((97 <=? n) && (n <=? 102))%N then Some (n - 87)%N
  else if ((65 <=? n) && (n <=? 70))%N then Some (n - 55)%N
  else None.

Definition hex4 (a b c d : ascii) : option N :=
  match hex_value a, hex_value b, hex_value c, hex_value d with
  | Some a, Some b, Some c, Some d => Some (((a * 16 + b) * 16 + c) * 16 + d)%N
  | _, _, _, _ => None
  end.

Definition unescape (c : ascii) : option ascii :=
  let n := N_of_ascii c in
  if (n =? 34)%N then Some dquote
  else if (n =? 92)%N then Some backslash
  else if (n =? 47)%N then Some "/"%char
  else if (n =? 98)%N then Some "008"%char
  else if (n =? 102)%N then Some "012"%char
  else if (n =? 110)%N then Some "010"%char
  else if (n =? 114)%N then Some "013"%char
  else if (n =? 116)%N then Some "009"%char
  else None.

Definition high_surrogate (u : N) : bool := ((55296 <=? u) && (u <=? 56319))%N.
Definition low_surrogate (u : N) : bool := ((56320 <=? u) && (u <=? 57343))%N.

(** A piece of a string: a byte, or the number of an escape [\uXXXX]. *)
Inductive piece : Type := Raw (c : ascii) | Escaped (u : N).

Definition prepend {A} (x : A) (r : option (list A * string)) : option (list A * string) :=
  match r with Some (l, rest) => Some (x :: l, rest) | None => None end.

(** The pieces of a string after its opening quote, and the rest of the text;
    control characters must be escaped. *)
Fixpoint scan_pieces (s : string) : option (list piece * string) :=
  match s with
  | EmptyString => None
  | String c r =>
    if ascii_dec c dquote then Some ([], r)
    else if ascii_dec c backslash then
      match r with
      | EmptyString => None
      | String e r =>
        if ascii_dec e "u" then
          match r with
          | String h1 (String h2 (String h3 (String h4 r))) =>
            match hex4 h1 h2 h3 h4 with
            | Some u => prepend (Escaped u) (scan_pieces r)
            | None => None
            end
          | _ => None
          end
        else
          match unescape e with
          | Some c => prepend (Raw c) (scan_pieces r)
          | None => None
          end
      end
    else if (N_of_ascii c <? 32)%N then None
    else prepend (Raw c) (scan_pieces r)
  end.

(** Two escapes of a surrogate pair are one character. *)
Fixpoint assemble (l : list piece) : string :=
  match l with
  | [] => EmptyString
  | Raw c :: l => String c (assemble l)
  | Escaped u :: l =>
    match l with
    | Escaped w :: l' =>
      if high_surrogate u && low_surrogate w
      then utf8 (65536 + (u - 55296) * 1024 + (w - 56320))%N +:+ assemble l'
      else utf8 u +:+ assemble l
    | _ => utf8 u +:+ assemble l
    end
  end.

Definition scan_string (s : string) : option (string * string) :=
  match scan_pieces s with Some (l, rest) => Some (assemble l, rest) | None => None end.

(** *** Numbers *)

Definition is_digit (c : ascii) : bool := let n := N_of_ascii c in ((48 <=? n) && (n <=? 57))%N.

Fixpoint span_digits (s : string) : string * string :=
  match s with
  | String c r => if is_digit c then let '(ds, rest) := span_digits r in (String c ds, rest) else (EmptyString, s)
  | EmptyString => (EmptyString, EmptyString)
  end.

(** The value of decimal digits. *)
Fixpoint dec_value (acc : N) (ds : string) : N :=
  match ds with
  | EmptyString => acc
  | String c ds => dec_value (acc * 10 + (N_of_ascii c - 48))%N ds
  end.

(** The optional fraction and the optional exponent. *)
Definition fraction (s : string) : string * string :=
  match s with
  | String "." r => let '(ds, rest) := span_digits r in
                    if is_empty ds then (EmptyString, s) else (String "." ds, rest)
  | _ => (EmptyString, s)
  end.

Definition is_exponent_mark (c : ascii) : bool := bool_decide (c = "e"%char) || bool_decide (c = "E"%char).

Definition exponent (s : string) : string * string :=
  match s with
  | String e r =>
    if is_exponent_mark e then
      let '(sign, r) := match r with
                        | String "+" r => ("+", r)
                        | String "-" r => ("-", r)
                        | _ => (EmptyString, r)
                        end in
      let '(ds, rest) := span_digits r in
      if is_empty ds then (EmptyString, s) else (String e (sign +:+ ds), rest)
    else (EmptyString, s)
  | EmptyString => (EmptyString, EmptyString)
  end.

(** An integer without leading zeros, its sign, fraction and exponent. *)
Definition int_part (s : string) : option (string * string) :=
  match span_digits s with
  | (EmptyString, _) => None
  | (String d ds, rest) =>
    Some (if bool_decide (d = "0"%char) then (String d EmptyString, ds +:+ rest) else (String d ds, rest))
  end.

Definition scan_unsigned (negative : bool) (s : string) : option (json * string) :=
  match int_part s with
  | None => None
  | Some (int, rest) =>
    let '(frac, rest1) := fraction rest in
    let '(exp, rest2) := exponent rest1 in
    if is_empty frac && is_empty exp
    then Some (JInt (let v := Z.of_N (dec_value 0 int) in if negative then - v else v), rest)
    else Some (JFloat ((if negative then "-" else EmptyString) +:+ (int +:+ (frac +:+ exp))), rest2)
  end.

Definition scan_number (s : string) : option (json * string) :=
  match s with String "-" r => scan_unsigned true r | _ => scan_unsigned false s end.

(** The words JSON and Python know. *)
Definition words : list (string * json) :=
  [("null", JNull); ("true", JBool true); ("false", JBool false);
   ("NaN", JFloat "NaN"); ("Infinity", JFloat "Infinity"); ("-Infinity", JFloat "-Infinity")].

Fixpoint scan_word (l : list (string * json)) (s : string) : option (json * string) :=
  match l with
  | [] => None
  | (w, j) :: l => match after w s with Some rest => Some (j, rest) | None => scan_word l s end
  end.

Definition scan_atom (s : string) : option (json * string) :=
  match scan_word words s with Some r => Some r | None => scan_number s end.

(** *** Values

    [scan_once]: every recursive call is on a shorter text, so that a fuel above
    the length of the text is enough. *)

(** [dict(pairs)]: a repeated key keeps its place and its last value. *)
Definition build (members : list (string * json)) : list (string * json) :=
  foldl (λ d kv, dict_set kv.1 kv.2 d) [] members.

Fixpoint parse_value (fuel : nat) (s : string) : option (json * string) :=
  match fuel with
  | O => None
  | S fuel =>
    match s with
    | EmptyString => None
    | String c r =>
      if ascii_dec c dquote then
        match scan_string r with Some (text, rest) => Some (JStr text, rest) | None => None end
      else if ascii_dec c "[" then
        match after "]" (skip r) with
        | Some rest => Some (JArr [], rest)
        | None => match parse_elements fuel (skip r) with Some (l, rest) => Some (JArr l, rest) | None => None end
        end
      else if ascii_dec c "{" then
        match after "}" (skip r) with
        | Some rest => Some (JObj [], rest)
        | None => match parse_members fuel (skip r) with Some (l, rest) => Some (JObj (build l), rest) | None => None end
        end
      else scan_atom s
    end
  end
with parse_elements (fuel : nat) (s : string) : option (list json * string) :=
  match fuel with
  | O => None
  | S fuel =>
    match parse_value fuel s with
    | None => None
    | Some (j, r) =>
      match skip r with
      | EmptyString => None
      | String c r =>
        if ascii_dec c "]" then Some ([j], r)
        else if ascii_dec c "," then
          match parse_elements fuel (skip r) with Some (l, rest) => Some (j :: l, rest) | None => None end
        else None
      end
    end
  end
with parse_members (fuel : nat) (s : string) : option (list (string * json) * string) :=
  match fuel with
  | O => None
  | S fuel =>
    match after (String dquote EmptyString) s with
    | None => None
    | Some r =>
      match scan_string r with
      | None => None
      | Some (k, r) =>
        match after ":" (skip r) with
        | None => None
        | Some r =>
          match parse_value fuel (skip r) with
          | None => None
          | Some (j, r) =>
            match skip r with
            | EmptyString => None
            | String c r =>
              if ascii_dec c "}" then Some ([(k, j)], r)
              else if ascii_dec c "," then
                match parse_members fuel (skip r) with Some (l, rest) => Some ((k, j) :: l, rest) | None => None end
              else None
            end
          end
        end
      end
    end
  end.

Definition JSONDecodeError : exn := ValueError "JSONDecodeError".

(** [json.loads(s)]. *)
Definition loads (s : string) : res json :=
  match parse_value (S (String.length s)) (skip s) with
  | Some (j, rest) => if is_empty (skip rest) then Ok j else Err JSONDecodeError
  | None => Err JSONDecodeError
  end.
