(* ===== verification/JsonFacts.v ===== *)
(** * [json.loads] inverts [json.dumps]

    Facts of [Json.v]: strings with their escapes, integers, then whole documents
    are read back as they were written, with the members of objects sorted; and a
    document cut short is refused. *)
From S2P Require Import Prelude Encoding EncodingFacts Json.
From stdpp Require Import pretty.
From Stdlib Require Import Ascii.
Open Scope string_scope.
Open Scope Z_scope.

#[local] Arguments is_digit : simpl never.
#[local] Arguments is_space : simpl never.
#[local] Arguments is_exponent_mark : simpl never.
#[local] Arguments print_string : simpl never.

(** ** Strings *)

(** What is read of an escaped byte. *)
Definition piece_of (c : ascii) : piece :=
  match short_escape (N_of_ascii c) with
  | Some _ => Raw c
  | None => if (N_of_ascii c <? 32)%N then Escaped (N_of_ascii c) else Raw c
  end.

Lemma scan_escape_piece c r : scan_pieces (escape c +:+ r) = prepend (piece_of c) (scan_pieces r).
Proof. destruct c as [[] [] [] [] [] [] [] []]; reflexivity. Qed.

Lemma assemble_piece c l : assemble (piece_of c :: l) = String c (assemble l).
Proof. destruct c as [[] [] [] [] [] [] [] []]; try reflexivity; destruct l as [|[] ?]; reflexivity. Qed.

Lemma scan_escape c r :
  scan_string (escape c +:+ r) = match scan_string r with Some (s, rest) => Some (String c s, rest) | None => None end.
Proof.
  unfold scan_string. rewrite scan_escape_piece. destruct (scan_pieces r) as [[l rest]|]; [|done].
  cbn [prepend]. by rewrite assemble_piece.
Qed.

Lemma scan_escape_bytes s t : scan_string (escape_bytes s +:+ String dquote t) = Some (s, t).
Proof.
  induction s as [|c s IH]; [reflexivity|]. cbn [escape_bytes]. by rewrite string_app_assoc, scan_escape, IH.
Qed.

(** ** Integers *)

Fixpoint all_digits (s : string) : bool :=
  match s with EmptyString => true | String c s => is_digit c && all_digits s end.

(** A text that cannot continue a number. *)
Definition stops (t : string) : bool :=
  match t with
  | EmptyString => true
  | String c _ => negb (is_digit c) && negb (bool_decide (c = "."%char)) && negb (is_exponent_mark c)
  end.

Lemma all_digits_app s t : all_digits (s +:+ t) = all_digits s && all_digits t.
Proof. induction s as [|c s IH]; [done|]. cbn. by rewrite <-andb_assoc, <-IH. Qed.

Lemma dec_value_app a s t : dec_value a (s +:+ t) = dec_value (dec_value a s) t.
Proof. revert a. induction s as [|c s IH]; intros a; [done|]. apply IH. Qed.

Lemma span_digits_app ds t :
  all_digits ds = true → match t with String c _ => is_digit c = false | _ => True end → span_digits (ds +:+ t) = (ds, t).
Proof.
  intros Hds Ht. induction ds as [|c ds IH].
  - change (EmptyString +:+ t) with t. destruct t as [|c t]; [done|]. cbn [span_digits]. by rewrite Ht.
  - cbn [all_digits] in Hds. apply andb_prop in Hds as [Hc Hds].
    change (String c ds +:+ t) with (String c (ds +:+ t)). cbn [span_digits]. by rewrite Hc, IH.
Qed.

Lemma pretty_char n :
  (n < 10)%N → is_digit (pretty_N_char n) = true ∧ (N_of_ascii (pretty_N_char n) - 48 = n)%N
  ∧ (n ≠ 0%N → pretty_N_char n ≠ "0"%char).
Proof.
  intros Hn. assert (n = 0 ∨ n = 1 ∨ n = 2 ∨ n = 3 ∨ n = 4 ∨ n = 5 ∨ n = 6 ∨ n = 7 ∨ n = 8 ∨ n = 9)%N as Hc by lia.
  destruct_or! Hc; subst n; done.
Qed.

Lemma pretty_go_digits n s :
  (0 < n)%N → ∃ d ds, pretty_N_go n s = String d (ds +:+ s) ∧ all_digits (String d ds) = true ∧ d ≠ "0"%char
    ∧ dec_value 0 (String d ds) = n.
Proof.
  revert s. induction (N.lt_wf_0 n) as [n _ IH]; intros s Hn. rewrite pretty_N_go_step by done.
  destruct (pretty_char (n mod 10)) as (Hdig & Hval & Hne); [by apply N.mod_lt|].
  destruct (decide (n < 10)%N) as [Hs|Hs].
  - rewrite N.div_small, pretty_N_go_0 by done. rewrite N.mod_small in * by done.
    exists (pretty_N_char n), EmptyString. cbn [all_digits dec_value]. rewrite Hdig, Hval.
    split_and!; [done..|apply Hne; lia|lia].
  - destruct (IH (n / 10)%N) with (s := String (pretty_N_char (n mod 10)) s) as (d & ds & E & Hds & Hd & Hv).
    { apply N.div_lt; lia. } { apply N.div_str_pos; lia. }
    rewrite E. exists d, (ds +:+ String (pretty_N_char (n mod 10)) EmptyString). split_and!.
    + by rewrite string_app_assoc.
    + change (all_digits (String d ds +:+ String (pretty_N_char (n mod 10)) EmptyString) = true).
      rewrite all_digits_app, Hds. cbn. by rewrite Hdig.
    + done.
    + change (dec_value 0 (String d ds +:+ String (pretty_N_char (n mod 10)) EmptyString) = n).
      rewrite dec_value_app, Hv. cbn [dec_value]. rewrite Hval. rewrite (N.div_mod n 10) at 3 by done. lia.
Qed.

Lemma stops_fraction t : stops t = true → fraction t = (EmptyString, t) ∧ exponent t = (EmptyString, t).
Proof.
  destruct t as [|c t]; [done|]. cbn [stops]. intros [[_ Hdot%negb_true_iff]%andb_prop Hexp%negb_true_iff]%andb_prop.
  apply bool_decide_eq_false in Hdot. split.
  - unfold fraction. destruct c as [[] [] [] [] [] [] [] []]; try reflexivity. by destruct Hdot.
  - cbn [exponent]. by rewrite Hexp.
Qed.

Lemma stops_digit t : stops t = true → match t with String c _ => is_digit c = false | _ => True end.
Proof. destruct t as [|c t]; [done|]. cbn. destruct (is_digit c); done. Qed.

(** A number is read to its end. *)
Lemma scan_unsigned_digits negative d ds t :
  all_digits (String d ds) = true → d ≠ "0"%char ∨ ds = EmptyString → stops t = true →
  scan_unsigned negative (String d ds +:+ t) =
    Some (JInt (let v := Z.of_N (dec_value 0 (String d ds)) in if negative then - v else v), t).
Proof.
  intros Hds Hd Ht. destruct (stops_fraction t Ht) as [Hf He]. unfold scan_unsigned, int_part.
  rewrite (span_digits_app (String d ds) t Hds (stops_digit t Ht)).
  case_bool_decide as H0; [destruct Hd as [?| ->]; [done|]; change (EmptyString +:+ t) with t|]; by rewrite Hf, He.
Qed.

Lemma scan_number_digits d u : is_digit d = true → scan_number (String d u) = scan_unsigned false (String d u).
Proof. intros Hd. destruct d as [[] [] [] [] [] [] [] []]; try discriminate Hd; reflexivity. Qed.

Lemma scan_int z t : stops t = true → scan_atom (pretty z +:+ t) = Some (JInt z, t).
Proof.
  intros Ht.
  assert (∀ p, ∃ d ds, pretty (Npos p) = String d ds ∧ all_digits (String d ds) = true ∧ d ≠ "0"%char
    ∧ dec_value 0 (String d ds) = Npos p) as Hpos.
  { intros p. destruct (pretty_go_digits (Npos p) EmptyString) as (d & ds & E & H); [lia|]. exists d, ds.
    split; [|done]. change (pretty (Npos p)) with (pretty_N_go (Npos p) EmptyString). rewrite E. f_equal.
    clear. induction ds as [|c ds IH]; [done|]. exact (f_equal (String c) IH). }
  assert (∀ d s, is_digit d = true → scan_word words (String d s) = None ∧ scan_word words (String "-" (String d s)) = None) as Hword.
  { intros d s Hd. destruct d as [[] [] [] [] [] [] [] []]; try discriminate Hd; done. }
  destruct z as [|p|p]; unfold scan_atom.
  - change (pretty 0 +:+ t) with (String "0" t). rewrite (proj1 (Hword "0"%char t eq_refl)).
    exact (scan_unsigned_digits false "0" EmptyString t eq_refl (or_intror eq_refl) Ht).
  - destruct (Hpos p) as (d & ds & E & Hds & Hd & Hv). change (pretty (Zpos p)) with (pretty (Npos p)). rewrite E.
    change (String d ds +:+ t) with (String d (ds +:+ t)).
    pose proof Hds as [Hdd _]%andb_prop. rewrite (proj1 (Hword d _ Hdd)), scan_number_digits by done.
    change (String d (ds +:+ t)) with (String d ds +:+ t). rewrite scan_unsigned_digits by auto. by rewrite Hv.
  - destruct (Hpos p) as (d & ds & E & Hds & Hd & Hv). change (pretty (Zneg p)) with ("-" +:+ pretty (Npos p)). rewrite E.
    change (("-" +:+ String d ds) +:+ t) with (String "-" (String d (ds +:+ t))).
    pose proof Hds as [Hdd _]%andb_prop. rewrite (proj2 (Hword d _ Hdd)). cbn [scan_number].
    change (String d (ds +:+ t)) with (String d ds +:+ t). rewrite scan_unsigned_digits by auto. by rewrite Hv.
Qed.

(** ** Documents *)

(** What the encoders write: no fractions, no repeated keys. *)
Fixpoint plain (j : json) : bool :=
  match j with
  | JFloat _ => false
  | JArr l => forallb plain l
  | JObj members => bool_decide (NoDup ((λ '(k, _), k) <$> members)) && forallb (λ '(_, w), plain w) members
  | _ => true
  end.

(** A document with the members of its objects sorted. *)
Fixpoint canon (j : json) : json :=
  match j with
  | JArr l => JArr (canon <$> l)
  | JObj members => JObj (sort_on fst ((λ '(k, w), (k, canon w)) <$> members))
  | _ => j
  end.

(** The fuel a document needs. *)
Fixpoint jsize (j : json) : nat :=
  match j with
  | JArr l => S (foldr (λ x n, S (jsize x) + n)%nat O l)
  | JObj members => S (foldr (λ '(_, w) n, S (jsize w) + n)%nat O members)
  | _ => 1%nat
  end.

Notation printed j := (print compact j).
Definition member (x : string * json) : string := print_string compact x.1 +:+ (":" +:+ printed x.2).

Lemma sort_on_fmap {A B} (f : A → B) (kA : A → string) (kB : B → string) l :
  (∀ x, x ∈ l → kB (f x) = kA x) → sort_on kB (f <$> l) = f <$> sort_on kA l.
Proof.
  intros Hk. unfold sort_on. induction l as [|x l IH]; [done|]. rewrite fmap_cons. cbn [foldr].
  rewrite IH by (intros y Hy; apply Hk; by constructor).
  assert (∀ y, y ∈ sort_on kA l → kB (f y) = kA y) as Hs.
  { intros y Hy%elem_of_sort_on. apply Hk. by constructor. }
  assert (kB (f x) = kA x) as Hx by (apply Hk; constructor). unfold sort_on in Hs.
  clear IH Hk. induction (foldr (insert_on kA) [] l) as [|y s IHs]; [done|].
  cbn. rewrite Hx, Hs by constructor. destruct (py_leb (kA x) (kA y)); cbn; [done|]. f_equal. apply IHs.
  intros z Hz. apply Hs. by constructor.
Qed.

Lemma print_object members :
  printed (JObj members) = "{" +:+ (str_join "," (member <$> sort_on fst members) +:+ "}").
Proof.
  cbn. do 3 f_equal. rewrite (sort_on_fmap _ fst fst) by (by intros [k w]).
  rewrite <-list_fmap_compose. apply list_fmap_ext. by intros i [k w] _.
Qed.

Lemma canon_object members :
  canon (JObj members) = JObj ((λ '(k, w), (k, canon w)) <$> sort_on fst members).
Proof. cbn. by rewrite (sort_on_fmap _ fst fst) by (by intros [k w]). Qed.

Lemma build_distinct l : NoDup (fst <$> l) → build l = l.
Proof.
  unfold build. intros Hnd. enough (∀ d, NoDup ((fst <$> d) ++ (fst <$> l))%list →
    foldl (λ d kv, dict_set kv.1 kv.2 d) d l = (d ++ l)%list) as H by (by apply (H [])).
  clear Hnd. induction l as [|[k w] l IH]; intros d Hd; cbn; [by rewrite app_nil_r|].
  rewrite dict_set_fresh.
  - rewrite IH; [by rewrite <-app_assoc|]. rewrite fmap_app. cbn. by rewrite <-app_assoc.
  - intros Hin. apply NoDup_app in Hd as (_ & Hd & _). apply (Hd _ Hin). cbn. by constructor.
Qed.

(** The first character of a document. *)
Lemma print_head j :
  plain j = true → ∃ c s, printed j = String c s ∧ is_space c = false ∧ c ≠ "]"%char.
Proof.
  destruct j as [|[]|z| |s|l|members]; intros Hj; try (by do 2 eexists; split; [reflexivity|]); [|discriminate Hj].
  destruct z as [|p|p]; [by do 2 eexists| |by do 2 eexists].
  cbn [print]. change (pretty (Zpos p)) with (pretty_N_go (Npos p) EmptyString).
  destruct (pretty_go_digits (Npos p) EmptyString) as (d & ds & E & Hds & _); [lia|]. rewrite E.
  exists d, (ds +:+ EmptyString). split; [done|]. cbn in Hds. apply andb_prop in Hds as [Hd _].
  by destruct d as [[] [] [] [] [] [] [] []].
Qed.

Lemma skip_print j t : plain j = true → skip (printed j +:+ t) = printed j +:+ t.
Proof. intros Hj. destruct (print_head j Hj) as (c & s & E & Hc & _). rewrite E.
  change (String c s +:+ t) with (String c (s +:+ t)). cbn [skip]. by rewrite Hc.
Qed.

Definition reads (j : json) : Prop :=
  ∀ t n, plain j = true → stops t = true → (jsize j ≤ n)%nat → parse_value n (printed j +:+ t) = Some (canon j, t).

Lemma str_join_cons sep s l t :
  str_join sep (s :: l) +:+ t = s +:+ (match l with [] => EmptyString | _ => sep +:+ str_join sep l end +:+ t).
Proof.
  destruct l as [|s' l]; [done|]. cbn [str_join]. by rewrite !string_app_assoc.
Qed.

Lemma read_elements x l t n :
  Forall reads (x :: l) → forallb plain (x :: l) = true →
  (foldr (λ x n, S (jsize x) + n) O (x :: l) ≤ n)%nat →
  parse_elements n (str_join "," (print compact <$> x :: l) +:+ String "]" t) = Some (canon <$> x :: l, t).
Proof.
  revert x n. induction l as [|y l IH]; intros x n Hr Hp Hn; inversion Hr as [|? ? Hx Hl]; subst.
  all: cbn [forallb] in Hp; apply andb_prop in Hp as [Hpx Hpl]; cbn [foldr] in Hn; destruct n as [|n]; [lia|].
  all: rewrite fmap_cons, str_join_cons.
  - change (parse_elements (S n) (printed x +:+ String "]" t) = Some ([canon x], t)). cbn [parse_elements]. rewrite (Hx (String "]" t) n Hpx eq_refl) by lia. reflexivity.
  - rewrite fmap_cons, string_app_assoc.
    change (parse_elements (S n) (printed x +:+ String "," (str_join "," (printed y :: (print compact <$> l)) +:+ String "]" t))
      = Some (canon <$> x :: y :: l, t)). cbn [parse_elements].
    rewrite (Hx _ n Hpx) by (reflexivity || lia). cbn [skip]. change (is_space ",") with false. cbn match.
    destruct (ascii_dec "," "]") as [E|_]; [discriminate E|]. destruct (ascii_dec "," ",") as [_|E]; [|by destruct E].
    assert (plain y = true) as Hpy by (by apply andb_prop in Hpl as [? _]).
    assert (skip (str_join "," (printed y :: (print compact <$> l)) +:+ String "]" t)
      = str_join "," (printed y :: (print compact <$> l)) +:+ String "]" t) as ->.
    { by rewrite str_join_cons, skip_print. }
    rewrite <-(fmap_cons (print compact)), (IH y n Hl Hpl) by (cbn [foldr]; lia). reflexivity.
Qed.

Lemma member_text k w r :
  member (k, w) +:+ r = String dquote (escape_bytes k +:+ String dquote (String ":" (printed w +:+ r))).
Proof.
  unfold member, print_string, quoted. cbn [ensure_ascii compact fst snd]. rewrite string_app_assoc.
  change (String dquote (escape_bytes k +:+ String dquote EmptyString) +:+ ((":" +:+ printed w) +:+ r))
    with (String dquote ((escape_bytes k +:+ String dquote EmptyString) +:+ String ":" (printed w +:+ r))).
  by rewrite string_app_assoc.
Qed.

(** One member, up to the character that follows it. *)
Lemma read_member k w c r n :
  reads w → plain w = true → stops (String c r) = true → is_space c = false → (jsize w ≤ n)%nat →
  parse_members (S n) (member (k, w) +:+ String c r) =
    if ascii_dec c "}" then Some ([(k, canon w)], r)
    else if ascii_dec c "," then
      match parse_members n (skip r) with Some (l, rest) => Some ((k, canon w) :: l, rest) | None => None end
    else None.
Proof.
  intros Hw Hp Hs Hc Hn. rewrite member_text. cbn [parse_members].
  change (after (String dquote EmptyString) (String dquote ?s)) with (Some s). cbn match.
  rewrite scan_escape_bytes. cbn [skip]. change (is_space ":") with false. cbn match.
  change (after ":" (String ":" ?s)) with (Some s). cbn match.
  rewrite skip_print, (Hw _ n Hp Hs Hn) by done. cbn [skip]. by rewrite Hc.
Qed.

Lemma read_members x l t n :
  Forall (λ m, reads m.2) (x :: l) → Forall (λ m, plain m.2 = true) (x :: l) →
  (foldr (λ '(_, w) n, S (jsize w) + n) O (x :: l) ≤ n)%nat →
  parse_members n (str_join "," (member <$> x :: l) +:+ String "}" t) = Some ((λ '(k, w), (k, canon w)) <$> x :: l, t).
Proof.
  revert x n. induction l as [|[k' w'] l IH]; intros [k w] n Hr Hp Hn; inversion Hr as [|? ? Hx Hl]; inversion Hp as [|? ? Hpx Hpl]; subst.
  all: cbn [foldr] in Hn; destruct n as [|n]; [lia|]; cbn [snd] in *.
  - change (parse_members (S n) (member (k, w) +:+ String "}" t) = Some ([(k, canon w)], t)).
    by rewrite read_member by (done || lia).
  - rewrite !fmap_cons, str_join_cons, string_app_assoc.
    change (parse_members (S n) (member (k, w) +:+ String "," (str_join "," (member (k', w') :: (member <$> l)) +:+ String "}" t))
      = Some ((k, canon w) :: ((λ '(k, w), (k, canon w)) <$> (k', w') :: l), t)).
    rewrite read_member by (done || lia). cbn match. destruct (ascii_dec "," "}") as [E|_]; [discriminate E|].
    destruct (ascii_dec "," ",") as [_|E]; [|by destruct E].
    assert (skip (str_join "," (member (k', w') :: (member <$> l)) +:+ String "}" t)
      = str_join "," (member (k', w') :: (member <$> l)) +:+ String "}" t) as ->.
    { by rewrite str_join_cons, member_text. }
    rewrite <-(fmap_cons member), (IH (k', w') n Hl Hpl); [reflexivity|]. cbn [foldr] in *. lia.
Qed.

(** A permutation of members needs the same fuel. *)
Lemma members_size (l l' : list (string * json)) :
  l ≡ₚ l' → foldr (λ '(_, w) n, S (jsize w) + n)%nat O l = foldr (λ '(_, w) n, S (jsize w) + n)%nat O l'.
Proof.
  induction 1 as [|[k w] l l' _ IH|[k w] [k' w'] l|l l' l'' _ IH _ IH'].
  - done.
  - exact (f_equal (λ m, S (jsize w) + m)%nat IH).
  - apply Nat.add_shuffle3.
  - by rewrite IH.
Qed.

Lemma plain_members members :
  plain (JObj members) = true → NoDup (fst <$> members) ∧ Forall (λ m, plain m.2 = true) members.
Proof.
  intros [Hnd Hp]%andb_prop. apply bool_decide_eq_true in Hnd. split.
  - erewrite list_fmap_ext; [exact Hnd|]. by intros i [k w] _.
  - apply Forall_forall. intros [k w] Hin. rewrite forallb_forall in Hp. by apply list_elem_of_In, Hp in Hin.
Qed.

Lemma read_value j : reads j.
Proof.
  induction j as [j Hj|l IH|members IH] using json_nested_ind; intros t n Hp Ht Hn.
  - destruct n as [|n]; [destruct j; inversion Hn|]. destruct j as [|b|z| |s| |]; try done.
    + destruct b; reflexivity.
    + cbn [print canon]. rewrite <-scan_int by done. destruct (print_head (JInt z) eq_refl) as (c & s & E & _).
      cbn [print] in E. rewrite E. change (String c s +:+ t) with (String c (s +:+ t)). cbn [parse_value].
      pose proof (scan_int z t Ht) as Hscan. rewrite E in Hscan.
      destruct (ascii_dec c dquote) as [->|_]; [discriminate Hscan|].
      destruct (ascii_dec c "[") as [->|_]; [discriminate Hscan|]. by destruct (ascii_dec c "{") as [->|_]; [discriminate Hscan|].
    + cbn [print canon]. unfold print_string, quoted. cbn [ensure_ascii compact].
      change (String dquote ?s +:+ t) with (String dquote (s +:+ t)). cbn [parse_value].
      rewrite string_app_assoc. destruct (ascii_dec dquote dquote) as [_|E]; [|by destruct E].
      change (String dquote EmptyString +:+ t) with (String dquote t). by rewrite scan_escape_bytes.
  - cbn [jsize] in Hn. destruct n as [|n]; [lia|]. cbn [print canon].
    change (parse_value (S n) (String "[" ((str_join "," (print compact <$> l) +:+ "]") +:+ t)) = Some (JArr (canon <$> l), t)).
    cbn [parse_value]. destruct (ascii_dec "[" dquote) as [E|_]; [discriminate E|].
    destruct (ascii_dec "[" "[") as [_|E]; [|by destruct E]. rewrite string_app_assoc.
    change ("]" +:+ t) with (String "]" t). destruct l as [|x l]; [reflexivity|].
    pose proof Hp as Hpx. cbn [plain forallb] in Hpx. apply andb_prop in Hpx as [Hpx _].
    assert (skip (str_join "," (print compact <$> x :: l) +:+ String "]" t) = str_join "," (print compact <$> x :: l) +:+ String "]" t
      ∧ after "]" (str_join "," (print compact <$> x :: l) +:+ String "]" t) = None) as [-> ->].
    { rewrite fmap_cons, str_join_cons, skip_print by done. split; [done|]. destruct (print_head x Hpx) as (c & s & E & _ & Hc).
      rewrite E. cbn [after]. change (String c s +:+ ?u) with (String c (s +:+ u)). cbn [after].
      destruct (ascii_dec "]" c) as [<-|_]; done. }
    rewrite (read_elements x l t n IH Hp) by lia. reflexivity.
  - cbn [jsize] in Hn. destruct n as [|n]; [lia|]. rewrite print_object, canon_object.
    destruct (plain_members _ Hp) as [Hnd Hpm].
    set (sorted := sort_on fst members). assert (sorted ≡ₚ members) as Hperm by apply sort_on_perm.
    rewrite <-Hperm in Hnd, IH, Hpm. rewrite <-(members_size _ _ Hperm) in Hn. clearbody sorted. clear Hperm Hp.
    change (parse_value (S n) (String "{" ((str_join "," (member <$> sorted) +:+ "}") +:+ t)) = Some (JObj ((λ '(k, w), (k, canon w)) <$> sorted), t)).
    cbn [parse_value]. destruct (ascii_dec "{" dquote) as [E|_]; [discriminate E|].
    destruct (ascii_dec "{" "[") as [E|_]; [discriminate E|]. destruct (ascii_dec "{" "{") as [_|E]; [|by destruct E].
    rewrite string_app_assoc. change ("}" +:+ t) with (String "}" t). destruct sorted as [|[k w] l]; [reflexivity|].
    assert (skip (str_join "," (member <$> (k, w) :: l) +:+ String "}" t) = str_join "," (member <$> (k, w) :: l) +:+ String "}" t
      ∧ after "}" (str_join "," (member <$> (k, w) :: l) +:+ String "}" t) = None) as [-> ->].
    { by rewrite fmap_cons, str_join_cons, member_text. }
    rewrite (read_members (k, w) l t n IH Hpm) by lia. rewrite build_distinct; [done|].
    rewrite <-list_fmap_compose. erewrite list_fmap_ext; [exact Hnd|]. by intros i [? ?] _.
Qed.

(** ** Whole texts *)

Lemma length_str_join l :
  (foldr (λ s n, S (String.length s) + n) O l ≤ S (String.length (str_join "," l)))%nat.
Proof.
  induction l as [|s l IH]; [cbn; lia|]. destruct l as [|s' l]; [cbn; lia|].
  cbn [foldr] in *. change (str_join "," (s :: s' :: l)) with (s +:+ ("," +:+ str_join "," (s' :: l))).
  rewrite !string_length_app. change (String.length ",") with 1%nat. lia.
Qed.

Lemma jsize_printed j : plain j = true → (jsize j ≤ String.length (printed j))%nat.
Proof.
  induction j as [j Hj|l IH|members IH] using json_nested_ind; intros Hp.
  - destruct (print_head j Hp) as (c & s & E & _). rewrite E. destruct j; try done; apply le_n_S, Nat.le_0_l.
  - cbn [jsize print]. rewrite !string_length_app. change (String.length "[") with 1%nat. change (String.length "]") with 1%nat.
    pose proof (length_str_join (print compact <$> l)) as Hj.
    enough (foldr (λ x n, S (jsize x) + n) O l ≤ foldr (λ s n, S (String.length s) + n) O (print compact <$> l))%nat as Hl.
    { cbn [item_separator compact]. lia. }
    clear Hj. induction IH as [|x l Hx _ IHl]; [done|]. cbn [plain forallb] in Hp. apply andb_prop in Hp as [Hpx Hpl].
    rewrite fmap_cons. cbn [foldr]. specialize (Hx Hpx). specialize (IHl Hpl). lia.
  - destruct (plain_members _ Hp) as [_ Hpm]. rewrite print_object. cbn [jsize].
    rewrite <-(members_size _ _ (sort_on_perm fst members)). rewrite <-(sort_on_perm fst members) in IH, Hpm.
    generalize dependent (sort_on fst members). intros l IH Hpm.
    rewrite !string_length_app. change (String.length "{") with 1%nat. change (String.length "}") with 1%nat.
    pose proof (length_str_join (member <$> l)) as Hj.
    enough (foldr (λ '(_, w) n, S (jsize w) + n) O l ≤ foldr (λ s n, S (String.length s) + n) O (member <$> l))%nat as Hl by lia.
    clear Hj. induction IH as [|[k w] l Hx _ IHl]; [done|]. inversion Hpm as [|? ? Hpx Hpl]; subst.
    rewrite fmap_cons. cbn [foldr snd] in *. specialize (Hx Hpx). specialize (IHl Hpl).
    unfold member at 1. cbn [fst snd]. rewrite !string_length_app. lia.
Qed.

(** [json.loads(json.dumps(j, sort_keys=True, ...))]. *)
Lemma loads_printed j : plain j = true → loads (printed j) = Ok (canon j).
Proof.
  intros Hp. unfold loads. pose proof (jsize_printed j Hp) as Hn. pose proof (skip_print j EmptyString Hp) as Hskip.
  pose proof (read_value j EmptyString (S (String.length (printed j))) Hp eq_refl) as Hread.
  rewrite string_app_empty in Hskip, Hread. by rewrite Hskip, Hread by lia.
Qed.

(** ** Texts cut short

    Reading a value does not look beyond the character that ends it, so a text
    that is accepted is accepted with anything after it.  A proper prefix of an
    object can therefore not be a document. *)

#[local] Arguments String.append !_ _ /.

Lemma scan_pieces_app n s l r t :
  (String.length s ≤ n)%nat → scan_pieces s = Some (l, r) → scan_pieces (s +:+ t) = Some (l, r +:+ t).
Proof.
  assert (∀ x s l r, (∀ l r, scan_pieces s = Some (l, r) → scan_pieces (s +:+ t) = Some (l, r +:+ t)) →
    prepend x (scan_pieces s) = Some (l, r) → prepend x (scan_pieces (s +:+ t)) = Some (l, r +:+ t)) as Hpre.
  { intros x s' l' r' IH E. destruct (scan_pieces s') as [[l1 r1]|] eqn:Es; [|done]. rewrite (IH _ _ eq_refl).
    cbn in *. by injection E as <- <-. }
  revert s l r. induction n as [|n IH]; intros [|c s] l r Hn E; try done; [inversion Hn|].
  cbn [String.append scan_pieces] in *. destruct (ascii_dec c dquote) as [_|_]; [by injection E as <- <-|].
  destruct (ascii_dec c backslash) as [_|_].
  - destruct s as [|e s]; [done|]. cbn [String.append]. destruct (ascii_dec e "u").
    + destruct s as [|h1 [|h2 [|h3 [|h4 s]]]]; try done. cbn [String.append].
      destruct (hex4 h1 h2 h3 h4); [|done]. apply Hpre; [|done]. intros l' r'. apply IH. cbn in Hn. lia.
    + destruct (unescape e); [|done]. apply Hpre; [|done]. intros l' r'. apply IH. cbn in Hn. lia.
  - destruct (N_of_ascii c <? 32)%N; [done|]. apply Hpre; [|done]. intros l' r'. apply IH. cbn in Hn. lia.
Qed.

Lemma scan_string_app s x r t : scan_string s = Some (x, r) → scan_string (s +:+ t) = Some (x, r +:+ t).
Proof.
  unfold scan_string. destruct (scan_pieces s) as [[l r1]|] eqn:E; [|done]. intros [= <- <-].
  by rewrite (scan_pieces_app _ s l r1 t (le_n _) E).
Qed.

Lemma skip_app s c r t : skip s = String c r → skip (s +:+ t) = String c (r +:+ t).
Proof.
  induction s as [|a s IH]; [done|]. cbn [String.append skip]. destruct (is_space a); [done|]. by intros [= -> ->].
Qed.

Lemma after_spec p s r : after p s = Some r ↔ s = p +:+ r.
Proof.
  revert s. induction p as [|a p IH]; intros s; [cbn; split; congruence|]. destruct s as [|b s]; [done|].
  cbn [after String.append]. destruct (ascii_dec a b) as [->|Hab]; [rewrite IH|]; split; congruence.
Qed.

Lemma after_app p s r t : after p s = Some r → after p (s +:+ t) = Some (r +:+ t).
Proof. rewrite !after_spec. intros ->. apply string_app_assoc. Qed.

Lemma span_digits_spec s ds r t :
  span_digits s = (ds, r) → s = ds +:+ r ∧ (r ≠ EmptyString → span_digits (s +:+ t) = (ds, r +:+ t)).
Proof.
  revert ds r. induction s as [|c s IH]; intros ds r E; [by injection E as <- <-|]. cbn [span_digits String.append] in *.
  destruct (is_digit c); [|by injection E as <- <-]. destruct (span_digits s) as [ds' r'] eqn:Es. injection E as <- <-.
  destruct (IH ds' r' eq_refl) as [-> IH']. split; [done|]. intros Hr. by rewrite (IH' Hr).
Qed.

(** The character after a number. *)
Definition ended (r : string) : Prop := ∃ c r', r = String c r' ∧ stops r = true.

Lemma ended_nonempty r : ended r → r ≠ EmptyString.
Proof. intros (c & r' & -> & _) E. discriminate E. Qed.

Lemma ended_app r t : ended r → ended (r +:+ t).
Proof. intros (c & r' & -> & Hs). by exists c, (r' +:+ t). Qed.

Lemma fraction_app s f r t :
  fraction s = (f, r) → r ≠ EmptyString → match r with String "." _ => False | _ => True end →
  fraction (s +:+ t) = (f, r +:+ t).
Proof.
  destruct s as [|c s]; [by intros [= <- <-]|].
  destruct (ascii_dec c ".") as [->|Hc].
  - cbn [fraction String.append]. destruct (span_digits s) as [ds rest] eqn:Es. destruct (is_empty ds) eqn:Ed.
    + by intros [= <- <-].
    + intros [= <- <-] Hr _. destruct (span_digits_spec _ _ _ t Es) as [_ ->]; [|done]. by rewrite Ed.
  - assert (∀ u, fraction (String c u) = (EmptyString, String c u)) as Hf.
    { intros u. destruct c as [[] [] [] [] [] [] [] []]; try reflexivity. by destruct Hc. }
    cbn [String.append]. rewrite !Hf. by intros [= <- <-].
Qed.

Lemma exponent_app s x r t : exponent s = (x, r) → ended r → exponent (s +:+ t) = (x, r +:+ t).
Proof.
  intros E Hr. destruct s as [|e s]; [injection E as <- <-; by destruct Hr as (? & ? & ? & _)|].
  cbn [exponent String.append] in *. destruct (is_exponent_mark e) eqn:He; [|by injection E as <- <-].
  assert (∀ x' s', span_digits s' = (EmptyString, x') → r ≠ String e s) as Hnot.
  { intros _ _ _ ->. destruct Hr as (c & r' & [= -> ->] & Hs). cbn [stops] in Hs. rewrite He in Hs. by rewrite andb_false_r in Hs. }
  assert (∀ sg u, (let '(ds, rest) := span_digits u in
      if is_empty ds then (EmptyString, String e s) else (String e (sg +:+ ds), rest)) = (x, r) →
    (let '(ds, rest) := span_digits (u +:+ t) in
      if is_empty ds then (EmptyString, String e (s +:+ t)) else (String e (sg +:+ ds), rest)) = (x, r +:+ t)) as Hgo.
  { intros sg u. destruct (span_digits u) as [ds rest] eqn:Eu. destruct (is_empty ds) eqn:Ed.
    - apply bool_decide_eq_true in Ed. subst. intros [= <- <-]. by destruct (Hnot _ _ Eu).
    - intros [= <- <-]. rewrite (proj2 (span_digits_spec _ _ _ t Eu) (ended_nonempty _ Hr)). by rewrite Ed. }
  destruct s as [|c s].
  - exfalso. cbn in E. injection E as <- <-. by apply (Hnot EmptyString EmptyString).
  - destruct (ascii_dec c "+") as [->|Hp]; [by apply (Hgo "+" s)|]. destruct (ascii_dec c "-") as [->|Hm]; [by apply (Hgo "-" s)|].
    cbn [String.append].
    assert (∀ u, match String c u with String "+" r => ("+", r) | String "-" r => ("-", r) | _ => (EmptyString, String c u) end
      = (EmptyString, String c u)) as Hsign.
    { intros u. destruct c as [[] [] [] [] [] [] [] []]; try reflexivity; [by destruct Hp|by destruct Hm]. }
    rewrite Hsign in E. rewrite Hsign. by apply (Hgo EmptyString (String c s)).
Qed.

Lemma span_digits_more s ds t :
  span_digits s = (ds, EmptyString) → span_digits (s +:+ t) = (ds +:+ (span_digits t).1, (span_digits t).2).
Proof.
  revert ds. induction s as [|c s IH]; intros ds; cbn [span_digits String.append].
  - intros [= <-]. by destruct (span_digits t).
  - destruct (is_digit c); [|done]. destruct (span_digits s) as [ds' r]. intros [= <- ->]. by rewrite (IH ds' eq_refl).
Qed.

Lemma int_part_app s i r t : int_part s = Some (i, r) → r ≠ EmptyString → int_part (s +:+ t) = Some (i, r +:+ t).
Proof.
  unfold int_part. destruct (span_digits s) as [[|d ds] rest] eqn:Es; [done|]. intros E Hr.
  destruct (span_digits_spec _ _ _ t Es) as [_ Hspan]. destruct (decide (rest = EmptyString)) as [->|Hrest].
  - rewrite (span_digits_more _ _ t Es). cbn [String.append]. case_bool_decide; injection E as <- <-; [|done].
    rewrite string_app_empty, string_app_assoc. destruct (span_digits t) as [ds' r'] eqn:Et.
    by rewrite (proj1 (span_digits_spec _ _ _ EmptyString Et)).
  - rewrite (Hspan Hrest). case_bool_decide; injection E as <- <-; by rewrite ?string_app_assoc.
Qed.

Lemma exponent_rest s x r : exponent s = (x, r) → ended r → s ≠ EmptyString ∧ match s with String "." _ => False | _ => True end.
Proof.
  intros E Hr. destruct s as [|c s]; [injection E as <- <-; by apply ended_nonempty in Hr|]. split; [done|].
  destruct (ascii_dec c ".") as [->|Hc].
  - injection E as <- <-. destruct Hr as (c & r' & [= <- <-] & Hs). discriminate Hs.
  - destruct c as [[] [] [] [] [] [] [] []]; try exact I. by destruct Hc.
Qed.

Lemma scan_unsigned_app negative s j r t :
  scan_unsigned negative s = Some (j, r) → ended r → scan_unsigned negative (s +:+ t) = Some (j, r +:+ t).
Proof.
  unfold scan_unsigned. intros E Hr. destruct (int_part s) as [[int rest]|] eqn:Ei; [|done].
  destruct (fraction rest) as [f rest1] eqn:Ef. destruct (exponent rest1) as [x rest2] eqn:Ex.
  destruct (is_empty f && is_empty x) eqn:Eint; injection E as <- <-.
  - rewrite (int_part_app _ _ _ t Ei (ended_nonempty _ Hr)). destruct (ended_app rest t Hr) as (c & u & Eu & Hu).
    destruct (stops_fraction _ Hu) as [Hf He]. rewrite Eu in *. by rewrite Hf, He.
  - destruct (exponent_rest _ _ _ Ex Hr) as [Hne Hdot].
    assert (rest ≠ EmptyString) as Hrest by (intros ->; injection Ef as <- <-; done).
    by rewrite (int_part_app _ _ _ t Ei Hrest), (fraction_app _ _ _ t Ef Hne Hdot), (exponent_app _ _ _ t Ex Hr), Eint.
Qed.

Lemma scan_number_app s j r t : scan_number s = Some (j, r) → ended r → scan_number (s +:+ t) = Some (j, r +:+ t).
Proof.
  intros E Hr. destruct s as [|c s]; [done|]. destruct (ascii_dec c "-") as [->|Hc]; [by apply scan_unsigned_app|].
  assert (∀ u, scan_number (String c u) = scan_unsigned false (String c u)) as Hnum.
  { intros u. destruct c as [[] [] [] [] [] [] [] []]; try reflexivity. by destruct Hc. }
  cbn [String.append]. rewrite Hnum in *. by apply (scan_unsigned_app false (String c s)).
Qed.

Lemma scan_word_app l s j r t :
  (∀ w j u, (w, j) ∈ l → scan_word l (w +:+ u) = Some (j, u)) →
  scan_word l s = Some (j, r) → scan_word l (s +:+ t) = Some (j, r +:+ t).
Proof.
  intros Hl E. assert (∃ w, (w, j) ∈ l ∧ s = w +:+ r) as (w & Hw & ->).
  { clear Hl. induction l as [|[w j'] l IH]; [done|]. cbn [scan_word] in E. destruct (after w s) as [rest|] eqn:Ea.
    - injection E as <- <-. exists w. apply after_spec in Ea. split; [by constructor|done].
    - destruct (IH E) as (w' & Hw & ?). exists w'. split; [by constructor|done]. }
  rewrite string_app_assoc. by apply Hl.
Qed.

Lemma scan_atom_app s j r t : scan_atom s = Some (j, r) → ended r → scan_atom (s +:+ t) = Some (j, r +:+ t).
Proof.
  unfold scan_atom. intros E Hr. destruct (scan_word words s) as [[j' r']|] eqn:Ew.
  - injection E as -> ->. rewrite (scan_word_app _ _ _ _ t) with (2 := Ew); [done|].
    intros w j' u Hw. unfold words in Hw. rewrite !elem_of_cons in Hw.
    destruct Hw as [[= -> ->]|[[= -> ->]|[[= -> ->]|[[= -> ->]|[[= -> ->]|[[= -> ->]|Hw]]]]]]; try reflexivity. by apply not_elem_of_nil in Hw.
  - assert (scan_word words (s +:+ t) = None) as ->; [|by apply scan_number_app].
    destruct s as [|c s]; [done|].
    assert (∀ d u, is_digit d = true → scan_word words (String d u) = None ∧ scan_word words (String "-" (String d u)) = None) as Hword.
    { intros d u Hd. destruct d as [[] [] [] [] [] [] [] []]; try discriminate Hd; done. }
    assert (∀ b u, scan_unsigned b u = Some (j, r) → ∃ d u', u = String d u' ∧ is_digit d = true) as Hfirst.
    { intros b u. unfold scan_unsigned, int_part. destruct u as [|d u]; [done|]. cbn [span_digits].
      destruct (is_digit d) eqn:Hd; [|done]. by exists d, u. }
    destruct (ascii_dec c "-") as [->|Hc].
    + destruct (Hfirst true s E) as (d & u & -> & Hd). by apply Hword.
    + assert (scan_unsigned false (String c s) = Some (j, r)) as E'.
      { rewrite <-E. destruct c as [[] [] [] [] [] [] [] []]; try reflexivity. by destruct Hc. }
      destruct (Hfirst false _ E') as (d & u & [= -> ->] & Hd). by apply Hword.
Qed.

(** *** Fuel *)

Lemma parse_fuel_S n :
  (∀ s x, parse_value n s = Some x → parse_value (S n) s = Some x)
  ∧ (∀ s x, parse_elements n s = Some x → parse_elements (S n) s = Some x)
  ∧ (∀ s x, parse_members n s = Some x → parse_members (S n) s = Some x).
Proof.
  induction n as [|n (IHv & IHe & IHm)]; [done|]. split_and!; intros s x E.
  - destruct s as [|c s]; [done|]. cbn [parse_value] in E |- *.
    destruct (ascii_dec c dquote) as [_|_]; [done|]. destruct (ascii_dec c "[") as [_|_]; [|destruct (ascii_dec c "{") as [_|_]; [|done]].
    + destruct (after "]" (skip s)); [done|]. destruct (parse_elements n (skip s)) as [[l r]|] eqn:El; [|done].
      rewrite (IHe _ _ El). done.
    + destruct (after "}" (skip s)); [done|]. destruct (parse_members n (skip s)) as [[l r]|] eqn:El; [|done].
      rewrite (IHm _ _ El). done.
  - change (parse_elements (S (S n)) s) with (match parse_value (S n) s with None => None | Some (j, r) => match skip r with
      | EmptyString => None | String c r => if ascii_dec c "]" then Some ([j], r) else if ascii_dec c "," then
          match parse_elements (S n) (skip r) with Some (l, rest) => Some (j :: l, rest) | None => None end else None end end).
    cbn [parse_elements] in E. destruct (parse_value n s) as [[j r]|] eqn:Ev; [|done]. rewrite (IHv _ _ Ev).
    destruct (skip r) as [|c r']; [done|]. destruct (ascii_dec c "]") as [_|_]; [done|].
    destruct (ascii_dec c ",") as [_|_]; [|done]. destruct (parse_elements n (skip r')) as [[l r1]|] eqn:El; [|done].
    rewrite (IHe _ _ El). done.
  - change (parse_members (S (S n)) s) with (match after (String dquote EmptyString) s with None => None | Some r =>
      match scan_string r with None => None | Some (k, r) => match after ":" (skip r) with None => None | Some r =>
        match parse_value (S n) (skip r) with None => None | Some (j, r) => match skip r with EmptyString => None
        | String c r => if ascii_dec c "}" then Some ([(k, j)], r) else if ascii_dec c "," then
            match parse_members (S n) (skip r) with Some (l, rest) => Some ((k, j) :: l, rest) | None => None end else None
        end end end end end).
    cbn [parse_members] in E. destruct (after (String dquote EmptyString) s) as [r|]; [|done].
    destruct (scan_string r) as [[k r1]|]; [|done]. destruct (after ":" (skip r1)) as [r2|]; [|done].
    destruct (parse_value n (skip r2)) as [[j r3]|] eqn:Ev; [|done]. rewrite (IHv _ _ Ev).
    destruct (skip r3) as [|c r']; [done|]. destruct (ascii_dec c "}") as [_|_]; [done|].
    destruct (ascii_dec c ",") as [_|_]; [|done]. destruct (parse_members n (skip r')) as [[l r4]|] eqn:El; [|done].
    rewrite (IHm _ _ El). done.
Qed.

Lemma parse_fuel n m s x : (n ≤ m)%nat → parse_value n s = Some x → parse_value m s = Some x.
Proof. induction 1 as [|m _ IH]; [done|]. intros E. by apply parse_fuel_S, IH. Qed.

(** *** Extension *)

(** A value that ends with its own bracket or quote, or before a character that
    stops a number. *)
Definition closed (j : json) : Prop := match j with JArr _ | JObj _ | JStr _ => True | _ => False end.

Lemma skip_ended r c r' :
  skip r = String c r' → stops (String c r') = true → ended r.
Proof.
  intros E Hc. destruct r as [|a r]; [done|]. cbn [skip] in E. destruct (is_space a) eqn:Ha; [|injection E as -> ->; by exists c, r'].
  exists a, r. split; [done|]. destruct a as [[] [] [] [] [] [] [] []]; try discriminate Ha; done.
Qed.

Lemma parse_empty n :
  parse_value n EmptyString = None ∧ parse_elements n EmptyString = None ∧ parse_members n EmptyString = None.
Proof. by destruct n as [|[|n]]. Qed.

Lemma parse_app n t :
  (∀ s j r, parse_value n s = Some (j, r) → closed j ∨ ended r → parse_value n (s +:+ t) = Some (j, r +:+ t))
  ∧ (∀ s l r, parse_elements n s = Some (l, r) → parse_elements n (s +:+ t) = Some (l, r +:+ t))
  ∧ (∀ s l r, parse_members n s = Some (l, r) → parse_members n (s +:+ t) = Some (l, r +:+ t)).
Proof.
  induction n as [|n (IHv & IHe & IHm)]; [done|].
  assert (∀ (p r : string) (f : string → option string), after p r = None → r ≠ EmptyString → String.length p = 1%nat → after p (r +:+ t) = None) as Hafter.
  { intros p r _ Ep Hr Hlen. destruct p as [|a [|? p]]; try discriminate Hlen. destruct r as [|b r]; [done|].
    cbn [after String.append] in *. destruct (ascii_dec a b); [by destruct r|done]. }
  split_and!.
  - intros s j r E Hend. destruct s as [|c s]; [done|]. cbn [parse_value String.append] in E |- *.
    destruct (ascii_dec c dquote) as [_|_]; [|destruct (ascii_dec c "[") as [_|_]; [|destruct (ascii_dec c "{") as [_|_]]].
    + destruct (scan_string s) as [[x r1]|] eqn:Es; [|done]. injection E as <- <-. by rewrite (scan_string_app _ _ _ t Es).
    + destruct (skip s) as [|a u] eqn:Hskip; [by rewrite ?(proj1 (parse_empty n)), ?(proj1 (proj2 (parse_empty n))), ?(proj2 (proj2 (parse_empty n))) in *|]. rewrite (skip_app _ _ _ t Hskip).
      change (String a (u +:+ t)) with (String a u +:+ t). destruct (after "]" (String a u)) as [rest|] eqn:Ea.
      * injection E as <- <-. by rewrite (after_app _ _ _ t Ea).
      * rewrite (Hafter _ _ Some Ea) by done. destruct (parse_elements n (String a u)) as [[l r1]|] eqn:El; [|done].
        injection E as <- <-. by rewrite (IHe _ _ _ El).
    + destruct (skip s) as [|a u] eqn:Hskip; [by rewrite ?(proj1 (parse_empty n)), ?(proj1 (proj2 (parse_empty n))), ?(proj2 (proj2 (parse_empty n))) in *|]. rewrite (skip_app _ _ _ t Hskip).
      change (String a (u +:+ t)) with (String a u +:+ t). destruct (after "}" (String a u)) as [rest|] eqn:Ea.
      * injection E as <- <-. by rewrite (after_app _ _ _ t Ea).
      * rewrite (Hafter _ _ Some Ea) by done. destruct (parse_members n (String a u)) as [[l r1]|] eqn:El; [|done].
        injection E as <- <-. by rewrite (IHm _ _ _ El).
    + change (String c (s +:+ t)) with (String c s +:+ t). apply scan_atom_app; [done|]. destruct Hend as [Hc|?]; [|done].
      exfalso. unfold scan_atom in E. destruct (scan_word words (String c s)) as [[j' r']|] eqn:Ew.
      * injection E as -> ->. revert Ew. unfold words. cbn [scan_word].
        repeat (case_match; [intros [= <- _]; done|]). done.
      * assert (∀ b u, scan_unsigned b u = Some (j, r) → False) as Hno; [|cbn [scan_number] in E; repeat case_match; by eapply Hno].
        intros b u. unfold scan_unsigned. repeat case_match; try done; intros [= <- _]; done.
  - intros s l r E. cbn [parse_elements] in E |- *. destruct (parse_value n s) as [[j r1]|] eqn:Ev; [|done].
    destruct (skip r1) as [|c r2] eqn:Hskip; [done|].
    assert (parse_value n (s +:+ t) = Some (j, r1 +:+ t)) as ->.
    { apply IHv; [done|]. right. apply (skip_ended _ _ _ Hskip). destruct (ascii_dec c "]") as [->|_]; [done|]. by destruct (ascii_dec c ",") as [->|_]. }
    rewrite (skip_app _ _ _ t Hskip). destruct (ascii_dec c "]") as [_|_]; [by injection E as <- <-|].
    destruct (ascii_dec c ",") as [_|_]; [|done]. destruct (parse_elements n (skip r2)) as [[l1 r3]|] eqn:El; [|done].
    injection E as <- <-. destruct (skip r2) as [|a u] eqn:Hs2; [by rewrite (proj1 (proj2 (parse_empty n))) in *|].
    rewrite (skip_app _ _ _ t Hs2). change (String a (u +:+ t)) with (String a u +:+ t). by rewrite (IHe _ _ _ El).
  - intros s l r E. cbn [parse_members] in E |- *. destruct (after (String dquote EmptyString) s) as [r0|] eqn:E0; [|done].
    rewrite (after_app _ _ _ t E0). destruct (scan_string r0) as [[k r1]|] eqn:Es; [|done]. rewrite (scan_string_app _ _ _ t Es).
    destruct (skip r1) as [|a1 u1] eqn:Hs1; [done|]. rewrite (skip_app _ _ _ t Hs1). change (String a1 (u1 +:+ t)) with (String a1 u1 +:+ t).
    destruct (after ":" (String a1 u1)) as [r2|] eqn:E2; [|done]. rewrite (after_app _ _ _ t E2).
    destruct (parse_value n (skip r2)) as [[j r3]|] eqn:Ev; [|done]. destruct (skip r3) as [|c r4] eqn:Hs3; [done|].
    destruct (skip r2) as [|a2 u2] eqn:Hs2; [by rewrite ?(proj1 (parse_empty n)), ?(proj1 (proj2 (parse_empty n))), ?(proj2 (proj2 (parse_empty n))) in *|]. rewrite (skip_app _ _ _ t Hs2). change (String a2 (u2 +:+ t)) with (String a2 u2 +:+ t).
    assert (parse_value n (String a2 u2 +:+ t) = Some (j, r3 +:+ t)) as ->.
    { apply IHv; [done|]. right. apply (skip_ended _ _ _ Hs3). destruct (ascii_dec c "}") as [->|_]; [done|]. by destruct (ascii_dec c ",") as [->|_]. }
    rewrite (skip_app _ _ _ t Hs3). destruct (ascii_dec c "}") as [_|_]; [by injection E as <- <-|].
    destruct (ascii_dec c ",") as [_|_]; [|done]. destruct (parse_members n (skip r4)) as [[l1 r5]|] eqn:El; [|done].
    injection E as <- <-. destruct (skip r4) as [|a u] eqn:Hs4; [by rewrite ?(proj1 (parse_empty n)), ?(proj1 (proj2 (parse_empty n))), ?(proj2 (proj2 (parse_empty n))) in *|].
    rewrite (skip_app _ _ _ t Hs4). change (String a (u +:+ t)) with (String a u +:+ t). by rewrite (IHm _ _ _ El).
Qed.

(** A proper prefix of an object is refused. *)
Lemma loads_truncated members p q :
  plain (JObj members) = true → printed (JObj members) = p +:+ q → q ≠ EmptyString → loads p = Err JSONDecodeError.
Proof.
  intros Hp E Hq. unfold loads. destruct (parse_value (S (String.length p)) (skip p)) as [[j rest]|] eqn:Ev; [|done].
  case_match eqn:Hrest; [|done]. exfalso. apply bool_decide_eq_true in Hrest.
  destruct p as [|c p]; [done|].
  assert (c = "{"%char) as -> by (by rewrite print_object in E; injection E as <- _).
  cbn [skip] in Ev. change (is_space "{") with false in Ev. cbn match in Ev.
  assert (closed j) as Hclosed.
  { cbn [parse_value] in Ev. destruct (ascii_dec "{" dquote) as [D|_]; [discriminate D|].
    destruct (ascii_dec "{" "[") as [D|_]; [discriminate D|]. destruct (ascii_dec "{" "{") as [_|D]; [|by destruct D].
    destruct (after "}" (skip p)); [by injection Ev as <- _|]. destruct (parse_members _ _) as [[l r]|]; [|done]. by injection Ev as <- _. }
  apply (parse_app _ q) in Ev; [|by left]. rewrite <-E in Ev.
  set (n := S (String.length (printed (JObj members)))). assert (S (String.length (String "{" p)) ≤ n)%nat as Hn.
  { unfold n. rewrite E, string_length_app. lia. }
  apply (parse_fuel _ n _ _ Hn) in Ev. pose proof (read_value (JObj members) EmptyString n Hp eq_refl) as Hread.
  rewrite string_app_empty, Ev in Hread. pose proof (jsize_printed _ Hp) as Hj. specialize (Hread ltac:(lia)).
  injection Hread as _ Hread. by destruct rest, q.
Qed.
