(* ===== verification/Codec.v ===== *)
(** * The record codec

    [src/src/sose/persistence/codec.py]: durable values written as tagged JSON
    and read back.  [value] has one constructor per Python type the codec tells
    apart; [_encode] and [_decode] follow the code branch by branch, [dumps] and
    [loads] add the text of [Json.v].  What [importlib] finds under a class path
    is the parameter [import_class]; a class is an enumeration or a dataclass. *)
From S2P Require Import Prelude Encoding EncodingFacts Json JsonFacts.
From stdpp Require Import pretty.
From Stdlib Require Import Ascii.
Open Scope string_scope.
Open Scope Z_scope.

(** ** Values *)

(** A class is named by its path [module:qualname].  [VMixin] is a member of an
    enumeration that also is a [str] or an [int], of that value. *)
Inductive value : Type :=
  | VNone
  | VBool (b : bool)
  | VInt (z : Z)
  | VStr (s : string)
  | VMixin (cls : string) (v : value)
  | VFloat (f : spec_float)
  | VDatetime (us : Z)
  | VDate (days : Z)
  | VUuid (bytes : string)
  | VBytes (bytes : string)
  | VPath (s : string)
  | VEnum (cls : string) (v : value)
  | VDataclass (cls : string) (fields : list (string * value))
  | VTuple (l : list value)
  | VList (l : list value)
  | VFrozenset (l : list value)
  | VSet (l : list value)
  | VDict (items : list (value * value)).

Lemma value_nested_ind (P : value → Prop) :
  (∀ v, match v with
        | VMixin _ _ | VEnum _ _ | VDataclass _ _ | VTuple _ | VList _ | VFrozenset _ | VSet _ | VDict _ => False
        | _ => True
        end → P v) →
  (∀ cls v, P v → P (VMixin cls v)) → (∀ cls v, P v → P (VEnum cls v)) →
  (∀ cls fields, Forall (λ x, P x.2) fields → P (VDataclass cls fields)) →
  (∀ l, Forall P l → P (VTuple l)) → (∀ l, Forall P l → P (VList l)) →
  (∀ l, Forall P l → P (VFrozenset l)) → (∀ l, Forall P l → P (VSet l)) →
  (∀ items, Forall (λ x, P x.1 ∧ P x.2) items → P (VDict items)) → ∀ v, P v.
Proof.
  intros Hs Hm He Hc Ht Hl Hf Hset Hd. fix go 1. intros v.
  destruct v as [| | | |cls v| | | | | | |cls v|cls fields|l|l|l|l|items]; try by apply Hs.
  - apply Hm, go.
  - apply He, go.
  - apply Hc. induction fields as [|[k w] fields IH]; constructor; [apply go|assumption].
  - apply Ht. induction l; constructor; [apply go|assumption].
  - apply Hl. induction l; constructor; [apply go|assumption].
  - apply Hf. induction l; constructor; [apply go|assumption].
  - apply Hset. induction l; constructor; [apply go|assumption].
  - apply Hd. induction items as [|[k w] items IH]; constructor; [split; apply go|assumption].
Qed.

#[global] Instance value_eq_dec : EqDecision value.
Proof.
  refine (fix go (x y : value) : Decision (x = y) :=
    let r : EqDecision value := @go in
    match x, y with
    | VNone, VNone => left _
    | VBool b, VBool b' => cast_if (decide (b = b'))
    | VInt z, VInt z' => cast_if (decide (z = z'))
    | VStr s, VStr s' => cast_if (decide (s = s'))
    | VMixin c v, VMixin c' v' => cast_if (decide (c = c' ∧ v = v'))
    | VFloat f, VFloat f' => cast_if (decide (f = f'))
    | VDatetime u, VDatetime u' => cast_if (decide (u = u'))
    | VDate u, VDate u' => cast_if (decide (u = u'))
    | VUuid s, VUuid s' => cast_if (decide (s = s'))
    | VBytes s, VBytes s' => cast_if (decide (s = s'))
    | VPath s, VPath s' => cast_if (decide (s = s'))
    | VEnum c v, VEnum c' v' => cast_if (decide (c = c' ∧ v = v'))
    | VDataclass c l, VDataclass c' l' => cast_if (decide (c = c' ∧ l = l'))
    | VTuple l, VTuple l' => cast_if (decide (l = l'))
    | VList l, VList l' => cast_if (decide (l = l'))
    | VFrozenset l, VFrozenset l' => cast_if (decide (l = l'))
    | VSet l, VSet l' => cast_if (decide (l = l'))
    | VDict l, VDict l' => cast_if (decide (l = l'))
    | _, _ => right _
    end); clear r go; abstract naive_solver.
Defined.

(** *** Equality of values

    Python's [==]: numbers by value whatever their type, an enumeration member
    that is a string or a number by that value, sets and dictionaries without
    order. *)

(** A finite number as [m * 2 ^ e]. *)
Fixpoint number (v : value) : option (Z * Z) :=
  match v with
  | VBool b => Some (if b then 1 else 0, 0)
  | VInt z => Some (z, 0)
  | VMixin _ w => number w
  | VFloat (S754_zero _) => Some (0, 0)
  | VFloat (S754_finite s m e) => Some ((if s then - Zpos m else Zpos m), e)
  | _ => None
  end.

(** [m * 2 ^ e = m' * 2 ^ e']. *)
Definition dyadic_eqb (x y : Z * Z) : bool :=
  let e := Z.min x.2 y.2 in (x.1 * 2 ^ (x.2 - e) =? y.1 * 2 ^ (y.2 - e)).

Fixpoint text (v : value) : option string :=
  match v with VStr s => Some s | VMixin _ w => text w | _ => None end.

Fixpoint py_eq (v w : value) : bool :=
  match number v, number w with
  | Some x, Some y => dyadic_eqb x y
  | Some _, None | None, Some _ => false
  | None, None =>
    match text v, text w with
    | Some s, Some t => bool_decide (s = t)
    | Some _, None | None, Some _ => false
    | None, None =>
      match v, w with
      | VNone, VNone => true
      | VFloat (S754_infinity s), VFloat (S754_infinity t) => Bool.eqb s t
      | VDatetime x, VDatetime y | VDate x, VDate y => x =? y
      | VUuid x, VUuid y | VBytes x, VBytes y | VPath x, VPath y => bool_decide (x = y)
      | VEnum c x, VEnum d y => bool_decide (c = d) && py_eq x y
      | VDataclass c l, VDataclass d m =>
        bool_decide (c = d) && (fix go l m := match l, m with
          | [], [] => true
          | (i, x) :: l, (j, y) :: m => bool_decide (i = j) && py_eq x y && go l m
          | _, _ => false
          end) l m
      | VTuple l, VTuple m | VList l, VList m =>
        (fix go l m := match l, m with
          | [], [] => true
          | x :: l, y :: m => py_eq x y && go l m
          | _, _ => false
          end) l m
      | (VSet l | VFrozenset l), (VSet m | VFrozenset m) =>
        bool_decide (length l = length m) && forallb (λ x, existsb (py_eq x) m) l
      | VDict l, VDict m =>
        bool_decide (length l = length m)
        && forallb (λ '(k, x), existsb (λ '(k', y), py_eq k k' && py_eq x y) m) l
      | _, _ => false
      end
    end
  end.

(** ** Texts of the scalars

    [float.hex], [isoformat] and [str(UUID)] are those of [Encoding.v].  The
    readers here accept exactly the texts the writers produce; the other
    spellings Python accepts never occur in a record. *)

(** [w] digits of base [base]. *)
Fixpoint take_digits (digit_value : ascii → option N) (base : N) (w : nat) (acc : N) (s : string) : option (N * string) :=
  match w with
  | O => Some (acc, s)
  | S w =>
    match s with
    | String c s =>
      match digit_value c with Some d => take_digits digit_value base w (acc * base + d)%N s | None => None end
    | EmptyString => None
    end
  end.

Definition dec_digit (c : ascii) : option N := if is_digit c then Some (N_of_ascii c - 48)%N else None.
Definition take_dec (w : nat) (s : string) : option (Z * string) :=
  match take_digits dec_digit 10 w 0 s with Some (n, r) => Some (Z.of_N n, r) | None => None end.

(** [float.fromhex]. *)
Definition read_exponent (s : string) : option Z :=
  match s with
  | String "+" ds => Some (Z.of_N (dec_value 0 ds))
  | String "-" ds => Some (- Z.of_N (dec_value 0 ds))
  | _ => None
  end.

Definition read_finite (negative : bool) (s : string) : option spec_float :=
  let fields s := '(frac, s) ← take_digits hex_value 16 13 0 s ;
                  s ← after "p" s ;
                  e ← read_exponent s ;
                  Some (frac, e) in
  match after "0x1." s with
  | Some s =>
    '(frac, e) ← fields s ;
    match (2 ^ 52 + frac)%N with Npos m => Some (S754_finite negative m (e - 52)) | N0 => None end
  | None =>
    s ← after "0x0." s ;
    '(frac, _) ← fields s ;
    match frac with Npos m => Some (S754_finite negative m (-1074)) | N0 => None end
  end.

Definition read_float (s : string) : option spec_float :=
  let '(negative, r) := match s with String "-" r => (true, r) | _ => (false, s) end in
  if bool_decide (s = "nan") then Some S754_nan
  else if bool_decide (r = "inf") then Some (S754_infinity negative)
  else if bool_decide (r = "0x0.0p+0") then Some (S754_zero negative)
  else read_finite negative r.

Definition float_fromhex (s : string) : res spec_float :=
  match read_float s with
  | Some f => if valid_binary 53 1024 f && bool_decide (float_hex f = s) then Ok f
              else Err (ValueError "invalid hexadecimal floating-point string")
  | None => Err (ValueError "invalid hexadecimal floating-point string")
  end.

(** [date.fromisoformat] and [datetime.fromisoformat]. *)
Definition read_date (s : string) : option (Z * string) :=
  '(y, s) ← take_dec 4 s ; s ← after "-" s ;
  '(m, s) ← take_dec 2 s ; s ← after "-" s ;
  '(d, s) ← take_dec 2 s ;
  Some (days_from_civil (y, m, d), s).

Definition year_in_range (days : Z) : bool :=
  let '(y, _, _) := civil_from_days days in (1 <=? y) && (y <=? 9999).

Definition date_fromisoformat (s : string) : res Z :=
  match read_date s with
  | Some (days, _) => if year_in_range days && bool_decide (date_isoformat days = s) then Ok days
                      else Err (ValueError "Invalid isoformat string")
  | None => Err (ValueError "Invalid isoformat string")
  end.

Definition read_datetime (s : string) : option Z :=
  '(days, s) ← read_date s ; s ← after "T" s ;
  '(h, s) ← take_dec 2 s ; s ← after ":" s ;
  '(m, s) ← take_dec 2 s ; s ← after ":" s ;
  '(sec, s) ← take_dec 2 s ;
  let us := match after "." s with
            | Some s => match take_dec 6 s with Some (us, _) => us | None => 0 end
            | None => 0
            end in
  Some (days * 86400000000 + ((h * 60 + m) * 60 + sec) * 1000000 + us).

Definition datetime_fromisoformat (s : string) : res Z :=
  match read_datetime s with
  | Some us => if year_in_range (us / 86400000000) && bool_decide (datetime_isoformat us = s) then Ok us
               else Err (ValueError "Invalid isoformat string")
  | None => Err (ValueError "Invalid isoformat string")
  end.

(** [bytes.fromhex]: white space may stand between the bytes. *)
Fixpoint unhex (s : string) : option string :=
  match s with
  | EmptyString => Some EmptyString
  | String a r =>
    if is_space a || bool_decide (a = "011"%char) || bool_decide (a = "012"%char) then unhex r else
    match r with
    | String b r =>
      match hex_value a, hex_value b with
      | Some x, Some y => String (ascii_of_N (x * 16 + y)) <$> unhex r
      | _, _ => None
      end
    | EmptyString => None
    end
  end.

Definition bytes_fromhex (s : string) : res string :=
  match unhex s with Some b => Ok b | None => Err (ValueError "non-hexadecimal number found in fromhex() arg") end.

(** [str(UUID)]: the bytes in hexadecimal, a dash before the fifth, seventh,
    ninth and eleventh. *)
Fixpoint uuid_digits (i : nat) (s : string) : string :=
  match s with
  | EmptyString => EmptyString
  | String a s =>
    (if bool_decide (i ∈ [4; 6; 8; 10]%nat) then "-" else EmptyString)
      +:+ (digits 16 hex_digit 2 (N_of_ascii a) +:+ uuid_digits (S i) s)
  end.
Definition uuid_text (s : string) : string := uuid_digits 0 s.

Fixpoint undash (s : string) : string :=
  match s with
  | EmptyString => EmptyString
  | String c s => if bool_decide (c = "-"%char) then undash s else String c (undash s)
  end.

Definition uuid_of_text (s : string) : res string :=
  match unhex (undash s) with
  | Some b => if bool_decide (String.length b = 16%nat) && bool_decide (uuid_text b = s) then Ok b
              else Err (ValueError "badly formed hexadecimal UUID string")
  | None => Err (ValueError "badly formed hexadecimal UUID string")
  end.

(** [s.split(sep)]. *)
Fixpoint split_on (sep : ascii) (s : string) : list string :=
  match s with
  | EmptyString => [EmptyString]
  | String c s =>
    if bool_decide (c = sep) then EmptyString :: split_on sep s
    else match split_on sep s with p :: l => String c p :: l | [] => [String c EmptyString] end
  end.

(** [str(Path(s))] on POSIX. *)
Definition path_root (s : string) : string :=
  match s with
  | String "/" (String "/" (String "/" _)) => "/"
  | String "/" (String "/" _) => "//"
  | String "/" _ => "/"
  | _ => EmptyString
  end.
Definition path_of (s : string) : string :=
  let parts := filter (λ p, p ≠ EmptyString ∧ p ≠ ".") (split_on "/" s) in
  let path := path_root s +:+ str_join "/" parts in
  if is_empty path then "." else path.

(** ** Classes *)

(** An enumeration with the values of its members; a dataclass with its fields,
    their defaults, whether it is frozen, and its [__post_init__]. *)
Inductive pyclass : Type :=
  | EnumClass (members : list value)
  | DataClass (fields : list (string * option value)) (frozen : bool) (post_init : list (string * value) → res unit).

(** [importlib.import_module(module)] and the [getattr]s along the names; [None]
    when the object found is not a class. *)
Class ClassTable := import_class : string → list string → res (option pyclass).

(** [str] of a document that is not a string, an integer or a constant. *)
Class JsonStr := other_str : json → string.

(** [path.partition(":")]. *)
Fixpoint partition (c : ascii) (s : string) : option (string * string) :=
  match s with
  | EmptyString => None
  | String a s =>
    if bool_decide (a = c) then Some (EmptyString, s)
    else match partition c s with Some (p, q) => Some (String a p, q) | None => None end
  end.

Fixpoint before_locals (l : list string) : option (list string) :=
  match l with
  | [] => None
  | p :: l => if bool_decide (p = "<locals>") then Some [] else cons p <$> before_locals l
  end.

Section codec.
Context `{!ClassTable}.

Definition _resolve (path : string) : res pyclass :=
  match partition ":" path with
  | None => Err (ValueError ("invalid SOSE class path: " +:+ path))
  | Some (module_name, qualname) =>
    let parts := split_on "." qualname in
    match before_locals parts with
    | Some outer => import_class module_name outer ;; Err (ValueError ("local classes cannot be restored: " +:+ path))
    | None =>
      current ← import_class module_name parts ;
      match current with
      | Some cls => Ok cls
      | None => Err (TypeError ("SOSE class path is not a type: " +:+ path))
      end
    end
  end.

(** [cls(value)]: the member of an enumeration with that value. *)
Definition call_value (path : string) (cls : pyclass) (v : value) : res value :=
  match cls with
  | EnumClass members =>
    match List.find (λ m, py_eq m v) members with
    | Some m => Ok (VEnum path m)
    | None => Err (ValueError ("not a valid " +:+ path))
    end
  | DataClass [(name, _)] _ post_init => post_init [(name, v)] ;; Ok (VDataclass path [(name, v)])
  | DataClass _ _ _ => Err (TypeError "__init__() takes other positional arguments")
  end.

(** The value of a field: the argument of its name, or its default. *)
Definition field_value (arguments : list (string * value)) (field : string * option value) : res (string * value) :=
  match dict_get field.1 arguments, field.2 with
  | Some v, _ => Ok (field.1, v)
  | None, Some v => Ok (field.1, v)
  | None, None => Err (TypeError ("__init__() missing a required argument: " +:+ field.1))
  end.

Fixpoint traverse {A B} (f : A → res B) (l : list A) : res (list B) :=
  match l with
  | [] => Ok []
  | x :: l => y ← f x ; l' ← traverse f l ; Ok (y :: l')
  end.

(** [cls( **arguments)]. *)
Definition call_fields (path : string) (cls : pyclass) (arguments : list (string * value)) : res value :=
  match cls with
  | DataClass fields _ post_init =>
    fail_if (existsb (λ '(name, _), negb (bool_decide (name ∈ fields.*1))) arguments)
      (TypeError "__init__() got an unexpected keyword argument") ;;
    values ← traverse (field_value arguments) fields ;
    post_init values ;;
    Ok (VDataclass path values)
  | EnumClass _ => Err (TypeError "__call__() got an unexpected keyword argument")
  end.

(** [hash(v)] succeeds. *)
Fixpoint hashable (v : value) : bool :=
  match v with
  | VList _ | VSet _ | VDict _ => false
  | VMixin _ w | VEnum _ w => true
  | VTuple l | VFrozenset l => forallb hashable l
  | VDataclass cls fields =>
    match _resolve cls with Ok (DataClass _ frozen _) => frozen | _ => false end && forallb (λ '(_, w), hashable w) fields
  | _ => true
  end.

(** [d[key] = item]: a key equal to one already there keeps it. *)
Fixpoint dict_insert (d : list (value * value)) (key item : value) : list (value * value) :=
  match d with
  | [] => [(key, item)]
  | (k, w) :: d => if py_eq k key then (k, item) :: d else (k, w) :: dict_insert d key item
  end.

Definition put_item (d : list (value * value)) (entry : value * value) : res (list (value * value)) :=
  fail_if (negb (hashable entry.1)) (TypeError "unhashable type") ;;
  Ok (dict_insert d entry.1 entry.2).

(** [s.add(item)]. *)
Definition add_member (s : list value) (item : value) : res (list value) :=
  fail_if (negb (hashable item)) (TypeError "unhashable type") ;;
  Ok (if existsb (λ m, py_eq m item) s then s else (s ++ [item])%list).

(** ** [_encode] *)

Definition _TAG : string := "__sose_type__".
Definition tag (kind : string) (members : list (string * json)) : json := JObj ((_TAG, JStr kind) :: members).

(** The fields of a dataclass that are written. *)
Definition boundary_message_path : string := "sose.composition.model:BoundaryMessage".
Definition written (cls : string) (field : string * value) : bool :=
  negb (bool_decide (cls = boundary_message_path) && bool_decide (field.1 = "causation_kind")
        && bool_decide (field.2 = VNone)).

(** The items of a set, by their text. *)
Definition sort_encoded (encoded : list json) : list json := sort_on (print default_style) encoded.

Fixpoint _encode (v : value) : json :=
  match v with
  | VNone => JNull
  | VBool b => JBool b
  | VInt z => JInt z
  | VStr s => JStr s
  | VMixin _ w => _encode w
  | VFloat f => tag "float" [("hex", JStr (float_hex f))]
  | VDatetime us => tag "datetime" [("value", JStr (datetime_isoformat us))]
  | VDate days => tag "date" [("value", JStr (date_isoformat days))]
  | VUuid b => tag "uuid" [("value", JStr (uuid_text b))]
  | VBytes b => tag "bytes" [("hex", JStr (hex b))]
  | VPath s => tag "path" [("value", JStr s)]
  | VEnum cls w => tag "enum" [("class", JStr cls); ("value", _encode w)]
  | VDataclass cls fields =>
    tag "dataclass" [("class", JStr cls);
      ("fields", JObj (omap (λ '(x, j), if written cls x then Some (x.1, j) else None)
                         ((λ '(name, w), ((name, w), _encode w)) <$> fields)))]
  | VTuple l => tag "tuple" [("items", JArr (_encode <$> l))]
  | VList l => tag "list" [("items", JArr (_encode <$> l))]
  | VFrozenset l => tag "frozenset" [("items", JArr (sort_encoded (_encode <$> l)))]
  | VSet l => tag "set" [("items", JArr (sort_encoded (_encode <$> l)))]
  | VDict items => tag "dict" [("items", JArr ((λ '(k, w), JArr [_encode k; _encode w]) <$> items))]
  end.

Definition dumps (v : value) : string := print compact (_encode v).

(** ** [_decode] *)

#[global] Instance res_eq_dec `{EqDecision A} : EqDecision (res A).
Proof. solve_decision. Defined.

#[global] Instance res_fmap : FMap res := λ A B f m, match m with Ok a => Ok (f a) | Err e => Err e end.

(** [str(j)]; for a document that is not a string or a simple constant it is a
    parameter. *)
Definition json_str `{!JsonStr} (j : json) : string :=
  match j with
  | JStr s => s
  | JInt z => pretty z
  | JBool b => if b then "True" else "False"
  | JNull => "None"
  | _ => other_str j
  end.

(** [f(value[k])]. *)
Definition with_member {A} (k : string) (f : json → res A) : list (string * json) → res A :=
  fix go members := match members with
                    | [] => Err (KeyError k)
                    | (i, j) :: members => if bool_decide (i = k) then f j else go members
                    end.

(** [for item in j: step(item)], over what iteration gives: the elements of an
    array, the keys of an object, the characters of a string. *)
Definition iterate {A B} (of_json : json → res A) (of_text : string → res A) (step : B → A → res B) (j : json) (acc : B) : res B :=
  match j with
  | JArr l => (fix go l acc := match l with
                               | [] => Ok acc
                               | j :: l => x ← of_json j ; acc ← step acc x ; go l acc
                               end) l acc
  | JObj members => foldl (λ acc s, acc ← acc ; x ← of_text s ; step acc x) (Ok acc) members.*1
  | JStr s => foldl (λ acc s, acc ← acc ; x ← of_text s ; step acc x) (Ok acc) (chars s)
  | _ => Err (TypeError "object is not iterable")
  end.

(** [key, item = j], both decoded. *)
Definition unpack (decode : json → res value) (j : json) : res (value * value) :=
  match j with
  | JArr [k; w] => k ← decode k ; w ← decode w ; Ok (k, w)
  | JObj [(a, _); (b, _)] => Ok (VStr a, VStr b)
  | JStr s => match chars s with [a; b] => Ok (VStr a, VStr b) | _ => Err (ValueError "values to unpack (expected 2)") end
  | JArr _ | JObj _ => Err (ValueError "values to unpack (expected 2)")
  | _ => Err (TypeError "cannot unpack non-iterable object")
  end.
Definition unpack_text (s : string) : res (value * value) := unpack (λ _, Err (TypeError "unreachable")) (JStr s).

Section decode.
Context `{!JsonStr}.

Definition text_member {A} (k : string) (f : string → res A) (members : list (string * json)) : res A :=
  with_member k (λ j, f (json_str j)) members.

Fixpoint _decode (j : json) : res value :=
  let items {B} (step : B → value → res B) (empty : B) :=
    with_member "items" (λ j, iterate _decode (λ s, Ok (VStr s)) step j empty) in
  match j with
  | JNull => Ok VNone
  | JBool b => Ok (VBool b)
  | JInt z => Ok (VInt z)
  | JStr s => Ok (VStr s)
  | JFloat _ => Err (TypeError "invalid tagged SOSE value")
  | JArr l => VList <$> traverse _decode l
  | JObj members =>
    match dict_get _TAG members with
    | None | Some JNull => VDict <$> traverse (λ '(k, j), w ← _decode j ; Ok (VStr k, w)) members
    | Some (JStr kind) =>
      if bool_decide (kind = "float") then VFloat <$> text_member "hex" float_fromhex members
      else if bool_decide (kind = "datetime") then VDatetime <$> text_member "value" datetime_fromisoformat members
      else if bool_decide (kind = "date") then VDate <$> text_member "value" date_fromisoformat members
      else if bool_decide (kind = "uuid") then VUuid <$> text_member "value" uuid_of_text members
      else if bool_decide (kind = "bytes") then VBytes <$> text_member "hex" bytes_fromhex members
      else if bool_decide (kind = "path") then text_member "value" (λ s, Ok (VPath (path_of s))) members
      else if bool_decide (kind = "enum") then
        path ← text_member "class" Ok members ;
        cls ← _resolve path ;
        with_member "value" (λ j, w ← _decode j ; call_value path cls w) members
      else if bool_decide (kind = "tuple") then VTuple <$> items (λ l w, Ok (l ++ [w])%list) [] members
      else if bool_decide (kind = "list") then VList <$> items (λ l w, Ok (l ++ [w])%list) [] members
      else if bool_decide (kind = "frozenset") then VFrozenset <$> items add_member [] members
      else if bool_decide (kind = "set") then VSet <$> items add_member [] members
      else if bool_decide (kind = "dict") then
        VDict <$> with_member "items" (λ j, iterate (unpack _decode) unpack_text put_item j []) members
      else if bool_decide (kind = "dataclass") then
        path ← text_member "class" Ok members ;
        cls ← _resolve path ;
        with_member "fields" (λ j,
          match j with
          | JObj fields =>
            arguments ← traverse (λ '(name, j), w ← _decode j ; Ok (name, w)) fields ;
            call_fields path cls arguments
          | _ => Err (AttributeError "object has no attribute 'items'")
          end) members
      else Err (ValueError ("unknown SOSE persistence tag: " +:+ kind))
    | Some (JArr _ | JObj _) => Err (TypeError "unhashable type")
    | Some j => Err (ValueError ("unknown SOSE persistence tag: " +:+ json_str j))
    end
  end.

Definition loads (payload : string) : res value :=
  j ← Json.loads payload ;
  _decode j.
End decode.
End codec.
