(* ===== verification/CodecFacts.v ===== *)
(** * What was written is read back

    Properties of [Codec.v]: the texts of the scalars, then the round trip of
    whole values through their JSON text, and the bytes a value is written to. *)
From S2P Require Import Prelude Encoding EncodingFacts Json JsonFacts Codec.
From stdpp Require Import pretty.
From Stdlib Require Import Ascii.
Open Scope string_scope.
Open Scope Z_scope.

#[local] Opaque digits.
#[local] Arguments String.append !_ _ /.

(** ** Texts of the scalars *)

Lemma after_same p s : after p (p +:+ s) = Some s.
Proof. by apply after_spec. Qed.

Section take.
Context (digit_value : ascii → option N) (dig : N → ascii) (b : N).
Hypothesis Hdig : ∀ i, (i < b)%N → digit_value (dig i) = Some i.
Hypothesis Hb : (0 < b)%N.

Lemma take_digits_snoc w acc s n c d t :
  take_digits digit_value b w acc s = Some (n, String c t) → digit_value c = Some d →
  take_digits digit_value b (S w) acc s = Some (n * b + d, t)%N.
Proof.
  revert acc s. induction w as [|w IH]; intros acc s E Hc.
  - injection E as -> ->. cbn. by rewrite Hc.
  - destruct s as [|a s]; [done|]. cbn [take_digits] in E. cbn [take_digits]. destruct (digit_value a); [|done]. by apply IH.
Qed.

Lemma take_digits_same w n acc t :
  (n < b ^ N.of_nat w)%N → take_digits digit_value b w acc (digits b dig w n +:+ t) = Some (acc * b ^ N.of_nat w + n, t)%N.
Proof.
  revert n t. induction w as [|w IH]; intros n t Hn.
  { cbn in Hn. assert (n = 0%N) as -> by lia. cbn. do 2 f_equal. lia. }
  rewrite Nat2N.inj_succ, N.pow_succ_r' in Hn |- *.
  change (digits b dig (S w) n) with (digits b dig w (n / b)%N +:+ String (dig (n mod b)%N) EmptyString).
  rewrite string_app_assoc. erewrite take_digits_snoc; [|apply IH; by apply N.Div0.div_lt_upper_bound|apply Hdig, N.mod_lt; lia].
  do 2 f_equal. rewrite (N.div_mod n b) at 3 by lia. lia.
Qed.
End take.

Lemma N_between a b i : (a ≤ i)%N → (i ≤ b)%N → ((a <=? i) && (i <=? b))%N = true.
Proof. intros Ha Hb. apply andb_true_intro. split; by apply N.leb_le. Qed.

Lemma dec_digit_same i : (i < 10)%N → dec_digit (digit i) = Some i.
Proof.
  intros Hi. unfold dec_digit, is_digit, digit. rewrite N_ascii_embedding by lia.
  rewrite N_between by lia. f_equal. lia.
Qed.

Lemma hex_value_same i : (i < 16)%N → hex_value (hex_digit i) = Some i.
Proof.
  intros Hi. unfold hex_value, hex_digit. destruct (N.ltb_spec i 10); rewrite N_ascii_embedding by lia.
  - rewrite N_between by lia. f_equal. lia.
  - rewrite (proj2 (N.leb_gt (87 + i) 57)), andb_false_r by lia. rewrite N_between by lia. f_equal. lia.
Qed.

Lemma take_dec_same w z t : 0 ≤ z < 10 ^ Z.of_nat w → take_dec w (dec w z +:+ t) = Some (z, t).
Proof.
  intros Hz. unfold take_dec, dec. rewrite (take_digits_same dec_digit digit 10 dec_digit_same).
  - cbn. do 2 f_equal. lia.
  - lia.
  - apply N2Z.inj_lt. rewrite N2Z.inj_pow, nat_N_Z, Z2N.id by lia. cbn. lia.
Qed.

(** *** Dates *)

Lemma read_date_same days t :
  year_in_range days = true → read_date (date_isoformat days +:+ t) = Some (days, t).
Proof.
  unfold year_in_range, date_isoformat, read_date. pose proof (civil_from_days_spec days) as Hd.
  destruct (civil_from_days days) as [[y m] d]. destruct Hd as (Hm & Hd & Hdays). intros Hy.
  rewrite !string_app_assoc, take_dec_same by (cbn; lia). cbn [mbind option_bind].
  rewrite after_same. cbn [mbind option_bind]. rewrite take_dec_same by (cbn; lia). cbn [mbind option_bind].
  rewrite after_same. cbn [mbind option_bind]. rewrite take_dec_same by (cbn; lia). cbn [mbind option_bind]. by rewrite Hdays.
Qed.

Lemma date_text days : year_in_range days = true → date_fromisoformat (date_isoformat days) = Ok days.
Proof.
  intros Hy. unfold date_fromisoformat. rewrite <-(string_app_empty (date_isoformat days)), (read_date_same _ _ Hy).
  by rewrite Hy, string_app_empty, bool_decide_eq_true_2.
Qed.

Lemma datetime_text us :
  year_in_range (us / 86400000000) = true → datetime_fromisoformat (datetime_isoformat us) = Ok us.
Proof.
  intros Hy. unfold datetime_fromisoformat.
  enough (read_datetime (datetime_isoformat us) = Some us) as -> by (by rewrite Hy, bool_decide_eq_true_2).
  unfold datetime_isoformat, read_datetime. set (t := us mod 86400000000).
  assert (0 ≤ t < 86400000000) as Ht by (apply Z.mod_pos_bound; lia).
  assert (0 ≤ t / 1000000 / 3600 < 24 ∧ 0 ≤ t / 1000000 / 60 mod 60 < 60 ∧ 0 ≤ t / 1000000 mod 60 < 60
    ∧ 0 ≤ t mod 1000000 < 1000000
    ∧ ((t / 1000000 / 3600 * 60 + t / 1000000 / 60 mod 60) * 60 + t / 1000000 mod 60) * 1000000 + t mod 1000000 = t)
    as (Hh & Hm & Hs & Hf & Hsum).
  { Z.to_euclidean_division_equations; lia. }
  rewrite (read_date_same _ _ Hy). cbn [mbind option_bind].
  rewrite after_same. cbn [mbind option_bind]. rewrite take_dec_same by (cbn; lia). cbn [mbind option_bind].
  rewrite after_same. cbn [mbind option_bind]. rewrite take_dec_same by (cbn; lia). cbn [mbind option_bind].
  rewrite after_same. cbn [mbind option_bind]. rewrite take_dec_same by (cbn; lia). cbn [mbind option_bind].
  f_equal. rewrite (Z.div_mod us 86400000000) at 2 by lia. fold t. rewrite <-Z.add_assoc, (Z.mul_comm 86400000000). f_equal.
  case_bool_decide as Hf0.
  - change (after "." (EmptyString +:+ "+00:00")) with (@None string). cbn match. rewrite Hf0 in Hsum. exact Hsum.
  - rewrite string_app_assoc, after_same, take_dec_same by (cbn; lia). lia.
Qed.

(** *** Floats *)

Lemma pretty_pos_digits p :
  ∃ d ds, pretty (Npos p) = String d ds ∧ is_digit d = true ∧ dec_value 0 (String d ds) = Npos p.
Proof.
  destruct (pretty_go_digits (Npos p) EmptyString) as (d & ds & E & Hds & _ & Hv); [lia|]. exists d, ds.
  change (pretty (Npos p)) with (pretty_N_go (Npos p) EmptyString). rewrite E, string_app_empty.
  cbn in Hds. by apply andb_prop in Hds as [? _].
Qed.

Lemma read_exponent_same e : read_exponent ((if e <? 0 then "" else "+") +:+ pretty e) = Some e.
Proof.
  destruct e as [|p|p]; [done|..]; destruct (pretty_pos_digits p) as (d & ds & E & _ & Hv).
  - change (pretty (Zpos p)) with (pretty (Npos p)). rewrite E. change (read_exponent (String "+" (String d ds)) = Some (Zpos p)).
    cbn [read_exponent]. by rewrite Hv.
  - change (pretty (Zneg p)) with ("-" +:+ pretty (Npos p)). rewrite E. change (read_exponent (String "-" (String d ds)) = Some (Zneg p)).
    cbn [read_exponent]. by rewrite Hv.
Qed.

Lemma read_finite_same negative m e :
  valid_binary 53 1024 (S754_finite false m e) = true → read_finite negative (finite_hex m e) = Some (S754_finite negative m e).
Proof.
  intros [Hm He]%valid_mantissa. unfold read_finite, finite_hex. destruct (Z.ltb_spec (Zpos m) (2 ^ 52)) as [Hs|Hs].
  - change (after "0x1." ("0x0." +:+ ?s)) with (@None string). cbn match. rewrite after_same. cbn [mbind option_bind].
    rewrite (take_digits_same hex_value hex_digit 16 hex_value_same) by (cbn; lia). cbn [mbind option_bind].
    rewrite after_same. cbn [mbind option_bind]. rewrite (read_exponent_same (-1022)). cbn [mbind option_bind].
    rewrite He by done. reflexivity.
  - rewrite after_same. cbn match.
    rewrite (take_digits_same hex_value hex_digit 16 hex_value_same) by (cbn; lia). cbn [mbind option_bind].
    rewrite after_same. cbn [mbind option_bind]. rewrite read_exponent_same. cbn [mbind option_bind].
    assert (2 ^ 52 + (0 * 16 ^ N.of_nat 13 + (Npos m - 2 ^ 52)) = Npos m)%N as -> by lia. do 2 f_equal. lia.
Qed.

Lemma float_text f : valid_binary 53 1024 f = true → float_fromhex (float_hex f) = Ok f.
Proof.
  intros Hf. unfold float_fromhex. enough (read_float (float_hex f) = Some f) as -> by (by rewrite Hf, bool_decide_eq_true_2).
  destruct f as [s|s| |s m e]; [by destruct s..|done|]. rewrite float_hex_finite.
  destruct (finite_hex_head m e) as (t & E & Ht).
  assert (bool_decide (finite_hex m e = "inf") = false ∧ bool_decide (finite_hex m e = "0x0.0p+0") = false) as [Hinf Hzero].
  { split; apply bool_decide_eq_false_2; rewrite E; intros [= ->]; cbn in Ht; lia. }
  assert (read_finite s (finite_hex m e) = Some (S754_finite s m e)) as Hread by (by apply read_finite_same).
  unfold read_float. destruct s.
  - rewrite (bool_decide_eq_false_2 (_ = "nan")) by done. cbn [String.append]. by rewrite Hinf, Hzero.
  - cbn [String.append].
    assert (match finite_hex m e with String "-" r => (true, r) | _ => (false, finite_hex m e) end = (false, finite_hex m e)) as -> by (by rewrite E).
    rewrite (bool_decide_eq_false_2 (_ = "nan")) by (by rewrite E). by rewrite Hinf, Hzero.
Qed.

(** *** Bytes and UUIDs *)

Lemma hex_digits2 a : ∃ x y, (x < 16)%N ∧ (y < 16)%N ∧ N_of_ascii a = (x * 16 + y)%N
  ∧ digits 16 hex_digit 2 (N_of_ascii a) = String (hex_digit x) (String (hex_digit y) EmptyString).
Proof.
  pose proof (N_ascii_bounded a) as Ha. exists (N_of_ascii a / 16)%N, (N_of_ascii a mod 16)%N. split_and!.
  - by apply N.Div0.div_lt_upper_bound.
  - by apply N.mod_lt.
  - rewrite (N.div_mod (N_of_ascii a) 16) at 1 by done. lia.
  - change (digits 16 hex_digit 2 (N_of_ascii a)) with
      (String (hex_digit ((N_of_ascii a / 16) mod 16)) EmptyString +:+ String (hex_digit (N_of_ascii a mod 16)) EmptyString).
    rewrite (N.mod_small (N_of_ascii a / 16)) by (by apply N.Div0.div_lt_upper_bound). done.
Qed.

Lemma hex_digit_char i : (i < 16)%N → is_space (hex_digit i) = false ∧ hex_digit i ≠ "011"%char ∧ hex_digit i ≠ "012"%char ∧ hex_digit i ≠ "-"%char.
Proof.
  intros Hi. unfold hex_digit, is_space. destruct (N.ltb_spec i 10); rewrite N_ascii_embedding by lia.
  all: split; [repeat (rewrite (proj2 (N.eqb_neq _ _)) by lia); done|].
  all: split_and!; intros E%(f_equal N_of_ascii); rewrite N_ascii_embedding in E by lia; cbn in E; lia.
Qed.

Lemma unhex_digits a r : unhex (digits 16 hex_digit 2 (N_of_ascii a) +:+ r) = String a <$> unhex r.
Proof.
  destruct (hex_digits2 a) as (x & y & Hx & Hy & Ha & ->). cbn [String.append unhex].
  destruct (hex_digit_char x Hx) as (-> & H1 & H2 & _). rewrite !bool_decide_eq_false_2 by done. cbn [orb].
  rewrite !hex_value_same by done. rewrite <-Ha, ascii_N_embedding. done.
Qed.

Lemma bytes_text b : bytes_fromhex (hex b) = Ok b.
Proof.
  unfold bytes_fromhex. enough (unhex (hex b) = Some b) as -> by done.
  induction b as [|a b IH]; [done|]. cbn [hex]. by rewrite unhex_digits, IH.
Qed.

Lemma undash_app s t : undash (s +:+ t) = undash s +:+ undash t.
Proof. induction s as [|c s IH]; [done|]. cbn [String.append undash]. case_bool_decide; [done|]. by rewrite IH. Qed.

Lemma uuid_value b : String.length b = 16%nat → uuid_of_text (uuid_text b) = Ok b.
Proof.
  intros Hb. unfold uuid_of_text, uuid_text.
  enough (∀ i, unhex (undash (uuid_digits i b)) = Some b) as -> by (by rewrite !bool_decide_eq_true_2).
  clear Hb. induction b as [|a b IH]; intros i; [done|]. cbn [uuid_digits]. rewrite !undash_app.
  assert (undash (if bool_decide (i ∈ [4; 6; 8; 10]%nat) then "-" else EmptyString) = EmptyString) as -> by (by case_bool_decide).
  assert (undash (digits 16 hex_digit 2 (N_of_ascii a)) = digits 16 hex_digit 2 (N_of_ascii a)) as ->.
  { destruct (hex_digits2 a) as (x & y & Hx & Hy & _ & ->). cbn [undash].
    by rewrite !bool_decide_eq_false_2 by (by apply hex_digit_char). }
  cbn [String.append]. by rewrite unhex_digits, IH.
Qed.

(** ** Values that can be stored *)

(** No two of the values are equal. *)
Fixpoint distinct (l : list value) : bool :=
  match l with
  | [] => true
  | v :: l => forallb (λ w, negb (py_eq v w) && negb (py_eq w v)) l && distinct l
  end.

Lemma distinct_perm l l' : l ≡ₚ l' → distinct l = distinct l'.
Proof.
  assert (∀ (f : value → bool) l l', l ≡ₚ l' → forallb f l = forallb f l') as Hall.
  { intros f m m'. induction 1 as [|x m m' _ IH|x y m|m m' m'' _ IH _ IH']; cbn; [done|by rewrite IH| |congruence].
    by rewrite !andb_assoc, (andb_comm (f x)). }
  induction 1 as [|x l l' Hp IH|x y l|l l' l'' _ IH _ IH']; [done| | |congruence]; cbn.
  - by rewrite IH, (Hall _ l l' Hp).
  - rewrite (andb_comm (negb (py_eq y x))). destruct (negb (py_eq x y) && negb (py_eq y x)); [|by rewrite !andb_false_l].
    rewrite !andb_true_l, !andb_assoc. f_equal. apply andb_comm.
Qed.

Section stored.
Context `{!ClassTable}.

(** A value as it comes back: an enumeration member that is a string or a number
    is that string or number, the members of a set are in the order of their
    texts. *)
Definition set_key (v : value) : string := print default_style (_encode v).

Fixpoint settle (v : value) : value :=
  match v with
  | VMixin _ w => settle w
  | VEnum cls w => VEnum cls (settle w)
  | VDataclass cls fields => VDataclass cls ((λ '(name, w), (name, settle w)) <$> fields)
  | VTuple l => VTuple (settle <$> l)
  | VList l => VList (settle <$> l)
  | VFrozenset l => VFrozenset (sort_on set_key (settle <$> l))
  | VSet l => VSet (sort_on set_key (settle <$> l))
  | VDict items => VDict ((λ '(k, w), (settle k, settle w)) <$> items)
  | _ => v
  end.

Definition written_fields (cls : string) (fields : list (string * value)) : list (string * value) :=
  filter (λ x, written cls x = true) fields.

(** The values the classes give back: numbers, dates and texts Python can hold,
    classes that can be imported and rebuild their instances from what is
    written, sets and dictionaries of distinct hashable values. *)
Fixpoint storable (v : value) : bool :=
  match v with
  | VMixin _ (VStr _ | VInt _) => true
  | VMixin _ _ => false
  | VFloat f => valid_binary 53 1024 f
  | VDatetime us => year_in_range (us / 86400000000)
  | VDate days => year_in_range days
  | VUuid b => bool_decide (String.length b = 16%nat)
  | VPath s => bool_decide (path_of s = s)
  | VEnum cls w =>
    storable w && match _resolve cls with
                  | Ok c => bool_decide (call_value cls c (settle w) = Ok (VEnum cls (settle w)))
                  | Err _ => false
                  end
  | VDataclass cls fields =>
    let settled := (λ '(name, w), (name, settle w)) <$> fields in
    forallb (λ '(_, w), storable w) fields && bool_decide (NoDup ((λ '(name, _), name) <$> fields))
    && match _resolve cls with
       | Ok c => bool_decide (call_fields cls c (written_fields cls settled) = Ok (VDataclass cls settled))
       | Err _ => false
       end
  | VTuple l | VList l => forallb storable l
  | VFrozenset l | VSet l => forallb storable l && forallb hashable (settle <$> l) && distinct (settle <$> l)
  | VDict items =>
    forallb (λ '(k, w), storable k && storable w) items
    && forallb hashable ((λ '(k, _), settle k) <$> items) && distinct ((λ '(k, _), settle k) <$> items)
  | _ => true
  end.

(** *** The bytes do not change *)

Lemma settle_none v : storable v = true → settle v = VNone → v = VNone.
Proof. destruct v as [| | | |cls v| | | | | | | | | | | | |]; intros Hv E; try discriminate E; [done|]. by destruct v. Qed.

Lemma settle_written cls fields :
  Forall (λ x, storable x.2 = true) fields →
  written_fields cls ((λ '(name, w), (name, settle w)) <$> fields)
    = (λ '(name, w), (name, settle w)) <$> written_fields cls fields.
Proof.
  induction 1 as [|[name w] fields Hw _ IH]; [done|]. unfold written_fields in *. cbn [fmap list_fmap].
  rewrite !filter_cons. fold (fmap (M := list) (λ '(name, w), (name, settle w)) fields). rewrite IH.
  assert (written cls (name, settle w) = written cls (name, w)) as ->.
  { unfold written. cbn [fst snd]. f_equal. f_equal. apply bool_decide_ext. split; [by apply settle_none|by intros ->]. }
  case_decide; done.
Qed.

Lemma encode_fields cls fields :
  omap (λ '(x, j), if written cls x then Some (x.1, j) else None) ((λ '(name, w), ((name, w), _encode w)) <$> fields)
    = (λ '(name, w), (name, _encode w)) <$> written_fields cls fields.
Proof.
  unfold written_fields. induction fields as [|[name w] fields IH]; [done|]. rewrite filter_cons. cbn -[written].
  destruct (written cls (name, w)); cbn -[written]; [rewrite decide_True by done|rewrite decide_False by done]; cbn; by rewrite <-IH.
Qed.

Lemma sort_encoded_settled l : sort_encoded (_encode <$> sort_on set_key l) = sort_encoded (_encode <$> l).
Proof.
  unfold sort_encoded. rewrite !(sort_on_fmap _ set_key) by done. f_equal. apply sort_on_idemp, sort_on_sorted.
Qed.

Lemma encode_settle v : storable v = true → _encode (settle v) = _encode v.
Proof.
  assert (∀ l, Forall (λ v, storable v = true → _encode (settle v) = _encode v) l → forallb storable l = true →
    _encode <$> (settle <$> l) = _encode <$> l) as Hlist.
  { intros l. induction 1 as [|x l Hx _ IH]; [done|]. cbn [forallb]. intros [Hsv Hl]%andb_prop. rewrite !fmap_cons. by rewrite (Hx Hsv), (IH Hl). }
  induction v as [v Hv|cls w IH|cls w IH|cls fields IH|l IH|l IH|l IH|l IH|items IH] using value_nested_ind; intros Hs.
  - by destruct v.
  - cbn [settle _encode storable] in *. by destruct w.
  - cbn [settle _encode storable] in *. apply andb_prop in Hs as [Hs _]. by rewrite IH.
  - cbn [settle _encode storable] in *. rewrite !encode_fields. apply andb_prop in Hs as [[Hs _]%andb_prop _].
    assert (Forall (λ x, storable x.2 = true) fields) as Hf.
    { apply Forall_forall. intros [name w] Hin. rewrite forallb_forall in Hs. by apply list_elem_of_In, Hs in Hin. }
    rewrite settle_written by done.
    assert (Forall (λ x, _encode (settle x.2) = _encode x.2) (written_fields cls fields)) as Hw.
    { apply Forall_forall. intros x [_ Hx]%list_elem_of_filter. rewrite Forall_forall in IH, Hf. by apply IH, Hf. }
    enough ((λ '(name, w), (name, _encode w)) <$> ((λ '(name, w), (name, settle w)) <$> written_fields cls fields)
      = (λ '(name, w), (name, _encode w)) <$> written_fields cls fields) as -> by done.
    clear -Hw. induction Hw as [|[name w] l Hx _ IHl]; [done|]. cbn in *. by rewrite Hx, IHl.
  - cbn [settle _encode storable] in *. by rewrite Hlist.
  - cbn [settle _encode storable] in *. by rewrite Hlist.
  - cbn [settle _encode storable] in *. apply andb_prop in Hs as [[Hs _]%andb_prop _]. by rewrite sort_encoded_settled, Hlist.
  - cbn [settle _encode storable] in *. apply andb_prop in Hs as [[Hs _]%andb_prop _]. by rewrite sort_encoded_settled, Hlist.
  - cbn [settle _encode storable] in *. apply andb_prop in Hs as [[Hs _]%andb_prop _].
    enough ((λ '(k, w), JArr [_encode k; _encode w]) <$> ((λ '(k, w), (settle k, settle w)) <$> items)
      = (λ '(k, w), JArr [_encode k; _encode w]) <$> items) as -> by done.
    clear Hlist. induction IH as [|[k w] items [Hk Hw] _ IHl]; [done|]. cbn [forallb] in Hs. apply andb_prop in Hs as [[Hsk Hsw]%andb_prop Hl].
    cbn in *. by rewrite (Hk Hsk), (Hw Hsw), (IHl Hl).
Qed.

(** *** Every text is a JSON document *)

Lemma written_names cls fields :
  NoDup ((λ '(name, _), name) <$> fields) → NoDup ((written_fields cls fields).*1).
Proof.
  intros Hnd. assert (fields.*1 = (λ '(name, _), name) <$> fields) as E by (apply list_fmap_ext; by intros i [? ?] _).
  rewrite <-E in Hnd. clear E. unfold written_fields. induction fields as [|[name w] fields IH]; [done|].
  rewrite filter_cons. cbn in Hnd. apply NoDup_cons in Hnd as [Hn Hnd]. case_decide; [|by apply IH].
  cbn. constructor; [|by apply IH]. intros (x & -> & [_ Hx]%list_elem_of_filter)%list_elem_of_fmap. apply Hn. by apply list_elem_of_fmap_2.
Qed.

Lemma plain_array l : plain (JArr l) = forallb plain l.
Proof. done. Qed.

Lemma plain_sorted l : forallb plain (sort_encoded l) = forallb plain l.
Proof.
  unfold sort_encoded. apply eq_true_iff_eq. rewrite !forallb_forall. setoid_rewrite <-list_elem_of_In.
  split; intros Hl x Hx; apply Hl; by apply elem_of_sort_on in Hx || apply elem_of_sort_on.
Qed.

Lemma plain_encode v : storable v = true → plain (_encode v) = true.
Proof.
  assert (∀ l, Forall (λ v, storable v = true → plain (_encode v) = true) l → forallb storable l = true →
    forallb plain (_encode <$> l) = true) as Hlist.
  { intros l. induction 1 as [|x l Hx _ IH]; [done|]. cbn [forallb]. intros [Hsx Hl]%andb_prop. rewrite fmap_cons. cbn [forallb].
    by rewrite (Hx Hsx), (IH Hl). }
  assert (∀ kind x j, plain j = true → plain (tag kind [(x, j)]) = bool_decide (NoDup [_TAG; x])) as Htag.
  { intros kind x j Hj. unfold tag. cbn -[_TAG]. rewrite Hj. by rewrite andb_true_r. }
  induction v as [v Hv|cls w IH|cls w IH|cls fields IH|l IH|l IH|l IH|l IH|items IH] using value_nested_ind; intros Hs.
  - by destruct v.
  - by destruct w.
  - cbn [storable] in Hs. apply andb_prop in Hs as [Hs _]. cbn. by rewrite (IH Hs).
  - cbn [storable] in Hs. apply andb_prop in Hs as [[Hs Hnd%bool_decide_eq_true]%andb_prop _].
    cbn [_encode]. rewrite encode_fields.
    assert (∀ j, plain j = true → plain (tag "dataclass" [("class", JStr cls); ("fields", j)]) = true) as Hobj.
    { intros j Hj. unfold tag. cbn -[_TAG]. by rewrite Hj. }
    apply Hobj.
    cbn [plain]. apply andb_true_intro. split.
    + apply bool_decide_eq_true_2. rewrite <-list_fmap_compose. erewrite list_fmap_ext; [exact (written_names cls fields Hnd)|]. by intros i [? ?] _.
    + apply forallb_forall. intros [name j] Hin%list_elem_of_In.
      apply list_elem_of_fmap in Hin as ([name' w] & [= -> ->] & [_ Hin]%list_elem_of_filter).
      rewrite Forall_forall in IH. apply (IH _ Hin). rewrite forallb_forall in Hs. by apply list_elem_of_In, Hs in Hin.
  - cbn [_encode]. rewrite Htag; [done|]. by apply Hlist.
  - cbn [_encode]. rewrite Htag; [done|]. by apply Hlist.
  - cbn [_encode storable] in *. apply andb_prop in Hs as [[Hs _]%andb_prop _]. rewrite Htag; [done|]. rewrite plain_array, plain_sorted. by apply Hlist.
  - cbn [_encode storable] in *. apply andb_prop in Hs as [[Hs _]%andb_prop _]. rewrite Htag; [done|]. rewrite plain_array, plain_sorted. by apply Hlist.
  - cbn [_encode storable] in *. apply andb_prop in Hs as [[Hs _]%andb_prop _]. rewrite Htag; [done|]. rewrite plain_array.
    clear -IH Hs. induction IH as [|[k w] items [Hk Hw] _ IHl]; [done|]. cbn [forallb] in Hs. apply andb_prop in Hs as [[Hsk Hsw]%andb_prop Hl].
    cbn in *. by rewrite (Hk Hsk), (Hw Hsw), (IHl Hl).
Qed.
End stored.

(** ** The round trip *)

Section loops.
Context {A : Type} (of_json : json → res A) (of_text : string → res A).

Lemma traverse_ok {X Y} (f : X → res Y) l l' : Forall2 (λ x y, f x = Ok y) l l' → traverse f l = Ok l'.
Proof. induction 1 as [|x y l l' E _ IH]; [done|]. cbn [traverse]. rewrite E. cbn. by rewrite IH. Qed.

Lemma iterate_cons {B} (step : B → A → res B) j l acc :
  iterate of_json of_text step (JArr (j :: l)) acc =
    (x ← of_json j ; acc ← step acc x ; iterate of_json of_text step (JArr l) acc).
Proof. done. Qed.

Lemma iterate_append l l' acc :
  Forall2 (λ j x, of_json j = Ok x) l l' →
  iterate of_json of_text (λ acc x, Ok (acc ++ [x])%list) (JArr l) acc = Ok (acc ++ l')%list.
Proof.
  intros H2. revert acc. induction H2 as [|j x l l' E _ IH]; intros acc; [by cbn; rewrite app_nil_r|].
  rewrite iterate_cons, E. cbn [mbind res_bind]. rewrite IH. by rewrite <-app_assoc.
Qed.
End loops.

Lemma canon_tag kind k j : k = "hex" ∨ k = "value" ∨ k = "items" → canon (tag kind [(k, j)]) = tag kind [(k, canon j)].
Proof. by intros [->|[->| ->]]. Qed.

Section roundtrip.
Context `{!ClassTable, !JsonStr}.

Lemma existsb_false {X} (f : X → bool) l : (∀ x, x ∈ l → f x = false) → existsb f l = false.
Proof. intros Hf. induction l as [|x l IH]; [done|]. cbn. rewrite Hf by constructor. apply IH. intros y Hy. apply Hf. by constructor. Qed.

Lemma distinct_app l x l' : distinct (l ++ x :: l') = true → ∀ y, y ∈ l → py_eq y x = false.
Proof.
  induction l as [|z l IH]; intros Hd y Hy; [by apply not_elem_of_nil in Hy|]. cbn in Hd. apply andb_prop in Hd as [Hz Hd].
  apply elem_of_cons in Hy as [->|Hy]; [|by apply IH]. rewrite forallb_forall in Hz.
  assert (In x (l ++ x :: l')) as Hin by (apply in_or_app; right; by left).
  apply Hz, andb_prop in Hin as [Hin _]. by apply negb_true_iff in Hin.
Qed.

Lemma add_member_fresh s x : hashable x = true → (∀ y, y ∈ s → py_eq y x = false) → add_member s x = Ok (s ++ [x])%list.
Proof. intros Hx Hs. unfold add_member. by rewrite Hx, existsb_false. Qed.

Lemma iterate_add l l' acc :
  Forall2 (λ j v, _decode j = Ok v) l l' → forallb hashable l' = true → distinct (acc ++ l') = true →
  iterate _decode (λ s, Ok (VStr s)) add_member (JArr l) acc = Ok (acc ++ l')%list.
Proof.
  intros H2. revert acc. induction H2 as [|j x l l' E _ IH]; intros acc Hh Hd; [by cbn; rewrite app_nil_r|].
  cbn [forallb] in Hh. apply andb_prop in Hh as [Hx Hh]. rewrite iterate_cons, E. cbn [mbind res_bind].
  rewrite add_member_fresh by (done || by apply (distinct_app acc x l')). cbn [mbind res_bind].
  rewrite IH; [by rewrite <-app_assoc|done|by rewrite <-app_assoc].
Qed.

Lemma dict_insert_fresh d k w : (∀ x, x ∈ d.*1 → py_eq x k = false) → dict_insert d k w = (d ++ [(k, w)])%list.
Proof.
  induction d as [|[i x] d IH]; intros Hd; [done|]. cbn. rewrite Hd by constructor. f_equal. apply IH. intros y Hy. apply Hd. by constructor.
Qed.

Lemma put_item_fresh d k w : hashable k = true → (∀ x, x ∈ d.*1 → py_eq x k = false) → put_item d (k, w) = Ok (d ++ [(k, w)])%list.
Proof. intros Hk Hd. unfold put_item. cbn [fst snd]. rewrite Hk. cbn. by rewrite dict_insert_fresh. Qed.

Lemma iterate_put l (l' : list (value * value)) acc :
  Forall2 (λ j e, unpack _decode j = Ok e) l l' → forallb hashable l'.*1 = true → distinct (acc.*1 ++ l'.*1) = true →
  iterate (unpack _decode) unpack_text put_item (JArr l) acc = Ok (acc ++ l')%list.
Proof.
  intros H2. revert acc. induction H2 as [|j [k w] l l' E _ IH]; intros acc Hh Hd; [by cbn; rewrite app_nil_r|].
  cbn [forallb fmap list_fmap fst] in Hh, Hd. apply andb_prop in Hh as [Hk Hh]. rewrite iterate_cons, E. cbn [mbind res_bind].
  rewrite put_item_fresh by (done || by apply (distinct_app acc.*1 k l'.*1)). cbn [mbind res_bind].
  rewrite IH; [by rewrite <-app_assoc|done|]. rewrite fmap_app. cbn. by rewrite <-app_assoc.
Qed.

(** The arguments of a dataclass in any order. *)
Lemma dict_get_perm (l l' : list (string * value)) k : l ≡ₚ l' → NoDup l.*1 → dict_get k l = dict_get k l'.
Proof.
  intros Hp Hnd. assert (NoDup l'.*1) as Hnd' by (by rewrite <-Hp).
  apply option_eq. intros v. rewrite <-!elem_of_dict by done. by rewrite Hp.
Qed.

Lemma call_fields_perm path cls (l l' : list (string * value)) :
  l ≡ₚ l' → NoDup l.*1 → call_fields path cls l = call_fields path cls l'.
Proof.
  intros Hp Hnd. destruct cls as [|fields frozen post_init]; [done|]. cbn [call_fields].
  assert (existsb (λ '(name, _), negb (bool_decide (name ∈ fields.*1))) l = existsb (λ '(name, _), negb (bool_decide (name ∈ fields.*1))) l') as ->.
  { apply eq_true_iff_eq. rewrite !existsb_exists. setoid_rewrite <-list_elem_of_In. setoid_rewrite Hp. done. }
  assert (traverse (field_value l) fields = traverse (field_value l') fields) as ->; [|done].
  clear -Hp Hnd. induction fields as [|field fields IH]; [done|]. cbn [traverse]. rewrite IH.
  assert (field_value l field = field_value l' field) as ->; [|done]. unfold field_value. by rewrite (dict_get_perm l l') by done.
Qed.

Lemma decode_list l :
  Forall (λ v, storable v = true → _decode (canon (_encode v)) = Ok (settle v)) l → forallb storable l = true →
  Forall2 (λ j v, _decode j = Ok v) (canon <$> (_encode <$> l)) (settle <$> l).
Proof.
  induction 1 as [|v l Hv _ IH]; cbn; [constructor|]. intros [Hs Hl]%andb_prop. constructor; [by apply Hv|by apply IH].
Qed.

(** The members of a set come back in the order of their texts. *)
Lemma decode_members l :
  Forall (λ v, storable v = true → _decode (canon (_encode v)) = Ok (settle v)) l → forallb storable l = true →
  Forall2 (λ j v, _decode j = Ok v) (canon <$> sort_encoded (_encode <$> l)) (sort_on set_key (settle <$> l)).
Proof.
  intros Hl Hs. unfold sort_encoded. rewrite (sort_on_fmap _ set_key) by done.
  rewrite (sort_on_fmap settle set_key).
  - assert (Forall (λ v, _decode (canon (_encode v)) = Ok (settle v)) (sort_on set_key l)) as Hd.
    { rewrite sort_on_perm. apply Forall_forall. intros v Hv. rewrite Forall_forall in Hl. apply Hl; [done|].
      rewrite forallb_forall in Hs. by apply Hs, list_elem_of_In. }
    clear -Hd. induction Hd as [|v s Hv _ IH]; cbn; constructor; done.
  - intros v Hv. unfold set_key. rewrite encode_settle; [done|]. rewrite forallb_forall in Hs. by apply Hs, list_elem_of_In.
Qed.

Lemma Forall2_perm_names (fields : list (string * value)) :
  sort_on fst ((λ '(name, w), (name, settle w)) <$> fields) ≡ₚ (λ '(name, w), (name, settle w)) <$> fields.
Proof. apply sort_on_perm. Qed.

(** The arguments read of a dataclass. *)
Lemma decode_arguments (fields : list (string * value)) :
  Forall (λ x, _decode (canon (_encode x.2)) = Ok (settle x.2)) fields →
  traverse (λ '(name, j), w ← _decode j ; Ok (name, w))
    ((λ '(name, j), (name, canon j)) <$> sort_on fst ((λ '(name, w), (name, _encode w)) <$> fields))
  = Ok (sort_on fst ((λ '(name, w), (name, settle w)) <$> fields)).
Proof.
  intros Hf. rewrite !(sort_on_fmap _ fst fst) by (by intros [? ?] _). rewrite <-(sort_on_perm fst fields) in Hf.
  apply traverse_ok. induction Hf as [|[name w] s Hw _ IH]; cbn; [constructor|].
  constructor; [|done]. cbn in Hw. by rewrite Hw.
Qed.

Lemma decode_encode v : storable v = true → _decode (canon (_encode v)) = Ok (settle v).
Proof.
  induction v as [v Hv|cls w IH|cls w IH|cls fields IH|l IH|l IH|l IH|l IH|items IH] using value_nested_ind; intros Hs.
  - destruct v as [|b|z|s| |f|us|days|b|b|p| | | | | | |]; try done; cbn [storable _encode settle] in *.
    + change (VFloat <$> float_fromhex (float_hex f) = Ok (VFloat f)). by rewrite float_text.
    + change (VDatetime <$> datetime_fromisoformat (datetime_isoformat us) = Ok (VDatetime us)). by rewrite datetime_text.
    + change (VDate <$> date_fromisoformat (date_isoformat days) = Ok (VDate days)). by rewrite date_text.
    + apply bool_decide_eq_true in Hs. change (VUuid <$> uuid_of_text (uuid_text b) = Ok (VUuid b)). by rewrite uuid_value.
    + change (VBytes <$> bytes_fromhex (hex b) = Ok (VBytes b)). by rewrite bytes_text.
    + apply bool_decide_eq_true in Hs. change (Ok (VPath (path_of p)) = Ok (VPath p)). by rewrite Hs.
  - by destruct w.
  - cbn [storable _encode settle] in *. apply andb_prop in Hs as [Hs Hc]. destruct (_resolve cls) as [c|] eqn:Er; [|done].
    apply bool_decide_eq_true in Hc.
    change ((c ← _resolve cls ; w ← _decode (canon (_encode w)) ; call_value cls c w) = Ok (VEnum cls (settle w))).
    rewrite Er, (IH Hs). exact Hc.
  - cbn [storable _encode settle] in *. apply andb_prop in Hs as [[Hs Hnd%bool_decide_eq_true]%andb_prop Hc].
    destruct (_resolve cls) as [c|] eqn:Er; [|done]. apply bool_decide_eq_true in Hc. rewrite encode_fields.
    assert (Forall (λ x, storable x.2 = true) fields) as Hf.
    { apply Forall_forall. intros [name w] Hin. rewrite forallb_forall in Hs. by apply list_elem_of_In, Hs in Hin. }
    rewrite settle_written in Hc by done.
    change ((c ← _resolve cls ;
      arguments ← traverse (λ '(name, j), w ← _decode j ; Ok (name, w))
        (sort_on fst ((λ '(k, w), (k, canon w)) <$> ((λ '(name, w), (name, _encode w)) <$> written_fields cls fields))) ;
      call_fields cls c arguments) = Ok (VDataclass cls ((λ '(name, w), (name, settle w)) <$> fields))).
    rewrite Er. cbn [mbind res_bind]. rewrite (sort_on_fmap _ fst fst) by (by intros [? ?] _).
    rewrite decode_arguments.
    + cbn [mbind res_bind]. rewrite <-Hc. apply call_fields_perm; [apply sort_on_perm|]. rewrite sort_on_perm.
      rewrite <-list_fmap_compose. erewrite list_fmap_ext; [exact (written_names cls fields Hnd)|]. by intros i [? ?] _.
    + apply Forall_forall. intros x [_ Hx]%list_elem_of_filter. rewrite Forall_forall in IH, Hf. by apply IH, Hf.
  - cbn [storable _encode settle] in *. rewrite canon_tag by auto.
    change (VTuple <$> iterate _decode (λ s, Ok (VStr s)) (λ l w, Ok (l ++ [w])%list) (JArr (canon <$> (_encode <$> l))) [] = Ok (VTuple (settle <$> l))).
    by rewrite (iterate_append _ _ _ _ [] (decode_list l IH Hs)).
  - cbn [storable _encode settle] in *. rewrite canon_tag by auto.
    change (VList <$> iterate _decode (λ s, Ok (VStr s)) (λ l w, Ok (l ++ [w])%list) (JArr (canon <$> (_encode <$> l))) [] = Ok (VList (settle <$> l))).
    by rewrite (iterate_append _ _ _ _ [] (decode_list l IH Hs)).
  - cbn [storable _encode settle] in *. apply andb_prop in Hs as [[Hs Hh]%andb_prop Hd]. rewrite canon_tag by auto.
    change (VFrozenset <$> iterate _decode (λ s, Ok (VStr s)) add_member (JArr (canon <$> sort_encoded (_encode <$> l))) []
      = Ok (VFrozenset (sort_on set_key (settle <$> l)))).
    rewrite (iterate_add _ _ [] (decode_members l IH Hs)); [done|..].
    + rewrite <-Hh. apply eq_true_iff_eq. rewrite !forallb_forall. setoid_rewrite <-list_elem_of_In. by setoid_rewrite elem_of_sort_on.
    + rewrite <-Hd. apply distinct_perm, sort_on_perm.
  - cbn [storable _encode settle] in *. apply andb_prop in Hs as [[Hs Hh]%andb_prop Hd]. rewrite canon_tag by auto.
    change (VSet <$> iterate _decode (λ s, Ok (VStr s)) add_member (JArr (canon <$> sort_encoded (_encode <$> l))) []
      = Ok (VSet (sort_on set_key (settle <$> l)))).
    rewrite (iterate_add _ _ [] (decode_members l IH Hs)); [done|..].
    + rewrite <-Hh. apply eq_true_iff_eq. rewrite !forallb_forall. setoid_rewrite <-list_elem_of_In. by setoid_rewrite elem_of_sort_on.
    + rewrite <-Hd. apply distinct_perm, sort_on_perm.
  - cbn [storable _encode settle] in *. apply andb_prop in Hs as [[Hs Hh]%andb_prop Hd]. rewrite canon_tag by auto.
    change (VDict <$> iterate (unpack _decode) unpack_text put_item
      (JArr (canon <$> ((λ '(k, w), JArr [_encode k; _encode w]) <$> items))) [] = Ok (VDict ((λ '(k, w), (settle k, settle w)) <$> items))).
    assert ((λ '(k, _), settle k) <$> items = ((λ '(k, w), (settle k, settle w)) <$> items).*1) as Ek.
    { rewrite <-list_fmap_compose. apply list_fmap_ext. by intros i [? ?] _. }
    rewrite Ek in Hh, Hd. rewrite (iterate_put _ ((λ '(k, w), (settle k, settle w)) <$> items) []); [done| |done|done].
    clear -IH Hs. induction IH as [|[k w] items [Hk Hw] _ IHl]; cbn; [constructor|].
    cbn [forallb] in Hs. apply andb_prop in Hs as [[Hsk Hsw]%andb_prop Hl]. constructor; [|by apply IHl].
    cbn in *. by rewrite (Hk Hsk), (Hw Hsw).
Qed.

(** *** What comes back is equal *)

(** No [NaN], which is not equal to itself. *)
Fixpoint reflexive (v : value) : bool :=
  match v with
  | VFloat S754_nan => false
  | VMixin _ w | VEnum _ w => reflexive w
  | VDataclass _ fields => forallb (λ '(_, w), reflexive w) fields
  | VTuple l | VList l | VFrozenset l | VSet l => forallb reflexive l
  | VDict items => forallb (λ '(k, w), reflexive k && reflexive w) items
  | _ => true
  end.

Lemma dyadic_refl x : dyadic_eqb x x = true.
Proof. apply Z.eqb_refl. Qed.

Lemma settle_eq v : storable v = true → reflexive v = true → py_eq v (settle v) = true.
Proof.
  assert (∀ l, Forall (λ v, storable v = true → reflexive v = true → py_eq v (settle v) = true) l →
    forallb storable l = true → forallb reflexive l = true → Forall (λ v, py_eq v (settle v) = true) l) as Hlist.
  { intros l Hl Hs Hr. rewrite forallb_forall in Hs, Hr. rewrite Forall_forall in Hl. apply Forall_forall. intros x Hx.
    pose proof (proj1 (list_elem_of_In _ _) Hx). auto. }
  assert (∀ l, Forall (λ v, py_eq v (settle v) = true) l →
    bool_decide (length l = length (sort_on set_key (settle <$> l)))
    && forallb (λ x, existsb (py_eq x) (sort_on set_key (settle <$> l))) l = true) as Hset.
  { intros l Hl. apply andb_true_intro. split.
    - apply bool_decide_eq_true_2. by rewrite sort_on_perm, length_fmap.
    - apply forallb_forall. intros x Hx%list_elem_of_In. rewrite Forall_forall in Hl. apply existsb_exists. exists (settle x). split; [|by apply Hl].
      apply list_elem_of_In, elem_of_sort_on. by apply list_elem_of_fmap_2. }
  induction v as [v Hv|cls w IH|cls w IH|cls fields IH|l IH|l IH|l IH|l IH|items IH] using value_nested_ind; intros Hs Hr.
  - destruct v as [|b|z|s| |f|us|days|b|b|p| | | | | | |]; try done; cbn; try apply Z.eqb_refl; try by rewrite bool_decide_eq_true_2.
    destruct f as [s|[]| |s m e]; try done; apply dyadic_refl.
  - cbn [settle storable reflexive] in *. destruct w; try done; cbn; [apply dyadic_refl|by rewrite bool_decide_eq_true_2].
  - cbn [settle storable reflexive] in *. apply andb_prop in Hs as [Hs _]. cbn. rewrite bool_decide_eq_true_2 by done. by apply IH.
  - cbn [settle storable reflexive] in *. apply andb_prop in Hs as [[Hs _]%andb_prop _]. cbn. rewrite bool_decide_eq_true_2 by done.
    clear -IH Hs Hr. induction IH as [|[name w] fields Hw _ IHf]; [done|]. cbn in *.
    apply andb_prop in Hs as [Hsw Hs], Hr as [Hrw Hr]. rewrite bool_decide_eq_true_2, (Hw Hsw Hrw) by done. by apply IHf.
  - cbn [settle storable reflexive] in *. specialize (Hlist l IH Hs Hr). clear -Hlist. cbn. induction Hlist as [|x l Hx _ IH]; cbn; [done|]. by rewrite Hx, IH.
  - cbn [settle storable reflexive] in *. specialize (Hlist l IH Hs Hr). clear -Hlist. cbn. induction Hlist as [|x l Hx _ IH]; cbn; [done|]. by rewrite Hx, IH.
  - cbn [settle storable reflexive] in *. apply andb_prop in Hs as [[Hs _]%andb_prop _]. apply (Hset l), Hlist; done.
  - cbn [settle storable reflexive] in *. apply andb_prop in Hs as [[Hs _]%andb_prop _]. apply (Hset l), Hlist; done.
  - cbn [settle storable reflexive] in *. apply andb_prop in Hs as [[Hs _]%andb_prop _]. cbn. rewrite length_fmap, bool_decide_eq_true_2 by done.
    apply forallb_forall. intros [k w] Hin%list_elem_of_In. apply existsb_exists. exists (settle k, settle w). split.
    + apply list_elem_of_In, (list_elem_of_fmap_2' _ _ (k, w)); done.
    + rewrite Forall_forall in IH. destruct (IH _ Hin) as [Hk Hw]. apply list_elem_of_In in Hin. rewrite forallb_forall in Hs, Hr.
      apply Hs in Hin as Hkw. apply Hr in Hin. cbn in *. apply andb_prop in Hkw as [? ?], Hin as [? ?]. by rewrite Hk, Hw.
Qed.

(** C18. What is written is read back.  A value the classes can hold is read from
    its text with the types it had: up to enumeration members that are strings
    or numbers, which come back as these, and the order of sets; unless it holds
    a [NaN] it is equal to what was written.  Writing the value read gives the
    same bytes again, and different values have different texts. *)
Theorem codec_round_trip v :
  storable v = true →
  loads (dumps v) = Ok (settle v)
  ∧ (reflexive v = true → py_eq v (settle v) = true)
  ∧ dumps (settle v) = dumps v
  ∧ ∀ w, storable w = true → dumps w = dumps v → settle w = settle v.
Proof.
  intros Hv. assert (∀ w, storable w = true → loads (dumps w) = Ok (settle w)) as Hload.
  { intros w Hw. unfold loads, dumps. rewrite loads_printed by (by apply plain_encode). cbn [mbind res_bind]. by apply decode_encode. }
  split_and!.
  - by apply Hload.
  - by apply settle_eq.
  - unfold dumps. by rewrite encode_settle.
  - intros w Hw E. pose proof (Hload w Hw) as L. rewrite E, (Hload v Hv) in L. by injection L.
Qed.
End roundtrip.

(** A late delivery with its status, the carriers that may take it, and a
    message whose causation has no kind. *)
#[local] Instance shipping_classes : ClassTable := λ module names,
  match names with
  | ["DeliveryStatus"] => Ok (Some (EnumClass [VStr "pending"; VStr "claimed"; VStr "consumed"]))
  | ["BoundaryMessage"] =>
    Ok (Some (DataClass [("message_id", None); ("produced_at", None); ("payload", None); ("causation_kind", Some VNone)] true (λ _, Ok tt)))
  | _ => Err (AttributeError "module has no such attribute")
  end.
#[local] Instance empty_str : JsonStr := λ _, "".

Definition late_message : value :=
  VDataclass boundary_message_path
    [("message_id", VStr "m-1"); ("produced_at", VDatetime 1700000000123456);
     ("payload", VDict [(VTuple [VStr "lane"; VInt 3], VFrozenset [VStr "van"; VStr "bike"; VFloat fone]);
                        (VBool false, VEnum "sose.composition.model:DeliveryStatus" (VStr "claimed"));
                        (VMixin "sose.scenarios.model:ScenarioSignalKind" (VStr "tick"), VList [VNone; VBytes "raw"; VDate 19700])]);
     ("causation_kind", VNone)].

Lemma codec_round_trip_witness :
  loads (dumps late_message) = Ok (settle late_message) ∧ py_eq late_message (settle late_message) = true.
Proof.
  destruct (codec_round_trip late_message) as (Hload & Heq & _); [vm_compute; reflexivity|].
  split; [exact Hload|]. apply Heq. reflexivity.
Defined.
