(* ===== verification/StateRecords.v ===== *)
(** * Durable state as keyed records

    [src/src/sose/persistence/records.py]: the durable state of [_State] as
    backend-neutral records and back, the difference of two states, and the
    incremental changes of a unit of work.  The functions walk over
    [fields(_State)], so here a state is the list of its fields, each a
    dictionary, a list or a scalar of values of the codec. *)
From S2P Require Import Prelude Encoding EncodingFacts Json JsonFacts Codec CodecFacts.
From stdpp Require Import pretty.
Open Scope string_scope.
Open Scope Z_scope.

(** ** The state *)

Inductive collection : Type :=
  | CDict (items : list (value * value))
  | CList (items : list value)
  | CScalar (v : value).

#[global] Instance collection_eq_dec : EqDecision collection.
Proof. solve_decision. Defined.

(** [_State] as the list of its fields. *)
Definition pystate := list (string * collection).

(** The fields of [_State] ([persistence/memory.py]), in order. *)
Definition dict_fields_before_events : list string := ["entities"].
Definition dict_fields : list string :=
  ["commands"; "scheduled_work"; "simulation_positions"; "scenario_states";
   "resource_definitions"; "resource_demands"; "resource_reservations"; "resource_release_intents";
   "store_definitions"; "store_items"; "store_put_intents"; "store_get_requests"; "store_get_results";
   "container_definitions"; "container_states"; "container_operation_intents"; "container_operation_results";
   "preemptive_resource_definitions"; "preemptive_resource_demands"; "preemptive_resource_reservations";
   "preemptive_resource_release_intents"; "resource_preemption_results";
   "job_states"; "sink_deliveries"; "sink_checkpoints";
   "boundary_messages"; "boundary_deliveries"; "boundary_consumptions"; "business_effects";
   "customer_settlement_bindings"; "domain_deliveries"; "committed_ticks"].

(** [_State()]. *)
Definition template : pystate :=
  (((λ name, (name, CDict [])) <$> dict_fields_before_events) ++ [("events", CList [])]
   ++ ((λ name, (name, CDict [])) <$> dict_fields))%list.

Definition getattr (name : string) (s : pystate) : res collection :=
  match dict_get name s with
  | Some c => Ok c
  | None => Err (AttributeError ("'_State' object has no attribute '" +:+ name +:+ "'"))
  end.

(** ** Records *)

Record StateRecord := mkStateRecord {
  srec_collection : string;
  srec_key : string;
  srec_position : Z;
  srec_payload : string }.
#[global] Instance StateRecord_eq_dec : EqDecision StateRecord.
Proof. solve_decision. Defined.

Record StateRecordChange := mkStateRecordChange {
  chg_operation : string;
  chg_collection : string;
  chg_key : string;
  chg_position : option Z;
  chg_payload : option string }.
#[global] Instance StateRecordChange_eq_dec : EqDecision StateRecordChange.
Proof. solve_decision. Defined.

(** Records by collection and key. *)
Notation table := (gmap (string * string) StateRecord).

Definition scalar_key : string := "__scalar__".

(** The records of one field, in order; a list numbers its items. *)
Definition item_record (name : string) (position : nat) (item : value * value) : (string * string) * StateRecord :=
  let encoded_key := dumps item.1 in
  ((name, encoded_key), mkStateRecord name encoded_key (Z.of_nat position) (dumps item.2)).
Definition list_record (name : string) (position : nat) (item : value) : (string * string) * StateRecord :=
  let key := pretty (Z.of_nat position) in
  ((name, key), mkStateRecord name key (Z.of_nat position) (dumps item)).
Definition field_records (field : string * collection) : list ((string * string) * StateRecord) :=
  let '(name, c) := field in
  match c with
  | CDict items => imap (item_record name) items
  | CList items => imap (list_record name) items
  | CScalar v => [((name, scalar_key), mkStateRecord name scalar_key 0 (dumps v))]
  end.

Definition put_all (l : list ((string * string) * StateRecord)) (records : table) : table :=
  foldl (λ records r, <[r.1 := r.2]> records) records l.

Definition state_to_records (state : pystate) : table := put_all (state ≫= field_records) ∅.

(** [records.values()]. *)
Definition table_values (records : table) : list StateRecord := (map_to_list records).*2.

(** ** Back to a state *)

Section records.
Context `{!ClassTable, !JsonStr}.

Definition temporal_fields : list string := ["simulation_positions"; "scenario_states"; "committed_ticks"].
Definition legacy_fields : list string := ["simulation_position"; "scenario_state"; "committed_tick"].

(** One record of a dictionary: [restored[decoded_key] = loads(record.payload)]. *)
Definition restore_item (name : string) (restored : list (value * value)) (r : StateRecord) : res (list (value * value)) :=
  decoded_key ← loads (srec_key r) ;
  fail_if (bool_decide (name ∈ temporal_fields)
           && match decoded_key with VStr s => blank s | _ => true end)
    (ValueError ("unowned durable temporal record in " +:+ name)) ;;
  item ← loads (srec_payload r) ;
  put_item restored (decoded_key, item).

Fixpoint restore_items (name : string) (restored : list (value * value)) (l : list StateRecord) : res (list (value * value)) :=
  match l with
  | [] => Ok restored
  | r :: l => restored ← restore_item name restored r ; restore_items name restored l
  end.

Definition record_order (r : StateRecord) : Z * string := (srec_position r, srec_key r).

Definition restore_field (records : list StateRecord) (field : string * collection) : res (string * collection) :=
  let '(name, default_value) := field in
  let current := sort_on record_order (filter (λ r, srec_collection r = name) records) in
  match default_value with
  | CDict _ => restored ← restore_items name [] current ; Ok (name, CDict restored)
  | CList _ => items ← traverse (λ r, loads (srec_payload r)) current ; Ok (name, CList items)
  | CScalar v =>
    match List.find (λ r, bool_decide (srec_key r = scalar_key)) current with
    | Some r => v ← loads (srec_payload r) ; Ok (name, CScalar v)
    | None => Ok (name, CScalar v)
    end
  end.

Definition sorted_names (names : gset string) : list string := sort_on id (elements names).

Definition records_to_state (records : list StateRecord) : res pystate :=
  let known : gset string := list_to_set template.*1 in
  let unknown : gset string := list_to_set (srec_collection <$> records) ∖ known in
  let legacy : gset string := list_to_set legacy_fields in
  fail_if (negb (bool_decide (unknown = ∅)))
    (ValueError (if negb (bool_decide (unknown ∩ legacy = ∅))
                 then "unsupported legacy unowned runtime records: " +:+ str_join ", " (sorted_names (unknown ∩ legacy))
                 else "unknown durable record collections: " +:+ str_join ", " (sorted_names unknown))) ;;
  traverse (restore_field records) template.

(** ** Differences *)

Definition delete_change (collection key : string) : StateRecordChange :=
  mkStateRecordChange "delete" collection key None None.
Definition upsert_change (r : StateRecord) : StateRecordChange :=
  mkStateRecordChange "upsert" (srec_collection r) (srec_key r) (Some (srec_position r)) (Some (srec_payload r)).

(** [sorted(ids)]. *)
Definition sorted_ids (ids : gset (string * string)) : list (string * string) := sort_on id (elements ids).

Definition upserts (old new : table) : list StateRecordChange :=
  omap (λ identity,
    r ← new !! identity ;
    if bool_decide (old !! identity = Some r) then None else Some (upsert_change r)) (sorted_ids (dom new)).

Definition diff_state_records (before after : pystate) : list StateRecordChange :=
  let old := state_to_records before in
  let new := state_to_records after in
  (((λ '(collection, key), delete_change collection key) <$> sorted_ids (dom old ∖ dom new)) ++ upserts old new)%list.

(** ** The incremental changes of a unit of work *)

(** [normalized]: the items of a tagged dictionary by the text of their keys, the
    members of a tagged set by their text. *)
Definition key_text (pair : json) : string :=
  match pair with JArr (k :: _) => print compact k | _ => EmptyString end.

Definition sort_items (key : json → string) (member : string * json) : string * json :=
  match member with
  | ("items", JArr l) => ("items", JArr (sort_on key l))
  | _ => member
  end.

Fixpoint normalized (j : json) : json :=
  match j with
  | JArr l => JArr (normalized <$> l)
  | JObj members =>
    let result := (λ '(k, w), (k, normalized w)) <$> members in
    match dict_get _TAG result with
    | Some (JStr kind) =>
      if bool_decide (kind = "dict") then JObj (sort_items key_text <$> result)
      else if bool_decide (kind = "set" ∨ kind = "frozenset") then JObj (sort_items (print compact) <$> result)
      else JObj result
    | _ => JObj result
    end
  | _ => j
  end.

Definition _semantic_record_token (v : value) : res string :=
  encoded ← Json.loads (dumps v) ;
  Ok (print compact (normalized encoded)).

(** [d.get(key)], and whether [key in d]. *)
Definition lookup_item (d : list (value * value)) (key : value) : option value :=
  snd <$> List.find (λ item, py_eq item.1 key) d.

(** [list(d).index(key)]. *)
Fixpoint index_of (d : list (value * value)) (key : value) : Z :=
  match d with
  | [] => 0
  | (k, _) :: d => if py_eq k key then 0 else 1 + index_of d key
  end.

Definition same_token (before after : option value) : res bool :=
  x ← _semantic_record_token (default VNone before) ;
  y ← _semantic_record_token (default VNone after) ;
  Ok (bool_decide (is_Some before ↔ is_Some after) && bool_decide (x = y)).

(** [a == b and token(x) == token(y)]: the tokens are not computed when the keys differ. *)
Definition unchanged (before after : option value) : res bool :=
  if bool_decide (is_Some before ↔ is_Some after) then same_token before after else Ok false.

Definition _dict_dirty_change (name : string) (raw_key : value) (before_value after_value : list (value * value)) :
    res (option StateRecordChange) :=
  fail_if (negb (hashable raw_key)) (TypeError "unhashable type") ;;
  let before_item := lookup_item before_value raw_key in
  let after_item := lookup_item after_value raw_key in
  same ← unchanged before_item after_item ;
  if same : bool then Ok None else
  let encoded_key := dumps raw_key in
  match after_item with
  | None => Ok (Some (delete_change name encoded_key))
  | Some item =>
    Ok (Some (mkStateRecordChange "upsert" name encoded_key (Some (index_of after_value raw_key)) (Some (dumps item))))
  end.

(** [int(raw_key)] of a number. *)
Definition int_key (v : value) : res Z :=
  match v with
  | VInt z => Ok z
  | VBool b => Ok (if b then 1 else 0)
  | _ => Err (TypeError "int() argument must be a string, a bytes-like object or a real number")
  end.

(** [l[index] if index < len(l) else None]; a negative index counts from the end. *)
Definition list_item (l : list value) (index : Z) : res (option value) :=
  if Z.of_nat (length l) <=? index then Ok None else
  match l !! Z.to_nat (if index <? 0 then Z.of_nat (length l) + index else index) with
  | Some v => if Z.of_nat (length l) + index <? 0 then Err (IndexError "list index out of range") else Ok (Some v)
  | None => Err (IndexError "list index out of range")
  end.

Definition _list_dirty_change (name : string) (raw_key : value) (before_value after_value : list value) :
    res (option StateRecordChange) :=
  index ← int_key raw_key ;
  before_item ← list_item before_value index ;
  after_item ← list_item after_value index ;
  same ← unchanged before_item after_item ;
  if same : bool then Ok None else
  match after_item with
  | None => Ok (Some (delete_change name (pretty index)))
  | Some item => Ok (Some (mkStateRecordChange "upsert" name (pretty index) (Some index) (Some (dumps item))))
  end.

Definition _scalar_dirty_change (name : string) (before_value after_value : value) (default_value : value) :
    res (option StateRecordChange) :=
  x ← _semantic_record_token before_value ;
  y ← _semantic_record_token after_value ;
  if bool_decide (x = y) then Ok None else
  let item := match after_value with VNone => default_value | _ => after_value end in
  Ok (Some (mkStateRecordChange "upsert" name scalar_key (Some 0) (Some (dumps item)))).

(** A field keeps its kind: the other pairs do not occur. *)
Definition dirty_change (before after : pystate) (dirty : string * value) : res (option StateRecordChange) :=
  let '(name, raw_key) := dirty in
  before_value ← getattr name before ;
  after_value ← getattr name after ;
  match before_value, after_value with
  | CDict b, CDict a => _dict_dirty_change name raw_key b a
  | CList b, CList a => _list_dirty_change name raw_key b a
  | CScalar b, CScalar a =>
    d ← getattr name template ;
    _scalar_dirty_change name b a (match d with CScalar d => d | _ => VNone end)
  | _, _ => Err (AttributeError "the field has another kind")
  end.

Definition dirty_order (dirty : string * value) : string * string := (dirty.1, dumps dirty.2).

Definition changes_for_dirty_records (before after : pystate) (dirty_records : list (string * value)) :
    res (list StateRecordChange) :=
  changes ← traverse (dirty_change before after) (sort_on dirty_order dirty_records) ;
  Ok (omap (M := list) id changes).
End records.
