(* ===== verification/StateRecordFacts.v ===== *)
(** * Facts about the durable records

    A state and its records carry the same information: the records of a state,
    in any order, restore the state, and the records of the restored state are
    the same. *)
From S2P Require Import Prelude Encoding EncodingFacts Json JsonFacts Codec CodecFacts StateRecords.
From stdpp Require Import pretty.
Open Scope string_scope.
Open Scope Z_scope.

Section values.
Context `{!ClassTable, !JsonStr}.

(** ** Values that have been read are stable *)

Lemma settled_list l :
  Forall (λ v, storable v = true → settle (settle v) = settle v ∧ storable (settle v) = true) l → forallb storable l = true →
  settle <$> (settle <$> l) = settle <$> l ∧ forallb storable (settle <$> l) = true.
Proof.
  induction 1 as [|x l Hx _ IH]; [done|]. cbn [forallb]. intros [Hs Hl]%andb_prop.
  destruct (Hx Hs) as [E Hsx], (IH Hl) as [El Hsl]. rewrite !fmap_cons. cbn [forallb]. by rewrite E, El, Hsx, Hsl.
Qed.

Lemma settled_set l :
  Forall (λ v, storable v = true → settle (settle v) = settle v ∧ storable (settle v) = true) l →
  forallb storable l && forallb hashable (settle <$> l) && distinct (settle <$> l) = true →
  let s := sort_on set_key (settle <$> l) in
  settle <$> s = s ∧ forallb storable s && forallb hashable (settle <$> s) && distinct (settle <$> s) = true.
Proof.
  intros Hl [[Hs Hh]%andb_prop Hd]%andb_prop s. destruct (settled_list l Hl Hs) as [El Hsl].
  assert (settle <$> s = s) as Es.
  { unfold s. rewrite <-(sort_on_fmap settle set_key set_key); [by rewrite El|].
    intros x (y & -> & Hy)%list_elem_of_fmap. rewrite Forall_forall in Hl. rewrite forallb_forall in Hs.
    pose proof (proj1 (list_elem_of_In _ _) Hy) as Hin. by rewrite (proj1 (Hl y Hy (Hs _ Hin))). }
  split; [done|]. rewrite Es, (distinct_perm s (settle <$> l)) by apply sort_on_perm. rewrite Hd, andb_true_r.
  apply andb_true_intro. split; [rewrite <-Hsl|rewrite <-Hh]; apply eq_true_iff_eq; rewrite !forallb_forall;
    setoid_rewrite <-list_elem_of_In; unfold s; by setoid_rewrite elem_of_sort_on.
Qed.

Lemma settle_settled v : storable v = true → settle (settle v) = settle v ∧ storable (settle v) = true.
Proof.
  induction v as [v Hv|cls w IH|cls w IH|cls fields IH|l IH|l IH|l IH|l IH|items IH] using value_nested_ind; intros Hs.
  - by destruct v.
  - cbn [settle storable] in *. by destruct w.
  - cbn [settle storable] in *. apply andb_prop in Hs as [Hs Hc]. destruct (IH Hs) as [E Hw]. rewrite E, Hw. by rewrite Hc.
  - cbn [settle storable] in *. apply andb_prop in Hs as [[Hs Hnd]%andb_prop Hc].
    assert ((λ '(name, w), (name, settle w)) <$> ((λ '(name, w), (name, settle w)) <$> fields) = (λ '(name, w), (name, settle w)) <$> fields
      ∧ forallb (λ '(_, w), storable w) ((λ '(name, w), (name, settle w)) <$> fields) = true
      ∧ (λ '(name, _), name) <$> ((λ '(name, w), (name, settle w)) <$> fields) = (λ '(name, _), name) <$> fields) as (E & Hf & En).
    { clear Hnd Hc. induction IH as [|[name w] fields Hw _ IHf]; [done|]. cbn in *. apply andb_prop in Hs as [Hsw Hs].
      destruct (Hw Hsw) as [Ew Hsw'], (IHf Hs) as (Ef & Hsf & En). by rewrite Ew, Hsw', Ef, Hsf, En. }
    rewrite E, Hf, En, Hnd. done.
  - cbn [settle storable] in *. destruct (settled_list l IH Hs) as [E Hl]. by rewrite E, Hl.
  - cbn [settle storable] in *. destruct (settled_list l IH Hs) as [E Hl]. by rewrite E, Hl.
  - cbn [settle storable] in *. destruct (settled_set l IH Hs) as [E Hl]. rewrite Hl, E. split; [|done]. f_equal. apply sort_on_idemp, sort_on_sorted.
  - cbn [settle storable] in *. destruct (settled_set l IH Hs) as [E Hl]. rewrite Hl, E. split; [|done]. f_equal. apply sort_on_idemp, sort_on_sorted.
  - cbn [settle storable] in *. apply andb_prop in Hs as [[Hs Hh]%andb_prop Hd].
    assert ((λ '(k, w), (settle k, settle w)) <$> ((λ '(k, w), (settle k, settle w)) <$> items) = (λ '(k, w), (settle k, settle w)) <$> items
      ∧ forallb (λ '(k, w), storable k && storable w) ((λ '(k, w), (settle k, settle w)) <$> items) = true
      ∧ (λ '(k, _), settle k) <$> ((λ '(k, w), (settle k, settle w)) <$> items) = (λ '(k, _), settle k) <$> items) as (E & Hf & En).
    { clear Hh Hd. induction IH as [|[k w] items [Hk Hw] _ IHl]; [done|]. cbn in *. apply andb_prop in Hs as [[Hsk Hsw]%andb_prop Hs].
      destruct (Hk Hsk) as [Ek Hsk'], (Hw Hsw) as [Ew Hsw'], (IHl Hs) as (Ef & Hsf & En). by rewrite Ek, Hsk', Ew, Hsw', Ef, Hsf, En. }
    rewrite E, Hf, En, Hh, Hd. done.
Qed.

Lemma loads_dumps v : storable v = true → loads (dumps v) = Ok (settle v).
Proof. intros Hv. unfold loads, dumps. rewrite loads_printed by (by apply plain_encode). cbn [mbind res_bind]. by apply decode_encode. Qed.

Lemma dumps_settle v : storable v = true → dumps (settle v) = dumps v.
Proof. intros Hv. unfold dumps. by rewrite encode_settle. Qed.

Lemma dumps_inj v w : storable v = true → storable w = true → dumps v = dumps w → settle v = settle w.
Proof. intros Hv Hw E. pose proof (loads_dumps v Hv) as L. rewrite E, (loads_dumps w Hw) in L. by injection L. Qed.
End values.

(** ** States that can be stored *)

(** The keys of the dictionaries: a string, or a tuple of strings. *)
Definition is_text (v : value) : bool := match v with VStr _ => true | _ => false end.
Definition state_key (v : value) : bool :=
  match v with VStr _ => true | VTuple l => forallb is_text l | _ => false end.

(** A key [restore_item] accepts. *)
Definition allowed (name : string) (key : value) : bool :=
  negb (bool_decide (name ∈ temporal_fields) && match key with VStr s => blank s | _ => true end).

Section states.
Context `{!ClassTable, !JsonStr}.

Definition storable_item (name : string) (item : value * value) : bool :=
  state_key item.1 && allowed name item.1 && storable item.2.

(** A field of the kind the class declares, with values that can be stored. *)
Definition storable_field (declared field : string * collection) : bool :=
  bool_decide (field.1 = declared.1)
  && match declared.2, field.2 with
     | CDict _, CDict items => forallb (storable_item field.1) items && bool_decide (NoDup items.*1)
     | CList _, CList items => forallb storable items
     | _, _ => false
     end.

Definition storable_state (s : pystate) : Prop := Forall2 (λ declared field, storable_field declared field = true) template s.
#[global] Instance storable_state_dec s : Decision (storable_state s).
Proof. unfold storable_state. apply _. Defined.

Definition settle_items (items : list (value * value)) : list (value * value) := (λ '(k, v), (k, settle v)) <$> items.
Definition settle_collection (c : collection) : collection :=
  match c with
  | CDict items => CDict (settle_items items)
  | CList items => CList (settle <$> items)
  | CScalar v => CScalar (settle v)
  end.
Definition settle_state (s : pystate) : pystate := (λ '(name, c), (name, settle_collection c)) <$> s.

(** *** Keys *)

Lemma text_list_settle l : forallb is_text l = true → settle <$> l = l ∧ forallb storable l = true ∧ forallb hashable l = true.
Proof.
  induction l as [|x l IH]; [done|]. cbn [forallb]. intros [Hx Hl]%andb_prop. destruct x; try done.
  rewrite fmap_cons. destruct (IH Hl) as (-> & -> & ->). done.
Qed.

Lemma state_key_settle k : state_key k = true → settle k = k ∧ storable k = true ∧ hashable k = true.
Proof.
  destruct k; try done. cbn. intros (E & Hs & Hh)%text_list_settle. by rewrite Hs, Hh, E.
Qed.

Lemma py_eq_texts l m : forallb is_text l = true → forallb is_text m = true → py_eq (VTuple l) (VTuple m) = true → l = m.
Proof.
  revert m. induction l as [|x l IH]; intros [|y m] Hl Hm E; try done. cbn [forallb] in *.
  apply andb_prop in Hl as [Hx Hl], Hm as [Hy Hm]. destruct x; try done. destruct y; try done. cbn in E.
  apply andb_prop in E as [->%bool_decide_eq_true E]. f_equal. apply IH; done.
Qed.

Lemma py_eq_key k k' : state_key k = true → state_key k' = true → py_eq k k' = true → k = k'.
Proof.
  destruct k as [| | |s| | | | | | | | | |l| | | |]; try done; destruct k' as [| | |s'| | | | | | | | | |l'| | | |]; try done.
  - cbn. by intros _ _ ->%bool_decide_eq_true.
  - intros Hl Hm E. f_equal. by apply py_eq_texts.
Qed.

Lemma py_eq_refl_key k : state_key k = true → py_eq k k = true.
Proof.
  destruct k as [| | |s| | | | | | | | | |l| | | |]; try done; [intros _; cbn; by apply bool_decide_eq_true_2|]. intros Hl.
  cbn in Hl. change (py_eq (VTuple l) (VTuple l)) with ((fix go l m := match l, m with
          | [], [] => true
          | x :: l, y :: m => py_eq x y && go l m
          | _, _ => false
          end) l l). induction l as [|x l IH]; [done|]. cbn [forallb] in Hl. apply andb_prop in Hl as [Hx Hl]. destruct x; try done.
  rewrite IH by done. cbn. by rewrite bool_decide_eq_true_2.
Qed.

Lemma key_text_inj k k' : state_key k = true → state_key k' = true → dumps k = dumps k' → k = k'.
Proof.
  intros Hk Hk' E. destruct (state_key_settle k Hk) as (Ek & Sk & _), (state_key_settle k' Hk') as (Ek' & Sk' & _).
  rewrite <-Ek, <-Ek'. by apply dumps_inj.
Qed.

Lemma loads_key k : state_key k = true → loads (dumps k) = Ok k.
Proof. intros Hk. destruct (state_key_settle k Hk) as (Ek & Sk & _). by rewrite (loads_dumps k Sk), Ek. Qed.

(** *** Restoring one field *)

(** A record that holds an item of a dictionary, and one that holds a value. *)
Definition holds_item (name : string) (r : StateRecord) (item : value * value) : Prop :=
  srec_key r = dumps item.1 ∧ srec_payload r = dumps item.2 ∧ storable_item name item = true.
Definition holds_value (r : StateRecord) (v : value) : Prop := srec_payload r = dumps v ∧ storable v = true.

Lemma restore_item_fresh name acc r item :
  holds_item name r item → forallb (λ x, state_key x.1) acc = true → item.1 ∉ acc.*1 →
  restore_item name acc r = Ok (acc ++ [(item.1, settle item.2)])%list.
Proof.
  destruct item as [k v]. unfold storable_item. intros (Ek & Ev & [[Hk Ha]%andb_prop Hv]%andb_prop) Hacc Hfresh. cbn [fst snd] in *.
  unfold restore_item. rewrite Ek, Ev, (loads_key k Hk). cbn [mbind res_bind]. unfold allowed in Ha. apply negb_true_iff in Ha. rewrite Ha.
  cbn [fail_if mbind res_bind]. rewrite (loads_dumps v Hv). cbn [mbind res_bind].
  apply put_item_fresh; [by apply state_key_settle|]. intros x (y & -> & Hy)%list_elem_of_fmap.
  apply not_true_iff_false. intros E. rewrite forallb_forall in Hacc. apply list_elem_of_In in Hy as Hin. apply Hacc in Hin.
  apply Hfresh. apply (py_eq_key _ _ Hin Hk) in E as <-. by apply list_elem_of_fmap_2.
Qed.

Lemma restore_items_held name acc l items :
  Forall2 (holds_item name) l items → forallb (λ x, state_key x.1) acc = true → NoDup (acc.*1 ++ items.*1) →
  restore_items name acc l = Ok (acc ++ settle_items items)%list.
Proof.
  intros H2. revert acc. induction H2 as [|r [k v] l items Hr _ IH]; intros acc Hacc Hnd; [by cbn; rewrite app_nil_r|].
  cbn [fmap list_fmap fst] in Hnd. cbn [restore_items].
  assert (k ∉ acc.*1) as Hfresh.
  { intros Hin. apply NoDup_app in Hnd as (_ & Hd & _). apply (Hd k Hin). by constructor. }
  rewrite (restore_item_fresh name acc r (k, v) Hr Hacc Hfresh). cbn [mbind res_bind fst snd]. rewrite IH.
  - by rewrite <-app_assoc.
  - rewrite forallb_app, Hacc. cbn. destruct Hr as (_ & _ & Hs). unfold storable_item in Hs.
    cbn [fst snd] in *. by apply andb_prop in Hs as [[-> _]%andb_prop _].
  - rewrite fmap_app, <-app_assoc. exact Hnd.
Qed.

Lemma restore_values_held l vs :
  Forall2 holds_value l vs → traverse (λ r, loads (srec_payload r)) l = Ok (settle <$> vs).
Proof.
  intros H2. apply traverse_ok. induction H2 as [|r v l vs [E Hv] _ IH]; [constructor|]. rewrite fmap_cons.
  constructor; [|done]. by rewrite E, loads_dumps.
Qed.

(** *** The records of a state *)

Lemma field_collection name c x : x ∈ field_records (name, c) → x.1.1 = name ∧ srec_collection x.2 = name ∧ srec_key x.2 = x.1.2.
Proof.
  destruct c as [items|items|v]; cbn.
  - by intros (i & y & -> & _)%elem_of_lookup_imap.
  - by intros (i & y & -> & _)%elem_of_lookup_imap.
  - by intros ->%list_elem_of_singleton.
Qed.

(** Positions count up, so the records of a field are in their order. *)
Lemma numbered_records n l :
  (∀ i r, l !! i = Some r → srec_position r = Z.of_nat (n + i)) →
  StronglySorted (key_le record_order) l ∧ NoDup (record_order <$> l) ∧ Forall (λ r, Z.of_nat n ≤ srec_position r) l.
Proof.
  revert n. induction l as [|x l IH]; intros n Hl; [by split_and!; constructor|].
  rewrite fmap_cons. destruct (IH (S n)) as (Hs & Hnd & Hall); [intros i r Hi; rewrite (Hl (S i) r Hi); lia|].
  pose proof (Hl 0%nat x eq_refl) as H0x. rewrite Forall_forall in Hall. split_and!.
  - constructor; [done|]. apply Forall_forall. intros r Hr%Hall. unfold key_le, py_leb, record_order.
    unfold py_compare, prod_pyord, py_compare, Z_pyord. cbn [fst snd]. rewrite H0x.
    destruct (Z.compare_spec (Z.of_nat (n + 0)) (srec_position r)); [lia|done|lia].
  - constructor; [|done]. intros (r & E & Hr%Hall)%list_elem_of_fmap. unfold record_order in E. injection E as E _. lia.
  - constructor; [lia|]. apply Forall_forall. intros r Hr%Hall. lia.
Qed.

Lemma field_positions name c i r : (field_records (name, c)).*2 !! i = Some r → srec_position r = Z.of_nat i.
Proof.
  destruct c as [items|items|v]; cbn [field_records].
  1,2: rewrite list_lookup_fmap, list_lookup_imap; destruct (items !! i); [|done]; by intros [= <-].
  destruct i as [|i]; [by intros [= <-]|by destruct i].
Qed.

Lemma field_sorted name c :
  StronglySorted (key_le record_order) (field_records (name, c)).*2 ∧ NoDup (record_order <$> (field_records (name, c)).*2).
Proof. destruct (numbered_records 0 _ (field_positions name c)) as (? & ? & _). done. Qed.

Lemma in_item_records name items x :
  x ∈ imap (item_record name) items ↔ ∃ i k v, items !! i = Some (k, v)
    ∧ x = ((name, dumps k), mkStateRecord name (dumps k) (Z.of_nat i) (dumps v)).
Proof.
  rewrite elem_of_lookup_imap. split.
  - intros (i & [k v] & -> & Hi). by exists i, k, v.
  - intros (i & k & v & Hi & ->). by exists i, (k, v).
Qed.

Lemma field_ids name declared c : storable_field declared (name, c) = true → NoDup (field_records (name, c)).*1.
Proof.
  intros [_ Hc]%andb_prop. cbn [fst snd] in Hc. destruct declared as [n [d|d|d]]; destruct c as [items|items|v]; try done; cbn [field_records snd] in *.
  - apply andb_prop in Hc as [Hi Hnd%bool_decide_eq_true]. rewrite fmap_imap. apply NoDup_alt. intros i j x.
    rewrite !list_lookup_imap. destruct (items !! i) as [[k v]|] eqn:Ei; [|done]. destruct (items !! j) as [[k' v']|] eqn:Ej; [|done].
    cbn. intros [= <-] [= E]. rewrite forallb_forall in Hi.
    apply list_elem_of_lookup_2 in Ei as Hki. apply list_elem_of_lookup_2 in Ej as Hkj. apply list_elem_of_In, Hi in Hki. apply list_elem_of_In, Hi in Hkj.
    unfold storable_item in Hki, Hkj. cbn in Hki, Hkj. apply andb_prop in Hki as [[Hki _]%andb_prop _], Hkj as [[Hkj _]%andb_prop _].
    apply key_text_inj in E; [|done..]. subst k'. eapply NoDup_lookup; [exact Hnd|..]; rewrite list_lookup_fmap; [by rewrite Ei|by rewrite Ej].
  - rewrite fmap_imap. apply NoDup_alt. intros i j x. rewrite !list_lookup_imap.
    destruct (items !! i); [|done]. destruct (items !! j); [|done]. cbn. intros [= <-] [= E]. apply (inj pretty) in E. lia.
Qed.

Lemma state_names s : storable_state s → s.*1 = template.*1.
Proof.
  induction 1 as [|d f ds s Hf _ IH]; [done|]. rewrite !fmap_cons, IH. f_equal. by apply andb_prop in Hf as [->%bool_decide_eq_true _].
Qed.

Lemma template_names : NoDup template.*1.
Proof. apply (bool_decide_unpack _). vm_compute. exact I. Qed.

Lemma records_names (s : pystate) x : x ∈ s ≫= field_records → x.1.1 ∈ s.*1.
Proof. intros ([name c] & Hx & Hin)%list_elem_of_bind. apply field_collection in Hx as (-> & _). by apply (list_elem_of_fmap_2 fst) in Hin. Qed.

Lemma state_ids s : storable_state s → NoDup (s ≫= field_records).*1.
Proof.
  intros Hs. pose proof (state_names s Hs) as En. pose proof template_names as Hnd. rewrite <-En in Hnd. clear En.
  unfold storable_state in Hs. revert Hnd. induction Hs as [|d [name c] ds s Hf _ IH]; intros Hnd; [constructor|].
  rewrite bind_cons, fmap_app. cbn [fmap list_fmap fst] in Hnd. apply NoDup_cons in Hnd as [Hname Hnd]. apply NoDup_app. split_and!.
  - by eapply field_ids.
  - intros x (y & -> & Hy)%list_elem_of_fmap (z & E & Hz)%list_elem_of_fmap.
    apply field_collection in Hy as (Ey & _). apply records_names in Hz. rewrite <-E, Ey in Hz. done.
  - by apply IH.
Qed.

Lemma put_all_map l acc : NoDup l.*1 → (∀ i, i ∈ l.*1 → acc !! i = None) → put_all l acc = list_to_map l ∪ acc.
Proof.
  unfold put_all. revert acc. induction l as [|[i r] l IH]; intros acc Hnd Hacc; [by symmetry; apply (left_id_L ∅ (∪))|].
  cbn in Hnd. apply NoDup_cons in Hnd as [Hi Hnd]. cbn [foldl fst snd]. rewrite IH; [|done|].
  - cbn. rewrite <-insert_union_r by (by apply not_elem_of_list_to_map_1). by rewrite insert_union_l.
  - intros j Hj. rewrite lookup_insert_ne by (intros <-; done). apply Hacc. by constructor.
Qed.

Lemma lookup_state_records s i r : storable_state s → state_to_records s !! i = Some r ↔ (i, r) ∈ s ≫= field_records.
Proof.
  intros Hs. unfold state_to_records. rewrite put_all_map by (by apply state_ids || done).
  rewrite (right_id_L ∅ (∪)). symmetry. apply elem_of_list_to_map. by apply state_ids.
Qed.

Lemma state_records_values s : storable_state s → table_values (state_to_records s) ≡ₚ (s ≫= field_records).*2.
Proof.
  intros Hs. unfold table_values, state_to_records. rewrite put_all_map by (by apply state_ids || done).
  rewrite (right_id_L ∅ (∪)). apply fmap_Permutation, map_to_list_to_map. by apply state_ids.
Qed.

(** *** From the records to the state *)

Lemma records_known records :
  Forall (λ r, srec_collection r ∈ template.*1) records → records_to_state records = traverse (restore_field records) template.
Proof.
  intros Hk. unfold records_to_state.
  assert (list_to_set (srec_collection <$> records) ∖ list_to_set template.*1 =@{gset string} ∅) as ->.
  { apply set_eq. intros x. rewrite elem_of_difference, !elem_of_list_to_set, elem_of_empty. split; [|done].
    intros [(r & -> & Hr)%list_elem_of_fmap Hx]. rewrite Forall_forall in Hk. by apply Hx, Hk. }
  by rewrite bool_decide_eq_true_2.
Qed.

Lemma field_alone (s : pystate) name c :
  NoDup s.*1 → (name, c) ∈ s → filter (λ r, srec_collection r = name) (s ≫= field_records).*2 = (field_records (name, c)).*2.
Proof.
  assert (∀ s : pystate, name ∉ s.*1 → filter (λ r, srec_collection r = name) (s ≫= field_records).*2 = []) as Hnone.
  { intros s' Hn. apply filter_none. intros r (x & -> & Hx)%list_elem_of_fmap E. apply Hn. rewrite <-E.
    apply records_names in Hx as Hname. apply list_elem_of_bind in Hx as ([n' c'] & Hx & _). apply field_collection in Hx as (En & -> & _).
    by rewrite <-En. }
  induction s as [|[n d] s IH]; intros Hnd Hin; [by apply not_elem_of_nil in Hin|].
  cbn [fmap list_fmap fst] in Hnd. apply NoDup_cons in Hnd as [Hn Hnd]. rewrite bind_cons, fmap_app, filter_app.
  apply elem_of_cons in Hin as [[= <- <-]|Hin].
  - rewrite (Hnone s Hn), app_nil_r. apply filter_all. intros r (x & -> & Hx)%list_elem_of_fmap. by apply field_collection in Hx as (_ & -> & _).
  - rewrite (IH Hnd Hin). rewrite filter_none; [done|]. intros r (x & -> & Hx)%list_elem_of_fmap. apply field_collection in Hx as (_ & -> & _).
    intros ->. apply Hn. by apply (list_elem_of_fmap_2 fst) in Hin.
Qed.

Lemma restore_sorted records name declared c :
  filter (λ r, srec_collection r = name) records ≡ₚ (field_records (name, c)).*2 →
  storable_field (name, declared) (name, c) = true →
  restore_field records (name, declared) = Ok (name, settle_collection c).
Proof.
  intros Hp Hf. unfold restore_field. destruct (field_sorted name c) as [Hsort Hnd].
  assert (sort_on record_order (filter (λ r, srec_collection r = name) records) = (field_records (name, c)).*2) as ->.
  { rewrite (sort_on_unique record_order _ (field_records (name, c)).*2); [by apply sort_on_idemp| |done].
    by rewrite (fmap_Permutation record_order _ _ Hp). }
  apply andb_prop in Hf as [_ Hc]. cbn [fst snd] in Hc. destruct declared as [d|d|d], c as [items|items|v]; try done; cbn [field_records].
  - apply andb_prop in Hc as [Hi Hk%bool_decide_eq_true]. pose proof (fmap_imap (item_record name) snd items) as E. rewrite E.
    rewrite (restore_items_held name [] _ items); [done| |done|done].
    clear -Hi. apply Forall2_same_length_lookup_2; [by rewrite length_imap|]. intros i r item. rewrite list_lookup_imap.
    destruct (items !! i) as [x|] eqn:Hx; [|done]. cbn. intros [= <-] [= ->]. split_and!; [done..|].
    rewrite forallb_forall in Hi. apply Hi. apply list_elem_of_In. by eapply list_elem_of_lookup_2.
  - pose proof (fmap_imap (list_record name) snd items) as E. rewrite E. rewrite (restore_values_held _ items); [done|].
    clear -Hc. apply Forall2_same_length_lookup_2; [by rewrite length_imap|]. intros i r item. rewrite list_lookup_imap.
    destruct (items !! i) as [x|] eqn:Hx; [|done]. cbn. intros [= <-] [= ->]. split; [done|].
    rewrite forallb_forall in Hc. apply Hc. apply list_elem_of_In. by eapply list_elem_of_lookup_2.
Qed.

Lemma traverse_fields records (ds s : pystate) :
  Forall2 (λ declared field, storable_field declared field = true) ds s →
  (∀ name c, (name, c) ∈ s → filter (λ r, srec_collection r = name) records ≡ₚ (field_records (name, c)).*2) →
  traverse (restore_field records) ds = Ok (settle_state s).
Proof.
  intros H2 Hfilter. apply traverse_ok. revert Hfilter. induction H2 as [|[n d] [name c] ds s Hf _ IH]; intros Hfilter; [constructor|].
  cbn [settle_state fmap list_fmap]. constructor.
  - pose proof Hf as En. apply andb_prop in En as [En%bool_decide_eq_true _]. cbn in En. subst name.
    apply restore_sorted; [|done]. apply Hfilter. constructor.
  - apply IH. intros name' c' Hin. apply Hfilter. by constructor.
Qed.

Lemma records_restore s records :
  storable_state s → records ≡ₚ table_values (state_to_records s) → records_to_state records = Ok (settle_state s).
Proof.
  intros Hs Hp. rewrite (state_records_values s Hs) in Hp. pose proof template_names as Hnd. rewrite <-(state_names s Hs) in Hnd.
  rewrite records_known.
  - apply traverse_fields; [done|]. intros name c Hin. rewrite Hp. by rewrite (field_alone s name c Hnd Hin).
  - apply Forall_forall. intros r Hr. rewrite Hp in Hr. apply list_elem_of_fmap in Hr as (x & -> & Hx).
    rewrite <-(state_names s Hs). pose proof (records_names s x Hx) as Hname.
    apply list_elem_of_bind in Hx as ([n c] & Hx & _). apply field_collection in Hx as (En & -> & _). by rewrite <-En.
Qed.

(** *** The restored state *)

Lemma settle_items_names items : (settle_items items).*1 = items.*1.
Proof. unfold settle_items. rewrite <-list_fmap_compose. apply list_fmap_ext. by intros i [k v] _. Qed.

Lemma settle_state_storable s : storable_state s → storable_state (settle_state s).
Proof.
  unfold storable_state, settle_state. induction 1 as [|d [name c] ds s Hf _ IH]; [constructor|]. rewrite fmap_cons. constructor; [|done].
  apply andb_prop in Hf as [Hn Hc]. apply andb_true_intro. split; [done|]. cbn [fst snd] in *.
  destruct (d.2) as [di|di|di], c as [items|items|v]; try done; cbn [settle_collection].
  - rewrite settle_items_names. apply andb_prop in Hc as [Hi ->]. rewrite andb_true_r. rewrite forallb_forall in *.
    intros x ([k v] & <- & Hin%Hi)%in_map_iff. unfold storable_item in *. cbn [fst snd] in *. apply andb_prop in Hin as [-> Hv].
    by apply settle_settled in Hv as [_ ->].
  - rewrite forallb_forall in *. intros x (v & <- & Hin%Hc)%in_map_iff. by apply settle_settled.
Qed.

Lemma settle_records s : storable_state s → state_to_records (settle_state s) = state_to_records s.
Proof.
  intros Hs. unfold state_to_records. f_equal. unfold storable_state, settle_state in *.
  induction Hs as [|d [name c] ds s Hf _ IH]; [done|]. rewrite fmap_cons, !bind_cons, IH. f_equal.
  apply andb_prop in Hf as [_ Hc]. cbn [fst snd] in Hc. destruct (d.2) as [di|di|di], c as [items|items|v]; try done; cbn [settle_collection field_records].
  - unfold settle_items. rewrite imap_fmap. apply imap_ext. intros i [k v] Hi. unfold compose, item_record. cbn [fst snd].
    apply andb_prop in Hc as [Hc _]. rewrite forallb_forall in Hc. apply list_elem_of_lookup_2, list_elem_of_In, Hc in Hi.
    apply andb_prop in Hi as [_ Hv]. by rewrite (dumps_settle v Hv).
  - rewrite imap_fmap. apply imap_ext. intros i v Hi. unfold compose, list_record.
    rewrite forallb_forall in Hc. apply list_elem_of_lookup_2, list_elem_of_In, Hc in Hi. by rewrite (dumps_settle v Hi).
Qed.
End states.

(** C17. The durable state and its records carry the same information.  The
    records of a state, in whatever order a back end returns them, restore the
    state with its dictionaries and lists in their order and its values as the
    codec reads them; the state restored can be stored again and has the same
    records. *)
Theorem records_round_trip `{!ClassTable, !JsonStr} s records :
  storable_state s → records ≡ₚ table_values (state_to_records s) →
  records_to_state records = Ok (settle_state s)
  ∧ storable_state (settle_state s)
  ∧ state_to_records (settle_state s) = state_to_records s.
Proof. intros Hs Hp. split_and!; [by apply records_restore|by apply settle_state_storable|by apply settle_records]. Qed.

(** ** What any records restore to *)

Section restored.
Context `{!ClassTable, !JsonStr}.

(** No key of a dictionary equals one before it. *)
Fixpoint fresh_keys (keys : list value) : bool :=
  match keys with
  | [] => true
  | k :: keys => forallb (λ k', negb (py_eq k k')) keys && fresh_keys keys
  end.

Definition well_formed_collection (name : string) (declared c : collection) : bool :=
  match declared, c with
  | CDict _, CDict items => forallb (λ item, hashable item.1 && allowed name item.1) items && fresh_keys items.*1
  | CList _, CList _ | CScalar _, CScalar _ => true
  | _, _ => false
  end.
Definition well_formed_field (declared field : string * collection) : Prop :=
  field.1 = declared.1 ∧ well_formed_collection declared.1 declared.2 field.2 = true.

Lemma dict_insert_keys d k w : (dict_insert d k w).*1 = d.*1 ∨ (dict_insert d k w).*1 = (d.*1 ++ [k])%list ∧ forallb (λ k', negb (py_eq k' k)) d.*1 = true.
Proof.
  induction d as [|[i x] d IH]; [by right|]. cbn. destruct (py_eq i k) eqn:E; [by left|].
  cbn. destruct IH as [->|[-> ->]]; [by left|by right].
Qed.

Lemma fresh_keys_snoc keys k : fresh_keys keys = true → forallb (λ k', negb (py_eq k' k)) keys = true → fresh_keys (keys ++ [k]) = true.
Proof.
  induction keys as [|i keys IH]; [done|]. cbn. intros [Hi Hf]%andb_prop [Hk Hks]%andb_prop.
  rewrite forallb_app, Hi. cbn. by rewrite Hk, IH.
Qed.

Lemma forallb_keys (p : value → bool) (d : list (value * value)) : forallb p d.*1 = forallb (λ item, p item.1) d.
Proof. induction d as [|[k v] d IH]; cbn; [done|]. by rewrite IH. Qed.

Lemma restore_item_formed name acc r acc' :
  restore_item name acc r = Ok acc' → well_formed_collection name (CDict []) (CDict acc) = true →
  well_formed_collection name (CDict []) (CDict acc') = true.
Proof.
  unfold restore_item. intros E [Hi Hf]%andb_prop. destruct (loads (srec_key r)) as [k|]; [|done]. cbn [mbind res_bind] in E.
  match type of E with context [fail_if ?b _] => destruct b eqn:Ha; [done|] end. cbn [fail_if mbind res_bind] in E.
  destruct (loads (srec_payload r)) as [v|]; [|done]. cbn [mbind res_bind] in E. unfold put_item in E. cbn [fst snd] in E.
  destruct (hashable k) eqn:Hh; [|done]. injection E as <-.
  assert (forallb (λ k', hashable k' && allowed name k') acc.*1 = true) as Hkeys by (rewrite forallb_keys; exact Hi).
  assert (forallb (λ k', hashable k' && allowed name k') (dict_insert acc k v).*1 = true) as Hkeys'.
  { destruct (dict_insert_keys acc k v) as [->|[-> _]]; [done|]. rewrite forallb_app, Hkeys. cbn. unfold allowed. by rewrite Hh, Ha. }
  cbn [well_formed_collection]. apply andb_true_intro. split; [rewrite forallb_keys in Hkeys'; exact Hkeys'|].
  destruct (dict_insert_keys acc k v) as [->|[-> Hk]]; [done|]. by apply fresh_keys_snoc.
Qed.

Lemma restore_items_formed name l acc acc' :
  restore_items name acc l = Ok acc' → well_formed_collection name (CDict []) (CDict acc) = true →
  well_formed_collection name (CDict []) (CDict acc') = true.
Proof.
  revert acc. induction l as [|r l IH]; intros acc E Hacc; [by injection E as <-|]. cbn [restore_items] in E.
  destruct (restore_item name acc r) as [acc1|] eqn:E1; [|done]. cbn [mbind res_bind] in E.
  apply (IH acc1 E). by eapply restore_item_formed.
Qed.
End restored.

(** C38. Whatever records a back end returns, the state they restore to is well
    formed, or there is none: it has the declared fields in order, each of its
    declared kind; the keys of a dictionary can be hashed and none equals one
    before it; and the temporal dictionaries are keyed by owners that are not
    blank.  A record of a collection the state does not declare is refused. *)
Theorem restored_state_well_formed `{!ClassTable, !JsonStr} records :
  match records_to_state records with
  | Ok s => Forall2 well_formed_field template s ∧ Forall (λ r, srec_collection r ∈ template.*1) records
  | Err _ => True
  end.
Proof.
  unfold records_to_state.
  match goal with |- context [fail_if (negb (bool_decide (?u = _))) _] => destruct (decide (u = ∅)) as [Hknown|Hknown] end;
    [rewrite bool_decide_eq_true_2 by done|by rewrite bool_decide_eq_false_2].
  cbn [negb fail_if mbind res_bind]. destruct (traverse _ template) as [s|] eqn:E; [|done]. split.
  - clear Hknown. revert s E. induction template as [|[name c] ds IH]; intros s E; cbn [traverse] in E; [by injection E as <-|].
    destruct (restore_field records (name, c)) as [f|] eqn:Ef; [|done]. cbn [mbind res_bind] in E.
    destruct (traverse _ ds) as [s'|]; [|done]. injection E as <-. constructor; [|by apply IH]. clear IH.
    unfold restore_field in Ef. destruct c as [d|d|d].
    + destruct (restore_items name [] _) as [items|] eqn:Er; [|done]. injection Ef as <-.
      split; [done|]. by apply restore_items_formed in Er.
    + destruct (traverse _ _) as [items|]; [|done]. by injection Ef as <-.
    + destruct (List.find _ _) as [r|]; [|by injection Ef as <-]. destruct (loads (srec_payload r)); [|done]. by injection Ef as <-.
  - apply Forall_forall. intros r Hr. destruct (decide (srec_collection r ∈ template.*1)) as [?|Hn]; [done|]. exfalso.
    apply (not_elem_of_empty (C:=gset string) (srec_collection r)). rewrite <-Hknown.
    apply elem_of_difference. rewrite !elem_of_list_to_set. split; [by apply (list_elem_of_fmap_2 srec_collection)|done].
Qed.

(** A shop with an order, a message under way, two events and a clock. *)
#[local] Existing Instances shipping_classes empty_str.
Definition shop_field (field : string * collection) : string * collection :=
  match field.1 with
  | "entities" => ("entities", CDict [(VTuple [VStr "Order"; VStr "o-1"], VDict [(VStr "lines", VList [VInt 2; VFloat fone])]);
                                      (VTuple [VStr "Order"; VStr "o-0"], VSet [VStr "late"; VStr "paid"])])
  | "boundary_messages" => ("boundary_messages", CDict [(VStr "m-1", late_message)])
  | "events" => ("events", CList [VStr "placed"; VStr "paid"])
  | "committed_ticks" => ("committed_ticks", CDict [(VStr "run-1", VInt 3)])
  | _ => field
  end.
Definition shop : pystate := shop_field <$> template.

Lemma shop_storable : storable_state shop.
Proof. apply (bool_decide_unpack _). vm_compute. exact I. Qed.

Lemma records_round_trip_witness :
  records_to_state (rev (table_values (state_to_records shop))) = Ok (settle_state shop)
  ∧ state_to_records (settle_state shop) = state_to_records shop.
Proof.
  destruct (records_round_trip shop (rev (table_values (state_to_records shop)))) as (Hload & _ & Hrecords).
  - exact shop_storable.
  - symmetry. apply Permutation_rev.
  - split; [exact Hload|exact Hrecords].
Defined.
