(* ===== verification/Journal.v ===== *)
(** * The JSONL journal

    [src/src/sose/persistence/jsonl_journal.py]: an append-only file with one
    JSON line per committed transaction, replayed to get the durable state.  The
    file is the string of its bytes. *)
From S2P Require Import Prelude Encoding EncodingFacts Json JsonFacts Codec CodecFacts StateRecords.
From stdpp Require Import pretty.
From Stdlib Require Import Ascii.
Open Scope string_scope.
Open Scope Z_scope.

(** ** Lines *)

(** [bytes.splitlines(keepends=True)]: lines end with a line feed, a carriage
    return, or both. *)
Fixpoint splitlines (s : string) : list string :=
  match s with
  | EmptyString => []
  | String c r =>
    if bool_decide (c = "010"%char) then String c EmptyString :: splitlines r
    else if bool_decide (c = "013"%char) then
      match r with
      | String "010" r => String c (String "010" EmptyString) :: splitlines r
      | _ => String c EmptyString :: splitlines r
      end
    else match splitlines r with
         | l :: ls => String c l :: ls
         | [] => [String c EmptyString]
         end
  end.

(** [not bytes.strip()]. *)
Fixpoint bytes_blank (s : string) : bool :=
  match s with
  | EmptyString => true
  | String c s => let n := N_of_ascii c in ((n =? 32) || ((9 <=? n) && (n <=? 13)))%N && bytes_blank s
  end.

(** [raw.decode("utf-8")] succeeds: the bytes are well-formed UTF-8.  [missing]
    continuation bytes are expected, the next one between [lo] and [hi]. *)
Fixpoint utf8_from (missing : nat) (lo hi : N) (s : string) : bool :=
  match s with
  | EmptyString => match missing with O => true | _ => false end
  | String c s =>
    let b := N_of_ascii c in
    match missing with
    | S missing => (lo <=? b)%N && (b <=? hi)%N && utf8_from missing 128 191 s
    | O =>
      if (b <? 128)%N then utf8_from 0 128 191 s
      else if (b <? 194)%N then false
      else if (b <? 224)%N then utf8_from 1 128 191 s
      else if (b =? 224)%N then utf8_from 2 160 191 s
      else if (b =? 237)%N then utf8_from 2 128 159 s
      else if (b <? 240)%N then utf8_from 2 128 191 s
      else if (b =? 240)%N then utf8_from 3 144 191 s
      else if (b <? 244)%N then utf8_from 3 128 191 s
      else if (b =? 244)%N then utf8_from 3 128 143 s
      else false
    end
  end.
Definition utf8_valid (s : string) : bool := utf8_from 0 128 191 s.

(** ** Changes *)

Definition _SCHEMA_VERSION : Z := 1.

(** [int(x)] of what is neither an integer nor a boolean; a journal this class has
    written holds none. *)
Class JsonInt := json_int_other : json → res Z.

Section journal.
Context `{!ClassTable, !JsonStr, !JsonInt}.

(** [raw[k]]. *)
Definition subscript (raw : json) (k : string) : res json :=
  match raw with
  | JObj members => match dict_get k members with Some j => Ok j | None => Err (KeyError k) end
  | _ => Err (TypeError "indices must be integers or slices, not str")
  end.

(** [raw.get(k)]. *)
Definition get (raw : json) (k : string) : res (option json) :=
  match raw with
  | JObj members => Ok (dict_get k members)
  | _ => Err (AttributeError "object has no attribute 'get'")
  end.

(** [int(j)]. *)
Definition json_int (j : json) : res Z :=
  match j with
  | JInt z => Ok z
  | JBool b => Ok (if b then 1 else 0)
  | _ => json_int_other j
  end.

Definition _journal_change (raw : json) : res StateRecordChange :=
  operation ← subscript raw "operation" ;
  collection ← subscript raw "collection" ;
  key ← subscript raw "key" ;
  position ← get raw "position" ;
  position ← (match position with
              | None | Some JNull => Ok None
              | Some j => Some <$> json_int j
              end) ;
  payload ← get raw "payload" ;
  Ok (mkStateRecordChange (json_str operation) (json_str collection) (json_str key) position
        (match payload with None | Some JNull => None | Some j => Some (json_str j) end)).

Definition _apply_change (records : table) (change : StateRecordChange) : res table :=
  let identity := (chg_collection change, chg_key change) in
  if bool_decide (chg_operation change = "delete") then Ok (delete identity records) else
  fail_if (negb (bool_decide (chg_operation change = "upsert")))
    (RuntimeError ("unknown JSONL journal operation: " +:+ chg_operation change)) ;;
  match chg_position change, chg_payload change with
  | Some position, Some payload =>
    Ok (<[identity := mkStateRecord (chg_collection change) (chg_key change) position payload]> records)
  | _, _ => Err (RuntimeError "invalid JSONL journal upsert without payload")
  end.

Fixpoint apply_changes (records : table) (changes : list StateRecordChange) : res table :=
  match changes with
  | [] => Ok records
  | c :: changes => records ← _apply_change records c ; apply_changes records changes
  end.

(** [for raw in entry["changes"]]: the change is read, then applied. *)
Fixpoint apply_raw (records : table) (raws : list json) : res table :=
  match raws with
  | [] => Ok records
  | raw :: raws => change ← _journal_change raw ; records ← _apply_change records change ; apply_raw records raws
  end.

(** One decoded line. *)
Definition apply_entry (records : table) (transaction_count : Z) (entry : json) : res (table * Z) :=
  version ← get entry "schema_version" ;
  version ← (match version with None => Ok (-1) | Some j => json_int j end) ;
  fail_if (negb (version =? _SCHEMA_VERSION))
    (RuntimeError ("unsupported JSONLJournalPersistence schema version: " +:+ pretty version)) ;;
  transaction ← subscript entry "transaction" ;
  transaction ← json_int transaction ;
  changes ← subscript entry "changes" ;
  records ← (match changes with
             | JArr raws => apply_raw records raws
             | JObj members => apply_raw records (JStr <$> members.*1)
             | JStr s => apply_raw records (JStr <$> chars s)
             | _ => Err (TypeError "object is not iterable")
             end) ;
  Ok (records, Z.max transaction_count transaction).

(** The loop over the lines.  A line that is not UTF-8 or not JSON ends the
    journal when only white space follows, and is an error otherwise. *)
Fixpoint replay (lines : list string) (number : Z) (records : table) (transaction_count : Z) : res (table * Z) :=
  match lines with
  | [] => Ok (records, transaction_count)
  | line :: lines =>
    let broken := if bytes_blank (concat_str lines) then Ok (records, transaction_count)
                  else Err (RuntimeError ("corrupt JSONL journal at line " +:+ pretty number)) in
    if negb (utf8_valid line) then broken
    else if blank line then replay lines (number + 1) records transaction_count
    else
      match Json.loads line with
      | Err _ => broken
      | Ok entry =>
        '(records, transaction_count) ← apply_entry records transaction_count entry ;
        replay lines (number + 1) records transaction_count
      end
  end.

Definition _load_state_from_journal (file : string) : res (pystate * Z) :=
  '(records, transaction_count) ← replay (splitlines file) 1 ∅ 0 ;
  state ← records_to_state (table_values records) ;
  Ok (state, transaction_count).

(** ** The persistence *)

(** The file, and the attributes [_state] and [_transaction_count]. *)
Record journal := mkJournal { jnl_file : string; jnl_state : pystate; jnl_transaction_count : Z }.
#[export] Instance journal_eta : Eta journal := λ j, mkJournal (jnl_file j) (jnl_state j) (jnl_transaction_count j).

Definition _refresh_from_journal : prog journal unit :=
  file ← gets jnl_file ;
  loaded ← lift (_load_state_from_journal file) ;
  modify (λ j, j <| jnl_state := loaded.1 |> <| jnl_transaction_count := loaded.2 |>).

(** [JSONLJournalPersistence(path)] over the bytes of an existing file; a missing
    file is created empty. *)
Definition JSONLJournalPersistence_new (file : string) : res journal :=
  loaded ← _load_state_from_journal file ;
  Ok (mkJournal file loaded.1 loaded.2).

(** The line of a transaction. *)
Definition change_json (c : StateRecordChange) : json :=
  JObj [("operation", JStr (chg_operation c)); ("collection", JStr (chg_collection c)); ("key", JStr (chg_key c));
        ("position", match chg_position c with Some p => JInt p | None => JNull end);
        ("payload", match chg_payload c with Some p => JStr p | None => JNull end)].
Definition entry_json (transaction : Z) (changes : list StateRecordChange) : json :=
  JObj [("schema_version", JInt _SCHEMA_VERSION); ("transaction", JInt transaction); ("changes", JArr (change_json <$> changes))].
Definition line_feed : string := String "010" EmptyString.
Definition entry_line (transaction : Z) (changes : list StateRecordChange) : string :=
  print compact (entry_json transaction changes) +:+ line_feed.

Definition _append_transaction (changes : list StateRecordChange) : prog journal unit :=
  match changes with
  | [] => mret tt
  | _ =>
    transaction ← gets (λ j, jnl_transaction_count j + 1) ;
    modify (λ j, j <| jnl_file ::= λ f, f +:+ entry_line transaction changes |>) ;;
    modify (λ j, j <| jnl_transaction_count := transaction |>)
  end.

(** A unit of work: from the state it forks, the state it commits and the records
    it marked dirty. *)
Definition unit_of_work : Type := pystate → res (pystate * list (string * value)).

(** [with journal.transaction(owner_id=...) as uow: body]. *)
Definition journal_transaction (owner_id : option string) (body : unit_of_work) : prog journal unit :=
  raise_if (match owner_id with Some o => is_empty o | None => false end) (ValueError "owner_id must not be empty") ;;
  _refresh_from_journal ;;
  before ← gets jnl_state ;
  r ← attempt (
    committed ← lift (body before) ;
    modify (λ j, j <| jnl_state := committed.1 |>) ;;
    changes ← lift (changes_for_dirty_records before committed.1 committed.2) ;
    _append_transaction changes) ;
  match r with
  | Ok tt => mret tt
  | Err e => modify (λ j, j <| jnl_state := before |>) ;; raise e
  end.

(** Readers replay the journal first. *)
Definition journal_read (name : string) : prog journal collection :=
  _refresh_from_journal ;;
  state ← gets jnl_state ;
  lift (getattr name state).

Definition journal_transaction_count : prog journal Z :=
  _refresh_from_journal ;;
  gets jnl_transaction_count.

Definition _snapshot_state : prog journal pystate :=
  file ← gets jnl_file ;
  loaded ← lift (_load_state_from_journal file) ;
  mret loaded.1.

(** The protocol snapshot [snapshot] of [MemoryPersistence] over the latest
    journal; the state and the count of the instance are put back. *)
Definition boundary_protocol_snapshot {A} (snapshot : pystate → res A) : prog journal A :=
  previous ← gets jnl_state ;
  previous_count ← gets jnl_transaction_count ;
  r ← attempt (_refresh_from_journal ;; state ← gets jnl_state ; lift (snapshot state)) ;
  modify (λ j, j <| jnl_state := previous |> <| jnl_transaction_count := previous_count |>) ;;
  lift r.

(** [domain_delivery] and [domain_deliveries] call [self._fresh()], a method of
    the database adapters that neither this class nor [MemoryPersistence] has. *)
Definition _fresh : prog journal unit :=
  raise (AttributeError "'JSONLJournalPersistence' object has no attribute '_fresh'").
Definition journal_domain_deliveries : prog journal collection :=
  _fresh ;;
  state ← gets jnl_state ;
  lift (getattr "domain_deliveries" state).
End journal.
