(* ===== verification/JournalFacts.v ===== *)
(** * Facts about the JSONL journal

    The file of a journal is the concatenation of the lines of its history; what
    a file cut anywhere restores; and what a transaction leaves in it. *)
From S2P Require Import Prelude Encoding EncodingFacts Json JsonFacts Codec CodecFacts StateRecords StateRecordFacts Journal.
From stdpp Require Import pretty.
From Stdlib Require Import Ascii.
Open Scope string_scope.
Open Scope Z_scope.

(** ** The text of a document *)

(** A property of all the texts in a document. *)
Fixpoint every_text (ok : string → bool) (j : json) : bool :=
  match j with
  | JStr s => ok s
  | JArr l => forallb (every_text ok) l
  | JObj members => forallb (λ '(k, w), ok k && every_text ok w) members
  | _ => true
  end.

Section texts.
Context (P : string → Prop) (ok : string → bool).
Context (P_app : ∀ s t, P s → P t → P (s +:+ t)).
Context (P_words : Forall P [EmptyString; "null"; "true"; "false"; "{"; "}"; "["; "]"; ","; ":"]).
Context (P_int : ∀ z : Z, P (pretty z)).
Context (P_text : ∀ s, ok s = true → P (print_string compact s)).

Lemma join_text l : Forall P l → P (str_join "," l).
Proof.
  intros Hl. rewrite Forall_forall in P_words. induction Hl as [|s l Hs Hl IH]; [apply P_words; constructor|].
  destruct l as [|s' l]; [done|]. cbn [str_join] in *. apply P_app; [done|]. apply P_app; [|done]. apply P_words. set_solver.
Qed.

Lemma printed_text j : plain j = true → every_text ok j = true → P (printed j).
Proof.
  pose proof P_words as Hw. rewrite Forall_forall in Hw.
  induction j as [j Hj|l IH|members IH] using json_nested_ind; intros Hp Ht.
  - destruct j as [|[]|z| |s| |]; try done; cbn [print]; [apply Hw; set_solver..|apply P_int|by apply P_text].
  - change (printed (JArr l)) with ("[" +:+ (str_join "," (print compact <$> l) +:+ "]")).
    apply P_app; [apply Hw; set_solver|]. apply P_app; [|apply Hw; set_solver]. apply join_text. cbn [plain every_text] in *.
    apply Forall_fmap, Forall_forall. intros x Hx. rewrite Forall_forall in IH. rewrite forallb_forall in Hp, Ht.
    apply list_elem_of_In in Hx as Hin. apply IH; auto.
  - rewrite print_object. apply P_app; [apply Hw; set_solver|]. apply P_app; [|apply Hw; set_solver]. apply join_text.
    apply Forall_fmap, Forall_forall. intros [k w] Hx%elem_of_sort_on. apply plain_members in Hp as [_ Hp].
    rewrite Forall_forall in IH, Hp. cbn [every_text] in Ht. rewrite forallb_forall in Ht. apply list_elem_of_In in Hx as Hin.
    pose proof (Ht _ Hin) as Hkw. cbn in Hkw. apply andb_prop in Hkw as [Hk Hkw].
    unfold compose, member. cbn [fst snd]. apply P_app; [by apply P_text|]. apply P_app; [apply Hw; set_solver|].
    apply (IH (k, w) Hx); [by apply (Hp (k, w))|done].
Qed.
End texts.

(** *** Characters *)

Fixpoint all_bytes (p : N → bool) (s : string) : bool :=
  match s with EmptyString => true | String c s => p (N_of_ascii c) && all_bytes p s end.

Lemma all_bytes_app p s t : all_bytes p (s +:+ t) = all_bytes p s && all_bytes p t.
Proof. induction s as [|c s IH]; [done|]. change (String c s +:+ t) with (String c (s +:+ t)). cbn [all_bytes]. by rewrite IH, andb_assoc. Qed.

Lemma all_bytes_impl (p q : N → bool) s : (∀ n, p n = true → q n = true) → all_bytes p s = true → all_bytes q s = true.
Proof. intros H. induction s as [|c s IH]; [done|]. cbn. intros [Hc%H Hs%IH]%andb_prop. by rewrite Hc, Hs. Qed.

(** No line break, no control character. *)
Definition printable (n : N) : bool := (32 <=? n)%N.
Definition ascii_byte (n : N) : bool := (n <? 128)%N.
Definition digit_or_sign (n : N) : bool := (45 <=? n)%N && (n <=? 57)%N.

Lemma int_bytes (z : Z) : all_bytes digit_or_sign (pretty z) = true.
Proof.
  assert (∀ s, all_digits s = true → all_bytes digit_or_sign s = true) as Hd.
  { induction s as [|c s IH]; [done|]. cbn [all_digits all_bytes]. intros [Hc Hs]%andb_prop. rewrite (IH Hs), andb_true_r.
    unfold is_digit in Hc. unfold digit_or_sign. rewrite andb_true_iff, !N.leb_le in *. lia. }
  assert (∀ p, all_bytes digit_or_sign (pretty (Npos p)) = true) as Hpos.
  { intros p. destruct (pretty_go_digits (Npos p) EmptyString) as (d & ds & E & Hds & _); [lia|].
    change (pretty (Npos p)) with (pretty_N_go (Npos p) EmptyString). rewrite E, string_app_empty. by apply Hd. }
  destruct z as [|p|p]; [done|apply Hpos|]. change (pretty (Zneg p)) with (String "-" (pretty (Npos p))).
  cbn [all_bytes]. by rewrite Hpos.
Qed.

Lemma escape_printable c : all_bytes printable (escape c) = true.
Proof. destruct c as [[] [] [] [] [] [] [] []]; reflexivity. Qed.

Lemma escape_bytes_printable s : all_bytes printable (escape_bytes s) = true.
Proof. induction s as [|c s IH]; [done|]. cbn [escape_bytes]. by rewrite all_bytes_app, escape_printable, IH. Qed.

Lemma printed_printable j : plain j = true → all_bytes printable (printed j) = true.
Proof.
  intros Hp. apply (printed_text (λ s, all_bytes printable s = true) (λ _, true)); [| | | |done|].
  - intros s t Hs Ht. by rewrite all_bytes_app, Hs, Ht.
  - repeat (constructor; [reflexivity|]). constructor.
  - intros z. apply (all_bytes_impl digit_or_sign); [|apply int_bytes]. intros n. unfold digit_or_sign, printable. rewrite andb_true_iff, !N.leb_le. lia.
  - intros s _. change (print_string compact s) with (String dquote (escape_bytes s +:+ String dquote EmptyString)).
    cbn [all_bytes]. by rewrite all_bytes_app, escape_bytes_printable.
  - clear Hp. induction j as [j Hj|l IH|members IH] using json_nested_ind; [by destruct j| |].
    + cbn. apply forallb_forall. intros x Hx. rewrite Forall_forall in IH. by apply IH, list_elem_of_In.
    + cbn. apply forallb_forall. intros [k w] Hx. rewrite Forall_forall in IH. by apply (IH (k, w)), list_elem_of_In.
Qed.

(** *** UTF-8 *)

Lemma utf8_app m lo hi s t : utf8_from m lo hi s = true → utf8_from m lo hi (s +:+ t) = utf8_valid t.
Proof.
  revert m lo hi. induction s as [|c s IH]; intros m lo hi Hs.
  - destruct m; [|done]. change (EmptyString +:+ t) with t. by destruct t.
  - change (String c s +:+ t) with (String c (s +:+ t)). cbn [utf8_from] in *. destruct m as [|m].
    + repeat match type of Hs with (if ?b then _ else _) = _ => destruct b end; try done; by apply IH.
    + apply andb_prop in Hs as [-> Hs]. by apply IH.
Qed.

Lemma utf8_ascii s : all_bytes ascii_byte s = true → utf8_valid s = true.
Proof.
  unfold utf8_valid. induction s as [|c s IH]; [done|]. cbn [all_bytes utf8_from]. unfold ascii_byte at 1. intros [-> Hs]%andb_prop. by apply IH.
Qed.

Lemma escape_ascii_byte c : (N_of_ascii c <? 128)%N = true → all_bytes ascii_byte (escape c) = true.
Proof. destruct c as [[] [] [] [] [] [] [] []]; (reflexivity || discriminate). Qed.

Lemma escape_high c : (N_of_ascii c <? 128)%N = false → escape c = String c EmptyString.
Proof. destruct c as [[] [] [] [] [] [] [] []]; (reflexivity || discriminate). Qed.

Lemma utf8_escape m lo hi s : (128 ≤ lo)%N → utf8_from m lo hi s = true → utf8_from m lo hi (escape_bytes s) = true.
Proof.
  revert m lo hi. induction s as [|c s IH]; intros m lo hi Hlo Hs; [done|]. cbn [escape_bytes].
  destruct (N_of_ascii c <? 128)%N eqn:Hc.
  - destruct m as [|m]; [|cbn [utf8_from] in Hs; rewrite !andb_true_iff, N.leb_le in Hs; rewrite N.ltb_lt in Hc; lia].
    cbn [utf8_from] in Hs. rewrite Hc in Hs. specialize (IH 0%nat 128%N 191%N ltac:(lia) Hs).
    pose proof (utf8_ascii _ (escape_ascii_byte c Hc)) as He. unfold utf8_valid in He.
    assert (utf8_from 0 lo hi (escape c) = utf8_from 0 128 191 (escape c)) as E by (by destruct (escape c)).
    rewrite <-E in He. by rewrite (utf8_app _ _ _ _ _ He).
  - rewrite (escape_high c Hc). change (String c EmptyString +:+ escape_bytes s) with (String c (escape_bytes s)).
    cbn [utf8_from] in *. destruct m as [|m].
    + rewrite Hc in *. repeat match type of Hs with (if ?b then _ else _) = _ => destruct b end; try done; apply IH; by try lia.
    + apply andb_prop in Hs as [-> Hs]. apply IH; [lia|done].
Qed.

Lemma printed_utf8 j : plain j = true → every_text utf8_valid j = true → utf8_valid (printed j) = true.
Proof.
  apply (printed_text (λ s, utf8_valid s = true)).
  - intros s t Hs Ht. unfold utf8_valid at 1. by rewrite (utf8_app _ _ _ _ _ Hs).
  - repeat (constructor; [reflexivity|]). constructor.
  - intros z. apply utf8_ascii, (all_bytes_impl digit_or_sign); [|apply int_bytes]. intros n. unfold digit_or_sign, ascii_byte. rewrite andb_true_iff, !N.leb_le, N.ltb_lt. lia.
  - intros s Hs. change (print_string compact s) with (String dquote EmptyString +:+ (escape_bytes s +:+ String dquote EmptyString)).
    unfold utf8_valid. rewrite utf8_app by done. unfold utf8_valid in *. rewrite utf8_app by (by apply utf8_escape). done.
Qed.

(** ** Lines *)

(** Empty, or ended by a line feed. *)
Fixpoint complete (s : string) : bool :=
  match s with
  | EmptyString => true
  | String c EmptyString => bool_decide (c = "010"%char)
  | String _ s => complete s
  end.

Lemma splitlines_nonempty c s : splitlines (String c s) ≠ [].
Proof.
  cbn [splitlines]. case_bool_decide; [done|]. case_bool_decide; [by repeat case_match|]. by case_match.
Qed.

Lemma splitlines_app n s t :
  (String.length s ≤ n)%nat → complete s = true → splitlines (s +:+ t) = (splitlines s ++ splitlines t)%list.
Proof.
  revert s. induction n as [|n IH]; intros [|c s] Hn Hs; try done; [inversion Hn|].
  change (String c s +:+ t) with (String c (s +:+ t)). cbn [splitlines]. cbn [String.length] in Hn.
  destruct (bool_decide (c = "010"%char)) eqn:Hc.
  - rewrite IH; [done|lia|]. by destruct s.
  - destruct s as [|d s]; [cbn [complete] in Hs; congruence|].
    destruct (bool_decide (c = "013"%char)).
    + change (String d s +:+ t) with (String d (s +:+ t)). destruct (decide (d = "010"%char)) as [->|Hd].
      * cbn match. rewrite IH; [done|cbn in Hn; lia|]. by destruct s.
      * assert (∀ r (x y : list string), match String d r with String "010" r => x | _ => y end = y) as E.
        { intros r x y. by destruct d as [[] [] [] [] [] [] [] []]. }
        change (String d (s +:+ t)) with (String d s +:+ t) in *.
        transitivity (String c EmptyString :: splitlines (String d s +:+ t)).
        { change (String d s +:+ t) with (String d (s +:+ t)). by destruct d as [[] [] [] [] [] [] [] []]. }
        rewrite IH; [|lia|done]. by destruct d as [[] [] [] [] [] [] [] []].
    + rewrite IH; [|lia|done]. pose proof (splitlines_nonempty d s) as Hne. by destruct (splitlines (String d s)).
Qed.

Lemma splitlines_printable s t :
  all_bytes printable s = true → s ≠ EmptyString → t = EmptyString ∨ t = line_feed → splitlines (s +:+ t) = [s +:+ t].
Proof.
  intros Hs Hne Ht. induction s as [|c s IH]; [done|]. cbn [all_bytes] in Hs. apply andb_prop in Hs as [Hc Hs].
  change (String c s +:+ t) with (String c (s +:+ t)). cbn [splitlines].
  rewrite !bool_decide_eq_false_2 by (intros ->; by cbv in Hc). destruct s as [|d s].
  - change (EmptyString +:+ t) with t. by destruct Ht as [-> | ->].
  - by rewrite IH.
Qed.

Lemma complete_app s : complete (s +:+ line_feed) = true.
Proof.
  induction s as [|c s IH]; [done|]. change (String c s +:+ line_feed) with (String c (s +:+ line_feed)). cbn [complete].
  destruct (s +:+ line_feed) eqn:E; [by destruct s|done].
Qed.

(** ** Entries *)

(** The changes the class writes: deletions, and upserts with their record. *)
Definition well_formed_change (c : StateRecordChange) : bool :=
  utf8_valid (chg_collection c) && utf8_valid (chg_key c)
  && match chg_position c, chg_payload c with
     | None, None => bool_decide (chg_operation c = "delete")
     | Some _, Some p => bool_decide (chg_operation c = "upsert") && utf8_valid p
     | _, _ => false
     end.

(** What a change does to the table. *)
Definition put_change (records : table) (c : StateRecordChange) : table :=
  let identity := (chg_collection c, chg_key c) in
  match chg_position c, chg_payload c with
  | Some position, Some payload => <[identity := mkStateRecord (chg_collection c) (chg_key c) position payload]> records
  | _, _ => delete identity records
  end.
Definition put_changes (records : table) (changes : list StateRecordChange) : table := foldl put_change records changes.

(** The file after the transactions of [history], the first numbered [number]. *)
Fixpoint journal_lines (number : Z) (history : list (list StateRecordChange)) : string :=
  match history with
  | [] => EmptyString
  | changes :: history => entry_line number changes +:+ journal_lines (number + 1) history
  end.
Definition journal_file (history : list (list StateRecordChange)) : string := journal_lines 1 history.
Definition well_formed_history (history : list (list StateRecordChange)) : Prop :=
  Forall (λ changes, forallb well_formed_change changes = true) history.
Definition replayed (history : list (list StateRecordChange)) : table := foldl put_changes ∅ history.

Lemma blank_brace s : blank (String "{" s) = false.
Proof. by destruct s as [|a [|b s]]. Qed.

(** Lemmas on prefixes. *)
Lemma app_before (a b p q : string) :
  a +:+ b = p +:+ q → (String.length a ≤ String.length p)%nat → ∃ p', p = a +:+ p' ∧ b = p' +:+ q.
Proof.
  revert p. induction a as [|c a IH]; intros p E Hl; [by exists p|]. destruct p as [|d p]; [cbn in Hl; lia|].
  injection E as -> E. destruct (IH p E) as (p' & -> & Hb); [cbn in Hl; lia|]. by exists p'.
Qed.

Lemma app_within (a b p q : string) :
  a +:+ b = p +:+ q → (String.length p < String.length a)%nat → ∃ r, a = p +:+ r ∧ r ≠ EmptyString.
Proof.
  intros E Hl. destruct (app_before p q a b (eq_sym E)) as (r & -> & _); [lia|]. exists r. split; [done|].
  intros ->. rewrite string_app_empty in Hl. lia.
Qed.

Section entries.
Context `{!ClassTable, !JsonStr, !JsonInt}.

Lemma read_change c : well_formed_change c = true → _journal_change (canon (change_json c)) = Ok c.
Proof. destruct c as [o cl k [pos|] [p|]]; try (intros Hc; unfold well_formed_change in Hc; rewrite ?andb_false_r in Hc; done); reflexivity. Qed.

Lemma apply_well_formed records c : well_formed_change c = true → _apply_change records c = Ok (put_change records c).
Proof.
  intros [_ Hc]%andb_prop. destruct c as [o cl k [pos|] [p|]]; try done; cbn in Hc; unfold _apply_change.
  - apply andb_prop in Hc as [->%bool_decide_eq_true _]. done.
  - by apply bool_decide_eq_true in Hc as ->.
Qed.

Lemma apply_raw_changes records changes :
  forallb well_formed_change changes = true →
  apply_raw records (canon <$> (change_json <$> changes)) = Ok (put_changes records changes).
Proof.
  revert records. induction changes as [|c changes IH]; intros records; [done|]. cbn [forallb]. intros [Hc Hcs]%andb_prop.
  rewrite !fmap_cons. cbn [apply_raw]. rewrite (read_change c Hc). cbn [mbind res_bind]. rewrite (apply_well_formed _ c Hc). cbn [mbind res_bind].
  by apply IH.
Qed.

Lemma canon_entry number changes :
  canon (entry_json number changes)
    = JObj [("changes", JArr (canon <$> (change_json <$> changes))); ("schema_version", JInt _SCHEMA_VERSION); ("transaction", JInt number)].
Proof. reflexivity. Qed.

Lemma read_entry records count number changes :
  forallb well_formed_change changes = true →
  apply_entry records count (canon (entry_json number changes)) = Ok (put_changes records changes, Z.max count number).
Proof.
  intros Hc. rewrite canon_entry.
  transitivity (r ← apply_raw records (canon <$> (change_json <$> changes)) ; Ok (r, Z.max count number)); [reflexivity|].
  by rewrite (apply_raw_changes records changes Hc).
Qed.

Lemma plain_entry number changes : plain (entry_json number changes) = true.
Proof.
  change (plain (entry_json number changes)) with (true && (true && (true && (forallb plain (change_json <$> changes) && true)))).
  cbn [andb]. rewrite andb_true_r. induction changes as [|c changes IH]; [done|]. rewrite fmap_cons. cbn [forallb]. rewrite IH, andb_true_r.
  by destruct c as [o cl k [pos|] [p|]].
Qed.

Lemma text_entry number changes : forallb well_formed_change changes = true → every_text utf8_valid (entry_json number changes) = true.
Proof.
  intros Hc. change (every_text utf8_valid (entry_json number changes))
    with (true && (true && (forallb (every_text utf8_valid) (change_json <$> changes) && true))).
  cbn [andb]. rewrite andb_true_r. induction changes as [|c changes IH]; [done|].
  rewrite fmap_cons. cbn [forallb] in *. apply andb_prop in Hc as [Hc Hcs]. rewrite (IH Hcs), andb_true_r. clear IH Hcs.
  destruct c as [o cl k [pos|] [p|]]; unfold well_formed_change in Hc; cbn in *; try (by rewrite andb_false_r in Hc).
  - apply andb_prop in Hc as [[-> ->]%andb_prop [->%bool_decide_eq_true ->]%andb_prop]. done.
  - apply andb_prop in Hc as [[-> ->]%andb_prop ->%bool_decide_eq_true]. done.
Qed.

(** ** Replaying a file cut anywhere *)

Lemma loads_line number changes t :
  t = EmptyString ∨ t = line_feed →
  Json.loads (printed (entry_json number changes) +:+ t) = Ok (canon (entry_json number changes)).
Proof.
  intros Ht. pose proof (plain_entry number changes) as Hp. unfold Json.loads. rewrite skip_print by done.
  pose proof (jsize_printed _ Hp) as Hn. rewrite (read_value _ t) by (done || (by destruct Ht as [-> | ->]) || (rewrite string_length_app; lia)).
  by destruct Ht as [-> | ->].
Qed.

Lemma entry_head number changes : ∃ s, printed (entry_json number changes) = String "{" s.
Proof. unfold entry_json. rewrite print_object. by eexists. Qed.

Lemma replay_entry number changes t lines line_number records :
  t = EmptyString ∨ t = line_feed → forallb well_formed_change changes = true →
  replay ((printed (entry_json number changes) +:+ t) :: lines) line_number records (number - 1)
    = replay lines (line_number + 1) (put_changes records changes) number.
Proof.
  intros Ht Hc. cbn [replay].
  assert (utf8_valid (printed (entry_json number changes) +:+ t) = true) as ->.
  { unfold utf8_valid. rewrite utf8_app by (apply printed_utf8; [apply plain_entry|by apply text_entry]). by destruct Ht as [-> | ->]. }
  assert (blank (printed (entry_json number changes) +:+ t) = false) as ->.
  { destruct (entry_head number changes) as [s ->]. exact (blank_brace (s +:+ t)). }
  cbn [negb]. rewrite (loads_line number changes t Ht), (read_entry _ _ _ _ Hc). cbn [mbind res_bind].
  by replace (Z.max (number - 1) number) with number by lia.
Qed.

Lemma replay_torn number changes p r line_number records count :
  printed (entry_json number changes) = p +:+ r → r ≠ EmptyString →
  replay (splitlines p) line_number records count = Ok (records, count).
Proof.
  intros E Hr. destruct p as [|c p]; [done|].
  assert (all_bytes printable (String c p) = true) as Hp.
  { pose proof (printed_printable _ (plain_entry number changes)) as Hp. rewrite E, all_bytes_app in Hp. by apply andb_prop in Hp as [? _]. }
  pose proof (splitlines_printable (String c p) EmptyString Hp ltac:(done) ltac:(by left)) as Hl. rewrite string_app_empty in Hl.
  rewrite Hl. cbn [replay]. destruct (utf8_valid (String c p)); [|done]. cbn [negb].
  destruct (entry_head number changes) as [s Es]. rewrite E in Es. injection Es as -> _.
  rewrite blank_brace.
  by rewrite (loads_truncated _ (String "{" p) r (plain_entry number changes) E Hr).
Qed.

Lemma splitlines_entry number changes s :
  splitlines (entry_line number changes +:+ s) = entry_line number changes :: splitlines s.
Proof.
  assert (complete (entry_line number changes) = true) as Hc by apply complete_app.
  rewrite (splitlines_app _ _ s (le_n _) Hc). unfold entry_line. destruct (entry_head number changes) as [u Eu].
  rewrite splitlines_printable; [done|apply printed_printable, plain_entry|by rewrite Eu|by right].
Qed.

Lemma replay_prefix number history line_number records p q :
  well_formed_history history → journal_lines number history = p +:+ q →
  ∃ k, (k ≤ length history)%nat
    ∧ replay (splitlines p) line_number records (number - 1)
        = Ok (foldl put_changes records (take k history), number - 1 + Z.of_nat k)
    ∧ (String.length (journal_lines number (take k history)) ≤ S (String.length p))%nat
    ∧ ((k < length history)%nat → (S (String.length p) < String.length (journal_lines number (take (S k) history)))%nat).
Proof.
  intros Hh. revert number line_number records p. induction Hh as [|changes history Hc _ IH]; intros number line_number records p E.
  - exists 0%nat. destruct p; [|done]. cbn. rewrite Z.add_0_r. split_and!; [lia|done|lia|lia].
  - cbn [journal_lines] in E. set (text := printed (entry_json number changes)) in *.
    assert (String.length (entry_line number changes) = S (String.length text)) as Hlen.
    { unfold entry_line. rewrite string_length_app. cbn. lia. }
    destruct (decide (String.length p < String.length text)%nat) as [Hp|Hp].
    { unfold entry_line in E. rewrite string_app_assoc in E. destruct (app_within _ _ _ _ E Hp) as (r & Er & Hr).
      exists 0%nat. split_and!; [lia| |cbn; lia|].
      - cbn [take foldl]. rewrite Z.add_0_r. by eapply replay_torn.
      - intros _. cbn [take journal_lines]. rewrite string_length_app, Hlen. cbn [String.length]. lia. }
    destruct (decide (String.length p = String.length text)) as [Hl|Hl].
    + unfold entry_line in E. rewrite string_app_assoc in E. fold text in E.
      destruct (app_before _ _ _ _ E) as (p' & -> & _); [lia|]. rewrite string_length_app in Hl.
      destruct p'; [|cbn in Hl; lia]. exists 1%nat. split_and!.
      * cbn. lia.
      * destruct (entry_head number changes) as [u Eu].
        rewrite splitlines_printable; [|apply printed_printable, plain_entry|unfold text; by rewrite Eu|by left]. unfold text.
        rewrite (replay_entry number changes EmptyString _ _ _ (or_introl eq_refl) Hc). cbn [replay take foldl]. do 2 f_equal. lia.
      * cbn [take journal_lines]. rewrite string_length_app, Hlen, string_length_app. rewrite firstn_O. cbn [journal_lines String.length]. lia.
      * intros Hk. destruct history as [|changes' history]; [cbn in Hk; lia|]. cbn [take journal_lines].
        unfold entry_line. rewrite !string_length_app. destruct (entry_head (number + 1) changes') as [u ->]. cbn. lia.
    + destruct (app_before _ _ _ _ E) as (p' & -> & E'); [lia|].
      destruct (IH (number + 1) (line_number + 1) (put_changes records changes) p' E') as (k & Hk & Hr & Hlow & Hhigh).
      exists (S k). split_and!.
      * cbn. lia.
      * rewrite splitlines_entry. unfold entry_line at 1. rewrite (replay_entry number changes line_feed _ _ _ (or_intror eq_refl) Hc).
        replace (number + 1 - 1) with number in Hr by lia. rewrite Hr. cbn [take foldl]. do 2 f_equal. lia.
      * cbn [take journal_lines]. rewrite !string_length_app. lia.
      * intros Hk'. cbn [length] in Hk'. specialize (Hhigh ltac:(lia)).
        rewrite firstn_cons. cbn [journal_lines]. rewrite !string_length_app. lia.
Qed.

Lemma replay_history history :
  well_formed_history history → replay (splitlines (journal_file history)) 1 ∅ 0 = Ok (replayed history, Z.of_nat (length history)).
Proof.
  intros Hh. destruct (replay_prefix 1 history 1 ∅ (journal_file history) EmptyString Hh) as (k & Hk & Hr & _ & Hhigh).
  { by rewrite string_app_empty. }
  assert (k = length history) as ->.
  { destruct (decide (k = length history)) as [?|Hne]; [done|]. specialize (Hhigh ltac:(lia)). exfalso.
    assert (∀ n h m, (String.length (journal_lines n (take m h)) ≤ String.length (journal_lines n h))%nat) as Hmono.
    { intros n h. revert n. induction h as [|c h IH]; intros n [|m]; cbn [take journal_lines]; cbn [String.length]; try lia.
      rewrite !string_length_app. specialize (IH (n + 1) m). lia. }
    specialize (Hmono 1 history (S k)). unfold journal_file in Hhigh. lia. }
  rewrite firstn_all in Hr. replace (1 - 1 + Z.of_nat (length history)) with (Z.of_nat (length history)) in Hr by lia. exact Hr.
Qed.
End entries.
