(* ===== verification/JournalDurability.v ===== *)
(** * What the JSONL journal makes durable

    The table replayed from a journal holds the committed state up to the order
    of its dictionaries; a transaction appends the changes of its unit of work and
    keeps that; a file cut anywhere holds the state of a prefix of the
    transactions. *)
From S2P Require Import Prelude Encoding EncodingFacts Json JsonFacts Codec CodecFacts StateRecords StateRecordFacts Journal JournalFacts.
From stdpp Require Import pretty.
From Stdlib Require Import Ascii.
Open Scope string_scope.
Open Scope Z_scope.

(** ** States as tables *)

(** What the comparison of dirty records sees of a payload. *)
Definition payload_token (payload : string) : res string :=
  encoded ← Json.loads payload ; Ok (print compact (normalized encoded)).
Definition token_of (r : StateRecord) : res string := payload_token (srec_payload r).
Definition view (records : table) : gmap (string * string) (res string) := token_of <$> records.

(** The same items of every collection, up to the order of dictionaries and sets. *)
Definition durably_equal (s s' : pystate) : Prop := view (state_to_records s) = view (state_to_records s').

#[global] Instance durably_equal_equivalence : Equivalence durably_equal.
Proof. unfold durably_equal. split; [done|by intros ??|intros ??? E E'; by rewrite E]. Qed.

(** The declared kind of a collection. *)
Definition declared (name : string) : option collection := dict_get name template.

Lemma declared_field name d : declared name = Some d ↔ (name, d) ∈ template.
Proof. unfold declared. symmetry. apply elem_of_dict, template_names. Qed.

Section lookups.
Context `{!ClassTable, !JsonStr}.

Lemma state_NoDup s : storable_state s → NoDup s.*1.
Proof. intros Hs. rewrite (state_names s Hs). apply template_names. Qed.

Lemma same_field (s : pystate) name c c' : NoDup s.*1 → (name, c) ∈ s → (name, c') ∈ s → c = c'.
Proof. intros Hnd H1%elem_of_dict H2%elem_of_dict; [|done..]. congruence. Qed.

Lemma getattr_field s name c : storable_state s → getattr name s = Ok c ↔ (name, c) ∈ s.
Proof.
  intros Hs. rewrite elem_of_dict by (by apply state_NoDup). unfold getattr. destruct (dict_get name s); [|done]. split; by intros [= ->].
Qed.

Lemma declared_kind s name c : storable_state s → (name, c) ∈ s → ∃ d, declared name = Some d ∧ storable_field (name, d) (name, c) = true.
Proof.
  intros Hs Hin. apply list_elem_of_lookup in Hin as [i Hi]. destruct (Forall2_lookup_r _ _ _ _ _ Hs Hi) as ([n d] & Hd & Hf).
  pose proof Hf as [En%bool_decide_eq_true _]%andb_prop. cbn in En. subst n. exists d. split; [|done].
  apply declared_field. by eapply list_elem_of_lookup_2.
Qed.

Lemma state_field s name d : storable_state s → declared name = Some d → ∃ c, (name, c) ∈ s ∧ storable_field (name, d) (name, c) = true.
Proof.
  intros Hs Hd%declared_field. apply list_elem_of_lookup in Hd as [i Hi]. destruct (Forall2_lookup_l _ _ _ _ _ Hs Hi) as ([n c] & Hc & Hf).
  pose proof Hf as [En%bool_decide_eq_true _]%andb_prop. cbn in En. subst n. exists c. split; [|done]. by eapply list_elem_of_lookup_2.
Qed.

(** The records of one field. *)
Lemma lookup_field s name c key r :
  storable_state s → (name, c) ∈ s → state_to_records s !! (name, key) = Some r ↔ ((name, key), r) ∈ field_records (name, c).
Proof.
  intros Hs Hc. rewrite lookup_state_records by done. rewrite list_elem_of_bind. split.
  - intros ([n c'] & Hr & Hin). pose proof (field_collection _ _ _ Hr) as (E & _). cbn in E. subst n.
    by rewrite (same_field s name c c' (state_NoDup s Hs) Hc Hin).
  - intros Hr. by exists (name, c).
Qed.

(** *** Items of a dictionary *)

Lemma item_at items i key v :
  forallb (λ x, state_key x.1) items = true → NoDup items.*1 → state_key key = true →
  items !! i = Some (key, v) → lookup_item items key = Some v ∧ index_of items key = Z.of_nat i.
Proof.
  intros Hk Hnd Hkey. revert i. induction items as [|[k w] items IH]; intros i Hi; [done|].
  cbn [forallb fst fmap list_fmap] in *. apply andb_prop in Hk as [Hk Hks]. apply NoDup_cons in Hnd as [Hn Hnd].
  unfold lookup_item. cbn [List.find index_of fst]. destruct i as [|i].
  - injection Hi as -> ->. by rewrite py_eq_refl_key.
  - cbn in Hi. assert (py_eq k key = false) as ->.
    { apply not_true_iff_false. intros E%py_eq_key; [|done..]. subst k. apply Hn.
      apply list_elem_of_lookup_2 in Hi. by apply (list_elem_of_fmap_2 fst) in Hi. }
    destruct (IH Hks Hnd i Hi) as [Hl Hx]. unfold lookup_item in Hl. rewrite Hl, Hx. split; [done|lia].
Qed.

Lemma item_found items key v :
  forallb (λ x, state_key x.1) items = true → state_key key = true → lookup_item items key = Some v → ∃ i, items !! i = Some (key, v).
Proof.
  intros Hk Hkey. unfold lookup_item. destruct (List.find _ items) as [[k w]|] eqn:E; [|done]. cbn. intros [= ->].
  apply find_some in E as [Hin E]. cbn in E. rewrite forallb_forall in Hk. apply py_eq_key in E; [|exact (Hk _ Hin)|done]. subst k.
  apply list_elem_of_In, list_elem_of_lookup in Hin. exact Hin.
Qed.

Lemma storable_items name d items :
  storable_field (name, d) (name, CDict items) = true →
  forallb (storable_item name) items = true ∧ NoDup items.*1 ∧ forallb (λ x, state_key x.1) items = true.
Proof.
  intros [_ Hf]%andb_prop. cbn [fst snd] in Hf. destruct d; try done. apply andb_prop in Hf as [Hi Hnd%bool_decide_eq_true].
  split_and!; [done..|]. apply forallb_forall. intros x Hx. rewrite forallb_forall in Hi. apply Hi in Hx. unfold storable_item in Hx.
  by apply andb_prop in Hx as [[? _]%andb_prop _].
Qed.

Lemma lookup_dict s name items key :
  storable_state s → (name, CDict items) ∈ s → state_key key = true →
  state_to_records s !! (name, dumps key) = (λ v, mkStateRecord name (dumps key) (index_of items key) (dumps v)) <$> lookup_item items key.
Proof.
  intros Hs Hc Hkey. destruct (declared_kind s _ _ Hs Hc) as (d & _ & Hf). apply storable_items in Hf as (Hi & Hnd & Hks).
  apply option_eq. intros r. rewrite (lookup_field s name _ _ r Hs Hc). cbn [field_records]. rewrite in_item_records, fmap_Some. split.
  - intros (i & k & v & Hl & [= E ->]). apply list_elem_of_lookup_2 in Hl as Hin.
    assert (state_key k = true) as Hk by (rewrite forallb_forall in Hks; by apply (Hks (k, v)), list_elem_of_In).
    apply key_text_inj in E; [|done..]. subst k. destruct (item_at items i key v Hks Hnd Hkey Hl) as [-> ->]. by exists v.
  - intros (v & Hl & ->). destruct (item_found items key v Hks Hkey Hl) as (i & Hi'). exists i, key, v.
    by destruct (item_at items i key v Hks Hnd Hkey Hi') as [_ ->].
Qed.

Lemma lookup_list s name items z :
  storable_state s → (name, CList items) ∈ s → 0 ≤ z →
  state_to_records s !! (name, pretty z) = (λ v, mkStateRecord name (pretty z) z (dumps v)) <$> items !! Z.to_nat z.
Proof.
  intros Hs Hc Hz. apply option_eq. intros r. rewrite (lookup_field s name _ _ r Hs Hc), fmap_Some. cbn [field_records].
  rewrite elem_of_lookup_imap. split.
  - intros (i & v & [= E ->] & Hi). apply (inj pretty) in E as ->. exists v. by rewrite Nat2Z.id.
  - intros (v & Hi & ->). exists (Z.to_nat z), v. unfold list_record. by rewrite Z2Nat.id.
Qed.
End lookups.

(** ** The changes of a unit of work *)

Section changes.
Context `{!ClassTable, !JsonStr, !JsonInt}.

Definition text_value (v : value) : bool := every_text utf8_valid (_encode v).
(** Every text of a state is Unicode. *)
Definition text_state (s : pystate) : Prop :=
  map_Forall (λ _ r, utf8_valid (srec_key r) = true ∧ utf8_valid (srec_payload r) = true) (state_to_records s).

(** An identity a unit of work can mark. *)
Definition legal_dirty (dirty : string * value) : bool :=
  match declared dirty.1 with
  | Some (CDict _) => state_key dirty.2 && text_value dirty.2
  | Some (CList _) => match dirty.2 with VInt z => 0 <=? z | _ => false end
  | _ => false
  end.

(** Its record. *)
Definition dirty_id (dirty : string * value) : string * string :=
  match declared dirty.1, dirty.2 with
  | Some (CList _), VInt z => (dirty.1, pretty z)
  | _, key => (dirty.1, dumps key)
  end.

(** A change that brings its record to what it is in [after]. *)
Definition change_towards (after : table) (id : string * string) (c : StateRecordChange) : Prop :=
  (after !! id = None ∧ c = delete_change id.1 id.2)
  ∨ ∃ r, after !! id = Some r ∧ srec_collection r = id.1 ∧ srec_key r = id.2 ∧ c = upsert_change r.

Lemma token_value v : storable v = true → ∃ t, _semantic_record_token v = Ok t ∧ payload_token (dumps v) = Ok t.
Proof.
  intros Hv. assert (_semantic_record_token v = payload_token (dumps v)) as -> by done. unfold payload_token, dumps.
  rewrite loads_printed by (by apply plain_encode). by eexists.
Qed.

Lemma unchanged_tokens x y :
  (∀ v, x = Some v → storable v = true) → (∀ v, y = Some v → storable v = true) →
  ∃ b, unchanged x y = Ok b ∧ (b = true → (payload_token ∘ dumps) <$> x = (payload_token ∘ dumps) <$> y).
Proof.
  intros Hx Hy. unfold unchanged. case_bool_decide as He; [|by exists false].
  destruct (token_value (default VNone x)) as (t & Et & Pt); [destruct x; [by apply Hx|done]|].
  destruct (token_value (default VNone y)) as (u & Eu & Pu); [destruct y; [by apply Hy|done]|].
  unfold same_token. rewrite Et, Eu. cbn [mbind res_bind]. rewrite bool_decide_eq_true_2 by done. eexists. split; [reflexivity|].
  cbn [andb]. intros ->%bool_decide_eq_true. destruct x as [v|], y as [w|]; cbn in *; [|by destruct (proj1 He (ltac:(by eexists)))|by destruct (proj2 He (ltac:(by eexists)))|done].
  exact (f_equal Some (eq_trans Pt (eq_sym Pu))).
Qed.

Lemma items_storable s name items key v :
  storable_state s → (name, CDict items) ∈ s → state_key key = true → lookup_item items key = Some v → storable v = true.
Proof.
  intros Hs Hc Hkey Hl. destruct (declared_kind s _ _ Hs Hc) as (d & _ & Hf). apply storable_items in Hf as (Hi & _ & Hks).
  destruct (item_found items key v Hks Hkey Hl) as (i & Hi'). apply list_elem_of_lookup_2, list_elem_of_In in Hi'.
  rewrite forallb_forall in Hi. apply Hi in Hi'. by apply andb_prop in Hi' as [_ ?].
Qed.

Lemma values_storable s name items z v :
  storable_state s → (name, CList items) ∈ s → items !! z = Some v → storable v = true.
Proof.
  intros Hs Hc Hl. destruct (declared_kind s _ _ Hs Hc) as (d & _ & [_ Hf]%andb_prop). cbn [fst snd] in Hf. destruct d; try done.
  rewrite forallb_forall in Hf. by apply Hf, list_elem_of_In, (list_elem_of_lookup_2 _ z).
Qed.

Lemma list_item_at l z : 0 ≤ z → list_item l z = Ok (l !! Z.to_nat z).
Proof.
  intros Hz. unfold list_item. destruct (Z.leb_spec (Z.of_nat (length l)) z) as [Hl|Hl].
  - by rewrite lookup_ge_None_2 by lia.
  - assert (z <? 0 = false) as -> by lia. destruct (l !! Z.to_nat z) as [v|] eqn:E; [|apply lookup_ge_None_1 in E; lia].
    by assert (Z.of_nat (length l) + z <? 0 = false) as -> by lia.
Qed.

(** One dirty record: its change brings the record to what it is after, and no
    change is made only when its token is the same. *)
Lemma dirty_change_towards before after d :
  storable_state before → storable_state after → legal_dirty d = true →
  ∃ o, dirty_change before after d = Ok o
    ∧ match o with
      | None => token_of <$> state_to_records before !! dirty_id d = token_of <$> state_to_records after !! dirty_id d
      | Some c => change_towards (state_to_records after) (dirty_id d) c
      end.
Proof.
  destruct d as [name key]. intros Hb Ha. unfold legal_dirty, dirty_id. cbn [fst snd]. destruct (declared name) as [dc|] eqn:Hd; [|done].
  destruct (state_field before name dc Hb Hd) as (cb & Hcb & Hfb), (state_field after name dc Ha Hd) as (ca & Hca & Hfa).
  unfold dirty_change. rewrite (proj2 (getattr_field before name cb Hb) Hcb), (proj2 (getattr_field after name ca Ha) Hca). cbn [mbind res_bind].
  apply andb_prop in Hfb as [_ Hfb], Hfa as [_ Hfa]. cbn [fst snd] in Hfb, Hfa.
  destruct dc as [di|di|di], cb as [ib|ib|ib]; try done; destruct ca as [ia|ia|ia]; try done.
  - intros [Hkey _]%andb_prop. destruct (state_key_settle key Hkey) as (_ & _ & Hh). unfold _dict_dirty_change. rewrite Hh. cbn [negb fail_if mbind res_bind].
    destruct (unchanged_tokens (lookup_item ib key) (lookup_item ia key)) as (b & -> & Hsame); [by intros v; apply (items_storable before name)|by intros v; apply (items_storable after name)|].
    cbn [mbind res_bind]. rewrite (lookup_dict before name ib key Hb Hcb Hkey). pose proof (lookup_dict after name ia key Ha Hca Hkey) as HA.
    destruct b; [|destruct (lookup_item ia key) as [item|]; eexists; (split; [reflexivity|])].
    + eexists. split; [reflexivity|]. cbn beta match. rewrite HA. specialize (Hsame eq_refl). rewrite <-!option_fmap_compose. exact Hsame.
    + right. eexists. split_and!; [exact HA|done..].
    + left. done.
  - destruct key as [| |z| | | | | | | | | | | | | | |]; try done. intros Hz%Z.leb_le. unfold _list_dirty_change. cbn [int_key mbind res_bind].
    rewrite !list_item_at by done. cbn [mbind res_bind].
    destruct (unchanged_tokens (ib !! Z.to_nat z) (ia !! Z.to_nat z)) as (b & -> & Hsame); [by intros v; apply (values_storable before name)|by intros v; apply (values_storable after name)|].
    cbn [mbind res_bind]. rewrite (lookup_list before name ib z Hb Hcb Hz). pose proof (lookup_list after name ia z Ha Hca Hz) as HA.
    destruct b; [|destruct (ia !! Z.to_nat z) as [item|]; eexists; (split; [reflexivity|])].
    + eexists. split; [reflexivity|]. cbn beta match. rewrite HA. specialize (Hsame eq_refl). rewrite <-!option_fmap_compose. exact Hsame.
    + right. eexists. split_and!; [exact HA|done..].
    + left. done.
Qed.

Lemma traverse_all {A B} (f : A → res B) (Q : A → B → Prop) l :
  (∀ x, x ∈ l → ∃ y, f x = Ok y ∧ Q x y) → ∃ l', traverse f l = Ok l' ∧ Forall2 Q l l'.
Proof.
  induction l as [|x l IH]; intros Hf; [by exists []|]. destruct (Hf x) as (y & E & Hq); [by constructor|].
  destruct IH as (l' & El & Hl); [intros z Hz; apply Hf; by constructor|]. exists (y :: l'). split; [|by constructor]. cbn. rewrite E. cbn. by rewrite El.
Qed.

(** All the changes of a unit of work. *)
Lemma changes_towards before after dirty :
  storable_state before → storable_state after → forallb legal_dirty dirty = true →
  ∃ changes, changes_for_dirty_records before after dirty = Ok changes
    ∧ Forall (λ c, ∃ d, d ∈ dirty ∧ change_towards (state_to_records after) (dirty_id d) c) changes
    ∧ ∀ d, d ∈ dirty →
        (∃ c, c ∈ changes ∧ change_towards (state_to_records after) (dirty_id d) c)
        ∨ token_of <$> state_to_records before !! dirty_id d = token_of <$> state_to_records after !! dirty_id d.
Proof.
  intros Hb Ha Hlegal. rewrite forallb_forall in Hlegal. unfold changes_for_dirty_records.
  destruct (traverse_all (dirty_change before after) (λ d o, match o with
      | None => token_of <$> state_to_records before !! dirty_id d = token_of <$> state_to_records after !! dirty_id d
      | Some c => change_towards (state_to_records after) (dirty_id d) c
      end) (sort_on dirty_order dirty)) as (os & -> & Hos).
  { intros d Hd%elem_of_sort_on. apply dirty_change_towards; [done..|]. by apply Hlegal, list_elem_of_In. }
  cbn [mbind res_bind]. eexists. split; [reflexivity|]. split.
  - apply Forall_forall. intros c (o & Ho & E)%list_elem_of_omap. unfold id in E. subst o.
    apply list_elem_of_lookup in Ho as [i Hi]. destruct (Forall2_lookup_r _ _ _ _ _ Hos Hi) as (d & Hd & Hq).
    exists d. split; [|done]. eapply elem_of_sort_on, list_elem_of_lookup_2, Hd.
  - intros d Hd%(elem_of_sort_on dirty_order). apply list_elem_of_lookup in Hd as [i Hi]. destruct (Forall2_lookup_l _ _ _ _ _ Hos Hi) as (o & Ho & Hq).
    destruct o as [c|]; [left|by right]. exists c. split; [|done]. apply list_elem_of_omap. exists (Some c). split; [by eapply list_elem_of_lookup_2|done].
Qed.

Lemma put_towards records after id c : change_towards after id c → put_change records c !! id = after !! id.
Proof.
  destruct id as [n k]. intros [[E ->]|(r & E & En & Ek & ->)]; unfold put_change; cbn in *.
  - by rewrite lookup_delete_eq, E.
  - rewrite En, Ek, lookup_insert_eq, E. by destruct r; cbn in *; subst.
Qed.

Lemma put_elsewhere records after id id' c : change_towards after id c → id ≠ id' → put_change records c !! id' = records !! id'.
Proof.
  destruct id as [n k]. intros [[E ->]|(r & E & En & Ek & ->)] Hne; unfold put_change; cbn in *.
  - by rewrite lookup_delete_ne.
  - rewrite En, Ek. by rewrite lookup_insert_ne.
Qed.

(** Applied to any table, they bring their records to [after] and touch no other. *)
Lemma put_changes_towards records after changes id :
  Forall (λ c, ∃ i, change_towards after i c) changes →
  (∃ c, c ∈ changes ∧ change_towards after id c) ∧ put_changes records changes !! id = after !! id
  ∨ (¬ (∃ c, c ∈ changes ∧ change_towards after id c)) ∧ put_changes records changes !! id = records !! id.
Proof.
  unfold put_changes. induction changes as [|c changes IH] using rev_ind; intros Hall.
  - right. split; [|done]. intros (c & Hc & _). by apply not_elem_of_nil in Hc.
  - apply Forall_app in Hall as [Hall Hc]. apply Forall_singleton in Hc as (i & Hc). rewrite foldl_snoc.
    destruct (decide (i = id)) as [->|Hne].
    + left. split; [exists c; split; [set_solver|done]|]. by apply put_towards.
    + rewrite (put_elsewhere _ after i id c Hc Hne). destruct (IH Hall) as [[(c' & Hin & Hc') E]|[Hn E]].
      * left. split; [exists c'; split; [set_solver|done]|done].
      * right. split; [|done]. intros (c' & Hin & Hc'). apply elem_of_app in Hin as [Hin|Hin%list_elem_of_singleton]; [apply Hn; by exists c'|].
        subst c'. apply Hne. destruct Hc as [[_ E1]|(r1 & _ & En1 & Ek1 & E1)], Hc' as [[_ E2]|(r2 & _ & En2 & Ek2 & E2)]; rewrite E1 in E2; try done.
        -- injection E2. destruct i, id. cbn. congruence.
        -- injection E2. destruct i, id. cbn in *. congruence.
Qed.

(** *** Tables a journal can hold *)

Definition wf_record (id : string * string) (r : StateRecord) : Prop :=
  srec_collection r = id.1 ∧ srec_key r = id.2
  ∧ match declared id.1 with
    | Some (CDict _) => ∃ item, holds_item id.1 r item
    | Some (CList _) => ∃ i v, srec_position r = Z.of_nat i ∧ srec_key r = pretty (Z.of_nat i) ∧ holds_value r v
    | _ => False
    end.
Definition wf_table (records : table) : Prop := map_Forall wf_record records.

Lemma state_wf s : storable_state s → wf_table (state_to_records s).
Proof.
  intros Hs [n k] r Hr. rewrite (lookup_state_records s _ _ Hs) in Hr. apply list_elem_of_bind in Hr as ([name c] & Hr & Hc).
  pose proof (field_collection _ _ _ Hr) as (En & Ec & Ek). cbn in En, Ec, Ek. subst n. split; [done|]. split; [done|]. cbn [fst].
  destruct (declared_kind s name c Hs Hc) as (d & -> & Hf). destruct c as [items|items|v].
  - pose proof Hf as (Hi & _ & _)%storable_items. destruct d as [di|di|di]; [|by destruct (andb_prop _ _ Hf)..]. cbn [field_records] in Hr.
    apply in_item_records in Hr as (i & key & v & Hl & [= -> ->]). exists (key, v). split_and!; [done..|].
    rewrite forallb_forall in Hi. by apply Hi, list_elem_of_In, (list_elem_of_lookup_2 _ i).
  - apply andb_prop in Hf as [_ Hf]. cbn [fst snd] in Hf. destruct d as [di|di|di]; try done. cbn [field_records] in Hr.
    apply elem_of_lookup_imap in Hr as (i & v & [= -> ->] & Hi). exists i, v. split_and!; [done..|]. split; [done|].
    rewrite forallb_forall in Hf. by apply Hf, list_elem_of_In, (list_elem_of_lookup_2 _ i).
  - apply andb_prop in Hf as [_ Hf]. by destruct d.
Qed.

Lemma put_changes_wf records after changes :
  wf_table records → wf_table after → Forall (λ c, ∃ i, change_towards after i c) changes → wf_table (put_changes records changes).
Proof.
  intros Hr Ha Hc id r E. destruct (put_changes_towards records after changes id Hc) as [[_ E']|[_ E']]; rewrite E' in E; [by apply Ha|by apply Hr].
Qed.
End changes.

(** ** Loading a table *)

Section loading.
Context `{!ClassTable, !JsonStr}.

Lemma in_values records name r :
  wf_table records → r ∈ filter (λ r, srec_collection r = name) (table_values records) ↔ records !! (name, srec_key r) = Some r.
Proof.
  intros Hw. rewrite list_elem_of_filter. unfold table_values. split.
  - intros [<- ([[n k] r'] & -> & Hin%elem_of_map_to_list)%list_elem_of_fmap]. destruct (Hw _ _ Hin) as (En & Ek & _). cbn in *. by rewrite En, Ek.
  - intros E. destruct (Hw _ _ E) as (En & _). split; [done|]. apply (list_elem_of_fmap_2' snd _ ((name, srec_key r), r)); [|done]. by apply elem_of_map_to_list.
Qed.

Lemma values_keys records name :
  wf_table records → NoDup (srec_key <$> filter (λ r, srec_collection r = name) (table_values records)).
Proof.
  intros Hw. assert (NoDup ((λ r, (srec_collection r, srec_key r)) <$> table_values records)) as Hnd.
  { unfold table_values. rewrite <-list_fmap_compose. rewrite (list_fmap_ext _ fst); [apply NoDup_fst_map_to_list|].
    intros i [[n k] r] Hi. apply list_elem_of_lookup_2, elem_of_map_to_list in Hi. destruct (Hw _ _ Hi) as (En & Ek & _). cbn in *. by rewrite En, Ek. }
  induction (table_values records) as [|r l IH]; [constructor|]. cbn [fmap list_fmap] in Hnd. apply NoDup_cons in Hnd as [Hr Hnd].
  rewrite filter_cons. case_decide as Hn; [|by apply IH]. rewrite fmap_cons. constructor; [|by apply IH].
  intros (r' & E & [Hn' Hr']%list_elem_of_filter)%list_elem_of_fmap. apply Hr. apply list_elem_of_fmap. exists r'. split; [by rewrite E, Hn, Hn'|done].
Qed.

Lemma collect_items {A} (Q : StateRecord → A → Prop) l : (∀ r, r ∈ l → ∃ x, Q r x) → ∃ xs, Forall2 Q l xs.
Proof.
  induction l as [|r l IH]; intros Hq; [by exists []|]. destruct (Hq r) as [x Hx]; [by constructor|].
  destruct IH as [xs Hxs]; [intros r' Hr'; apply Hq; by constructor|]. exists (x :: xs). by constructor.
Qed.

(** The field restored from a table holds the payloads of the table. *)
Definition field_of (records : table) (name : string) (c : collection) : Prop :=
  ∀ key p, (∃ r, ((name, key), r) ∈ field_records (name, c) ∧ srec_payload r = p) ↔ ∃ r, records !! (name, key) = Some r ∧ srec_payload r = p.

Lemma storable_settled_items name items : forallb (storable_item name) items = true → forallb (storable_item name) (settle_items items) = true.
Proof.
  rewrite !forallb_forall. intros Hi x ([k v] & <- & Hin%Hi)%in_map_iff. unfold storable_item in *. cbn [fst snd] in *.
  apply andb_prop in Hin as [-> Hv]. by apply settle_settled in Hv as [_ ->].
Qed.

Lemma load_dict records name d :
  wf_table records → declared name = Some (CDict d) →
  ∃ c, restore_field (table_values records) (name, CDict d) = Ok (name, c)
    ∧ storable_field (name, CDict d) (name, c) = true ∧ field_of records name c.
Proof.
  intros Hw Hd. set (l := sort_on record_order (filter (λ r, srec_collection r = name) (table_values records))).
  assert (∀ r, r ∈ l ↔ records !! (name, srec_key r) = Some r) as Hin.
  { intros r. unfold l. rewrite elem_of_sort_on. by apply in_values. }
  destruct (collect_items (holds_item name) l) as [items Hitems].
  { intros r Hr%Hin. destruct (Hw _ _ Hr) as (_ & _ & Hh). cbn [fst] in Hh. by rewrite Hd in Hh. }
  assert (NoDup items.*1) as Hnd.
  { assert (NoDup (srec_key <$> l)) as Hk by (unfold l; rewrite (sort_on_perm record_order _); by apply values_keys).
    assert (srec_key <$> l = dumps <$> items.*1) as E.
    { clear -Hitems. induction Hitems as [|r x l items (E & _) _ IH]; [done|]. rewrite !fmap_cons. by rewrite E, IH. }
    rewrite E in Hk. by apply NoDup_fmap_1 in Hk. }
  assert (forallb (storable_item name) items = true) as Hst.
  { apply forallb_forall. intros x Hx%list_elem_of_In. apply list_elem_of_lookup in Hx as [i Hi].
    destruct (Forall2_lookup_r _ _ _ _ _ Hitems Hi) as (r & _ & _ & _ & ?). done. }
  exists (CDict (settle_items items)). split_and!.
  - unfold restore_field. fold l. by rewrite (restore_items_held name [] l items Hitems).
  - apply andb_true_intro. split; [by apply bool_decide_eq_true_2|]. cbn [fst snd]. rewrite (storable_settled_items _ _ Hst), settle_items_names.
    by rewrite bool_decide_eq_true_2.
  - intros key p. cbn [field_records]. split.
    + intros (r & Hr & <-). apply in_item_records in Hr as (i & k & v & Hl & [= -> ->]). unfold settle_items in Hl. rewrite list_lookup_fmap in Hl.
      destruct (items !! i) as [[k' v']|] eqn:Hi; [|done]. injection Hl as -> <-. destruct (Forall2_lookup_r _ _ _ _ _ Hitems Hi) as (r & Hr & Ek & Ev & Hs).
      exists r. apply list_elem_of_lookup_2, Hin in Hr. cbn [fst snd] in *. rewrite Ek in Hr. split; [done|]. cbn. rewrite Ev.
      symmetry. apply dumps_settle. unfold storable_item in Hs. by apply andb_prop in Hs as [_ ?].
    + intros (r & Hr & <-). destruct (Hw _ _ Hr) as (_ & Ek & _). cbn in Ek. subst key. apply Hin, list_elem_of_lookup in Hr as [i Hi].
      destruct (Forall2_lookup_l _ _ _ _ _ Hitems Hi) as ([k v] & Hk & Ek & Ev & Hs). cbn [fst snd] in *.
      exists (mkStateRecord name (dumps k) (Z.of_nat i) (dumps (settle v))). split.
      * apply in_item_records. exists i, k, (settle v). unfold settle_items. rewrite list_lookup_fmap, Hk, Ek. done.
      * cbn. rewrite Ev. apply dumps_settle. unfold storable_item in Hs. by apply andb_prop in Hs as [_ ?].
Qed.

Lemma load_list records name d n :
  wf_table records → declared name = Some (CList d) →
  (∀ key, is_Some (records !! (name, key)) ↔ ∃ i, (i < n)%nat ∧ key = pretty (Z.of_nat i)) →
  ∃ c, restore_field (table_values records) (name, CList d) = Ok (name, c)
    ∧ storable_field (name, CList d) (name, c) = true ∧ field_of records name c.
Proof.
  intros Hw Hd Hdom. set (l := sort_on record_order (filter (λ r, srec_collection r = name) (table_values records))).
  assert (∃ l', Forall2 (λ i r, records !! (name, pretty (Z.of_nat i)) = Some r) (seq 0 n) l') as [l' Hl'].
  { assert (∀ m, (∀ i, i ∈ m → (i < n)%nat) → ∃ l', Forall2 (λ i r, records !! (name, pretty (Z.of_nat i)) = Some r) m l') as Hex.
    { induction m as [|i m IH]; intros Hm; [by exists []|]. destruct (proj2 (Hdom (pretty (Z.of_nat i)))) as [r Hr]; [exists i; split; [apply Hm; constructor|done]|].
      destruct IH as [l' Hl']; [intros j Hj; apply Hm; by constructor|]. exists (r :: l'). by constructor. }
    apply Hex. intros i Hi%elem_of_seq. lia. }
  assert (∀ i r, l' !! i = Some r → (i < n)%nat ∧ records !! (name, pretty (Z.of_nat i)) = Some r) as Hat.
  { intros i r Hi. destruct (Forall2_lookup_r _ _ _ _ _ Hl' Hi) as (j & Hj & Hr). apply lookup_seq in Hj as [-> Hj]. by rewrite Nat.add_0_l in Hr. }
  assert (∀ i r, records !! (name, pretty (Z.of_nat i)) = Some r → srec_position r = Z.of_nat i ∧ srec_key r = pretty (Z.of_nat i)) as Hpos.
  { intros i r Hr. destruct (Hw _ _ Hr) as (_ & Ek & Hh). cbn [fst snd] in Ek, Hh. rewrite Hd in Hh. destruct Hh as (j & v & Hj & Ej & _).
    rewrite Ek in Ej. apply (inj pretty) in Ej. split; [congruence|done]. }
  destruct (numbered_records 0 l') as (Hsorted & Hnd & _); [intros i r Hi; by apply Hpos, Hat|].
  assert (l = l') as El.
  { unfold l. rewrite <-(sort_on_idemp record_order l' Hsorted). symmetry. apply sort_on_unique; [done|].
    apply NoDup_Permutation.
    - by apply NoDup_fmap_1 in Hnd.
    - eapply NoDup_fmap_1, values_keys, Hw.
    - intros r. rewrite (in_values records name r Hw). split.
      + intros [i Hi]%list_elem_of_lookup. destruct (Hat i r Hi) as [_ Hr]. by rewrite (proj2 (Hpos i r Hr)).
      + intros Hr. destruct (proj1 (Hdom (srec_key r))) as (i & Hi & Ek); [by eexists|]. rewrite Ek in Hr.
        destruct (Forall2_lookup_l _ _ _ i i Hl') as (r' & Hr' & Hr''); [by apply lookup_seq|].
        rewrite Hr in Hr''. injection Hr'' as <-. by eapply list_elem_of_lookup_2. }
  destruct (collect_items holds_value l') as [vs Hvs].
  { intros r [i Hi]%list_elem_of_lookup. destruct (Hat i r Hi) as [_ Hr]. destruct (Hw _ _ Hr) as (_ & _ & Hh). cbn [fst] in Hh.
    rewrite Hd in Hh. destruct Hh as (j & v & _ & _ & Hv). by exists v. }
  assert (forallb storable vs = true) as Hst.
  { apply forallb_forall. intros x Hx%list_elem_of_In. apply list_elem_of_lookup in Hx as [i Hi].
    destruct (Forall2_lookup_r _ _ _ _ _ Hvs Hi) as (r & _ & _ & ?). done. }
  exists (CList (settle <$> vs)). split_and!.
  - unfold restore_field. fold l. rewrite El. by rewrite (restore_values_held l' vs Hvs).
  - apply andb_true_intro. split; [by apply bool_decide_eq_true_2|]. cbn [fst snd].
    rewrite forallb_forall in *. intros x (v & <- & Hin%Hst)%in_map_iff. by apply settle_settled.
  - intros key p. cbn [field_records]. split.
    + intros (r & Hr & <-). apply elem_of_lookup_imap in Hr as (i & v & [= -> ->] & Hi). rewrite list_lookup_fmap in Hi.
      destruct (vs !! i) as [w|] eqn:Hw'; [|done]. injection Hi as <-. destruct (Forall2_lookup_r _ _ _ _ _ Hvs Hw') as (r & Hr & Ev & Hs).
      exists r. split; [by apply Hat|]. cbn. rewrite Ev. symmetry. by apply dumps_settle.
    + intros (r & Hr & <-). destruct (proj1 (Hdom key)) as (i & Hi & ->); [by eexists|].
      destruct (Forall2_lookup_l _ _ _ i i Hl') as (r' & Hr' & Hr''); [by apply lookup_seq|]. rewrite Hr in Hr''. injection Hr'' as <-.
      destruct (Forall2_lookup_l _ _ _ _ _ Hvs Hr') as (v & Hv & Ev & Hs).
      exists (mkStateRecord name (pretty (Z.of_nat i)) (Z.of_nat i) (dumps (settle v))). split.
      * apply elem_of_lookup_imap. exists i, (settle v). split; [done|]. by rewrite list_lookup_fmap, Hv.
      * cbn. rewrite Ev. by apply dumps_settle.
Qed.

Lemma view_dom records records' id : view records = view records' → is_Some (records !! id) ↔ is_Some (records' !! id).
Proof.
  intros E. apply (f_equal (lookup id)) in E. unfold view in E. rewrite !lookup_fmap in E.
  destruct (records !! id), (records' !! id); done || (split; by intros [? ?]).
Qed.

Lemma load_field records s0 name d :
  wf_table records → storable_state s0 → view records = view (state_to_records s0) → declared name = Some d →
  ∃ c, restore_field (table_values records) (name, d) = Ok (name, c)
    ∧ storable_field (name, d) (name, c) = true ∧ field_of records name c.
Proof.
  intros Hw Hs Hv Hd. destruct (state_field s0 name d Hs Hd) as (c0 & Hc0 & Hf0). destruct d as [d|d|d].
  - by apply load_dict.
  - pose proof Hf0 as [_ Hk]%andb_prop. cbn [fst snd] in Hk. destruct c0 as [items|items|v]; try done.
    apply (load_list records name d (length items) Hw Hd). intros key. rewrite (view_dom _ _ (name, key) Hv). split.
    + intros [r Hr]. apply (lookup_field s0 name _ key r Hs Hc0) in Hr. cbn [field_records] in Hr.
      apply elem_of_lookup_imap in Hr as (i & v & [= -> _] & Hi). exists i. split; [by eapply lookup_lt_Some|done].
    + intros (i & Hi & ->). apply lookup_lt_is_Some in Hi as [v Hi]. rewrite (lookup_list s0 name items (Z.of_nat i) Hs Hc0) by lia.
      rewrite Nat2Z.id, Hi. by eexists.
  - apply andb_prop in Hf0 as [_ Hf0]. by destruct c0.
Qed.

(** A table of the same view as a state restores a state that can be stored again
    and has that view. *)
Lemma load_table records s0 :
  wf_table records → storable_state s0 → view records = view (state_to_records s0) →
  ∃ s, records_to_state (table_values records) = Ok s ∧ storable_state s ∧ view (state_to_records s) = view records.
Proof.
  intros Hw Hs0 Hv. rewrite records_known.
  - destruct (traverse_all (restore_field (table_values records))
      (λ t f, f.1 = t.1 ∧ storable_field t f = true ∧ field_of records f.1 f.2) template) as (s & Hs & H2).
    { intros [name d] Hd%declared_field. destruct (load_field records s0 name d Hw Hs0 Hv Hd) as (c & E & Hf & Ho). by exists (name, c). }
    exists s. split; [done|]. assert (storable_state s) as Hst.
    { unfold storable_state. eapply Forall2_impl; [exact H2|]. by intros t f (_ & ? & _). }
    split; [done|]. apply map_eq. intros [name key]. unfold view. rewrite !lookup_fmap.
    enough (srec_payload <$> state_to_records s !! (name, key) = srec_payload <$> records !! (name, key)) as E.
    { unfold token_of. apply (f_equal (fmap payload_token)) in E. rewrite <-!option_fmap_compose in E. exact E. }
    destruct (declared name) as [d|] eqn:Hd.
    + apply declared_field in Hd as Hin. apply list_elem_of_lookup in Hin as [i Hi]. destruct (Forall2_lookup_l _ _ _ _ _ H2 Hi) as ([n c] & Hc & En & _ & Ho).
      cbn [fst snd] in *. subst n. apply list_elem_of_lookup_2 in Hc. apply option_eq. intros p. rewrite !fmap_Some. specialize (Ho key p).
      setoid_rewrite (lookup_field s name c key _ Hst Hc). split; intros (r & Hr & ->).
      * destruct (proj1 Ho) as (r' & Hr' & <-); [by exists r|]. by exists r'.
      * destruct (proj2 Ho) as (r' & Hr' & <-); [by exists r|]. by exists r'.
    + assert (state_to_records s !! (name, key) = None) as ->.
      { destruct (state_to_records s !! (name, key)) as [r|] eqn:Hr; [|done]. destruct (state_wf s Hst _ _ Hr) as (_ & _ & Hk). cbn [fst] in Hk. by rewrite Hd in Hk. }
      destruct (records !! (name, key)) as [r|] eqn:Hr; [|done]. destruct (Hw _ _ Hr) as (_ & _ & Hk). cbn [fst] in Hk. by rewrite Hd in Hk.
  - apply Forall_forall. intros r ([[n k] r'] & -> & Hin%elem_of_map_to_list)%list_elem_of_fmap. destruct (Hw _ _ Hin) as (En & _ & Hk). cbn [fst snd] in *.
    rewrite En. destruct (declared n) as [d|] eqn:Hd; [|done]. apply declared_field in Hd. by apply (list_elem_of_fmap_2 fst) in Hd.
Qed.
End loading.

(** ** Transactions *)

Section transactions.
Context `{!ClassTable, !JsonStr, !JsonInt}.

(** The records a unit of work did not mark. *)
Definition unmarked (dirty : list (string * value)) (s : pystate) : gmap (string * string) (res string) :=
  filter (λ x, x.1 ∉ dirty_id <$> dirty) (view (state_to_records s)).

(** The unit of work marked every record it changed. *)
Definition marks_changes (dirty : list (string * value)) (before after : pystate) : Prop :=
  unmarked dirty before = unmarked dirty after.

(** The journal holds the state [s], by the transactions of [history]. *)
Record journal_holds (file : string) (history : list (list StateRecordChange)) (s : pystate) : Prop := {
  holds_file : file = journal_file history;
  holds_history : well_formed_history history;
  holds_table : wf_table (replayed history);
  holds_state : storable_state s;
  holds_view : view (replayed history) = view (state_to_records s) }.

(** The transactions after one more with these changes. *)
Definition extended (history : list (list StateRecordChange)) (changes : list StateRecordChange) : list (list StateRecordChange) :=
  match changes with [] => history | _ => (history ++ [changes])%list end.

Lemma load_holds file history s :
  journal_holds file history s →
  ∃ before, _load_state_from_journal file = Ok (before, Z.of_nat (length history)) ∧ storable_state before ∧ durably_equal before s.
Proof.
  intros [-> Hh Hw Hs Hv]. destruct (load_table (replayed history) s Hw Hs Hv) as (before & Hload & Hb & Hbv).
  exists before. split; [|split; [done|]].
  - unfold _load_state_from_journal. rewrite (replay_history history Hh). cbn [mbind res_bind]. by rewrite Hload.
  - unfold durably_equal. by rewrite Hbv.
Qed.

Lemma extended_file history changes number :
  number = Z.of_nat (length history) + 1 → changes ≠ [] →
  journal_file history +:+ entry_line number changes = journal_file (extended history changes)
  ∧ number = Z.of_nat (length (extended history changes)).
Proof.
  intros -> Hne. destruct changes as [|c changes]; [done|]. unfold extended. rewrite length_app. cbn [length]. split; [|lia].
  unfold journal_file. replace (Z.of_nat (length history) + 1) with (1 + Z.of_nat (length history)) by lia. generalize 1 as n.
  induction history as [|h history IH]; intros n; cbn [journal_lines List.app length].
  - rewrite Z.add_0_r. by rewrite string_app_empty.
  - rewrite string_app_assoc, <-IH. do 3 f_equal. lia.
Qed.

Lemma dirty_id_text d :
  legal_dirty d = true → utf8_valid (dirty_id d).1 = true ∧ utf8_valid (dirty_id d).2 = true.
Proof.
  destruct d as [name key]. unfold legal_dirty, dirty_id. cbn [fst snd]. destruct (declared name) as [dc|] eqn:Hdc; [|done]. intros Hd.
  assert (utf8_valid name = true) as Hname.
  { apply declared_field, (list_elem_of_fmap_2 fst) in Hdc. cbn [fst] in Hdc. revert name Hdc Hd. intros name Hdc _. revert name Hdc.
    apply Forall_forall. apply (bool_decide_unpack _). vm_compute. exact I. }
  destruct dc as [di|di|di]; [|destruct key as [| |z| | | | | | | | | | | | | | |]; try done|done]; (split; [done|]); cbn [snd].
  - apply andb_prop in Hd as [Hk Ht]. apply printed_utf8; [|done]. apply plain_encode. by apply state_key_settle.
  - apply utf8_ascii, (all_bytes_impl digit_or_sign); [|apply int_bytes]. intros n. unfold digit_or_sign, ascii_byte.
    rewrite andb_true_iff, !N.leb_le, N.ltb_lt. lia.
Qed.

Lemma towards_well_formed after dirty changes :
  text_state after → forallb legal_dirty dirty = true →
  Forall (λ c, ∃ d, d ∈ dirty ∧ change_towards (state_to_records after) (dirty_id d) c) changes →
  forallb well_formed_change changes = true.
Proof.
  intros Ht Hl Hc. rewrite forallb_forall in Hl. apply forallb_forall. intros c Hin%list_elem_of_In. rewrite Forall_forall in Hc.
  destruct (Hc c Hin) as (d & Hd & Hto). apply list_elem_of_In, Hl, dirty_id_text in Hd as [Hu1 Hu2]. unfold well_formed_change.
  destruct Hto as [[_ ->]|(r & Hr & En & Ek & ->)]; unfold delete_change, upsert_change;
    cbn [chg_operation chg_collection chg_key chg_position chg_payload].
  - by rewrite Hu1, Hu2.
  - destruct (Ht _ _ Hr) as [Hk Hp]. by rewrite En, Hu1, Hk, Hp.
Qed.

Lemma towards_any after (dirty : list (string * value)) changes :
  Forall (λ c, ∃ d, d ∈ dirty ∧ change_towards after (dirty_id d) c) changes →
  Forall (λ c, ∃ i, change_towards after i c) changes.
Proof. intros Hc. eapply Forall_impl; [exact Hc|]. intros c (d & _ & ?). by exists (dirty_id d). Qed.

(** The table after the changes has the view of the state committed. *)
Lemma changes_view records before after dirty changes :
  view records = view (state_to_records before) → marks_changes dirty before after →
  Forall (λ c, ∃ d, d ∈ dirty ∧ change_towards (state_to_records after) (dirty_id d) c) changes →
  (∀ d, d ∈ dirty →
     (∃ c, c ∈ changes ∧ change_towards (state_to_records after) (dirty_id d) c)
     ∨ token_of <$> state_to_records before !! dirty_id d = token_of <$> state_to_records after !! dirty_id d) →
  view (put_changes records changes) = view (state_to_records after).
Proof.
  intros Hv Hm Hc Hd. apply map_eq. intros id. unfold view. rewrite !lookup_fmap.
  pose proof (towards_any _ _ _ Hc) as Hc'.
  destruct (put_changes_towards records (state_to_records after) changes id Hc') as [[_ ->]|[Hn ->]]; [done|].
  assert (token_of <$> records !! id = token_of <$> state_to_records before !! id) as ->.
  { apply (f_equal (lookup id)) in Hv. unfold view in Hv. by rewrite !lookup_fmap in Hv. }
  destruct (decide (id ∈ dirty_id <$> dirty)) as [(d & -> & Hin)%list_elem_of_fmap|Hout].
  - by destruct (Hd d Hin).
  - apply (f_equal (lookup id)) in Hm. unfold unmarked in Hm.
    rewrite !map_lookup_filter in Hm. unfold view in Hm. rewrite !lookup_fmap in Hm.
    destruct (state_to_records before !! id), (state_to_records after !! id); cbn in *; rewrite ?option_guard_True in Hm by done; by cbn in Hm.
Qed.

Lemma journal_changes file history s before after dirty :
  journal_holds file history s → storable_state before → durably_equal before s →
  storable_state after → text_state after → forallb legal_dirty dirty = true → marks_changes dirty before after →
  ∃ changes, changes_for_dirty_records before after dirty = Ok changes
    ∧ journal_holds (journal_file (extended history changes)) (extended history changes) after.
Proof.
  intros [_ Hh Hw Hs Hv] Hb Hbs Ha Ht Hl Hm. destruct (changes_towards before after dirty Hb Ha Hl) as (changes & E & Hc & Hd).
  exists changes. split; [done|].
  assert (replayed (extended history changes) = put_changes (replayed history) changes) as Er.
  { destruct changes; [done|]. unfold extended, replayed. by rewrite foldl_app. }
  split.
  - done.
  - destruct changes as [|c changes]; [done|]. unfold extended. apply Forall_app. split; [done|]. constructor; [|constructor].
    by eapply towards_well_formed.
  - rewrite Er. eapply put_changes_wf; [done|by apply state_wf|by eapply towards_any].
  - done.
  - rewrite Er. apply (changes_view _ before after dirty changes); [exact (eq_trans Hv (eq_sym Hbs))|done..].
Qed.

Lemma refresh_holds history j before :
  jnl_file j = journal_file history → _load_state_from_journal (journal_file history) = Ok (before, Z.of_nat (length history)) →
  _refresh_from_journal j = (Ok tt, mkJournal (journal_file history) before (Z.of_nat (length history))).
Proof. destruct j as [file st n]. cbn. intros -> E. unfold _refresh_from_journal. run. cbn [jnl_file]. rewrite E. by run. Qed.

(** C15. Transactions of a journal refine transactions of the state.  A journal
    that holds a state gives a unit of work an equal state, whatever the instance
    had in memory; when the unit of work commits a state it has marked its
    changes of, the transaction appends one line, or none when nothing changed,
    and the file holds the committed state; when it raises, the file is what it
    was.  Equal means the same items of every collection, up to the order of
    dictionaries and sets. *)
Theorem journal_transaction_refines owner_id body j history s :
  journal_holds (jnl_file j) history s → owner_id ≠ Some EmptyString →
  ∃ before, storable_state before ∧ durably_equal before s
    ∧ let here := mkJournal (journal_file history) before (Z.of_nat (length history)) in
      match body before with
      | Err e => journal_transaction owner_id body j = (Err e, here)
      | Ok (after, dirty) =>
        storable_state after → text_state after → forallb legal_dirty dirty = true → marks_changes dirty before after →
        ∃ changes, let history' := extended history changes in
          changes_for_dirty_records before after dirty = Ok changes
          ∧ journal_transaction owner_id body j = (Ok tt, mkJournal (journal_file history') after (Z.of_nat (length history')))
          ∧ journal_holds (journal_file history') history' after
      end.
Proof.
  intros Hj Ho. pose proof (holds_file _ _ _ Hj) as Ef. rewrite Ef in Hj.
  destruct (load_holds _ _ _ Hj) as (before & Hload & Hb & Hbs). exists before. split; [done|]. split; [done|]. intros here.
  pose proof (refresh_holds history j before Ef Hload) as Hrefresh. fold here in Hrefresh.
  assert ((match owner_id with Some o => is_empty o | None => false end) = false) as Hempty.
  { destruct owner_id as [o|]; [|done]. apply bool_decide_eq_false_2. intros ->. by apply Ho. }
  unfold journal_transaction. rewrite Hempty. destruct (body before) as [[after dirty]|e] eqn:Ebody.
  - intros Ha Ht Hl Hm. destruct (journal_changes _ _ _ _ _ _ Hj Hb Hbs Ha Ht Hl Hm) as (changes & Ec & Hafter).
    exists changes. split; [done|]. split; [|done]. run. rewrite (run_bind _ _ _ _ _ Hrefresh). run.
    destruct (_append_transaction changes (here <| jnl_state := after |>)) as [r w'] eqn:Eappend. erewrite run_attempt.
    2: { change (jnl_state here) with before. rewrite Ebody. run. change (snd (after, dirty)) with dirty. change (fst (after, dirty)) with after.
         rewrite Ec. run. exact Eappend. }
    destruct changes as [|c changes]; [by injection Eappend as <- <-|].
    unfold _append_transaction in Eappend. autorewrite with run in Eappend. injection Eappend as <- <-. cbv beta iota.
    destruct (extended_file history (c :: changes) (Z.of_nat (length history) + 1) eq_refl ltac:(done)) as [E1 E2].
    rewrite <-E1, <-E2. reflexivity.
  - run. rewrite (run_bind _ _ _ _ _ Hrefresh). run. erewrite run_attempt.
    2: { change (jnl_state here) with before. rewrite Ebody. run. reflexivity. }
    by run.
Qed.

(** C16. A journal is atomic under crashes.  Cut the file of a journal at any byte:
    what is left opens, and opens to exactly the state after the transactions
    whose lines are whole in it (a missing final line feed apart).  A torn final
    line, cut in a string or in a character, is no error and changes nothing. *)
Theorem journal_crash_atomic history p q :
  well_formed_history history → journal_file history = p +:+ q →
  ∃ k, (k ≤ length history)%nat
    ∧ (String.length (journal_file (take k history)) ≤ S (String.length p))%nat
    ∧ ((k < length history)%nat → (S (String.length p) < String.length (journal_file (take (S k) history)))%nat)
    ∧ _load_state_from_journal p = _load_state_from_journal (journal_file (take k history))
    ∧ replay (splitlines p) 1 ∅ 0 = Ok (replayed (take k history), Z.of_nat k).
Proof.
  intros Hh E. destruct (replay_prefix 1 history 1 ∅ p q Hh E) as (k & Hk & Hr & Hlow & Hhigh).
  replace (1 - 1 + Z.of_nat k) with (Z.of_nat k) in Hr by lia. exists k. split_and!; [done..| |done].
  unfold _load_state_from_journal. rewrite replay_history by (by apply Forall_take).
  change (1 - 1) with 0 in Hr. rewrite Hr. by rewrite length_take, Nat.min_l.
Qed.

(** Observing the boundary protocol leaves the instance as it was. *)
Lemma snapshot_detached {A} (snapshot : pystate → res A) j : (boundary_protocol_snapshot snapshot j).2 = j.
Proof.
  destruct j as [file st n]. unfold boundary_protocol_snapshot, _refresh_from_journal, mbind, prog_bind, attempt, gets, lift, modify.
  cbn -[_load_state_from_journal]. destruct (_load_state_from_journal file) as [[state count]|e]; [|done]. cbn. by destruct (snapshot state).
Qed.

(** ** A torn line that is written to again *)

Lemma loads_brace_line number changes t : t = EmptyString ∨ t = line_feed →
  Json.loads (String "{" (printed (entry_json number changes) +:+ t)) = Err JSONDecodeError.
Proof. intros _. destruct (entry_head number changes) as [s ->]. reflexivity. Qed.

Lemma entry_not_blank number changes s : bytes_blank (entry_line number changes +:+ s) = false.
Proof. unfold entry_line. by destruct (entry_head number changes) as [u ->]. Qed.

Lemma replay_whole history lines line_number records number :
  well_formed_history history →
  replay (splitlines (journal_lines number history) ++ lines)%list line_number records (number - 1)
    = replay lines (line_number + Z.of_nat (length history)) (foldl put_changes records history) (number - 1 + Z.of_nat (length history)).
Proof.
  intros Hh. revert line_number records number. induction Hh as [|changes history Hc _ IH]; intros line_number records number; cbn [journal_lines length].
  - cbn. by rewrite !Z.add_0_r.
  - rewrite splitlines_entry. cbn [List.app foldl]. unfold entry_line. rewrite (replay_entry number changes line_feed _ _ _ (or_intror eq_refl) Hc).
    replace number with (number + 1 - 1) at 2 by lia. rewrite IH. f_equal; lia.
Qed.

Lemma journal_file_complete history : complete (journal_file history) = true.
Proof.
  unfold journal_file. generalize 1. induction history as [|changes history IH]; intros n; [done|]. cbn [journal_lines]. specialize (IH (n + 1)).
  unfold entry_line. rewrite string_app_assoc. generalize (printed (entry_json n changes)) as s. intros s.
  induction s as [|c s IHs]; [by destruct (journal_lines (n + 1) history)|]. change (String c s +:+ ?u) with (String c (s +:+ u)).
  destruct (s +:+ (line_feed +:+ journal_lines (n + 1) history)) eqn:E; [|done]. by destruct s.
Qed.

Lemma merged_line number changes s :
  splitlines (String "{" (entry_line number changes +:+ s)) = String "{" (entry_line number changes) :: splitlines s.
Proof.
  set (line := String "{" (printed (entry_json number changes))).
  assert (all_bytes printable line = true) as Hp.
  { unfold line. cbn [all_bytes]. by rewrite (printed_printable _ (plain_entry number changes)). }
  change (String "{" (entry_line number changes +:+ s)) with ((line +:+ line_feed) +:+ s).
  rewrite (splitlines_app _ _ s (le_n _) (complete_app line)). rewrite (splitlines_printable line line_feed Hp); [done|done|by right].
Qed.

(** A journal whose last line is a brace with an entry behind it. *)
Lemma replay_merged history number changes s :
  well_formed_history history →
  replay (splitlines (journal_file history +:+ String "{" (entry_line number changes +:+ s))) 1 ∅ 0
    = if bytes_blank (concat_str (splitlines s)) then Ok (replayed history, Z.of_nat (length history))
      else Err (RuntimeError ("corrupt JSONL journal at line " +:+ pretty (1 + Z.of_nat (length history)))).
Proof.
  intros Hh. rewrite (splitlines_app _ _ _ (le_n _) (journal_file_complete history)), merged_line.
  rewrite (replay_whole history _ 1 ∅ 1 Hh : replay _ 1 ∅ 0 = _).
  set (merged := String "{" (entry_line number changes)). cbn [replay].
  destruct (utf8_valid merged); [cbn [negb]|by destruct (bytes_blank _)].
  unfold merged at 1. rewrite blank_brace.
  assert (Json.loads merged = Err JSONDecodeError) as -> by (apply (loads_brace_line number changes line_feed); by right).
  by destruct (bytes_blank _).
Qed.

(** What a transaction writes. *)
Lemma transaction_writes owner_id body j j' :
  journal_transaction owner_id body j = (Ok tt, j') →
  jnl_file j' = jnl_file j ∨ ∃ number changes, jnl_file j' = jnl_file j +:+ entry_line number changes.
Proof.
  unfold journal_transaction, _refresh_from_journal. intros E. inv_prog.
  match goal with H : attempt _ _ = _ |- _ => apply attempt_inv in H as (? & [= <-] & H) end. inv_prog.
  match goal with H : _append_transaction ?l _ = _ |- _ => unfold _append_transaction in H; destruct l eqn:? end; inv_prog; [by left|].
  right. by do 2 eexists.
Qed.

Lemma transaction_opens owner_id body j j' :
  journal_transaction owner_id body j = (Ok tt, j') → ∃ x, _load_state_from_journal (jnl_file j) = Ok x.
Proof. unfold journal_transaction, _refresh_from_journal. intros E. inv_prog. by eexists. Qed.

End transactions.

(** ** A shop on a journal *)

#[local] Existing Instances shipping_classes empty_str.
#[local] Instance integers_only : JsonInt := λ _, Err (TypeError "int() argument must be a string, a bytes-like object or a real number").

Definition empty_journal : journal := mkJournal EmptyString template 0.

(** A unit of work that fills the shop. *)
Definition opening_records : list (string * value) :=
  [("entities", VTuple [VStr "Order"; VStr "o-1"]); ("entities", VTuple [VStr "Order"; VStr "o-0"]);
   ("boundary_messages", VStr "m-1"); ("events", VInt 0); ("events", VInt 1); ("committed_ticks", VStr "run-1")].
Definition opening : unit_of_work := λ _, Ok (shop, opening_records).
Lemma template_storable : storable_state template.
Proof. apply (bool_decide_unpack _). vm_compute. exact I. Qed.

Lemma shop_text : text_state shop.
Proof. unfold text_state. apply (bool_decide_unpack _). vm_compute. exact I. Qed.

Lemma opening_marks : marks_changes opening_records template shop.
Proof. unfold marks_changes. apply (bool_decide_unpack _). vm_compute. exact I. Qed.

Lemma empty_journal_holds : journal_holds EmptyString [] template.
Proof.
  split; [done|constructor|apply map_Forall_empty|exact template_storable|]. apply (bool_decide_unpack _). vm_compute. exact I.
Qed.

Lemma journal_transaction_refines_witness :
  ∃ changes, let history := extended [] changes in
    journal_transaction (Some "run-1") opening empty_journal
      = (Ok tt, mkJournal (journal_file history) shop (Z.of_nat (length history)))
    ∧ journal_holds (journal_file history) history shop.
Proof.
  destruct (journal_transaction_refines (Some "run-1") opening empty_journal [] template empty_journal_holds ltac:(discriminate))
    as (before & Hbefore & Heq & Hrun).
  destruct (Hrun shop_storable shop_text eq_refl) as (changes & _ & E & Hshop).
  - unfold marks_changes, unmarked. rewrite Heq. exact opening_marks.
  - exists changes. split; [exact E|exact Hshop].
Defined.

(** Two sales, and a file cut in the line of the second. *)
Definition two_sales : list (list StateRecordChange) :=
  [[upsert_change (mkStateRecord "events" "0" 0 (dumps (VStr "paid")))];
   [upsert_change (mkStateRecord "events" "1" 1 (dumps (VStr "shipped"))); delete_change "commands" (dumps (VStr "c-1"))]].
Definition second_line : string := entry_line 2 (List.nth 1 two_sales []).
Definition cut_file : string := journal_file (take 1 two_sales) +:+ String.substring 0 30 second_line.
Definition lost_bytes : string := String.substring 30 (String.length second_line - 30) second_line.

Lemma journal_crash_atomic_witness :
  ∃ k, _load_state_from_journal cut_file = _load_state_from_journal (journal_file (take k two_sales))
    ∧ replay (splitlines cut_file) 1 ∅ 0 = Ok (replayed (take k two_sales), Z.of_nat k).
Proof.
  destruct (journal_crash_atomic two_sales cut_file lost_bytes) as (k & _ & _ & _ & Hload & Hreplay).
  - repeat constructor.
  - vm_compute. reflexivity.
  - exists k. split; [exact Hload|exact Hreplay].
Defined.

(** The journal of the first sale, torn. *)
Definition torn_journal : journal := mkJournal (journal_file (take 1 two_sales) +:+ "{") template 0.
Definition after_opening : journal := (journal_transaction None opening torn_journal).2.
Definition after_dropping : journal := (journal_transaction None opening after_opening).2.

