(* ===== verification/Randomness.v ===== *)
(** * Deterministic randomness

    [src/src/sose/core/randomness.py]: seeds and draws computed from a root seed
    and a scope of identifying parts, through the encoding of Encoding.  The
    digest and the generator are standard-library code: [blake2b] and the first
    [random()] of a seeded [random.Random] are parameters. *)
From S2P Require Import Prelude Encoding.
From Stdlib Require Import Ascii.
Open Scope string_scope.
Open Scope Z_scope.

(** [hashlib.blake2b(payload, digest_size=8).digest()]. *)
Class Blake2b := blake2b : string → string.

(** [random.Random(seed).random()]. *)
Class MersenneTwister := first_random : Z → spec_float.

(** [int.from_bytes(digest, "big", signed=False)]. *)
Fixpoint from_bytes_acc (acc : Z) (s : string) : Z :=
  match s with
  | EmptyString => acc
  | String a s => from_bytes_acc (acc * 256 + Z.of_N (N_of_ascii a)) s
  end.
Definition from_bytes (s : string) : Z := from_bytes_acc 0 s.

Section randomness.
Context `{!Blake2b, !MersenneTwister}.

Definition scoped_seed (root_seed : Z) (scope : list pyobj) : Z :=
  from_bytes (blake2b (encode_deterministic_parts (PInt root_seed :: scope))).

(** [RandomSource(root_seed).for_scope( *scope).random()]. *)
Definition RandomSource_random (root_seed : Z) (scope : list pyobj) : spec_float :=
  first_random (scoped_seed root_seed scope).

(** [CounterRandomSource]. *)
Definition _counter (root_seed : Z) (stream : string) (entity_id : pyobj) (mechanism : string)
    (draw_index : Z) : res Z :=
  fail_if (draw_index <? 0) (ValueError "draw_index must be non-negative") ;;
  mret (scoped_seed root_seed
          [PStr "counter-v1"; PStr stream; entity_id; PStr mechanism; PInt draw_index]).

Definition uniform (root_seed : Z) (stream : string) (entity_id : pyobj) (mechanism : string)
    (draw_index : Z) : res spec_float :=
  value ← _counter root_seed stream entity_id mechanism draw_index ;
  mret (fdiv (float_of_Z (Z.shiftr value 11)) (float_of_Z (2 ^ 53))).

Definition bernoulli (root_seed : Z) (probability : spec_float) (stream : string)
    (entity_id : pyobj) (mechanism : string) (draw_index : Z) : res bool :=
  fail_if (negb (fle fzero probability && fle probability fone))
    (ValueError "probability must be between 0 and 1") ;;
  u ← uniform root_seed stream entity_id mechanism draw_index ;
  mret (flt u probability).
End randomness.
