(* ===== verification/Records.v ===== *)
(** * Records

    The immutable records of the runtime ([src/src/sose/core/runtime.py],
    [core/events.py], [domain/entity.py], [backends/base.py]) and those the
    persistence layer only stores ([composition/], [jobs/model.py],
    [sinks/model.py], [domain/delivery.py]).  A validating [__post_init__] or
    [__init__] is a constructor function [*_new] that returns the record or the
    exception.  Instants are UTC, in microseconds. *)
From S2P Require Import Prelude Encoding.
From stdpp Require Import pretty.
Open Scope string_scope.
Open Scope Z_scope.

Definition datetime := Z.
Definition mapping := gmap string pyobj.

(** ** [core/events.py] *)

Record Command := mkCommand {
  cmd_command_id : string;
  cmd_name : string;
  cmd_entity_type : string;
  cmd_entity_id : string;
  cmd_due_at : datetime;
  cmd_issued_at : option datetime;
  cmd_tick : option Z;
  cmd_payload : mapping;
  cmd_causation_id : option string;
  cmd_correlation_id : option string;
  cmd_owner_id : option string }.
#[export] Instance Command_eq_dec : EqDecision Command.
Proof. solve_decision. Defined.
#[export] Instance Command_eta : Eta Command := λ r,
  mkCommand (cmd_command_id r) (cmd_name r) (cmd_entity_type r) (cmd_entity_id r)
    (cmd_due_at r) (cmd_issued_at r) (cmd_tick r) (cmd_payload r) (cmd_causation_id r)
    (cmd_correlation_id r) (cmd_owner_id r).

(** [Command.rescheduled]. *)
Definition Command_rescheduled (c : Command) (due_at : datetime) : Command :=
  c <| cmd_due_at := due_at |>.

Record DomainEvent := mkDomainEvent {
  ev_event_id : string;
  ev_name : string;
  ev_entity_type : string;
  ev_entity_id : string;
  ev_occurred_at : datetime;
  ev_tick : option Z;
  ev_payload : mapping;
  ev_causation_id : option string;
  ev_correlation_id : option string;
  ev_owner_id : option string }.
#[export] Instance DomainEvent_eq_dec : EqDecision DomainEvent.
Proof. solve_decision. Defined.

(** ** [domain/entity.py] *)

Record Entity := mkEntity {
  ent_id : string;
  ent_entity_type : string;
  ent_state : string;
  ent_attributes : mapping;
  ent_created_at : option datetime;
  ent_updated_at : option datetime;
  ent_version : Z }.
#[export] Instance Entity_eq_dec : EqDecision Entity.
Proof. solve_decision. Defined.
#[export] Instance Entity_eta : Eta Entity := λ r,
  mkEntity (ent_id r) (ent_entity_type r) (ent_state r) (ent_attributes r)
    (ent_created_at r) (ent_updated_at r) (ent_version r).

(** [Entity.touch]. *)
Definition Entity_touch (e : Entity) (at_ : datetime) : Entity :=
  e <| ent_created_at := Some (default at_ (ent_created_at e)) |>
    <| ent_updated_at := Some at_ |>
    <| ent_version ::= Z.succ |>.

(** ** [core/runtime.py]: scheduled work and the recovery boundary *)

Record ScheduledWork := mkScheduledWork {
  work_due_at : datetime;
  work_priority : Z;
  work_sequence : Z;
  work_work_id : string;
  work_command_id : string;
  work_owner_id : string }.
#[export] Instance ScheduledWork_eq_dec : EqDecision ScheduledWork.
Proof. solve_decision. Defined.

Definition ScheduledWork_new (work_id : string) (due_at : datetime) (priority sequence : Z)
    (command_id owner_id : string) : res ScheduledWork :=
  fail_if (blank owner_id) (ValueError "owner_id must not be empty") ;;
  mret (mkScheduledWork due_at priority sequence work_id command_id owner_id).

(** The field order the dataclass compares by. *)
Definition work_key (w : ScheduledWork) : Z * (Z * (Z * (string * (string * string)))) :=
  (work_due_at w, (work_priority w, (work_sequence w,
    (work_work_id w, (work_command_id w, work_owner_id w))))).

Record SimulationPosition := mkSimulationPosition {
  pos_logical_time : datetime;
  pos_execution_sequence : Z;
  pos_committed_sequence : Z;
  pos_logical_tick : Z }.
#[export] Instance SimulationPosition_eq_dec : EqDecision SimulationPosition.
Proof. solve_decision. Defined.

Definition SimulationPosition_new (logical_time : datetime)
    (execution_sequence committed_sequence logical_tick : Z) : res SimulationPosition :=
  fail_if (logical_tick <? 0) (ValueError "logical_tick must be >= 0") ;;
  fail_if (execution_sequence <? 0) (ValueError "execution_sequence must be >= 0") ;;
  fail_if (committed_sequence <? 0) (ValueError "committed_sequence must be >= 0") ;;
  fail_if (execution_sequence <? committed_sequence)
    (ValueError "committed_sequence cannot exceed execution_sequence") ;;
  mret (mkSimulationPosition logical_time execution_sequence committed_sequence logical_tick).

(** ** [core/runtime.py]: resources *)

Record ResourceDefinition := mkResourceDefinition {
  rdef_name : string;
  rdef_capacity : Z }.
#[export] Instance ResourceDefinition_eq_dec : EqDecision ResourceDefinition.
Proof. solve_decision. Defined.

Definition ResourceDefinition_new (name : string) (capacity : Z) : res ResourceDefinition :=
  fail_if (is_empty name) (ValueError "resource name cannot be empty") ;;
  fail_if (capacity <? 1) (ValueError "resource capacity must be >= 1") ;;
  mret (mkResourceDefinition name capacity).

Record ResourceDemand := mkResourceDemand {
  dem_priority : Z;
  dem_sequence : Z;
  dem_request_id : string;
  dem_resource_name : string;
  dem_requested_at : datetime }.
#[export] Instance ResourceDemand_eq_dec : EqDecision ResourceDemand.
Proof. solve_decision. Defined.

Definition ResourceDemand_new (request_id resource_name : string) (priority : Z)
    (requested_at : datetime) (sequence : Z) : res ResourceDemand :=
  fail_if (is_empty request_id) (ValueError "request_id cannot be empty") ;;
  fail_if (is_empty resource_name) (ValueError "resource_name cannot be empty") ;;
  mret (mkResourceDemand priority sequence request_id resource_name requested_at).

Definition demand_key (d : ResourceDemand) : Z * (Z * (string * (string * Z))) :=
  (dem_priority d, (dem_sequence d, (dem_request_id d, (dem_resource_name d, dem_requested_at d)))).

Record ResourceReservation := mkResourceReservation {
  rsv_reservation_id : string;
  rsv_request_id : string;
  rsv_resource_name : string;
  rsv_acquired_at : datetime;
  rsv_sequence : Z }.
#[export] Instance ResourceReservation_eq_dec : EqDecision ResourceReservation.
Proof. solve_decision. Defined.

Record ResourceReleaseIntent := mkResourceReleaseIntent {
  rel_intent_id : string;
  rel_reservation_id : string;
  rel_resource_name : string;
  rel_requested_at : datetime }.
#[export] Instance ResourceReleaseIntent_eq_dec : EqDecision ResourceReleaseIntent.
Proof. solve_decision. Defined.

(** ** [core/runtime.py]: stores *)

Inductive StoreKind := Fifo | Priority | Filter.
#[export] Instance StoreKind_eq_dec : EqDecision StoreKind.
Proof. solve_decision. Defined.

Record StoreDefinition := mkStoreDefinition {
  sdef_name : string;
  sdef_kind : StoreKind;
  sdef_capacity : option Z }.
#[export] Instance StoreDefinition_eq_dec : EqDecision StoreDefinition.
Proof. solve_decision. Defined.

(** The kind is a string in the code, one of these three. *)
Definition store_kind (kind : string) : option StoreKind :=
  if bool_decide (kind = "fifo") then Some Fifo
  else if bool_decide (kind = "priority") then Some Priority
  else if bool_decide (kind = "filter") then Some Filter
  else None.

Definition StoreDefinition_new (name kind : string) (capacity : option Z) : res StoreDefinition :=
  fail_if (is_empty name) (ValueError "store name cannot be empty") ;;
  match store_kind kind with
  | None => Err (ValueError "store kind must be one of: fifo, priority, filter")
  | Some k =>
    fail_if (match capacity with Some c => c <? 1 | None => false end)
      (ValueError "store capacity must be >= 1") ;;
    mret (mkStoreDefinition name k capacity)
  end.

Record DurableStoreItem := mkDurableStoreItem {
  item_item_id : string;
  item_store_name : string;
  item_value : pyobj;
  item_priority : Z;
  item_sequence : Z }.
#[export] Instance DurableStoreItem_eq_dec : EqDecision DurableStoreItem.
Proof. solve_decision. Defined.

Definition DurableStoreItem_new (item_id store_name : string) (value : pyobj)
    (priority sequence : Z) : res DurableStoreItem :=
  fail_if (is_empty item_id) (ValueError "item_id cannot be empty") ;;
  fail_if (is_empty store_name) (ValueError "store_name cannot be empty") ;;
  fail_if (sequence <? 1) (ValueError "store item sequence must be >= 1") ;;
  mret (mkDurableStoreItem item_id store_name value priority sequence).

Record StorePutIntent := mkStorePutIntent {
  put_item_id : string;
  put_store_name : string;
  put_value : pyobj;
  put_priority : Z;
  put_requested_at : datetime;
  put_sequence : Z }.
#[export] Instance StorePutIntent_eq_dec : EqDecision StorePutIntent.
Proof. solve_decision. Defined.

Definition StorePutIntent_new (item_id store_name : string) (value : pyobj) (priority : Z)
    (requested_at : datetime) (sequence : Z) : res StorePutIntent :=
  fail_if (is_empty item_id) (ValueError "item_id cannot be empty") ;;
  fail_if (is_empty store_name) (ValueError "store_name cannot be empty") ;;
  fail_if (sequence <? 1) (ValueError "store put sequence must be >= 1") ;;
  mret (mkStorePutIntent item_id store_name value priority requested_at sequence).

Record StoreGetRequest := mkStoreGetRequest {
  get_request_id : string;
  get_store_name : string;
  get_requested_at : datetime;
  get_sequence : Z;
  get_filter_key : option string }.
#[export] Instance StoreGetRequest_eq_dec : EqDecision StoreGetRequest.
Proof. solve_decision. Defined.

Definition StoreGetRequest_new (request_id store_name : string) (requested_at : datetime)
    (sequence : Z) (filter_key : option string) : res StoreGetRequest :=
  fail_if (is_empty request_id) (ValueError "request_id cannot be empty") ;;
  fail_if (is_empty store_name) (ValueError "store_name cannot be empty") ;;
  fail_if (sequence <? 1) (ValueError "store get sequence must be >= 1") ;;
  mret (mkStoreGetRequest request_id store_name requested_at sequence filter_key).

Record StoreGetResult := mkStoreGetResult {
  got_request_id : string;
  got_store_name : string;
  got_item : DurableStoreItem;
  got_completed_at : datetime;
  got_sequence : Z }.
#[export] Instance StoreGetResult_eq_dec : EqDecision StoreGetResult.
Proof. solve_decision. Defined.

Definition StoreGetResult_new (request_id store_name : string) (item : DurableStoreItem)
    (completed_at : datetime) (sequence : Z) : res StoreGetResult :=
  fail_if (is_empty request_id) (ValueError "request_id cannot be empty") ;;
  fail_if (is_empty store_name) (ValueError "store_name cannot be empty") ;;
  fail_if (bool_decide (item_store_name item ≠ store_name))
    (ValueError "store get result item belongs to a different store") ;;
  fail_if (sequence <? 1) (ValueError "store get result sequence must be >= 1") ;;
  mret (mkStoreGetResult request_id store_name item completed_at sequence).

(** ** [core/runtime.py]: preemptive resources *)

Record PreemptiveResourceDefinition := mkPreemptiveResourceDefinition {
  pdef_name : string;
  pdef_capacity : Z }.
#[export] Instance PreemptiveResourceDefinition_eq_dec : EqDecision PreemptiveResourceDefinition.
Proof. solve_decision. Defined.

Definition PreemptiveResourceDefinition_new (name : string) (capacity : Z) :
    res PreemptiveResourceDefinition :=
  fail_if (is_empty name) (ValueError "resource name cannot be empty") ;;
  fail_if (capacity <? 1) (ValueError "resource capacity must be >= 1") ;;
  mret (mkPreemptiveResourceDefinition name capacity).

Record PreemptiveResourceDemand := mkPreemptiveResourceDemand {
  pdem_priority : Z;
  pdem_sequence : Z;
  pdem_request_id : string;
  pdem_resource_name : string;
  pdem_preempt : bool;
  pdem_requested_at : datetime }.
#[export] Instance PreemptiveResourceDemand_eq_dec : EqDecision PreemptiveResourceDemand.
Proof. solve_decision. Defined.

Definition PreemptiveResourceDemand_new (request_id resource_name : string) (priority : Z)
    (preempt : bool) (requested_at : datetime) (sequence : Z) : res PreemptiveResourceDemand :=
  fail_if (is_empty request_id) (ValueError "request_id cannot be empty") ;;
  fail_if (is_empty resource_name) (ValueError "resource_name cannot be empty") ;;
  fail_if (sequence <? 1) (ValueError "preemptive resource demand sequence must be >= 1") ;;
  mret (mkPreemptiveResourceDemand priority sequence request_id resource_name preempt requested_at).

Definition pdemand_key (d : PreemptiveResourceDemand) :
    Z * (Z * (string * (string * (bool * Z)))) :=
  (pdem_priority d, (pdem_sequence d, (pdem_request_id d,
    (pdem_resource_name d, (pdem_preempt d, pdem_requested_at d))))).

Record PreemptiveResourceReservation := mkPreemptiveResourceReservation {
  prsv_reservation_id : string;
  prsv_request_id : string;
  prsv_resource_name : string;
  prsv_acquired_at : datetime;
  prsv_priority : Z;
  prsv_sequence : Z }.
#[export] Instance PreemptiveResourceReservation_eq_dec : EqDecision PreemptiveResourceReservation.
Proof. solve_decision. Defined.

Definition PreemptiveResourceReservation_new (reservation_id request_id resource_name : string)
    (acquired_at : datetime) (priority sequence : Z) : res PreemptiveResourceReservation :=
  fail_if (is_empty reservation_id) (ValueError "reservation_id cannot be empty") ;;
  fail_if (is_empty request_id) (ValueError "request_id cannot be empty") ;;
  fail_if (is_empty resource_name) (ValueError "resource_name cannot be empty") ;;
  fail_if (sequence <? 1) (ValueError "preemptive resource reservation sequence must be >= 1") ;;
  mret (mkPreemptiveResourceReservation reservation_id request_id resource_name acquired_at
          priority sequence).

Record PreemptiveResourceReleaseIntent := mkPreemptiveResourceReleaseIntent {
  prel_intent_id : string;
  prel_reservation_id : string;
  prel_resource_name : string;
  prel_requested_at : datetime }.
#[export] Instance PreemptiveResourceReleaseIntent_eq_dec :
  EqDecision PreemptiveResourceReleaseIntent.
Proof. solve_decision. Defined.

Record ResourcePreemptionResult := mkResourcePreemptionResult {
  pres_result_id : string;
  pres_resource_name : string;
  pres_displaced_reservation_id : string;
  pres_displaced_request_id : string;
  pres_preempting_request_id : string;
  pres_successor_reservation_id : string;
  pres_preempted_at : datetime;
  pres_sequence : Z }.
#[export] Instance ResourcePreemptionResult_eq_dec : EqDecision ResourcePreemptionResult.
Proof. solve_decision. Defined.

Definition ResourcePreemptionResult_new (result_id resource_name displaced_reservation_id
    displaced_request_id preempting_request_id successor_reservation_id : string)
    (preempted_at : datetime) (sequence : Z) : res ResourcePreemptionResult :=
  fail_if (is_empty result_id) (ValueError "preemption result_id cannot be empty") ;;
  fail_if (is_empty resource_name) (ValueError "resource_name cannot be empty") ;;
  fail_if (is_empty displaced_reservation_id)
    (ValueError "displaced_reservation_id cannot be empty") ;;
  fail_if (is_empty displaced_request_id) (ValueError "displaced_request_id cannot be empty") ;;
  fail_if (is_empty preempting_request_id) (ValueError "preempting_request_id cannot be empty") ;;
  fail_if (is_empty successor_reservation_id)
    (ValueError "successor_reservation_id cannot be empty") ;;
  fail_if (sequence <? 1) (ValueError "preemption result sequence must be >= 1") ;;
  mret (mkResourcePreemptionResult result_id resource_name displaced_reservation_id
          displaced_request_id preempting_request_id successor_reservation_id
          preempted_at sequence).

(** ** [core/runtime.py]: containers *)

Inductive ContainerOperation := Put | Get.
#[export] Instance ContainerOperation_eq_dec : EqDecision ContainerOperation.
Proof. solve_decision. Defined.

Definition container_operation (operation : string) : option ContainerOperation :=
  if bool_decide (operation = "put") then Some Put
  else if bool_decide (operation = "get") then Some Get
  else None.

(** The float guards shared by the container records: [_require_positive_finite],
    [_require_nonnegative_finite] and the inline tests of the same form. *)
Definition not_positive_finite (x : spec_float) : bool := negb (isfinite x) || fle x fzero.
Definition not_nonneg_finite (x : spec_float) : bool := negb (isfinite x) || flt x fzero.

Record ContainerDefinition := mkContainerDefinition {
  cdef_name : string;
  cdef_capacity : spec_float;
  cdef_initial : spec_float }.

Definition ContainerDefinition_new (name : string) (capacity initial : spec_float) :
    res ContainerDefinition :=
  fail_if (is_empty name) (ValueError "container name cannot be empty") ;;
  fail_if (not_positive_finite capacity)
    (ValueError "container capacity must be finite and > 0") ;;
  fail_if (not_nonneg_finite initial || flt capacity initial)
    (ValueError "container initial level must be finite and between 0 and capacity") ;;
  mret (mkContainerDefinition name capacity initial).

(** Dataclass equality compares floats numerically. *)
Definition ContainerDefinition_eqb (a b : ContainerDefinition) : bool :=
  bool_decide (cdef_name a = cdef_name b) && feq (cdef_capacity a) (cdef_capacity b)
    && feq (cdef_initial a) (cdef_initial b).

Record ContainerState := mkContainerState {
  cst_name : string;
  cst_level : spec_float }.

Definition ContainerState_new (name : string) (level : spec_float) : res ContainerState :=
  fail_if (is_empty name) (ValueError "container name cannot be empty") ;;
  fail_if (not_nonneg_finite level) (ValueError "container level must be finite and >= 0") ;;
  mret (mkContainerState name level).

Definition ContainerState_eqb (a b : ContainerState) : bool :=
  bool_decide (cst_name a = cst_name b) && feq (cst_level a) (cst_level b).

Record ContainerOperationIntent := mkContainerOperationIntent {
  cint_request_id : string;
  cint_container_name : string;
  cint_operation : ContainerOperation;
  cint_amount : spec_float;
  cint_requested_at : datetime;
  cint_sequence : Z }.

Definition ContainerOperationIntent_new (request_id container_name operation : string)
    (amount : spec_float) (requested_at : datetime) (sequence : Z) :
    res ContainerOperationIntent :=
  fail_if (is_empty request_id) (ValueError "request_id cannot be empty") ;;
  fail_if (is_empty container_name) (ValueError "container_name cannot be empty") ;;
  match container_operation operation with
  | None => Err (ValueError "container operation must be put or get")
  | Some op =>
    fail_if (not_positive_finite amount)
      (ValueError "container amount must be finite and > 0") ;;
    fail_if (sequence <? 1) (ValueError "container operation sequence must be >= 1") ;;
    mret (mkContainerOperationIntent request_id container_name op amount requested_at sequence)
  end.

Definition ContainerOperationIntent_eqb (a b : ContainerOperationIntent) : bool :=
  bool_decide (cint_request_id a = cint_request_id b)
    && bool_decide (cint_container_name a = cint_container_name b)
    && bool_decide (cint_operation a = cint_operation b)
    && feq (cint_amount a) (cint_amount b)
    && bool_decide (cint_requested_at a = cint_requested_at b)
    && bool_decide (cint_sequence a = cint_sequence b).

Record ContainerOperationResult := mkContainerOperationResult {
  cres_request_id : string;
  cres_container_name : string;
  cres_operation : ContainerOperation;
  cres_amount : spec_float;
  cres_completed_at : datetime;
  cres_level_before : spec_float;
  cres_level_after : spec_float;
  cres_sequence : Z }.

Definition ContainerOperationResult_new (request_id container_name : string)
    (operation : ContainerOperation) (amount : spec_float) (completed_at : datetime)
    (level_before level_after : spec_float) (sequence : Z) : res ContainerOperationResult :=
  fail_if (is_empty request_id) (ValueError "request_id cannot be empty") ;;
  fail_if (is_empty container_name) (ValueError "container_name cannot be empty") ;;
  fail_if (not_positive_finite amount)
    (ValueError "container amount must be finite and > 0") ;;
  fail_if (not_nonneg_finite level_before)
    (ValueError "container levels must be finite and >= 0") ;;
  fail_if (not_nonneg_finite level_after)
    (ValueError "container levels must be finite and >= 0") ;;
  fail_if (sequence <? 1) (ValueError "container result sequence must be >= 1") ;;
  mret (mkContainerOperationResult request_id container_name operation amount completed_at
          level_before level_after sequence).

Definition ContainerOperationResult_eqb (a b : ContainerOperationResult) : bool :=
  bool_decide (cres_request_id a = cres_request_id b)
    && bool_decide (cres_container_name a = cres_container_name b)
    && bool_decide (cres_operation a = cres_operation b)
    && feq (cres_amount a) (cres_amount b)
    && bool_decide (cres_completed_at a = cres_completed_at b)
    && feq (cres_level_before a) (cres_level_before b)
    && feq (cres_level_after a) (cres_level_after b)
    && bool_decide (cres_sequence a = cres_sequence b).

(** ** Records of other subsystems, stored but not interpreted here *)

Record DomainMutation := mkDomainMutation {
  mut_mutation_id : string;
  mut_entity : Entity }.
#[export] Instance DomainMutation_eq_dec : EqDecision DomainMutation.
Proof. solve_decision. Defined.

Record DomainDelivery := mkDomainDelivery {
  ddel_mutation : DomainMutation;
  ddel_attempts : Z;
  ddel_last_error : option string }.
#[export] Instance DomainDelivery_eq_dec : EqDecision DomainDelivery.
Proof. solve_decision. Defined.

(** [DomainDelivery.mutation_id]. *)
Definition ddel_mutation_id (d : DomainDelivery) : string := mut_mutation_id (ddel_mutation d).

Record BoundaryMessage := mkBoundaryMessage {
  bmsg_message_id : string;
  bmsg_contract_name : string;
  bmsg_contract_version : Z;
  bmsg_source_domain : string;
  bmsg_source_identity : string;
  bmsg_destination_domain : string;
  bmsg_occurrence_key : string;
  bmsg_correlation_id : string;
  bmsg_causation_id : option string;
  bmsg_produced_at : datetime;
  bmsg_payload_json : string;
  bmsg_payload_hash : string;
  bmsg_causation_kind : option string }.
#[export] Instance BoundaryMessage_eq_dec : EqDecision BoundaryMessage.
Proof. solve_decision. Defined.

Inductive DeliveryStatus := PENDING | CLAIMED | CONSUMED.
#[export] Instance DeliveryStatus_eq_dec : EqDecision DeliveryStatus.
Proof. solve_decision. Defined.

Record BoundaryDelivery := mkBoundaryDelivery {
  bdel_delivery_id : string;
  bdel_message_id : string;
  bdel_destination_domain : string;
  bdel_contract_name : string;
  bdel_contract_version : Z;
  bdel_status : DeliveryStatus;
  bdel_attempts : Z;
  bdel_claim_owner_id : option string;
  bdel_claim_epoch : Z;
  bdel_claimed_at : option datetime;
  bdel_lease_expires_at : option datetime;
  bdel_consumed_at : option datetime;
  bdel_consumer_effect_id : option string;
  bdel_last_error : option string }.
#[export] Instance BoundaryDelivery_eq_dec : EqDecision BoundaryDelivery.
Proof. solve_decision. Defined.

Record BoundaryConsumption := mkBoundaryConsumption {
  bcon_consumption_id : string;
  bcon_delivery_id : string;
  bcon_message_id : string;
  bcon_destination_domain : string;
  bcon_contract_name : string;
  bcon_contract_version : Z;
  bcon_consumer_effect_id : string;
  bcon_consumed_at : datetime }.
#[export] Instance BoundaryConsumption_eq_dec : EqDecision BoundaryConsumption.
Proof. solve_decision. Defined.

Record BusinessEffectApplied := mkBusinessEffectApplied {
  bea_receipt_id : string;
  bea_effect_id : string;
  bea_boundary_message_id : string;
  bea_correlation_id : string;
  bea_entity_type : string;
  bea_entity_id : string;
  bea_terminal_state : string;
  bea_entity_version : Z;
  bea_completed_at : datetime }.
#[export] Instance BusinessEffectApplied_eq_dec : EqDecision BusinessEffectApplied.
Proof. solve_decision. Defined.

Record CustomerSettlementBinding := mkCustomerSettlementBinding {
  csb_binding_id : string;
  csb_order_id : string;
  csb_payment_id : string;
  csb_journal_id : string;
  csb_amount : spec_float;
  csb_currency : string;
  csb_correlation_id : string }.
#[export] Instance CustomerSettlementBinding_eq_dec : EqDecision CustomerSettlementBinding.
Proof. solve_decision. Defined.

Record CompletedJobTrigger := mkCompletedJobTrigger {
  cjt_trigger_id : string;
  cjt_requested_ticks : Z;
  cjt_start_tick : Z;
  cjt_end_tick : Z;
  cjt_config_revision : Z;
  cjt_logical_time : datetime;
  cjt_run_count : Z }.
#[export] Instance CompletedJobTrigger_eq_dec : EqDecision CompletedJobTrigger.
Proof. solve_decision. Defined.

Record SimulationJobState := mkSimulationJobState {
  job_job_id : string;
  job_domain_name : string;
  job_config_json : string;
  job_config_revision : Z;
  job_status : string;
  job_initialized : bool;
  job_logical_time : datetime;
  job_next_tick : Z;
  job_run_count : Z;
  job_bootstrap_state : option pyobj;
  job_last_triggered_at : option datetime;
  job_active_trigger_id : option string;
  job_last_completed_trigger_id : option string;
  job_active_batch_trigger_id : option string;
  job_active_batch_total_ticks : Z;
  job_active_batch_completed_ticks : Z;
  job_last_completed_batch_trigger_id : option string;
  job_last_completed_batch_ticks : Z;
  job_completed_batch_triggers : list CompletedJobTrigger;
  job_phase : string;
  job_last_error : option string;
  job_active_effect_ids : list string;
  job_active_boundary_message_ids : list string;
  job_active_publication_message_ids : list string }.

Record AnalyticalBatch := mkAnalyticalBatch {
  batch_batch_id : string;
  batch_job_id : string;
  batch_domain_name : string;
  batch_config_revision : Z;
  batch_logical_tick : Z;
  batch_logical_time : datetime;
  batch_from_event_offset : Z;
  batch_to_event_offset : Z;
  batch_events : list DomainEvent }.

Record SinkCheckpoint := mkSinkCheckpoint {
  chk_job_id : string;
  chk_sink_name : string;
  chk_event_offset : Z;
  chk_last_delivery_id : option string }.

Record SinkDelivery := mkSinkDelivery {
  sdel_delivery_id : string;
  sdel_sink_name : string;
  sdel_batch : AnalyticalBatch;
  sdel_status : string;
  sdel_attempts : Z;
  sdel_last_error : option string;
  sdel_delivered_at : option datetime }.

(** ** [scenarios/model.py]: effects, decisions, activations *)

Inductive ScenarioEffect : Type :=
  | AttributeEffect (key : string) (value : pyobj)
  | TransitionWeightEffect (event : string) (multiplier : spec_float) (entity_type : option string)
  | CompositeEffect (effects : list ScenarioEffect).

Record ScenarioDecision := mkScenarioDecision {
  dec_attempt_id : string;
  dec_scenario_name : string;
  dec_activated : bool;
  dec_probability : spec_float;
  dec_draw : option spec_float;
  dec_reason : string;
  dec_activation_id : option string }.

Record ScenarioActivation := mkScenarioActivation {
  act_activation_id : string;
  act_scenario_name : string;
  act_activated_at : datetime;
  act_expires_at : option datetime;
  act_priority : Z;
  act_effects : list ScenarioEffect;
  act_trigger_key : list pyobj;
  act_causation_id : option string;
  act_correlation_id : option string }.

Record ScenarioRuntimeState := mkScenarioRuntimeState {
  scn_decisions : list ScenarioDecision;
  scn_activations : list ScenarioActivation }.

(** ** [backends/base.py]: what a backend hands back *)

Record ResourceLease := mkResourceLease {
  lease_lease_id : string;
  lease_request_id : string;
  lease_resource_name : string;
  lease_acquired_at : datetime }.
#[export] Instance ResourceLease_eq_dec : EqDecision ResourceLease.
Proof. solve_decision. Defined.

Record ResourcePreemption := mkResourcePreemption {
  pre_lease_id : string;
  pre_request_id : string;
  pre_resource_name : string;
  pre_preempted_at : datetime;
  pre_preempted_by : option string }.
#[export] Instance ResourcePreemption_eq_dec : EqDecision ResourcePreemption.
Proof. solve_decision. Defined.

Record StoreItem := mkStoreItem {
  sitem_item_id : string;
  sitem_store_name : string;
  sitem_value : pyobj;
  sitem_priority : Z }.
#[export] Instance StoreItem_eq_dec : EqDecision StoreItem.
Proof. solve_decision. Defined.

Record ContainerRequest := mkContainerRequest {
  creq_request_id : string;
  creq_container_name : string;
  creq_operation : ContainerOperation;
  creq_amount : spec_float;
  creq_requested_at : datetime }.

(** ** [core/durable.py] *)

Record DurableScheduledItem := mkDurableScheduledItem {
  sched_work : ScheduledWork;
  sched_command : Command }.
#[export] Instance DurableScheduledItem_eq_dec : EqDecision DurableScheduledItem.
Proof. solve_decision. Defined.
