(* ===== verification/Memory.v ===== *)
(** * The authoritative store

    [src/src/sose/persistence/memory.py]: the durable state, the unit of work
    that edits a fork of it, and the transaction that publishes or discards the
    fork.  A [dict] is a [gmap]: its insertion order is never observed, every
    reader sorts.  [deepcopy] is the identity on immutable values. *)
From S2P Require Import Prelude Encoding Records.
From stdpp Require Import pretty.
Open Scope string_scope.
Open Scope Z_scope.

(** ** [_State] *)

Record state := mkState {
  st_entities : gmap (string * string) Entity;
  st_events : list DomainEvent;
  st_commands : gmap string Command;
  st_scheduled_work : gmap string ScheduledWork;
  st_simulation_positions : gmap string SimulationPosition;
  st_scenario_states : gmap string ScenarioRuntimeState;
  st_resource_definitions : gmap string ResourceDefinition;
  st_resource_demands : gmap string ResourceDemand;
  st_resource_reservations : gmap string ResourceReservation;
  st_resource_release_intents : gmap string ResourceReleaseIntent;
  st_store_definitions : gmap string StoreDefinition;
  st_store_items : gmap string DurableStoreItem;
  st_store_put_intents : gmap string StorePutIntent;
  st_store_get_requests : gmap string StoreGetRequest;
  st_store_get_results : gmap string StoreGetResult;
  st_container_definitions : gmap string ContainerDefinition;
  st_container_states : gmap string ContainerState;
  st_container_operation_intents : gmap string ContainerOperationIntent;
  st_container_operation_results : gmap string ContainerOperationResult;
  st_preemptive_resource_definitions : gmap string PreemptiveResourceDefinition;
  st_preemptive_resource_demands : gmap string PreemptiveResourceDemand;
  st_preemptive_resource_reservations : gmap string PreemptiveResourceReservation;
  st_preemptive_resource_release_intents : gmap string PreemptiveResourceReleaseIntent;
  st_resource_preemption_results : gmap string ResourcePreemptionResult;
  st_job_states : gmap string SimulationJobState;
  st_sink_deliveries : gmap string SinkDelivery;
  st_sink_checkpoints : gmap (string * string) SinkCheckpoint;
  st_boundary_messages : gmap string BoundaryMessage;
  st_boundary_deliveries : gmap string BoundaryDelivery;
  st_boundary_consumptions : gmap string BoundaryConsumption;
  st_business_effects : gmap string BusinessEffectApplied;
  st_customer_settlement_bindings : gmap (string * string) CustomerSettlementBinding;
  st_domain_deliveries : gmap string DomainDelivery;
  st_committed_ticks : gmap string Z }.

#[export] Instance state_eta : Eta state := λ s,
  mkState
    (st_entities s) (st_events s) (st_commands s) (st_scheduled_work s)
    (st_simulation_positions s) (st_scenario_states s) (st_resource_definitions s)
    (st_resource_demands s) (st_resource_reservations s) (st_resource_release_intents s)
    (st_store_definitions s) (st_store_items s) (st_store_put_intents s)
    (st_store_get_requests s) (st_store_get_results s) (st_container_definitions s)
    (st_container_states s) (st_container_operation_intents s)
    (st_container_operation_results s) (st_preemptive_resource_definitions s)
    (st_preemptive_resource_demands s) (st_preemptive_resource_reservations s)
    (st_preemptive_resource_release_intents s) (st_resource_preemption_results s)
    (st_job_states s) (st_sink_deliveries s) (st_sink_checkpoints s) (st_boundary_messages s)
    (st_boundary_deliveries s) (st_boundary_consumptions s) (st_business_effects s)
    (st_customer_settlement_bindings s) (st_domain_deliveries s) (st_committed_ticks s).

(** [_State()]. *)
Definition empty_state : state :=
  mkState ∅ [] ∅ ∅ ∅ ∅ ∅ ∅ ∅ ∅ ∅ ∅ ∅ ∅ ∅ ∅ ∅ ∅ ∅ ∅ ∅ ∅ ∅ ∅ ∅ ∅ ∅ ∅ ∅ ∅ ∅ ∅ ∅ ∅.

(** [fork_state]: a structural copy; with immutable values the copy is the
    state itself. *)
Definition fork_state (s : state) : state := s.

(** ** [MemoryUnitOfWork] *)

(** The key under which a record was marked dirty: a dictionary key, a pair of
    them, or a position in the event list. *)
Abbreviation rec_key := (string + (string * string) + nat)%type.
Abbreviation KStr k := (inl (inl k) : rec_key).
Abbreviation KPair a b := (inl (inr (a, b)) : rec_key).
Abbreviation KIdx n := (inr n : rec_key).

Record uow := mkUow {
  uow_working : state;
  uow_dirty : gset (string * rec_key) }.

(** [MemoryUnitOfWork.__init__]. *)
Definition begin_uow (s : state) : uow := mkUow (fork_state s) ∅.

Abbreviation uprog := (prog uow).

Definition working : uprog state := gets uow_working.

(** Replace the working state by [f] of it and [_mark_dirty] the record. *)
Definition write (f : state → state) (collection : string) (key : rec_key) : uprog unit :=
  modify (λ u, mkUow (f (uow_working u)) ({[ (collection, key) ]} ∪ uow_dirty u)).

(** [existing is not None and existing != value]. *)
Definition conflicts {A} (eqb : A → A → bool) (existing : option A) (value : A) : bool :=
  match existing with Some e => negb (eqb e value) | None => false end.

Definition eqb_of {A} `{EqDecision A} (x y : A) : bool := bool_decide (x = y).

(** [any(p(x) for x in d.values())]. *)
Definition any_value {A} (p : A → bool) (m : gmap string A) : bool :=
  existsb p (map_to_list m).*2.

(** [key not in d]. *)
Definition absent {K} `{Countable K} {A} (k : K) (m : gmap K A) : bool :=
  bool_decide (m !! k = None).
Definition present {K} `{Countable K} {A} (k : K) (m : gmap K A) : bool := negb (absent k m).

(** The owner guard of the per-owner records. *)
Definition require_owner (owner_id : string) : uprog unit :=
  raise_if (blank owner_id) (ValueError "owner_id must not be empty").

(** *** Orchestration, boundary and delivery records *)

Definition get_job_state (job_id : string) : uprog (option SimulationJobState) :=
  gets (λ u, st_job_states (uow_working u) !! job_id).

Definition save_job_state (st : SimulationJobState) : uprog unit :=
  s ← working ;
  raise_if (conflicts (λ a b, eqb_of (job_domain_name a) (job_domain_name b))
              (st_job_states s !! job_job_id st) st)
    (ValueError ("job domain cannot change: " +:+ job_job_id st)) ;;
  write (λ s, s <| st_job_states ::= <[job_job_id st := st]> |>) "job_states"
    (KStr (job_job_id st)).

Definition get_boundary_message (message_id : string) : uprog (option BoundaryMessage) :=
  gets (λ u, st_boundary_messages (uow_working u) !! message_id).

Definition uow_boundary_messages : uprog (list BoundaryMessage) :=
  gets (λ u, sorted_values (st_boundary_messages (uow_working u))).

Definition save_boundary_message (message : BoundaryMessage) : uprog unit :=
  s ← working ;
  raise_if (conflicts eqb_of (st_boundary_messages s !! bmsg_message_id message) message)
    (ValueError ("boundary message identity conflict: " +:+ bmsg_message_id message)) ;;
  write (λ s, s <| st_boundary_messages ::= <[bmsg_message_id message := message]> |>)
    "boundary_messages" (KStr (bmsg_message_id message)).

Definition get_boundary_delivery (delivery_id : string) : uprog (option BoundaryDelivery) :=
  gets (λ u, st_boundary_deliveries (uow_working u) !! delivery_id).

Definition uow_boundary_deliveries : uprog (list BoundaryDelivery) :=
  gets (λ u, sorted_values (st_boundary_deliveries (uow_working u))).

Definition save_boundary_delivery (delivery : BoundaryDelivery) : uprog unit :=
  s ← working ;
  raise_if (conflicts (λ a b, eqb_of (bdel_message_id a) (bdel_message_id b))
              (st_boundary_deliveries s !! bdel_delivery_id delivery) delivery)
    (ValueError ("boundary delivery identity conflict: " +:+ bdel_delivery_id delivery)) ;;
  write (λ s, s <| st_boundary_deliveries ::= <[bdel_delivery_id delivery := delivery]> |>)
    "boundary_deliveries" (KStr (bdel_delivery_id delivery)).

Definition get_boundary_consumption (delivery_id : string) : uprog (option BoundaryConsumption) :=
  gets (λ u, st_boundary_consumptions (uow_working u) !! delivery_id).

Definition uow_boundary_consumptions : uprog (list BoundaryConsumption) :=
  gets (λ u, sorted_values (st_boundary_consumptions (uow_working u))).

Definition save_boundary_consumption (consumption : BoundaryConsumption) : uprog unit :=
  s ← working ;
  raise_if (conflicts eqb_of (st_boundary_consumptions s !! bcon_delivery_id consumption) consumption)
    (ValueError ("boundary consumption identity conflict: " +:+ bcon_delivery_id consumption)) ;;
  write (λ s, s <| st_boundary_consumptions ::= <[bcon_delivery_id consumption := consumption]> |>)
    "boundary_consumptions" (KStr (bcon_delivery_id consumption)).

(** The three lookup keys of one settlement binding. *)
Definition settlement_indices (b : CustomerSettlementBinding) : list (string * string) :=
  [("order", csb_order_id b); ("payment", csb_payment_id b); ("journal", csb_journal_id b)].

Definition get_customer_settlement_binding (kind entity_id : string) :
    uprog (option CustomerSettlementBinding) :=
  raise_if (negb (existsb (eqb_of kind) ["order"; "payment"; "journal"]))
    (ValueError "unknown settlement binding identity kind") ;;
  s ← working ;
  match st_customer_settlement_bindings s !! (kind, entity_id) with
  | None => mret None
  | Some value =>
    raise_if (existsb (λ key, negb (eqb_of (st_customer_settlement_bindings s !! key) (Some value)))
                (settlement_indices value))
      (RuntimeError "incomplete settlement binding identity indices") ;;
    mret (Some value)
  end.

Definition save_customer_settlement_binding (binding : CustomerSettlementBinding) : uprog unit :=
  s ← working ;
  let indices := settlement_indices binding in
  let previously := (λ key, st_customer_settlement_bindings s !! key) <$> indices in
  for_each indices (λ key,
    raise_if (conflicts eqb_of (st_customer_settlement_bindings s !! key) binding)
      (ValueError ("settlement identity already bound: " +:+ key.1))) ;;
  raise_if (existsb (λ o, negb (bool_decide (o = None))) previously
            && existsb (λ o, bool_decide (o = None)) previously)
    (RuntimeError "incomplete settlement binding identity indices") ;;
  for_each indices (λ key,
    write (λ s, s <| st_customer_settlement_bindings ::= <[key := binding]> |>)
      "customer_settlement_bindings" (KPair key.1 key.2)).

Definition get_business_effect (effect_id : string) : uprog (option BusinessEffectApplied) :=
  gets (λ u, st_business_effects (uow_working u) !! effect_id).

Definition uow_business_effects : uprog (list BusinessEffectApplied) :=
  gets (λ u, sorted_values (st_business_effects (uow_working u))).

Definition save_business_effect (effect : BusinessEffectApplied) : uprog unit :=
  s ← working ;
  raise_if (conflicts eqb_of (st_business_effects s !! bea_effect_id effect) effect)
    (ValueError ("business-effect certificate identity conflicts: " +:+ bea_effect_id effect)) ;;
  write (λ s, s <| st_business_effects ::= <[bea_effect_id effect := effect]> |>)
    "business_effects" (KStr (bea_effect_id effect)).

Definition get_domain_delivery (mutation_id : string) : uprog (option DomainDelivery) :=
  gets (λ u, st_domain_deliveries (uow_working u) !! mutation_id).

Definition save_domain_delivery (delivery : DomainDelivery) : uprog unit :=
  s ← working ;
  raise_if (conflicts (λ a b, eqb_of (ddel_mutation a) (ddel_mutation b))
              (st_domain_deliveries s !! ddel_mutation_id delivery) delivery)
    (ValueError ("domain mutation identity conflict: " +:+ ddel_mutation_id delivery)) ;;
  write (λ s, s <| st_domain_deliveries ::= <[ddel_mutation_id delivery := delivery]> |>)
    "domain_deliveries" (KStr (ddel_mutation_id delivery)).

Definition delete_domain_delivery (mutation_id : string) : uprog unit :=
  write (λ s, s <| st_domain_deliveries ::= delete mutation_id |>)
    "domain_deliveries" (KStr mutation_id).

Definition get_sink_delivery (delivery_id : string) : uprog (option SinkDelivery) :=
  gets (λ u, st_sink_deliveries (uow_working u) !! delivery_id).

Definition save_sink_delivery (delivery : SinkDelivery) : uprog unit :=
  write (λ s, s <| st_sink_deliveries ::= <[sdel_delivery_id delivery := delivery]> |>)
    "sink_deliveries" (KStr (sdel_delivery_id delivery)).

Definition delete_sink_delivery (delivery_id : string) : uprog unit :=
  write (λ s, s <| st_sink_deliveries ::= delete delivery_id |>)
    "sink_deliveries" (KStr delivery_id).

Definition get_sink_checkpoint (job_id sink_name : string) : uprog (option SinkCheckpoint) :=
  gets (λ u, st_sink_checkpoints (uow_working u) !! (job_id, sink_name)).

Definition save_sink_checkpoint (checkpoint : SinkCheckpoint) : uprog unit :=
  write (λ s, s <| st_sink_checkpoints ::=
                     <[(chk_job_id checkpoint, chk_sink_name checkpoint) := checkpoint]> |>)
    "sink_checkpoints" (KPair (chk_job_id checkpoint) (chk_sink_name checkpoint)).

(** *** Entities, events, commands *)

Definition get_entity (entity_type entity_id : string) : uprog (option Entity) :=
  gets (λ u, st_entities (uow_working u) !! (entity_type, entity_id)).

Definition uow_entities : uprog (list Entity) :=
  gets (λ u, sorted_values (st_entities (uow_working u))).

Definition save_entity (entity : Entity) : uprog unit :=
  write (λ s, s <| st_entities ::= <[(ent_entity_type entity, ent_id entity) := entity]> |>)
    "entities" (KPair (ent_entity_type entity) (ent_id entity)).

Definition uow_events : uprog (list DomainEvent) := gets (λ u, st_events (uow_working u)).

Definition get_event (event_id : string) : uprog (option DomainEvent) :=
  s ← working ;
  match filter (λ e, ev_event_id e = event_id) (st_events s) with
  | [] => mret None
  | m :: rest =>
    raise_if (existsb (λ e, negb (eqb_of e m)) rest)
      (ValueError ("conflicting durable event identity: " +:+ event_id)) ;;
    mret (Some m)
  end.

Definition append_event (event : DomainEvent) : uprog unit :=
  raise_if (match ev_owner_id event with Some o => blank o | None => true end)
    (ValueError "durable domain event requires operational owner_id") ;;
  s ← working ;
  write (λ s, s <| st_events ::= λ l, (l ++ [event])%list |>) "events" (KIdx (length (st_events s))).

Definition get_command (command_id : string) : uprog (option Command) :=
  gets (λ u, st_commands (uow_working u) !! command_id).

Definition uow_commands : uprog (list Command) :=
  gets (λ u, sorted_values (st_commands (uow_working u))).

Definition save_command (command : Command) : uprog unit :=
  write (λ s, s <| st_commands ::= <[cmd_command_id command := command]> |>)
    "commands" (KStr (cmd_command_id command)).

Definition delete_command (command_id : string) : uprog unit :=
  write (λ s, s <| st_commands ::= delete command_id |>)
    "commands" (KStr command_id).

(** *** Scheduled work and per-owner positions *)

Definition uow_scheduled_work : uprog (list ScheduledWork) :=
  gets (λ u, values_on work_key (st_scheduled_work (uow_working u))).

Definition get_scheduled_work (work_id : string) : uprog (option ScheduledWork) :=
  gets (λ u, st_scheduled_work (uow_working u) !! work_id).

Definition save_scheduled_work (work : ScheduledWork) : uprog unit :=
  s ← working ;
  raise_if (absent (work_command_id work) (st_commands s))
    (KeyError ("unknown scheduled command: " +:+ work_command_id work)) ;;
  write (λ s, s <| st_scheduled_work ::= <[work_work_id work := work]> |>)
    "scheduled_work" (KStr (work_work_id work)).

Definition delete_scheduled_work (work_id : string) : uprog unit :=
  write (λ s, s <| st_scheduled_work ::= delete work_id |>)
    "scheduled_work" (KStr work_id).

Definition get_simulation_position (owner_id : string) : uprog (option SimulationPosition) :=
  require_owner owner_id ;;
  gets (λ u, st_simulation_positions (uow_working u) !! owner_id).

Definition set_simulation_position (position : SimulationPosition) (owner_id : string) : uprog unit :=
  require_owner owner_id ;;
  write (λ s, s <| st_simulation_positions ::= <[owner_id := position]> |>)
    "simulation_positions" (KStr owner_id).

Definition get_scenario_state (owner_id : string) : uprog (option ScenarioRuntimeState) :=
  require_owner owner_id ;;
  gets (λ u, st_scenario_states (uow_working u) !! owner_id).

Definition set_scenario_state (st : ScenarioRuntimeState) (owner_id : string) : uprog unit :=
  require_owner owner_id ;;
  write (λ s, s <| st_scenario_states ::= <[owner_id := st]> |>)
    "scenario_states" (KStr owner_id).

Definition set_committed_tick (tick : Z) (owner_id : string) : uprog unit :=
  require_owner owner_id ;;
  write (λ s, s <| st_committed_ticks ::= <[owner_id := tick]> |>)
    "committed_ticks" (KStr owner_id).

(** *** Resources *)

Definition get_resource_demand (request_id : string) : uprog (option ResourceDemand) :=
  gets (λ u, st_resource_demands (uow_working u) !! request_id).

Definition uow_resource_definitions : uprog (list ResourceDefinition) :=
  gets (λ u, sorted_values (st_resource_definitions (uow_working u))).

Definition save_resource_definition (definition : ResourceDefinition) : uprog unit :=
  s ← working ;
  raise_if (conflicts eqb_of (st_resource_definitions s !! rdef_name definition) definition)
    (ValueError ("resource definition already exists: " +:+ rdef_name definition)) ;;
  write (λ s, s <| st_resource_definitions ::= <[rdef_name definition := definition]> |>)
    "resource_definitions" (KStr (rdef_name definition)).

Definition save_resource_demand (demand : ResourceDemand) : uprog unit :=
  s ← working ;
  raise_if (absent (dem_resource_name demand) (st_resource_definitions s))
    (KeyError ("unknown resource definition: " +:+ dem_resource_name demand)) ;;
  raise_if (any_value (λ r, eqb_of (rsv_request_id r) (dem_request_id demand))
              (st_resource_reservations s))
    (ValueError ("resource request already reserved: " +:+ dem_request_id demand)) ;;
  raise_if (conflicts eqb_of (st_resource_demands s !! dem_request_id demand) demand)
    (ValueError ("resource demand already exists: " +:+ dem_request_id demand)) ;;
  write (λ s, s <| st_resource_demands ::= <[dem_request_id demand := demand]> |>)
    "resource_demands" (KStr (dem_request_id demand)).

Definition delete_resource_demand (request_id : string) : uprog unit :=
  write (λ s, s <| st_resource_demands ::= delete request_id |>)
    "resource_demands" (KStr request_id).

Definition get_resource_reservation (reservation_id : string) : uprog (option ResourceReservation) :=
  gets (λ u, st_resource_reservations (uow_working u) !! reservation_id).

Definition uow_resource_reservations : uprog (list ResourceReservation) :=
  gets (λ u, sorted_values (st_resource_reservations (uow_working u))).

Definition save_resource_reservation (reservation : ResourceReservation) : uprog unit :=
  s ← working ;
  raise_if (absent (rsv_resource_name reservation) (st_resource_definitions s))
    (KeyError ("unknown resource definition: " +:+ rsv_resource_name reservation)) ;;
  raise_if (present (rsv_request_id reservation) (st_resource_demands s))
    (ValueError ("resource request is still pending: " +:+ rsv_request_id reservation)) ;;
  raise_if (any_value (λ c, eqb_of (rsv_request_id c) (rsv_request_id reservation)
                            && negb (eqb_of (rsv_reservation_id c) (rsv_reservation_id reservation)))
              (st_resource_reservations s))
    (ValueError ("resource request already reserved: " +:+ rsv_request_id reservation)) ;;
  write (λ s, s <| st_resource_reservations ::= <[rsv_reservation_id reservation := reservation]> |>)
    "resource_reservations" (KStr (rsv_reservation_id reservation)).

Definition delete_resource_reservation (reservation_id : string) : uprog unit :=
  write (λ s, s <| st_resource_reservations ::= delete reservation_id |>)
    "resource_reservations" (KStr reservation_id).

Definition get_resource_release_intent (intent_id : string) : uprog (option ResourceReleaseIntent) :=
  gets (λ u, st_resource_release_intents (uow_working u) !! intent_id).

Definition save_resource_release_intent (intent : ResourceReleaseIntent) : uprog unit :=
  s ← working ;
  raise_if (absent (rel_reservation_id intent) (st_resource_reservations s))
    (KeyError ("unknown resource reservation: " +:+ rel_reservation_id intent)) ;;
  raise_if (conflicts eqb_of (st_resource_release_intents s !! rel_intent_id intent) intent)
    (ValueError ("resource release intent already exists: " +:+ rel_intent_id intent)) ;;
  write (λ s, s <| st_resource_release_intents ::= <[rel_intent_id intent := intent]> |>)
    "resource_release_intents" (KStr (rel_intent_id intent)).

Definition delete_resource_release_intent (intent_id : string) : uprog unit :=
  write (λ s, s <| st_resource_release_intents ::= delete intent_id |>)
    "resource_release_intents" (KStr intent_id).

(** *** Stores *)

Definition get_store_item (item_id : string) : uprog (option DurableStoreItem) :=
  gets (λ u, st_store_items (uow_working u) !! item_id).

Definition get_store_put_intent (item_id : string) : uprog (option StorePutIntent) :=
  gets (λ u, st_store_put_intents (uow_working u) !! item_id).

Definition get_store_get_request (request_id : string) : uprog (option StoreGetRequest) :=
  gets (λ u, st_store_get_requests (uow_working u) !! request_id).

Definition get_store_get_result (request_id : string) : uprog (option StoreGetResult) :=
  gets (λ u, st_store_get_results (uow_working u) !! request_id).

Definition save_store_definition (definition : StoreDefinition) : uprog unit :=
  s ← working ;
  raise_if (conflicts eqb_of (st_store_definitions s !! sdef_name definition) definition)
    (ValueError ("store definition already exists: " +:+ sdef_name definition)) ;;
  write (λ s, s <| st_store_definitions ::= <[sdef_name definition := definition]> |>)
    "store_definitions" (KStr (sdef_name definition)).

Definition save_store_item (item : DurableStoreItem) : uprog unit :=
  s ← working ;
  raise_if (absent (item_store_name item) (st_store_definitions s))
    (KeyError ("unknown store definition: " +:+ item_store_name item)) ;;
  raise_if (present (item_item_id item) (st_store_put_intents s))
    (ValueError ("store item is still pending put: " +:+ item_item_id item)) ;;
  raise_if (conflicts eqb_of (st_store_items s !! item_item_id item) item)
    (ValueError ("store item already exists: " +:+ item_item_id item)) ;;
  write (λ s, s <| st_store_items ::= <[item_item_id item := item]> |>)
    "store_items" (KStr (item_item_id item)).

Definition delete_store_item (item_id : string) : uprog unit :=
  write (λ s, s <| st_store_items ::= delete item_id |>)
    "store_items" (KStr item_id).

Definition save_store_put_intent (intent : StorePutIntent) : uprog unit :=
  s ← working ;
  raise_if (absent (put_store_name intent) (st_store_definitions s))
    (KeyError ("unknown store definition: " +:+ put_store_name intent)) ;;
  raise_if (present (put_item_id intent) (st_store_items s))
    (ValueError ("store item already accepted: " +:+ put_item_id intent)) ;;
  raise_if (conflicts eqb_of (st_store_put_intents s !! put_item_id intent) intent)
    (ValueError ("store put intent already exists: " +:+ put_item_id intent)) ;;
  write (λ s, s <| st_store_put_intents ::= <[put_item_id intent := intent]> |>)
    "store_put_intents" (KStr (put_item_id intent)).

Definition delete_store_put_intent (item_id : string) : uprog unit :=
  write (λ s, s <| st_store_put_intents ::= delete item_id |>)
    "store_put_intents" (KStr item_id).

Definition save_store_get_request (request : StoreGetRequest) : uprog unit :=
  s ← working ;
  raise_if (absent (get_store_name request) (st_store_definitions s))
    (KeyError ("unknown store definition: " +:+ get_store_name request)) ;;
  raise_if (present (get_request_id request) (st_store_get_results s))
    (ValueError ("store get request already completed: " +:+ get_request_id request)) ;;
  raise_if (conflicts eqb_of (st_store_get_requests s !! get_request_id request) request)
    (ValueError ("store get request already exists: " +:+ get_request_id request)) ;;
  write (λ s, s <| st_store_get_requests ::= <[get_request_id request := request]> |>)
    "store_get_requests" (KStr (get_request_id request)).

Definition delete_store_get_request (request_id : string) : uprog unit :=
  write (λ s, s <| st_store_get_requests ::= delete request_id |>)
    "store_get_requests" (KStr request_id).

Definition save_store_get_result (result : StoreGetResult) : uprog unit :=
  s ← working ;
  raise_if (absent (got_store_name result) (st_store_definitions s))
    (KeyError ("unknown store definition: " +:+ got_store_name result)) ;;
  match st_store_get_results s !! got_request_id result with
  | Some existing =>
    raise_if (negb (eqb_of existing result))
      (ValueError ("store get result already exists: " +:+ got_request_id result))
  | None =>
    match st_store_get_requests s !! got_request_id result with
    | None => raise (KeyError ("unknown store get request: " +:+ got_request_id result))
    | Some request =>
      raise_if (negb (eqb_of (get_store_name request) (got_store_name result)))
        (ValueError ("store get result targets wrong store: " +:+ got_request_id result)) ;;
      write (λ s, s <| st_store_get_results ::= <[got_request_id result := result]> |>)
        "store_get_results" (KStr (got_request_id result))
    end
  end.

(** *** Containers *)

Definition get_container_state (name : string) : uprog (option ContainerState) :=
  gets (λ u, st_container_states (uow_working u) !! name).

Definition get_container_operation_intent (request_id : string) : uprog (option ContainerOperationIntent) :=
  gets (λ u, st_container_operation_intents (uow_working u) !! request_id).

Definition get_container_operation_result (request_id : string) : uprog (option ContainerOperationResult) :=
  gets (λ u, st_container_operation_results (uow_working u) !! request_id).

Definition save_container_definition (definition : ContainerDefinition) : uprog unit :=
  s ← working ;
  raise_if (conflicts ContainerDefinition_eqb
              (st_container_definitions s !! cdef_name definition) definition)
    (ValueError ("container definition already exists: " +:+ cdef_name definition)) ;;
  write (λ s, s <| st_container_definitions ::= <[cdef_name definition := definition]> |>)
    "container_definitions" (KStr (cdef_name definition)).

Definition save_container_state (st : ContainerState) : uprog unit :=
  s ← working ;
  match st_container_definitions s !! cst_name st with
  | None => raise (KeyError ("unknown container definition: " +:+ cst_name st))
  | Some definition =>
    raise_if (flt (cdef_capacity definition) (cst_level st))
      (ValueError ("container level exceeds capacity: " +:+ cst_name st)) ;;
    write (λ s, s <| st_container_states ::= <[cst_name st := st]> |>)
      "container_states" (KStr (cst_name st))
  end.

Definition save_container_operation_intent (intent : ContainerOperationIntent) : uprog unit :=
  s ← working ;
  raise_if (absent (cint_container_name intent) (st_container_definitions s))
    (KeyError ("unknown container definition: " +:+ cint_container_name intent)) ;;
  raise_if (present (cint_request_id intent) (st_container_operation_results s))
    (ValueError ("container request already completed: " +:+ cint_request_id intent)) ;;
  raise_if (conflicts ContainerOperationIntent_eqb
              (st_container_operation_intents s !! cint_request_id intent) intent)
    (ValueError ("container request already exists: " +:+ cint_request_id intent)) ;;
  write (λ s, s <| st_container_operation_intents ::= <[cint_request_id intent := intent]> |>)
    "container_operation_intents" (KStr (cint_request_id intent)).

Definition delete_container_operation_intent (request_id : string) : uprog unit :=
  write (λ s, s <| st_container_operation_intents ::= delete request_id |>)
    "container_operation_intents" (KStr request_id).

Definition save_container_operation_result (result : ContainerOperationResult) : uprog unit :=
  s ← working ;
  match st_container_operation_results s !! cres_request_id result with
  | Some existing =>
    raise_if (negb (ContainerOperationResult_eqb existing result))
      (ValueError ("container result already exists: " +:+ cres_request_id result))
  | None =>
    match st_container_operation_intents s !! cres_request_id result with
    | None => raise (KeyError ("unknown container operation intent: " +:+ cres_request_id result))
    | Some intent =>
      raise_if (negb (eqb_of (cint_container_name intent) (cres_container_name result))
                || negb (eqb_of (cint_operation intent) (cres_operation result)))
        (ValueError ("container result does not match intent: " +:+ cres_request_id result)) ;;
      write (λ s, s <| st_container_operation_results ::= <[cres_request_id result := result]> |>)
        "container_operation_results" (KStr (cres_request_id result))
    end
  end.

(** *** Preemptive resources *)

Definition get_preemptive_resource_demand (request_id : string) : uprog (option PreemptiveResourceDemand) :=
  gets (λ u, st_preemptive_resource_demands (uow_working u) !! request_id).

Definition get_preemptive_resource_reservation (reservation_id : string) : uprog (option PreemptiveResourceReservation) :=
  gets (λ u, st_preemptive_resource_reservations (uow_working u) !! reservation_id).

Definition get_preemptive_resource_release_intent (intent_id : string) : uprog (option PreemptiveResourceReleaseIntent) :=
  gets (λ u, st_preemptive_resource_release_intents (uow_working u) !! intent_id).

Definition get_resource_preemption_result (result_id : string) : uprog (option ResourcePreemptionResult) :=
  gets (λ u, st_resource_preemption_results (uow_working u) !! result_id).

Definition save_preemptive_resource_definition (definition : PreemptiveResourceDefinition) : uprog unit :=
  s ← working ;
  raise_if (conflicts eqb_of (st_preemptive_resource_definitions s !! pdef_name definition) definition)
    (ValueError ("preemptive resource definition already exists: " +:+ pdef_name definition)) ;;
  write (λ s, s <| st_preemptive_resource_definitions ::= <[pdef_name definition := definition]> |>)
    "preemptive_resource_definitions" (KStr (pdef_name definition)).

Definition save_preemptive_resource_demand (demand : PreemptiveResourceDemand) : uprog unit :=
  s ← working ;
  raise_if (absent (pdem_resource_name demand) (st_preemptive_resource_definitions s))
    (KeyError ("unknown preemptive resource definition: " +:+ pdem_resource_name demand)) ;;
  raise_if (any_value (λ r, eqb_of (prsv_request_id r) (pdem_request_id demand))
              (st_preemptive_resource_reservations s))
    (ValueError ("preemptive resource request already reserved: " +:+ pdem_request_id demand)) ;;
  raise_if (conflicts eqb_of (st_preemptive_resource_demands s !! pdem_request_id demand) demand)
    (ValueError ("preemptive resource demand already exists: " +:+ pdem_request_id demand)) ;;
  write (λ s, s <| st_preemptive_resource_demands ::= <[pdem_request_id demand := demand]> |>)
    "preemptive_resource_demands" (KStr (pdem_request_id demand)).

Definition delete_preemptive_resource_demand (request_id : string) : uprog unit :=
  write (λ s, s <| st_preemptive_resource_demands ::= delete request_id |>)
    "preemptive_resource_demands" (KStr request_id).

Definition save_preemptive_resource_reservation (reservation : PreemptiveResourceReservation) : uprog unit :=
  s ← working ;
  raise_if (absent (prsv_resource_name reservation) (st_preemptive_resource_definitions s))
    (KeyError ("unknown preemptive resource definition: " +:+ prsv_resource_name reservation)) ;;
  raise_if (present (prsv_request_id reservation) (st_preemptive_resource_demands s))
    (ValueError ("preemptive resource request is still pending: " +:+ prsv_request_id reservation)) ;;
  raise_if (any_value (λ c, eqb_of (prsv_request_id c) (prsv_request_id reservation)
                            && negb (eqb_of (prsv_reservation_id c) (prsv_reservation_id reservation)))
              (st_preemptive_resource_reservations s))
    (ValueError ("preemptive resource request already reserved: " +:+ prsv_request_id reservation)) ;;
  write (λ s, s <| st_preemptive_resource_reservations ::= <[prsv_reservation_id reservation := reservation]> |>)
    "preemptive_resource_reservations" (KStr (prsv_reservation_id reservation)).

Definition delete_preemptive_resource_reservation (reservation_id : string) : uprog unit :=
  write (λ s, s <| st_preemptive_resource_reservations ::= delete reservation_id |>)
    "preemptive_resource_reservations" (KStr reservation_id).

Definition save_preemptive_resource_release_intent (intent : PreemptiveResourceReleaseIntent) : uprog unit :=
  s ← working ;
  raise_if (absent (prel_reservation_id intent) (st_preemptive_resource_reservations s))
    (KeyError ("unknown preemptive resource reservation: " +:+ prel_reservation_id intent)) ;;
  raise_if (conflicts eqb_of (st_preemptive_resource_release_intents s !! prel_intent_id intent) intent)
    (ValueError ("preemptive resource release intent already exists: " +:+ prel_intent_id intent)) ;;
  write (λ s, s <| st_preemptive_resource_release_intents ::= <[prel_intent_id intent := intent]> |>)
    "preemptive_resource_release_intents" (KStr (prel_intent_id intent)).

Definition delete_preemptive_resource_release_intent (intent_id : string) : uprog unit :=
  write (λ s, s <| st_preemptive_resource_release_intents ::= delete intent_id |>)
    "preemptive_resource_release_intents" (KStr intent_id).

Definition save_resource_preemption_result (result : ResourcePreemptionResult) : uprog unit :=
  s ← working ;
  match st_preemptive_resource_reservations s !! pres_successor_reservation_id result with
  | None => raise (KeyError ("unknown successor preemptive reservation: "
                               +:+ pres_successor_reservation_id result))
  | Some successor =>
    raise_if (negb (eqb_of (prsv_request_id successor) (pres_preempting_request_id result)))
      (ValueError ("preemption result successor does not match request: "
                     +:+ pres_result_id result)) ;;
    raise_if (present (pres_displaced_reservation_id result) (st_preemptive_resource_reservations s))
      (ValueError ("displaced reservation is still active: "
                     +:+ pres_displaced_reservation_id result)) ;;
    raise_if (conflicts eqb_of (st_resource_preemption_results s !! pres_result_id result) result)
      (ValueError ("resource preemption result already exists: " +:+ pres_result_id result)) ;;
    write (λ s, s <| st_resource_preemption_results ::= <[pres_result_id result := result]> |>)
      "resource_preemption_results" (KStr (pres_result_id result))
  end.

(** ** Commit and transaction *)

(** [sorted(a.keys() & b.keys())]. *)
Definition overlap {A B} (a : gmap string A) (b : gmap string B) : list string :=
  sort_on id (elements (dom a ∩ dom b)).

(** [MemoryUnitOfWork.commit]: the state to publish, or the identity that is
    both pending and completed. *)
Definition commit (u : uow) : res state :=
  let w := uow_working u in
  match overlap (st_store_get_requests w) (st_store_get_results w) with
  | request_id :: _ =>
    Err (ValueError ("store get identity cannot be pending and completed: " +:+ request_id))
  | [] =>
    match overlap (st_container_operation_intents w) (st_container_operation_results w) with
    | request_id :: _ =>
      Err (ValueError ("container operation identity cannot be pending and completed: "
                         +:+ request_id))
    | [] => Ok w
    end
  end.

(** [MemoryPersistence]: the published state and whether this is a read view. *)
Record persistence := mkPersistence {
  mp_state : state;
  mp_read_only : bool }.
#[export] Instance persistence_eta : Eta persistence := λ p,
  mkPersistence (mp_state p) (mp_read_only p).

(** [MemoryPersistence._read_view]: a read facade over a captured state. *)
Definition read_view (s : state) : persistence := mkPersistence s true.

(** [MemoryPersistence.transaction]: the body runs on a fork; returning publishes
    the fork if [commit] accepts it, an exception discards it. *)
Definition transaction {A} (owner_id : option string) (body : uprog A) : prog persistence A :=
  λ p,
    if mp_read_only p then (Err (RuntimeError "read snapshot is read-only"), p) else
    if match owner_id with Some o => is_empty o | None => false end
    then (Err (ValueError "owner_id must not be empty"), p) else
    match body (begin_uow (mp_state p)) with
    | (Err e, _) => (Err e, p)
    | (Ok a, u) =>
      match commit u with
      | Err e => (Err e, p)
      | Ok s' => (Ok a, p <| mp_state := s' |>)
      end
    end.

(** ** Readers of the published state *)

Definition job_state (s : state) (job_id : string) : option SimulationJobState := st_job_states s !! job_id.
Definition job_states (s : state) : list SimulationJobState := sorted_values (st_job_states s).
Definition business_effect (s : state) (effect_id : string) : option BusinessEffectApplied := st_business_effects s !! effect_id.
Definition business_effects (s : state) : list BusinessEffectApplied := sorted_values (st_business_effects s).
Definition domain_delivery (s : state) (mutation_id : string) : option DomainDelivery := st_domain_deliveries s !! mutation_id.
Definition domain_deliveries (s : state) : list DomainDelivery := sorted_values (st_domain_deliveries s).
Definition sink_delivery (s : state) (delivery_id : string) : option SinkDelivery := st_sink_deliveries s !! delivery_id.

Definition sink_deliveries (s : state) (job_id sink_name : option string) : list SinkDelivery :=
  filter (λ d, (job_id = None ∨ job_id = Some (batch_job_id (sdel_batch d)))
               ∧ (sink_name = None ∨ sink_name = Some (sdel_sink_name d)))
    (values_on sdel_delivery_id (st_sink_deliveries s)).

Definition sink_checkpoint (s : state) (job_id sink_name : string) : option SinkCheckpoint :=
  st_sink_checkpoints s !! (job_id, sink_name).

Definition sink_checkpoints (s : state) (job_id : option string) : list SinkCheckpoint :=
  filter (λ c, job_id = None ∨ job_id = Some (chk_job_id c))
    (values_on (λ c, (chk_job_id c, chk_sink_name c)) (st_sink_checkpoints s)).

(** The owner guard of the per-owner readers. *)
Definition owned {A} (owner_id : string) (a : A) : res A :=
  fail_if (blank owner_id) (ValueError "owner_id must not be empty") ;; mret a.

Definition committed_tick (s : state) (owner_id : string) : res Z :=
  owned owner_id (default (-1) (st_committed_ticks s !! owner_id)).

Definition count_events (s : state) (owner_id : string) : res nat :=
  owned owner_id (length (filter (λ e, ev_owner_id e = Some owner_id) (st_events s))).

Definition events (s : state) : list DomainEvent := st_events s.

Definition entity (s : state) (entity_type entity_id : string) : option Entity :=
  st_entities s !! (entity_type, entity_id).

Definition command (s : state) (command_id : string) : option Command := st_commands s !! command_id.

Definition missing_command_ids (s : state) (command_ids : gset string) : gset string :=
  command_ids ∖ dom (st_commands s).

Definition scheduled_work (s : state) : list ScheduledWork := values_on work_key (st_scheduled_work s).

Definition due_scheduled_work (s : state) (at_ : datetime) : list ScheduledWork :=
  filter (λ w, work_due_at w ≤ at_) (scheduled_work s).

Definition simulation_position (s : state) (owner_id : string) : res (option SimulationPosition) :=
  owned owner_id (st_simulation_positions s !! owner_id).

Definition scenario_state (s : state) (owner_id : string) : res (option ScenarioRuntimeState) :=
  owned owner_id (st_scenario_states s !! owner_id).

Definition resource_definitions (s : state) : list ResourceDefinition := sorted_values (st_resource_definitions s).
Definition resource_demands (s : state) : list ResourceDemand := values_on demand_key (st_resource_demands s).
Definition resource_reservations (s : state) : list ResourceReservation := sorted_values (st_resource_reservations s).
Definition resource_release_intents (s : state) : list ResourceReleaseIntent := sorted_values (st_resource_release_intents s).
Definition store_definitions (s : state) : list StoreDefinition := sorted_values (st_store_definitions s).

Definition store_items (s : state) : list DurableStoreItem :=
  values_on (λ i, (item_store_name i, (item_sequence i, item_item_id i))) (st_store_items s).
Definition store_put_intents (s : state) : list StorePutIntent :=
  values_on (λ i, (put_sequence i, put_item_id i)) (st_store_put_intents s).
Definition store_get_requests (s : state) : list StoreGetRequest :=
  values_on (λ r, (get_sequence r, get_request_id r)) (st_store_get_requests s).
Definition store_get_results (s : state) : list StoreGetResult :=
  values_on (λ r, (got_sequence r, got_request_id r)) (st_store_get_results s).

Definition container_definitions (s : state) : list ContainerDefinition := sorted_values (st_container_definitions s).
Definition container_states (s : state) : list ContainerState := sorted_values (st_container_states s).
Definition container_operation_intents (s : state) : list ContainerOperationIntent :=
  values_on (λ i, (cint_sequence i, cint_request_id i)) (st_container_operation_intents s).
Definition container_operation_results (s : state) : list ContainerOperationResult :=
  values_on (λ r, (cres_sequence r, cres_request_id r)) (st_container_operation_results s).

Definition preemptive_resource_definitions (s : state) : list PreemptiveResourceDefinition := sorted_values (st_preemptive_resource_definitions s).
Definition preemptive_resource_demands (s : state) : list PreemptiveResourceDemand := values_on pdemand_key (st_preemptive_resource_demands s).
Definition preemptive_resource_reservations (s : state) : list PreemptiveResourceReservation :=
  values_on (λ r, (prsv_resource_name r, (prsv_sequence r, prsv_reservation_id r)))
    (st_preemptive_resource_reservations s).
Definition preemptive_resource_release_intents (s : state) : list PreemptiveResourceReleaseIntent := sorted_values (st_preemptive_resource_release_intents s).
Definition resource_preemption_results (s : state) : list ResourcePreemptionResult :=
  values_on (λ r, (pres_sequence r, pres_result_id r)) (st_resource_preemption_results s).
