(* ===== verification/MemoryFacts.v ===== *)
(** * Facts about the store

    The durable invariant, its preservation by every unit-of-work operation and
    by every transaction, atomicity, and the completeness of the dirty set. *)
From S2P Require Import Prelude Encoding Records Memory.
Open Scope string_scope.
Open Scope Z_scope.

(** ** Guards of the operations *)

Lemma absent_true {K} `{Countable K} {A} (k : K) (m : gmap K A) : absent k m = true ↔ m !! k = None.
Proof. apply bool_decide_eq_true. Qed.

Lemma absent_false {K} `{Countable K} {A} (k : K) (m : gmap K A) :
  absent k m = false ↔ is_Some (m !! k).
Proof. unfold absent. rewrite bool_decide_eq_false. apply not_eq_None_Some. Qed.

Lemma present_false {K} `{Countable K} {A} (k : K) (m : gmap K A) :
  present k m = false ↔ m !! k = None.
Proof. unfold present. rewrite negb_false_iff. apply absent_true. Qed.

Lemma present_true {K} `{Countable K} {A} (k : K) (m : gmap K A) :
  present k m = true ↔ is_Some (m !! k).
Proof. unfold present. rewrite negb_true_iff. apply absent_false. Qed.

Lemma any_value_false {A} (p : A → bool) (m : gmap string A) k x :
  any_value p m = false → m !! k = Some x → p x = false.
Proof.
  unfold any_value. intros H Hk. destruct (p x) eqn:E; [|done].
  enough (existsb p (map_to_list m).*2 = true) by congruence.
  apply existsb_exists. exists x. split; [|done].
  apply list_elem_of_In, list_elem_of_fmap. exists (k, x). split; [done|].
  by apply elem_of_map_to_list.
Qed.

Lemma any_value_true {A} (p : A → bool) (m : gmap string A) :
  any_value p m = true → ∃ k x, m !! k = Some x ∧ p x = true.
Proof.
  unfold any_value. rewrite existsb_exists. intros (x & Hx & Hp).
  apply list_elem_of_In, list_elem_of_fmap in Hx as ([k y] & -> & Hin).
  apply elem_of_map_to_list in Hin. eauto.
Qed.

Lemma any_value_intro {A} (p : A → bool) (m : gmap string A) k x :
  m !! k = Some x → p x = true → any_value p m = true.
Proof.
  intros Hk Hp. destruct (any_value p m) eqn:E; [done|].
  by rewrite (any_value_false _ _ _ _ E Hk) in Hp.
Qed.

Lemma conflicts_false {A} `{EqDecision A} (o : option A) x :
  conflicts eqb_of o x = false → o = None ∨ o = Some x.
Proof.
  destruct o as [y|]; cbn; [|by left].
  intros H%negb_false_iff%bool_decide_eq_true. right. congruence.
Qed.

Lemma eqb_of_true {A} `{EqDecision A} (x y : A) : eqb_of x y = true ↔ x = y.
Proof. apply bool_decide_eq_true. Qed.

Lemma eqb_of_false {A} `{EqDecision A} (x y : A) : eqb_of x y = false ↔ x ≠ y.
Proof. apply bool_decide_eq_false. Qed.

Lemma existsb_field {A} (f : A → string) k l :
  existsb (λ x, eqb_of (f x) k) l = false ↔ ∀ x, x ∈ l → f x ≠ k.
Proof.
  induction l as [|y l IH]; cbn; [set_solver|].
  rewrite orb_false_iff, eqb_of_false, IH. set_solver.
Qed.

(** Two floats that compare equal are the same number, or two zeros; in both
    cases they compare alike with any other. *)
Lemma flt_feq_l c c' l : feq c c' = true → flt c' l = flt c l.
Proof.
  unfold feq, flt, SFeqb, SFltb, SFcompare.
  destruct c as [sc|[]| |[] mc ec], c' as [sc'|[]| |[] mc' ec']; try done.
  all: destruct (Z.compare_spec ec ec') as [->|?|?]; cbn; try done.
  all: change Pos.compare_cont with Pos.compare_cont; fold (Pos.compare mc mc').
  all: destruct (Pos.compare_spec mc mc') as [->|?|?]; cbn; done.
Qed.

(** A finite float equals itself. *)
Lemma feq_refl x : isfinite x = true → feq x x = true.
Proof.
  unfold feq, SFeqb, SFcompare. destruct x as [[]|[]| |[] m e]; try done; intros _.
  all: by rewrite Z.compare_refl, Pos.compare_cont_refl.
Qed.

Lemma feq_trans x y z : feq x y = true → feq y z = true → feq x z = true.
Proof.
  unfold feq, SFeqb, SFcompare.
  destruct x as [[]|[]| |[] m e], y as [[]|[]| |[] m' e'], z as [[]|[]| |[] m'' e'']; try done.
  all: destruct (Z.compare_spec e e') as [->|?|?], (Z.compare_spec e' e'') as [->|?|?]; try done.
  all: rewrite ?Z.compare_refl; change (Pos.compare_cont Eq) with Pos.compare.
  all: destruct (Pos.compare_spec m m') as [->|?|?], (Pos.compare_spec m' m'') as [->|?|?]; try done.
Qed.

Lemma feq_sym x y : feq x y = true → feq y x = true.
Proof.
  unfold feq, SFeqb, SFcompare.
  destruct x as [[]|[]| |[] m e], y as [[]|[]| |[] m' e']; try done.
  all: destruct (Z.compare_spec e e') as [->|?|?]; try done.
  all: rewrite ?Z.compare_refl; change (Pos.compare_cont Eq) with Pos.compare.
  all: destruct (Pos.compare_spec m m') as [->|?|?]; try done; by rewrite Pos.compare_refl.
Qed.

(** ** Running a unit-of-work operation *)

Create HintDb uow_ops.

Ltac uow_unfold :=
  cbv [working write require_owner settlement_indices mbind prog_bind mret prog_ret gets modify lift raise
       raise_if fail_if fmap list_fmap].

(** Facts recorded by the guards an execution passed. *)
Ltac guard_facts :=
  repeat match goal with
  | H : absent _ _ = false |- _ => apply absent_false in H
  | H : absent _ _ = true |- _ => apply absent_true in H
  | H : present _ _ = false |- _ => apply present_false in H
  | H : present _ _ = true |- _ => apply present_true in H
  | H : negb _ = false |- _ => apply negb_false_iff in H
  | H : eqb_of _ _ = true |- _ => apply (proj1 (eqb_of_true _ _)) in H
  | H : eqb_of _ _ = false |- _ => apply (proj1 (eqb_of_false _ _)) in H
  | H : (_ || _) = false |- _ => apply orb_false_iff in H as [? ?]
  end.

(** ** The durable invariant *)

Record wf_schedule (s : state) : Prop := {
  wf_commands_key : keyed cmd_command_id (st_commands s);
  wf_work_key : keyed work_work_id (st_scheduled_work s) }.

Record wf_resources (s : state) : Prop := {
  wf_rdef_key : keyed rdef_name (st_resource_definitions s);
  wf_dem_key : keyed dem_request_id (st_resource_demands s);
  wf_rsv_key : keyed rsv_reservation_id (st_resource_reservations s);
  wf_rel_key : keyed rel_intent_id (st_resource_release_intents s);
  wf_dem_def : refers dem_resource_name (st_resource_demands s) (st_resource_definitions s);
  wf_rsv_def : refers rsv_resource_name (st_resource_reservations s) (st_resource_definitions s);
  wf_rsv_dem : apart rsv_request_id (st_resource_reservations s) (st_resource_demands s);
  wf_rsv_unique : unique rsv_request_id (st_resource_reservations s) }.

Record wf_stores (s : state) : Prop := {
  wf_sdef_key : keyed sdef_name (st_store_definitions s);
  wf_item_key : keyed item_item_id (st_store_items s);
  wf_put_key : keyed put_item_id (st_store_put_intents s);
  wf_get_key : keyed get_request_id (st_store_get_requests s);
  wf_got_key : keyed got_request_id (st_store_get_results s);
  wf_item_def : refers item_store_name (st_store_items s) (st_store_definitions s);
  wf_put_def : refers put_store_name (st_store_put_intents s) (st_store_definitions s);
  wf_get_def : refers get_store_name (st_store_get_requests s) (st_store_definitions s);
  wf_got_def : refers got_store_name (st_store_get_results s) (st_store_definitions s);
  wf_item_put : apart item_item_id (st_store_items s) (st_store_put_intents s) }.

(** The level of every container stays within its declared capacity. *)
Definition levels_bounded (s : state) : Prop :=
  ∀ k st d, st_container_states s !! k = Some st → st_container_definitions s !! k = Some d →
    flt (cdef_capacity d) (cst_level st) = false.

Record wf_containers (s : state) : Prop := {
  wf_cdef_key : keyed cdef_name (st_container_definitions s);
  wf_cst_key : keyed cst_name (st_container_states s);
  wf_cint_key : keyed cint_request_id (st_container_operation_intents s);
  wf_cres_key : keyed cres_request_id (st_container_operation_results s);
  wf_cst_def : refers cst_name (st_container_states s) (st_container_definitions s);
  wf_cint_def : refers cint_container_name (st_container_operation_intents s)
                  (st_container_definitions s);
  wf_cres_def : refers cres_container_name (st_container_operation_results s)
                  (st_container_definitions s);
  wf_levels : levels_bounded s }.

Record wf_preemptive (s : state) : Prop := {
  wf_pdef_key : keyed pdef_name (st_preemptive_resource_definitions s);
  wf_pdem_key : keyed pdem_request_id (st_preemptive_resource_demands s);
  wf_prsv_key : keyed prsv_reservation_id (st_preemptive_resource_reservations s);
  wf_prel_key : keyed prel_intent_id (st_preemptive_resource_release_intents s);
  wf_pres_key : keyed pres_result_id (st_resource_preemption_results s);
  wf_pdem_def : refers pdem_resource_name (st_preemptive_resource_demands s)
                  (st_preemptive_resource_definitions s);
  wf_prsv_def : refers prsv_resource_name (st_preemptive_resource_reservations s)
                  (st_preemptive_resource_definitions s);
  wf_prsv_dem : apart prsv_request_id (st_preemptive_resource_reservations s)
                  (st_preemptive_resource_demands s);
  wf_prsv_unique : unique prsv_request_id (st_preemptive_resource_reservations s) }.

(** The invariant of the working state of a unit of work. *)
Record wf (s : state) : Prop := {
  wf_sched : wf_schedule s;
  wf_res : wf_resources s;
  wf_sto : wf_stores s;
  wf_con : wf_containers s;
  wf_pre : wf_preemptive s }.

(** No key is in both dictionaries. *)
Definition exclusive {A B} (a : gmap string A) (b : gmap string B) : Prop :=
  ∀ k, is_Some (a !! k) → b !! k = None.

(** The invariant of the published state: [wf], and no request is at once
    pending and completed. *)
Record durable (s : state) : Prop := {
  durable_wf : wf s;
  durable_get : exclusive (st_store_get_requests s) (st_store_get_results s);
  durable_container :
    exclusive (st_container_operation_intents s) (st_container_operation_results s) }.

Lemma durable_empty : durable empty_state.
Proof.
  constructor; [|intros k _; apply lookup_empty..].
  constructor; constructor; try apply map_Forall_empty; intros ???? H; cbn in H;
    by rewrite lookup_empty in H.
Qed.

Definition wf_uow (u : uow) : Prop := wf (uow_working u).

(** ** The operations of a unit of work *)

(** Every method of [MemoryUnitOfWork] that changes the working state. *)
Inductive uow_op : uprog unit → Prop :=
  | op_save_job_state x : uow_op (save_job_state x)
  | op_save_boundary_message x : uow_op (save_boundary_message x)
  | op_save_boundary_delivery x : uow_op (save_boundary_delivery x)
  | op_save_boundary_consumption x : uow_op (save_boundary_consumption x)
  | op_save_customer_settlement_binding x : uow_op (save_customer_settlement_binding x)
  | op_save_business_effect x : uow_op (save_business_effect x)
  | op_save_domain_delivery x : uow_op (save_domain_delivery x)
  | op_delete_domain_delivery k : uow_op (delete_domain_delivery k)
  | op_save_sink_delivery x : uow_op (save_sink_delivery x)
  | op_delete_sink_delivery k : uow_op (delete_sink_delivery k)
  | op_save_sink_checkpoint x : uow_op (save_sink_checkpoint x)
  | op_save_entity x : uow_op (save_entity x)
  | op_append_event x : uow_op (append_event x)
  | op_save_command x : uow_op (save_command x)
  | op_delete_command k : uow_op (delete_command k)
  | op_save_scheduled_work x : uow_op (save_scheduled_work x)
  | op_delete_scheduled_work k : uow_op (delete_scheduled_work k)
  | op_set_simulation_position x o : uow_op (set_simulation_position x o)
  | op_set_scenario_state x o : uow_op (set_scenario_state x o)
  | op_set_committed_tick x o : uow_op (set_committed_tick x o)
  | op_save_resource_definition x : uow_op (save_resource_definition x)
  | op_save_resource_demand x : uow_op (save_resource_demand x)
  | op_delete_resource_demand k : uow_op (delete_resource_demand k)
  | op_save_resource_reservation x : uow_op (save_resource_reservation x)
  | op_delete_resource_reservation k : uow_op (delete_resource_reservation k)
  | op_save_resource_release_intent x : uow_op (save_resource_release_intent x)
  | op_delete_resource_release_intent k : uow_op (delete_resource_release_intent k)
  | op_save_store_definition x : uow_op (save_store_definition x)
  | op_save_store_item x : uow_op (save_store_item x)
  | op_delete_store_item k : uow_op (delete_store_item k)
  | op_save_store_put_intent x : uow_op (save_store_put_intent x)
  | op_delete_store_put_intent k : uow_op (delete_store_put_intent k)
  | op_save_store_get_request x : uow_op (save_store_get_request x)
  | op_delete_store_get_request k : uow_op (delete_store_get_request k)
  | op_save_store_get_result x : uow_op (save_store_get_result x)
  | op_save_container_definition x : uow_op (save_container_definition x)
  | op_save_container_state x : uow_op (save_container_state x)
  | op_save_container_operation_intent x : uow_op (save_container_operation_intent x)
  | op_delete_container_operation_intent k : uow_op (delete_container_operation_intent k)
  | op_save_container_operation_result x : uow_op (save_container_operation_result x)
  | op_save_preemptive_resource_definition x : uow_op (save_preemptive_resource_definition x)
  | op_save_preemptive_resource_demand x : uow_op (save_preemptive_resource_demand x)
  | op_delete_preemptive_resource_demand k : uow_op (delete_preemptive_resource_demand k)
  | op_save_preemptive_resource_reservation x : uow_op (save_preemptive_resource_reservation x)
  | op_delete_preemptive_resource_reservation k : uow_op (delete_preemptive_resource_reservation k)
  | op_save_preemptive_resource_release_intent x :
      uow_op (save_preemptive_resource_release_intent x)
  | op_delete_preemptive_resource_release_intent k :
      uow_op (delete_preemptive_resource_release_intent k)
  | op_save_resource_preemption_result x : uow_op (save_resource_preemption_result x).

(** The bodies of transactions: compositions of reads, operations and raises. *)
Inductive uow_body : ∀ A, uprog A → Prop :=
  | body_ret A (a : A) : uow_body A (mret a)
  | body_raise A e : uow_body A (raise e)
  | body_raise_if b e : uow_body unit (raise_if b e)
  | body_lift A (r : res A) : uow_body A (lift r)
  | body_gets A (f : uow → A) : uow_body A (gets f)
  | body_op m : uow_op m → uow_body unit m
  | body_bind A B (m : uprog A) (f : A → uprog B) :
      uow_body A m → (∀ a, uow_body B (f a)) → uow_body B (m ≫= f).
#[global] Arguments uow_body {A} _.

(** ** Every operation keeps the invariant *)

(** Evaluate an operation from a state satisfying the invariant, leaving the
    branches that write. *)
Ltac unfold_head m :=
  lazymatch m with
  | ?f _ => unfold_head f
  | ?f => unfold f
  end.

Ltac run_op :=
  lazymatch goal with |- keeps _ ?m => unfold_head m end;
  intros u Hu; uow_unfold; cbn;
  repeat (case_match; simplify_eq/=; try exact Hu); guard_facts.

(** The frame of an operation: the components whose dictionaries it leaves
    alone keep their invariant; the one it writes is closed by the map lemmas. *)
Ltac frame :=
  unfold wf_uow in *;
  match goal with H : wf _ |- _ => destruct H end;
  constructor;
  repeat match goal with
  | H : wf_schedule _ |- wf_schedule _ => destruct H
  | H : wf_resources _ |- wf_resources _ => destruct H
  | H : wf_stores _ |- wf_stores _ => destruct H
  | H : wf_containers _ |- wf_containers _ => destruct H
  | H : wf_preemptive _ |- wf_preemptive _ => destruct H
  end;
  constructor; cbn; eauto 3 with maps.

(** What the guards of a [save] give the map invariants. *)
Lemma apart_insert_fresh {A B} (f : A → string) (m : gmap string A) (d : gmap string B) j y :
  any_value (λ x, eqb_of (f x) j) m = false → apart f m d → apart f m (<[j := y]> d).
Proof.
  intros Ha H. apply apart_insert_r; [done|]. intros i x Hi.
  by apply eqb_of_false, (any_value_false _ _ _ _ Ha Hi).
Qed.

Lemma apart_insert_keyed {A B} (f : A → string) (m : gmap string A) (d : gmap string B) j y :
  keyed f m → m !! j = None → apart f m d → apart f m (<[j := y]> d).
Proof.
  intros Hk Hn H. apply apart_insert_r; [done|]. intros i x Hi <-.
  apply (keyed_lookup _ _ _ _ Hk) in Hi as E. congruence.
Qed.

Lemma unique_insert_fresh {A} (f id : A → string) (m : gmap string A) x :
  any_value (λ c, eqb_of (f c) (f x) && negb (eqb_of (id c) (id x))) m = false →
  keyed id m → unique f m → unique f (<[id x := x]> m).
Proof.
  intros Ha Hk H. apply unique_insert; [done|]. intros i y Hi E.
  apply (any_value_false _ _ _ _ Ha) in Hi as Hf.
  apply (proj2 (eqb_of_true _ _)) in E. rewrite E in Hf. cbn in Hf.
  guard_facts. rewrite <-Hf. symmetry. by apply Hk.
Qed.

#[export] Hint Resolve apart_insert_fresh apart_insert_keyed unique_insert_fresh : maps.

Lemma levels_save_state s x c :
  levels_bounded s → st_container_definitions s !! cst_name x = Some c →
  flt (cdef_capacity c) (cst_level x) = false →
  levels_bounded (s <| st_container_states ::= <[cst_name x := x]> |>).
Proof.
  intros H Hc Hx k st d Hst Hd. cbn in Hst, Hd.
  apply lookup_insert_Some in Hst as [[<- <-]|[? Hst]]; [congruence|by eapply H].
Qed.

Lemma levels_save_definition s x :
  levels_bounded s → refers cst_name (st_container_states s) (st_container_definitions s) →
  keyed cst_name (st_container_states s) →
  conflicts ContainerDefinition_eqb (st_container_definitions s !! cdef_name x) x = false →
  levels_bounded (s <| st_container_definitions ::= <[cdef_name x := x]> |>).
Proof.
  intros H Hr Hk Hc k st d Hst Hd. cbn in Hst, Hd.
  apply lookup_insert_Some in Hd as [[<- <-]|[? Hd]]; [|by eapply H].
  pose proof (Hr _ _ Hst) as [c Hdef]. rewrite (Hk _ _ Hst) in Hdef.
  rewrite Hdef in Hc. cbn in Hc. apply negb_false_iff in Hc.
  unfold ContainerDefinition_eqb in Hc. apply andb_prop in Hc as [Hc _].
  apply andb_prop in Hc as [_ Hc].
  rewrite (flt_feq_l _ _ _ Hc). by eapply H.
Qed.

#[export] Hint Resolve levels_save_state levels_save_definition : maps.

(** A write that touches none of the dictionaries of [I] keeps it. *)
Lemma keeps_write (I : state → Prop) f c k :
  (∀ s, I s → I (f s)) → keeps (λ u, I (uow_working u)) (write f c k).
Proof. intros H. apply keeps_modify. intros u. apply H. Qed.

Lemma settlement_wf x : keeps wf_uow (save_customer_settlement_binding x).
Proof.
  unfold save_customer_settlement_binding, working. auto 10 with keeps.
  apply keeps_bind; [auto with keeps|intros s].
  apply keeps_bind; [auto with keeps|intros _].
  apply keeps_bind; [auto with keeps|intros _].
  apply keeps_for_each. intros key. apply keeps_write. intros s' Hs.
  destruct Hs. constructor; [destruct wf_sched0|destruct wf_res0|destruct wf_sto0
    |destruct wf_con0|destruct wf_pre0]; by constructor.
Qed.

Lemma uow_op_wf m : uow_op m → keeps wf_uow m.
Proof.
  destruct 1; try apply settlement_wf; run_op; frame.
  (* the container of a result is that of its intent *)
  apply refers_insert; [done|].
  match goal with H : cint_container_name _ = _ |- _ => rewrite <-H end. eauto.
Qed.
#[export] Hint Resolve uow_op_wf : keeps.

(** ** Transactions *)

Lemma uow_body_keeps (I : uow → Prop) A (m : uprog A) :
  (∀ m, uow_op m → keeps I m) → uow_body m → keeps I m.
Proof.
  intros Hop. induction 1; auto with keeps.
Qed.

Lemma overlap_nil {A B} (a : gmap string A) (b : gmap string B) :
  overlap a b = [] ↔ exclusive a b.
Proof.
  unfold overlap, exclusive. split.
  - intros H k Hk. destruct (b !! k) eqn:E; [|done].
    assert (k ∈ elements (dom a ∩ dom b)) as Hin.
    { apply elem_of_elements, elem_of_intersection. rewrite !elem_of_dom. by rewrite E. }
    apply (elem_of_sort_on (λ x, x)) in Hin. unfold id in H. rewrite H in Hin.
    by apply not_elem_of_nil in Hin.
  - intros H. destruct (sort_on id (elements (dom a ∩ dom b))) as [|k l] eqn:E; [done|].
    assert (k ∈ sort_on id (elements (dom a ∩ dom b))) as Hin by (rewrite E; by constructor).
    apply elem_of_sort_on, elem_of_elements, elem_of_intersection in Hin as [Ha Hb].
    apply elem_of_dom in Ha, Hb. rewrite (H k Ha) in Hb. by destruct Hb.
Qed.

Lemma commit_durable u s : wf_uow u → commit u = Ok s → durable s ∧ s = uow_working u.
Proof.
  unfold commit. intros Hw H. split_matches_in H.
  split; [|done]. constructor; [done| |]; by apply overlap_nil.
Qed.

Lemma commit_ok u :
  exclusive (st_store_get_requests (uow_working u)) (st_store_get_results (uow_working u)) →
  exclusive (st_container_operation_intents (uow_working u))
    (st_container_operation_results (uow_working u)) →
  commit u = Ok (uow_working u).
Proof. unfold commit. by intros ->%overlap_nil ->%overlap_nil. Qed.

(** A body that leaves the requests and the results of stores and containers
    alone keeps the invariant of the published state. *)
Lemma body_durable {A} (body : uprog A) s r u :
  durable s → uow_body body → body (begin_uow s) = (r, u) →
  st_store_get_requests (uow_working u) = st_store_get_requests s →
  st_store_get_results (uow_working u) = st_store_get_results s →
  st_container_operation_intents (uow_working u) = st_container_operation_intents s →
  st_container_operation_results (uow_working u) = st_container_operation_results s →
  durable (uow_working u).
Proof.
  intros Hd Hb E E1 E2 E3 E4.
  pose proof (uow_body_keeps wf_uow _ _ uow_op_wf Hb (begin_uow s) (durable_wf _ Hd)) as Hwf.
  rewrite E in Hwf. constructor; [done|rewrite E1, E2|rewrite E3, E4]; apply Hd.
Qed.

Lemma exclusive_delete {A B} (a : gmap string A) (b : gmap string B) k :
  exclusive a b → exclusive (delete k a) b.
Proof. intros H j Hj. apply lookup_delete_is_Some in Hj as [_ Hj]. by apply H. Qed.

(** Completing [k]: it leaves the pending dictionary and enters the other. *)
Lemma exclusive_complete {A B} (a : gmap string A) (b : gmap string B) k x :
  exclusive a b → exclusive (delete k a) (<[k := x]> b).
Proof.
  intros H j Hj. apply lookup_delete_is_Some in Hj as [Hne Hj].
  rewrite lookup_insert_ne by done. by apply H.
Qed.

Lemma exclusive_insert {A B} (a : gmap string A) (b : gmap string B) k x :
  exclusive a b → b !! k = None → exclusive (<[k := x]> a) b.
Proof. intros H Hk j Hj. apply lookup_insert_is_Some in Hj as [<-|[_ Hj]]; [done|by apply H]. Qed.

(** ** What a transaction does *)

Definition durable_store (p : persistence) : Prop := durable (mp_state p).

Section transaction.
Context {A : Type} (owner_id : option string) (body : uprog A).

Lemma transaction_keeps :
  uow_body body → keeps durable_store (transaction owner_id body).
Proof.
  intros Hb p Hp. unfold transaction.
  pose proof (uow_body_keeps wf_uow _ _ uow_op_wf Hb (begin_uow (mp_state p)) (durable_wf _ Hp)) as Hu.
  destruct (body (begin_uow (mp_state p))) as [[a|e] u]; [|by repeat case_match].
  destruct (commit u) as [s|e] eqn:E; [|by repeat case_match].
  apply commit_durable in E as [? _]; [|done]. by repeat case_match.
Qed.

(** An escaping exception, from the body or from [commit], publishes nothing. *)
Lemma transaction_err p e p' : transaction owner_id body p = (Err e, p') → p' = p.
Proof. unfold transaction. intros H. split_matches_in H. Qed.

Lemma transaction_ok p a p' :
  transaction owner_id body p = (Ok a, p') →
  ∃ u, body (begin_uow (mp_state p)) = (Ok a, u) ∧ commit u = Ok (uow_working u)
       ∧ p' = p <| mp_state := uow_working u |>.
Proof.
  unfold transaction. intros H. split_matches_in H.
  eexists. split; [done|].
  match goal with H : commit ?u = Ok ?s |- _ =>
    assert (s = uow_working u) as -> by (unfold commit in H; by split_matches_in H)
  end. done.
Qed.
End transaction.

(** ** The dirty set *)

(** [agree_off d s w]: [s] and [w] hold the same record at every identity that
    is not in [d]. *)
Definition same_off {K} `{Countable K} {A : Type} (d : gset (string * rec_key)) (c : string)
    (key : K → rec_key) (m n : gmap K A) : Prop :=
  ∀ k, (c, key k) ∉ d → m !! k = n !! k.

Abbreviation skey := (λ k : string, KStr k).
Abbreviation pkey := (λ k : string * string, KPair k.1 k.2).

Record agree_off (d : gset (string * rec_key)) (s w : state) : Prop := {
  off_entities : same_off d "entities" pkey (st_entities s) (st_entities w);
  off_events : ∀ i, ("events", KIdx i) ∉ d → st_events s !! i = st_events w !! i;
  off_commands : same_off d "commands" skey
    (st_commands s) (st_commands w);
  off_scheduled_work : same_off d "scheduled_work" skey
    (st_scheduled_work s) (st_scheduled_work w);
  off_simulation_positions : same_off d "simulation_positions" skey
    (st_simulation_positions s) (st_simulation_positions w);
  off_scenario_states : same_off d "scenario_states" skey
    (st_scenario_states s) (st_scenario_states w);
  off_resource_definitions : same_off d "resource_definitions" skey
    (st_resource_definitions s) (st_resource_definitions w);
  off_resource_demands : same_off d "resource_demands" skey
    (st_resource_demands s) (st_resource_demands w);
  off_resource_reservations : same_off d "resource_reservations" skey
    (st_resource_reservations s) (st_resource_reservations w);
  off_resource_release_intents : same_off d "resource_release_intents" skey
    (st_resource_release_intents s) (st_resource_release_intents w);
  off_store_definitions : same_off d "store_definitions" skey
    (st_store_definitions s) (st_store_definitions w);
  off_store_items : same_off d "store_items" skey
    (st_store_items s) (st_store_items w);
  off_store_put_intents : same_off d "store_put_intents" skey
    (st_store_put_intents s) (st_store_put_intents w);
  off_store_get_requests : same_off d "store_get_requests" skey
    (st_store_get_requests s) (st_store_get_requests w);
  off_store_get_results : same_off d "store_get_results" skey
    (st_store_get_results s) (st_store_get_results w);
  off_container_definitions : same_off d "container_definitions" skey
    (st_container_definitions s) (st_container_definitions w);
  off_container_states : same_off d "container_states" skey
    (st_container_states s) (st_container_states w);
  off_container_operation_intents : same_off d "container_operation_intents" skey
    (st_container_operation_intents s) (st_container_operation_intents w);
  off_container_operation_results : same_off d "container_operation_results" skey
    (st_container_operation_results s) (st_container_operation_results w);
  off_preemptive_resource_definitions : same_off d "preemptive_resource_definitions" skey
    (st_preemptive_resource_definitions s) (st_preemptive_resource_definitions w);
  off_preemptive_resource_demands : same_off d "preemptive_resource_demands" skey
    (st_preemptive_resource_demands s) (st_preemptive_resource_demands w);
  off_preemptive_resource_reservations : same_off d "preemptive_resource_reservations" skey
    (st_preemptive_resource_reservations s) (st_preemptive_resource_reservations w);
  off_preemptive_resource_release_intents : same_off d "preemptive_resource_release_intents" skey
    (st_preemptive_resource_release_intents s) (st_preemptive_resource_release_intents w);
  off_resource_preemption_results : same_off d "resource_preemption_results" skey
    (st_resource_preemption_results s) (st_resource_preemption_results w);
  off_job_states : same_off d "job_states" skey
    (st_job_states s) (st_job_states w);
  off_sink_deliveries : same_off d "sink_deliveries" skey
    (st_sink_deliveries s) (st_sink_deliveries w);
  off_sink_checkpoints : same_off d "sink_checkpoints" pkey
    (st_sink_checkpoints s) (st_sink_checkpoints w);
  off_boundary_messages : same_off d "boundary_messages" skey
    (st_boundary_messages s) (st_boundary_messages w);
  off_boundary_deliveries : same_off d "boundary_deliveries" skey
    (st_boundary_deliveries s) (st_boundary_deliveries w);
  off_boundary_consumptions : same_off d "boundary_consumptions" skey
    (st_boundary_consumptions s) (st_boundary_consumptions w);
  off_business_effects : same_off d "business_effects" skey
    (st_business_effects s) (st_business_effects w);
  off_customer_settlement_bindings : same_off d "customer_settlement_bindings" pkey
    (st_customer_settlement_bindings s) (st_customer_settlement_bindings w);
  off_domain_deliveries : same_off d "domain_deliveries" skey
    (st_domain_deliveries s) (st_domain_deliveries w);
  off_committed_ticks : same_off d "committed_ticks" skey
    (st_committed_ticks s) (st_committed_ticks w) }.

Lemma same_off_refl {K} `{Countable K} {A : Type} (d : gset (string * rec_key)) (c : string) (key : K → rec_key) (m : gmap K A) :
  same_off d c key m m.
Proof. by intros k. Qed.

Lemma same_off_weaken {K} `{Countable K} {A : Type} d x c (key : K → rec_key) (m n : gmap K A) :
  same_off d c key m n → same_off ({[x]} ∪ d) c key m n.
Proof. intros Hs k Hk. apply Hs. set_solver. Qed.

Lemma same_off_insert {K} `{Countable K} {A : Type} (d : gset (string * rec_key)) (c : string) (key : K → rec_key) (m n : gmap K A) i x :
  same_off d c key m n → same_off ({[(c, key i)]} ∪ d) c key m (<[i := x]> n).
Proof.
  intros Hs k Hk. rewrite lookup_insert_ne; [apply Hs; set_solver|].
  intros ->. apply Hk. set_solver.
Qed.

Lemma same_off_delete {K} `{Countable K} {A : Type} (d : gset (string * rec_key)) (c : string) (key : K → rec_key) (m n : gmap K A) i :
  same_off d c key m n → same_off ({[(c, key i)]} ∪ d) c key m (delete i n).
Proof.
  intros Hs k Hk. rewrite lookup_delete_ne; [apply Hs; set_solver|].
  intros ->. apply Hk. set_solver.
Qed.

(** The same at the two forms of keys. *)
Lemma same_off_insert_str {A : Type} (d : gset (string * rec_key)) (c : string) (m n : gmap string A) i x :
  same_off d c skey m n → same_off ({[(c, KStr i)]} ∪ d) c skey m (<[i := x]> n).
Proof. apply (same_off_insert d c skey). Qed.

Lemma same_off_delete_str {A : Type} (d : gset (string * rec_key)) (c : string) (m n : gmap string A) i :
  same_off d c skey m n → same_off ({[(c, KStr i)]} ∪ d) c skey m (delete i n).
Proof. apply (same_off_delete d c skey). Qed.

Lemma same_off_insert_pair {A : Type} (d : gset (string * rec_key)) (c : string) (m n : gmap (string * string) A) (a b : string) (x : A) :
  same_off d c pkey m n → same_off ({[(c, KPair a b)]} ∪ d) c pkey m (<[(a, b) := x]> n).
Proof. apply (same_off_insert _ _ pkey _ _ (a, b)). Qed.

Create HintDb dirty discriminated.
#[export] Hint Resolve same_off_refl same_off_weaken same_off_insert_str same_off_delete_str
  same_off_insert_pair : dirty.

(** The unit of work agrees with the state it was forked from off its dirty set. *)
Definition tracks (s0 : state) (u : uow) : Prop := agree_off (uow_dirty u) s0 (uow_working u).

Lemma append_event_tracks s0 x : keeps (tracks s0) (append_event x).
Proof.
  run_op. destruct Hu. constructor; cbn; auto with dirty.
  intros i Hi. rewrite off_events0 by set_solver.
  destruct (decide (i < length (st_events (uow_working u)))%nat).
  - by rewrite lookup_app_l.
  - destruct (decide (i = length (st_events (uow_working u)))) as [->|]; [set_solver|].
    rewrite !lookup_ge_None_2; rewrite ?length_app; cbn; (done || lia).
Qed.

Lemma settlement_tracks s0 x : keeps (tracks s0) (save_customer_settlement_binding x).
Proof.
  unfold save_customer_settlement_binding, working.
  apply keeps_bind; [auto with keeps|intros s].
  apply keeps_bind; [auto with keeps|intros _].
  apply keeps_bind; [auto with keeps|intros _].
  apply keeps_for_each. intros key. apply keeps_modify. intros u Hu.
  destruct Hu. constructor; cbn; auto with dirty.
  - intros i Hi. apply off_events0. set_solver.
  - apply (same_off_insert _ _ pkey). done.
Qed.

Lemma uow_op_tracks s0 m : uow_op m → keeps (tracks s0) m.
Proof.
  destruct 1; try apply settlement_tracks; try apply append_event_tracks; run_op.
  all: destruct Hu; constructor; cbn; auto with dirty.
  all: try (intros i Hi; apply off_events0; set_solver).
Qed.

Lemma tracks_begin s0 : tracks s0 (begin_uow s0).
Proof. constructor; cbn; auto with dirty. Qed.

(** ** Properties of transactions *)



(** The dirty set is complete: a record, event or position whose identity
    no operation of the body marked dirty is the one the unit of work was
    forked from. *)
Theorem dirty_set_complete {A} (body : uprog A) s r u :
  uow_body body → body (begin_uow s) = (r, u) → agree_off (uow_dirty u) s (uow_working u).
Proof.
  intros Hb E.
  pose proof (uow_body_keeps (tracks s) _ _ (uow_op_tracks s) Hb (begin_uow s) (tracks_begin s)) as H.
  by rewrite E in H.
Qed.

(** *** A body that schedules a command *)

Definition sample_command : Command :=
  mkCommand "c1" "open" "order" "o1" 10 None None ∅ None None (Some "sim").
Definition sample_work : ScheduledWork := mkScheduledWork 10 100 1 "w1" "c1" "sim".
Definition schedule_body : uprog unit :=
  save_command sample_command ;; save_scheduled_work sample_work.
Definition scheduled_state : state :=
  empty_state <| st_commands := {["c1" := sample_command]} |>
              <| st_scheduled_work := {["w1" := sample_work]} |>.

Lemma schedule_body_body : uow_body schedule_body.
Proof. apply body_bind; [by repeat constructor|intros _; by repeat constructor]. Qed.



Lemma dirty_set_complete_witness :
  agree_off {[("scheduled_work", KStr "w1"); ("commands", KStr "c1")]} empty_state scheduled_state.
Proof.
  refine (dirty_set_complete schedule_body empty_state (Ok tt) (mkUow scheduled_state _)
            schedule_body_body _); vm_compute; reflexivity.
Defined.
