(* ===== verification/World.v ===== *)
(** * The objects the managers share

    The durable managers of [src/src/sose/core/] work on one persistence and one
    backend.  [world B] collects them with the managers' own dictionaries; [B]
    is the backend, third-party simulation code seen through the protocols of
    [src/src/sose/backends/base.py], which are the classes below.  A closure
    handed to the backend is the data it captured ([lease_callback], ...); what
    the backend does later is to call it with an argument (an [invocation]).
    The callbacks of the managers' own callers are unknown code: they are
    named, and calling one appends to [w_log]. *)
From S2P Require Import Prelude Encoding Records Memory MemoryFacts.
Open Scope string_scope.
Open Scope Z_scope.

(** ** Closures passed to the backend *)

(** [on_acquired] of [request_resource]: [lambda lease: _backend_leases[id] = lease]
    for a restored reservation, [_record_grant] for a demand. *)
Inductive lease_callback :=
  | StoreLease (reservation_id : string)
  | RecordGrant (request_id : string).

(** [completed] of [DurableContainerManager._submit_intent]. *)
Record container_callback := mkContainerCallback {
  ccb_request_id : string;
  ccb_on_completed : option string }.

(** [stored] of [DurableStoreManager._submit_put_intent]. *)
Record stored_callback := mkStoredCallback {
  scb_item_id : string;
  scb_on_stored : option string }.

(** [received] of [DurableStoreManager._submit_get_request]. *)
Record received_callback := mkReceivedCallback {
  rcb_request_id : string;
  rcb_on_received : option string }.

(** The closures of [schedule_at]: [DurableScheduler.schedule] looks its [_on_due]
    up when it runs, [RuntimeRebuilder] captured it. *)
Inductive due_callback :=
  | LateOnDue (item : DurableScheduledItem)
  | BoundOnDue (item : DurableScheduledItem).

(** One call the backend makes. *)
Inductive invocation :=
  | Acquired (cb : lease_callback) (lease : ResourceLease)
  | PreemptiveAcquired (request_id : string) (lease : ResourceLease)
  | Preempted (event : ResourcePreemption)
  | Completed (cb : container_callback)
  | Stored (cb : stored_callback)
  | Received (cb : received_callback) (item : StoreItem)
  | Due (cb : due_callback).

(** A call of a callback given by a manager's caller: its name, its argument. *)
Inductive notice :=
  | NotifiedReservation (callback : string) (reservation : ResourceReservation)
  | NotifiedPreemptive (callback : string) (reservation : PreemptiveResourceReservation)
  | NotifiedContainer (callback : string) (result : ContainerOperationResult)
  | NotifiedItem (callback : string) (item : DurableStoreItem).

(** ** The world *)

(** [SimulationClock] ([core/clock.py]). *)
Record clock := mkClock {
  clk_now : datetime;
  clk_step : Z;
  clk_tick : Z }.
#[export] Instance clock_eta : Eta clock := λ c, mkClock (clk_now c) (clk_step c) (clk_tick c).

(** [_Scheduled] of the in-memory queue ([core/scheduler.py]). *)
Record _Scheduled := mk_Scheduled {
  heap_due_at : datetime;
  heap_priority : Z;
  heap_sequence : Z;
  heap_command : Command }.

(** [_heap], seen through [heapq] as the sorted list of its entries (their keys
    are distinct), and [_sequence]. *)
Record scheduler := mkScheduler {
  heap : list _Scheduled;
  heap_count : Z }.
#[export] Instance scheduler_eta : Eta scheduler := λ s, mkScheduler (heap s) (heap_count s).

Definition empty_scheduler : scheduler := mkScheduler [] 0.

(** The memory of [ScenarioEngine]: [_decisions], [_activations]. *)
Record scenario_memory := mkScenarioMemory {
  sm_decisions : gmap string ScenarioDecision;
  sm_activations : gmap string ScenarioActivation }.
#[export] Instance scenario_memory_eta : Eta scenario_memory := λ m,
  mkScenarioMemory (sm_decisions m) (sm_activations m).

Record world (B : Type) := mkWorld {
  w_store : persistence;
  w_backend : B;
  (** [DurableResourceManager._backend_leases], [_pending_callbacks] *)
  w_leases : gmap string ResourceLease;
  w_callbacks : gmap string string;
  (** [DurablePreemptiveResourceManager]: [_backend_leases], [_pending_grants]
      (iterated in insertion order), [_pending_preemptions], [_pending_callbacks] *)
  w_pleases : gmap string ResourceLease;
  w_pgrants : list (string * ResourceLease);
  w_ppreemptions : gmap string ResourcePreemption;
  w_pcallbacks : gmap string string;
  (** [SimulationContext]: [clock], [scheduler], [pending_events], [scenarios] *)
  w_clock : clock;
  w_scheduler : scheduler;
  w_pending : list DomainEvent;
  w_scenarios : scenario_memory;
  (** [CommandFactory._sequence], [EventFactory._sequence] *)
  w_commands_made : Z;
  w_events_made : Z;
  (** [DurableScheduler]: whether a backend is attached *)
  w_attached : bool;
  w_log : list notice }.
Arguments mkWorld {B}.
Arguments w_store {B}.
Arguments w_backend {B}.
Arguments w_leases {B}.
Arguments w_callbacks {B}.
Arguments w_pleases {B}.
Arguments w_pgrants {B}.
Arguments w_ppreemptions {B}.
Arguments w_pcallbacks {B}.
Arguments w_clock {B}.
Arguments w_scheduler {B}.
Arguments w_pending {B}.
Arguments w_scenarios {B}.
Arguments w_commands_made {B}.
Arguments w_events_made {B}.
Arguments w_attached {B}.
Arguments w_log {B}.

#[export] Instance world_eta B : Eta (world B) := λ w,
  mkWorld (w_store w) (w_backend w) (w_leases w) (w_callbacks w) (w_pleases w)
    (w_pgrants w) (w_ppreemptions w) (w_pcallbacks w) (w_clock w) (w_scheduler w) (w_pending w)
    (w_scenarios w) (w_commands_made w) (w_events_made w) (w_attached w) (w_log w).

(** The published durable state. *)
Definition durable_state {B} (w : world B) : state := mp_state (w_store w).

(** A fresh process: new managers and a new context over a persistence and a
    backend. *)
Definition fresh_world {B} (p : persistence) (b : B) (c : clock) : world B :=
  mkWorld p b ∅ ∅ ∅ [] ∅ ∅ c empty_scheduler [] (mkScenarioMemory ∅ ∅) 0 0 false [].

Section world_programs.
Context {B : Type}.

(** [with self._persistence.transaction() as uow: body]. *)
Definition tx {A} (body : uprog A) : prog (world B) A :=
  focus w_store (λ p w, w <| w_store := p |>) (transaction None body).

(** [with self._persistence.transaction(owner_id=owner_id) as uow: body]. *)
Definition tx_as {A} (owner_id : string) (body : uprog A) : prog (world B) A :=
  focus w_store (λ p w, w <| w_store := p |>) (transaction (Some owner_id) body).

(** A reader of the persistence. *)
Definition reads {A} (f : state → A) : prog (world B) A := gets (λ w, f (durable_state w)).

(** [if o is None: raise e]. *)
Definition found {A} (o : option A) (e : exn) : prog (world B) A :=
  match o with Some a => mret a | None => raise e end.

(** A call of a backend method. *)
Definition on_backend {A} (m : prog B A) : prog (world B) A :=
  focus w_backend (λ b w, w <| w_backend := b |>) m.

(** [callback(argument)] for an optional callback of the caller. *)
Definition notify (callback : option string) (n : string → notice) : prog (world B) unit :=
  match callback with
  | Some c => modify (λ w, w <| w_log ::= λ l, (l ++ [n c])%list |>)
  | None => mret tt
  end.
End world_programs.

(** ** The protocols of [backends/base.py] *)

(** [run_until] calls the closures that fall due, in the order it chooses;
    [handler] is what a call does. *)
Class TemporalBackend (B : Type) := {
  now : B → datetime;
  run_until : (invocation → prog (world B) unit) → datetime → prog (world B) Z }.

(** Between the calls it makes, a backend changes only itself: a property of
    the world that does not look at the backend and that every call keeps, is
    kept by [run_until]. *)
Class TemporalBackendLaws (B : Type) `{TemporalBackend B} : Prop :=
  run_until_keeps (I : world B → Prop) handler at_ :
    (∀ b w, I w → I (w <| w_backend := b |>)) →
    (∀ i, keeps I (handler i)) →
    keeps I (run_until handler at_).

(** [schedule_at] of [RebuildBackend]; [key] is the identity of the call. *)
Class SchedulingBackend (B : Type) :=
  schedule_at : datetime → due_callback → Z → list pyobj → prog B unit.

Class ResourceBackend (B : Type) := {
  create_resource : string → Z → prog B unit;
  request_resource : string → string → Z → lease_callback → prog B unit;
  cancel_resource_request : string → prog B bool;
  release_resource : ResourceLease → prog B unit }.

Class PreemptiveResourceBackend (B : Type) := {
  create_preemptive_resource : string → Z → prog B unit;
  request_preemptive_resource : string → string → Z → bool → prog B unit;
  cancel_preemptive_resource_request : string → prog B bool;
  release_preemptive_resource : ResourceLease → prog B unit }.

Class ContainerBackend (B : Type) := {
  create_container : string → spec_float → spec_float → prog B unit;
  put_container : string → string → spec_float → container_callback → prog B unit;
  get_container : string → string → spec_float → container_callback → prog B unit }.

Class StoreBackend (B : Type) := {
  create_store : StoreKind → string → option Z → prog B unit;
  put_store : string → string → pyobj → Z → option stored_callback → prog B unit;
  get_store : string → string → option string → received_callback → prog B unit }.

(** ** Inverting runs of the managers *)

Section world_inversion.
Context {B : Type}.

Lemma reads_inv {A} (f : state → A) (w : world B) r w' :
  reads f w = (r, w') → r = Ok (f (durable_state w)) ∧ w' = w.
Proof. by intros [= <- <-]. Qed.

(** [set_state s w]: the world with [s] published. *)
Definition set_state (s : state) (w : world B) : world B :=
  w <| w_store ::= λ p, p <| mp_state := s |> |>.

Lemma set_state_same w : set_state (durable_state w) w = w.
Proof. by destruct w as [[]]. Qed.

Lemma tx_inv {A} (body : uprog A) (w : world B) r w' :
  tx body w = (r, w') →
  (∃ e, r = Err e ∧ w' = w)
  ∨ (∃ a u, body (begin_uow (durable_state w)) = (Ok a, u) ∧ r = Ok a
            ∧ w' = set_state (uow_working u) w).
Proof.
  unfold tx, focus. destruct (transaction None body (w_store w)) as [[a|e] p] eqn:E.
  - intros [= <- <-]. right. apply transaction_ok in E as (u & E & _ & ->). by exists a, u.
  - intros [= <- <-]. left. apply transaction_err in E as ->. exists e. by destruct w.
Qed.

(** Naming an owner only adds the check that the name is not empty. *)
Lemma tx_as_tx {A} owner_id (body : uprog A) (w : world B) :
  mp_read_only (w_store w) = true ∨ is_empty owner_id = false → tx_as owner_id body w = tx body w.
Proof.
  unfold tx_as, tx, focus, transaction. intros [-> | ->]; [done|]. by destruct (mp_read_only _).
Qed.

Lemma tx_as_empty {A} owner_id (body : uprog A) (w : world B) :
  mp_read_only (w_store w) = false → is_empty owner_id = true →
  tx_as owner_id body w = (Err (ValueError "owner_id must not be empty"), w).
Proof.
  unfold tx_as, focus, transaction. intros -> ->. by destruct w.
Qed.

(** A transaction on a writable store whose body returns a committable state. *)
Lemma tx_run {A} (body : uprog A) (w : world B) a u s :
  mp_read_only (w_store w) = false →
  body (begin_uow (durable_state w)) = (Ok a, u) → commit u = Ok s →
  tx body w = (Ok a, set_state s w).
Proof.
  unfold durable_state. intros Hro Hb Hc. unfold tx, focus, transaction.
  by rewrite Hro, Hb, Hc.
Qed.

(** A transaction whose body leaves the stores and containers alone commits. *)
Lemma tx_apart {A} (body : uprog A) (w : world B) a u :
  durable (durable_state w) → mp_read_only (w_store w) = false →
  body (begin_uow (durable_state w)) = (Ok a, u) →
  st_store_get_requests (uow_working u) = st_store_get_requests (durable_state w) →
  st_store_get_results (uow_working u) = st_store_get_results (durable_state w) →
  st_container_operation_intents (uow_working u) = st_container_operation_intents (durable_state w) →
  st_container_operation_results (uow_working u) = st_container_operation_results (durable_state w) →
  tx body w = (Ok a, set_state (uow_working u) w).
Proof.
  intros Hd Hro Hb E1 E2 E3 E4. eapply tx_run; [done|exact Hb|].
  apply commit_ok; [rewrite E1, E2|rewrite E3, E4]; apply Hd.
Qed.

Lemma found_inv {A} (o : option A) e (w : world B) r w' :
  found o e w = (r, w') → r = match o with Some a => Ok a | None => Err e end ∧ w' = w.
Proof. destruct o; by intros [= <- <-]. Qed.

(** A loop of backend calls is one backend program. *)
Lemma for_each_on_backend {A} (l : list A) (f : A → prog B unit) w :
  for_each l (λ x, on_backend (f x)) w = on_backend (for_each l f) w.
Proof.
  revert w. induction l as [|x l IH]; intros w; cbn.
  - by destruct w.
  - unfold mbind, prog_bind, on_backend, focus in *. destruct (f x (w_backend w)) as [[]]; [|done].
    rewrite IH. cbn. by destruct (for_each l f b).
Qed.

Lemma on_backend_bind {A C} (m : prog B A) (f : A → prog B C) (w : world B) :
  on_backend (m ≫= f) w = (on_backend m ≫= λ a, on_backend (f a)) w.
Proof.
  unfold mbind, prog_bind, on_backend, focus. destruct (m (w_backend w)) as [[a|e] b]; [|done].
  cbn. by destruct (f a b).
Qed.

Lemma sum_each_on_backend {A} (l : list A) (f : A → prog B Z) (w : world B) :
  sum_each l (λ x, on_backend (f x)) w = on_backend (sum_each l f) w.
Proof.
  revert w. induction l as [|x l IH]; intros w; cbn; [by destruct w|].
  rewrite on_backend_bind. apply run_bind_cong; [done|]. intros n w' _.
  rewrite on_backend_bind. apply run_bind_cong; [apply IH|]. intros m w1 _.
  unfold on_backend, focus. by destruct w1.
Qed.

Lemma on_backend_ret {A} (a : A) (w : world B) : on_backend (mret a) w = (Ok a, w).
Proof. by destruct w. Qed.

Lemma run_reads {A C} (g : state → A) (f : A → prog (world B) C) w :
  (reads g ≫= f) w = f (g (durable_state w)) w.
Proof. done. Qed.

Lemma run_found {A C} (a : A) e (f : A → prog (world B) C) w :
  (found (Some a) e ≫= f) w = f a w.
Proof. done. Qed.

Lemma run_found_none {A C} e (f : A → prog (world B) C) w :
  (found None e ≫= f) w = (Err e, w).
Proof. done. Qed.

Lemma on_backend_inv {A} (m : prog B A) (w : world B) r w' :
  on_backend m w = (r, w') → ∃ b, m (w_backend w) = (r, b) ∧ w' = w <| w_backend := b |>.
Proof. unfold on_backend, focus. destruct (m (w_backend w)) as [r1 b]. intros [= <- <-]. eauto. Qed.
End world_inversion.

#[export] Hint Rewrite @run_reads @run_found @run_found_none : run.

(** [persisted != value]. *)
Definition differs {A} (eqb : A → A → bool) (persisted : option A) (value : A) : bool :=
  match persisted with Some x => negb (eqb x value) | None => true end.

Lemma differs_false {A} `{EqDecision A} (o : option A) x : differs eqb_of o x = false → o = Some x.
Proof. destruct o as [y|]; cbn; [|done]. by intros ->%negb_false_iff%eqb_of_true. Qed.

Lemma differs_self {A} `{EqDecision A} (x : A) : differs eqb_of (Some x) x = false.
Proof. cbn. by rewrite (proj2 (eqb_of_true x x)). Qed.

(** Invert everything but transactions and backend calls. *)
Ltac inv_calls :=
  repeat (
    inv_step ||
    match goal with
    | H : reads _ _ = (_, _) |- _ => apply reads_inv in H as [??]; simplify_eq
    | H : found ?o _ _ = (_, _) |- _ =>
      apply found_inv in H as [??]; destruct o eqn:?; simplify_eq
    end).

Ltac inv_world :=
  repeat (
    progress inv_calls ||
    match goal with
    | H : tx _ _ = (_, _) |- _ =>
      apply tx_inv in H as [(? & ? & ?)|(? & ? & ? & ? & ?)]; simplify_eq
    | H : on_backend _ _ = (_, _) |- _ => apply on_backend_inv in H as (? & ? & ?); simplify_eq
    end).

(** ** Invariants of the durable state under the managers *)

Section world_invariants.
Context {B : Type}.

(** A property of the durable state, as a property of the world. *)
Definition stored (I : state → Prop) (w : world B) : Prop := I (durable_state w).

(** [I] is kept by every transaction. *)
Definition tx_stable (I : state → Prop) : Prop :=
  ∀ A (body : uprog A), uow_body body → keeps (stored I) (tx body).

(** A manager's own method changes the durable state by transactions only. *)
Definition by_transactions {A} (m : prog (world B) A) : Prop :=
  ∀ I, tx_stable I → keeps (stored I) m.

(** Calls of the backend and of the caller's callbacks leave it alone. *)
Lemma on_backend_stored {A} (m : prog B A) I : keeps (stored I) (on_backend m).
Proof. intros w Hw. unfold on_backend, focus. by destruct (m (w_backend w)). Qed.

Lemma notify_stored c n I : keeps (stored I) (notify c n).
Proof. intros w Hw. destruct c; exact Hw. Qed.

(** A program that keeps every property of the durable state leaves it alone. *)
Lemma stored_same {A} (m : prog (world B) A) w r w' :
  (∀ I, keeps (stored I) m) → m w = (r, w') → durable_state w' = durable_state w.
Proof.
  intros Hm E. specialize (Hm (λ s, s = durable_state w) w eq_refl). by rewrite E in Hm.
Qed.

Lemma reads_stored {A} (f : state → A) I : keeps (stored I) (reads f).
Proof. apply keeps_gets. Qed.

Lemma found_stored {A} (o : option A) e I : keeps (stored I) (found o e).
Proof. intros w Hw. destruct o; exact Hw. Qed.

Lemma durable_tx_stable : tx_stable durable.
Proof.
  intros A body Hb w Hw. unfold tx, focus.
  pose proof (transaction_keeps None body Hb (w_store w) Hw) as H.
  by destruct (transaction None body (w_store w)).
Qed.

(** What every operation of a unit of work keeps, every transaction keeps. *)
Lemma op_tx_stable (I : state → Prop) :
  (∀ m, uow_op m → keeps (λ u, I (uow_working u)) m) → tx_stable I.
Proof.
  intros Hop A body Hb w Hw. unfold tx, focus.
  pose proof (uow_body_keeps _ _ _ Hop Hb (begin_uow (mp_state (w_store w))) Hw) as Hu.
  destruct (transaction None body (w_store w)) as [[a|e] p] eqn:E.
  - apply transaction_ok in E as (u & E & _ & ->). by rewrite E in Hu.
  - by apply transaction_err in E as ->.
Qed.

Lemma bt_tx {A} (body : uprog A) : uow_body body → by_transactions (tx body).
Proof. intros Hb I HI. by apply HI. Qed.

Lemma bt_reads {A} (f : state → A) : by_transactions (reads f).
Proof. intros I _. apply keeps_gets. Qed.

Lemma bt_gets {A} (f : world B → A) : by_transactions (gets f).
Proof. intros I _. apply keeps_gets. Qed.

Lemma bt_on_backend {A} (m : prog B A) : by_transactions (on_backend m).
Proof. intros I _ w Hw. unfold on_backend, focus. by destruct (m (w_backend w)). Qed.

Lemma bt_modify f :
  (∀ w : world B, durable_state (f w) = durable_state w) → by_transactions (modify f).
Proof. intros H I _ w Hw. unfold stored. cbn. by rewrite H. Qed.

Lemma bt_notify c n : by_transactions (notify c n).
Proof. destruct c; [by apply bt_modify|]. intros I _. apply keeps_ret. Qed.

Lemma bt_ret {A} (a : A) : by_transactions (mret a).
Proof. intros I _. apply keeps_ret. Qed.

Lemma bt_raise {A} e : by_transactions (raise (A:=A) e).
Proof. intros I _. apply keeps_raise. Qed.

Lemma bt_raise_if b e : by_transactions (raise_if b e).
Proof. intros I _. apply keeps_raise_if. Qed.

Lemma bt_lift {A} (r : res A) : by_transactions (lift r).
Proof. intros I _. apply keeps_lift. Qed.

Lemma bt_bind {A C} (m : prog (world B) A) (f : A → prog (world B) C) :
  by_transactions m → (∀ a, by_transactions (f a)) → by_transactions (m ≫= f).
Proof. intros Hm Hf I HI. apply keeps_bind; [by apply Hm|intros a; by apply Hf]. Qed.

Lemma bt_if {A} (b : bool) (m1 m2 : prog (world B) A) :
  by_transactions m1 → by_transactions m2 → by_transactions (if b then m1 else m2).
Proof. by destruct b. Qed.

Lemma bt_option {A C} (o : option A) (f : A → prog (world B) C) g :
  (∀ a, by_transactions (f a)) → by_transactions g →
  by_transactions (match o with Some a => f a | None => g end).
Proof. by destruct o. Qed.

Lemma bt_found {A} (o : option A) e : by_transactions (found o e).
Proof. destruct o; [apply bt_ret|apply bt_raise]. Qed.

Lemma bt_for_each {A} (l : list A) (f : A → prog (world B) unit) :
  (∀ a, by_transactions (f a)) → by_transactions (for_each l f).
Proof. intros Hf I HI. apply keeps_for_each. intros a. by apply Hf. Qed.

Lemma bt_sum_each {A} (l : list A) (f : A → prog (world B) Z) :
  (∀ a, by_transactions (f a)) → by_transactions (sum_each l f).
Proof. intros Hf I HI. apply keeps_sum_each. intros a. by apply Hf. Qed.

Lemma bt_run_until `{TemporalBackendLaws B} handler at_ :
  (∀ i, by_transactions (handler i)) → by_transactions (run_until handler at_).
Proof. intros Hh I HI. apply run_until_keeps; [done|]. intros i. by apply Hh. Qed.
End world_invariants.

(** A transaction in the name of an owner. *)
Lemma bt_tx_as {B A} owner_id (body : uprog A) : uow_body body → by_transactions (B:=B) (tx_as owner_id body).
Proof.
  intros Hb I HI w Hw. destruct (mp_read_only (w_store w)) eqn:Hro; [|destruct (is_empty owner_id) eqn:Ho].
  - rewrite tx_as_tx by auto. by apply bt_tx.
  - by rewrite tx_as_empty.
  - rewrite tx_as_tx by auto. by apply bt_tx.
Qed.

Lemma body_collect {A C} (l : list A) (f : A → uprog (list C)) :
  (∀ x, uow_body (f x)) → uow_body (collect l f).
Proof.
  intros Hf. induction l as [|x l IH]; [apply body_ret|]. cbn. apply body_bind; [done|]. intros ys.
  apply body_bind; [done|]. intros zs. apply body_ret.
Qed.

Lemma bt_collect {B A C} (l : list A) (f : A → prog (world B) (list C)) :
  (∀ x, by_transactions (f x)) → by_transactions (collect l f).
Proof. intros Hf I HI. apply keeps_collect. intros x. by apply Hf. Qed.

Lemma body_if {A} (b : bool) (m1 m2 : uprog A) :
  uow_body m1 → uow_body m2 → uow_body (if b then m1 else m2).
Proof. by destruct b. Qed.

Lemma body_option {A C} (o : option A) (f : A → uprog C) g :
  (∀ a, uow_body (f a)) → uow_body g → uow_body (match o with Some a => f a | None => g end).
Proof. by destruct o. Qed.

(** No program makes a writable store a read view. *)
Definition writable {B} (w : world B) : Prop := mp_read_only (w_store w) = false.

Lemma focus_store_writable {B A} owner_id (body : uprog A) :
  keeps (writable (B:=B)) (focus w_store (λ p w, w <| w_store := p |>) (transaction owner_id body)).
Proof.
  intros w Hw. unfold focus, transaction, writable in *. cbv beta. rewrite Hw.
  destruct (match owner_id with Some o => is_empty o | None => false end); [done|].
  destruct (body _) as [[a|e] u]; cbn; [|done]. by destruct (commit u).
Qed.

Lemma tx_writable {B A} (body : uprog A) : keeps (writable (B:=B)) (tx body).
Proof. apply focus_store_writable. Qed.

Lemma tx_as_writable {B A} owner_id (body : uprog A) : keeps (writable (B:=B)) (tx_as owner_id body).
Proof. apply focus_store_writable. Qed.

Lemma on_backend_writable {B A} (m : prog B A) : keeps writable (on_backend m).
Proof. intros w Hw. unfold on_backend, focus. by destruct (m (w_backend w)). Qed.

Lemma reads_writable {B A} (f : state → A) : keeps (writable (B:=B)) (reads f).
Proof. apply keeps_gets. Qed.

#[export] Hint Resolve on_backend_stored notify_stored reads_stored found_stored
  tx_writable tx_as_writable on_backend_writable reads_writable : keeps.

Create HintDb bt discriminated.
#[global] Hint Constants Opaque : bt.
#[export] Hint Resolve bt_tx bt_reads bt_gets bt_on_backend bt_notify bt_ret bt_raise bt_raise_if
  bt_lift bt_bind bt_if bt_option bt_found bt_for_each bt_sum_each bt_run_until bt_tx_as bt_collect : bt.
#[export] Hint Resolve body_ret body_raise body_raise_if body_lift body_gets body_op body_bind body_if
  body_option body_collect : bt.
#[export] Hint Constructors uow_op : bt.

(** Discharge [by_transactions] and [uow_body] goals structurally. *)
Ltac solve_bt :=
  repeat match goal with
  | |- ∀ _, _ => intros
  | |- by_transactions (match ?x with _ => _ end) => destruct x
  | |- uow_body (match ?x with _ => _ end) => destruct x
  | |- by_transactions (_ ≫= _) => apply bt_bind
  | |- uow_body (_ ≫= _) => apply body_bind
  | |- by_transactions (for_each _ _) => apply bt_for_each
  | |- by_transactions (sum_each _ _) => apply bt_sum_each
  | |- by_transactions (modify _) => apply bt_modify; reflexivity
  | |- by_transactions (tx _) => apply bt_tx
  | |- by_transactions (tx_as _ _) => apply bt_tx_as
  | |- by_transactions (collect _ _) => apply bt_collect
  | |- uow_body (collect _ _) => apply body_collect
  | |- _ => solve [auto with bt]
  | |- by_transactions (let _ := _ in _) => cbv zeta
  end.

(** Discharge [keeps] goals structurally. *)
Ltac solve_keeps :=
  repeat match goal with
  | |- ∀ _, _ => intros
  | |- keeps _ (match ?x with _ => _ end) => destruct x
  | |- keeps _ (_ ≫= _) => apply keeps_bind
  | |- keeps _ (for_each _ _) => apply keeps_for_each
  | |- keeps _ (sum_each _ _) => apply keeps_sum_each
  | |- keeps _ (let _ := _ in _) => cbv zeta
  | |- _ => solve [auto with keeps]
  | |- keeps _ (modify _) => apply keeps_modify; intros; assumption
  end.
