(* ===== verification/QueueBackend.v ===== *)
(** * A concrete backend

    An instance of the backend protocols of World: unlimited capacity, first in
    first out, every request granted at the next [run_until].  The theorems hold
    for any backend; this one runs their witnesses. *)
From S2P Require Import Prelude Encoding Records Memory MemoryFacts World.
Open Scope string_scope.
Open Scope Z_scope.

Record queue_backend := mkQueueBackend {
  qb_now : datetime;
  qb_queue : list invocation;
  qb_items : list StoreItem }.
#[export] Instance queue_backend_eta : Eta queue_backend := λ b,
  mkQueueBackend (qb_now b) (qb_queue b) (qb_items b).

Definition new_queue_backend (origin : datetime) : queue_backend := mkQueueBackend origin [] [].

Definition enqueue (i : invocation) : prog queue_backend unit :=
  modify (λ b, b <| qb_queue ::= λ q, (q ++ [i])%list |>).

Definition queue_lease (request_id name : string) (b : queue_backend) : ResourceLease :=
  mkResourceLease ("lease:" +:+ request_id) request_id name (qb_now b).

(** Drain the queue, at most [fuel] calls. *)
Fixpoint drain (fuel : nat) (handler : invocation → prog (world queue_backend) unit) :
    prog (world queue_backend) Z :=
  match fuel with
  | O => mret 0
  | S fuel =>
    queue ← gets (λ w, qb_queue (w_backend w)) ;
    match queue with
    | [] => mret 0
    | i :: q =>
      modify (λ w, w <| w_backend ::= λ b, b <| qb_queue := q |> |>) ;;
      handler i ;;
      n ← drain fuel handler ;
      mret (n + 1)
    end
  end.

#[export] Instance queue_temporal : TemporalBackend queue_backend := {
  now := qb_now;
  run_until handler at_ :=
    n ← drain 1000 handler ;
    modify (λ w, w <| w_backend ::= λ b, b <| qb_now ::= Z.max at_ |> |>) ;;
    mret n }.

#[export] Instance queue_temporal_laws : TemporalBackendLaws queue_backend.
Proof.
  intros I handler at_ HI Hh. cbn [run_until queue_temporal].
  apply keeps_bind.
  - generalize 1000%nat as fuel. induction fuel as [|fuel IH]; cbn [drain]; [apply keeps_ret|].
    apply keeps_bind; [apply keeps_gets|intros [|i q]; [apply keeps_ret|]].
    apply keeps_bind; [|intros _; apply keeps_bind; [apply Hh|intros _]].
    + apply keeps_modify. intros w. apply HI.
    + apply keeps_bind; [done|intros n; apply keeps_ret].
  - intros n. apply keeps_bind; [|intros _; apply keeps_ret].
    apply keeps_modify. intros w. apply HI.
Qed.

#[export] Instance queue_scheduling : SchedulingBackend queue_backend :=
  λ at_ callback priority key, enqueue (Due callback).

#[export] Instance queue_resources : ResourceBackend queue_backend := {
  create_resource name capacity := mret tt;
  request_resource name request_id priority cb :=
    lease ← gets (queue_lease request_id name) ; enqueue (Acquired cb lease);
  cancel_resource_request request_id := mret true;
  release_resource lease := mret tt }.

#[export] Instance queue_preemptive : PreemptiveResourceBackend queue_backend := {
  create_preemptive_resource name capacity := mret tt;
  request_preemptive_resource name request_id priority preempt :=
    lease ← gets (queue_lease request_id name) ; enqueue (PreemptiveAcquired request_id lease);
  cancel_preemptive_resource_request request_id := mret true;
  release_preemptive_resource lease := mret tt }.

#[export] Instance queue_containers : ContainerBackend queue_backend := {
  create_container name capacity initial := mret tt;
  put_container name request_id amount cb := enqueue (Completed cb);
  get_container name request_id amount cb := enqueue (Completed cb) }.

#[export] Instance queue_stores : StoreBackend queue_backend := {
  create_store kind name capacity := mret tt;
  put_store name item_id value priority cb :=
    modify (λ b, b <| qb_items ::= λ l, (l ++ [mkStoreItem item_id name value priority])%list |>) ;;
    match cb with Some cb => enqueue (Stored cb) | None => mret tt end;
  get_store name request_id filter_key cb :=
    items ← gets qb_items ;
    match find_first (λ i, eqb_of (sitem_store_name i) name) items with
    | Some i =>
      modify (λ b, b <| qb_items ::=
                filter (λ j, sitem_item_id j ≠ sitem_item_id i) |>) ;;
      enqueue (Received cb i)
    | None => mret tt
    end }.

(** A process started on an empty store. *)
Definition new_process : world queue_backend :=
  fresh_world (mkPersistence empty_state false) (new_queue_backend 0) (mkClock 0 1000000 0).

(** A digest for the witnesses: the name itself. *)
Definition plain_uuid5 : Uuid5 := λ name, "uuid5:" +:+ name.
