(* ===== verification/Scenarios.v ===== *)
(** * Scenarios

    [src/src/sose/scenarios/]: [ScenarioEngine], the external conditions that
    activate effects for a while.  A condition is the domain's code: a function
    of the signal and of the world that may raise. *)
From S2P Require Import Prelude Encoding Randomness Records Memory MemoryFacts World QueueBackend.
Open Scope string_scope.
Open Scope Z_scope.

(** ** [scenarios/model.py] *)

Inductive ScenarioSignalKind := TICK | EVENT.
#[export] Instance ScenarioSignalKind_eq_dec : EqDecision ScenarioSignalKind.
Proof. solve_decision. Defined.

Record ScenarioSignal := mkScenarioSignal {
  sig_kind : ScenarioSignalKind;
  sig_now : datetime;
  sig_tick : Z;
  sig_event : option DomainEvent }.

Inductive ScenarioTrigger :=
  | TickTrigger (every offset : Z)
  | EventTrigger (event entity_type : option string)
  | ScheduledTrigger (at_ : datetime).

Definition TickTrigger_new (every offset : Z) : res ScenarioTrigger :=
  fail_if (every <? 1) (ValueError "tick trigger every must be >= 1") ;;
  fail_if (offset <? 0) (ValueError "tick trigger offset cannot be negative") ;;
  mret (TickTrigger every offset).

Definition matches (trigger : ScenarioTrigger) (signal : ScenarioSignal) : bool :=
  match trigger with
  | TickTrigger every offset =>
    eqb_of (sig_kind signal) TICK && (offset <=? sig_tick signal)
      && ((sig_tick signal - offset) mod every =? 0)
  | EventTrigger event entity_type =>
    match sig_kind signal, sig_event signal with
    | EVENT, Some e =>
      match event with Some name => eqb_of (ev_name e) name | None => true end
        && match entity_type with Some t => eqb_of (ev_entity_type e) t | None => true end
    | _, _ => false
    end
  | ScheduledTrigger at_ => eqb_of (sig_kind signal) TICK && (at_ <=? sig_now signal)
  end.

Definition key (trigger : ScenarioTrigger) (signal : ScenarioSignal) : res (list pyobj) :=
  match trigger with
  | TickTrigger _ _ => Ok [PStr "tick"; PInt (sig_tick signal)]
  | EventTrigger _ _ =>
    match sig_event signal with
    | Some e => Ok [PStr "event"; PStr (ev_event_id e)]
    | None => Err (ValueError "event trigger requires an event signal")
    end
  | ScheduledTrigger at_ => Ok [PStr "scheduled"; PDatetime at_]
  end.

Definition AttributeEffect_new (k : string) (value : pyobj) : res ScenarioEffect :=
  fail_if (is_empty k) (ValueError "attribute effect key cannot be empty") ;;
  mret (AttributeEffect k value).

Definition TransitionWeightEffect_new (event : string) (multiplier : spec_float)
    (entity_type : option string) : res ScenarioEffect :=
  fail_if (is_empty event) (ValueError "transition weight effect event cannot be empty") ;;
  fail_if (not_nonneg_finite multiplier)
    (ValueError "transition weight multiplier must be finite and >= 0") ;;
  fail_if (eqb_of entity_type (Some "")) (ValueError "entity_type cannot be empty") ;;
  mret (TransitionWeightEffect event multiplier entity_type).

Definition CompositeEffect_new (effects : list ScenarioEffect) : res ScenarioEffect :=
  fail_if (match effects with [] => true | _ => false end)
    (ValueError "composite effect cannot be empty") ;;
  mret (CompositeEffect effects).

Fixpoint leaves (effect : ScenarioEffect) : list ScenarioEffect :=
  match effect with
  | CompositeEffect effects => flat_map leaves effects
  | _ => [effect]
  end.

Definition iter_leaf_effects (effects : list ScenarioEffect) : list ScenarioEffect :=
  flat_map leaves effects.

Record Scenario (B : Type) := mkScenario {
  sc_name : string;
  sc_trigger : ScenarioTrigger;
  sc_effects : list ScenarioEffect;
  sc_condition : option (ScenarioSignal → world B → res bool);
  sc_probability : spec_float;
  sc_duration : option Z;
  sc_priority : Z;
  sc_allow_reentry : bool }.
Arguments mkScenario {B}.
Arguments sc_name {B}.
Arguments sc_trigger {B}.
Arguments sc_effects {B}.
Arguments sc_condition {B}.
Arguments sc_probability {B}.
Arguments sc_duration {B}.
Arguments sc_priority {B}.
Arguments sc_allow_reentry {B}.

Definition Scenario_new {B} (name : string) (trigger : ScenarioTrigger) (effects : list ScenarioEffect)
    (condition : option (ScenarioSignal → world B → res bool)) (probability : spec_float)
    (duration : option Z) (priority : Z) (allow_reentry : bool) : res (Scenario B) :=
  fail_if (is_empty name) (ValueError "scenario name cannot be empty") ;;
  fail_if (match effects with [] => true | _ => false end)
    (ValueError "scenario must define at least one effect") ;;
  fail_if (negb (isfinite probability) || negb (fle fzero probability && fle probability fone))
    (ValueError "activation_probability must be finite and between 0 and 1") ;;
  fail_if (match duration with Some d => d <=? 0 | None => false end)
    (ValueError "scenario duration must be positive") ;;
  mret (mkScenario name trigger effects condition probability duration priority allow_reentry).

(** ** [ScenarioEngine] *)

(** [register]: [self._scenarios], by name. *)
Definition register {B} (scenarios : gmap string (Scenario B)) (scenario : Scenario B) :
    res (gmap string (Scenario B)) :=
  fail_if (present (sc_name scenario) scenarios)
    (ValueError ("scenario already registered: " +:+ sc_name scenario)) ;;
  mret (<[sc_name scenario := scenario]> scenarios).

Fixpoint register_many {B} (scenarios : gmap string (Scenario B)) (l : list (Scenario B)) :
    res (gmap string (Scenario B)) :=
  match l with
  | [] => Ok scenarios
  | x :: l => next ← register scenarios x ; register_many next l
  end.

(** [_ordered_activations], [decisions]: by key. *)
Definition _ordered_activations (m : scenario_memory) : list ScenarioActivation :=
  sorted_values (sm_activations m).
Definition decisions (m : scenario_memory) : list ScenarioDecision := sorted_values (sm_decisions m).

(** [expires_at is not None and expires_at <= now]. *)
Definition expired (now : datetime) (a : ScenarioActivation) : bool :=
  match act_expires_at a with Some e => e <=? now | None => false end.

Definition active_activations (m : scenario_memory) (now : datetime) : list ScenarioActivation :=
  filter (λ a, expired now a = false) (_ordered_activations m).

Definition snapshot_state (m : scenario_memory) : ScenarioRuntimeState :=
  mkScenarioRuntimeState (decisions m) (_ordered_activations m).

(** [{f(x): x for x in l}]: the last value of a key wins. *)
Definition by_key {A} (f : A → string) (l : list A) : gmap string A :=
  foldl (λ m x, <[f x := x]> m) ∅ l.

Definition restored (st : option ScenarioRuntimeState) : scenario_memory :=
  match st with
  | None => mkScenarioMemory ∅ ∅
  | Some st => mkScenarioMemory (by_key dec_attempt_id (scn_decisions st))
                 (by_key act_activation_id (scn_activations st))
  end.

Definition pop_all (ids : list string) (m : gmap string ScenarioActivation) :
    gmap string ScenarioActivation := foldl (λ m k, delete k m) m ids.

Section engine.
Context {B : Type} `{!Uuid5, !Blake2b, !MersenneTwister}.
Context (root_seed : Z) (scenarios : gmap string (Scenario B)).
Abbreviation P := (prog (world B)).

Definition restore_state (st : option ScenarioRuntimeState) : P unit :=
  modify (λ w, w <| w_scenarios := restored st |>).

Definition expire_due (now : datetime) : P (list ScenarioActivation) :=
  gone ← gets (λ w, filter (λ a, expired now a = true) (_ordered_activations (w_scenarios w))) ;
  modify (λ w, w <| w_scenarios ::= λ m, m <| sm_activations ::= pop_all (act_activation_id <$> gone) |> |>) ;;
  mret gone.

Definition _scenario_attempt_id (scenario : Scenario B) (trigger_key : list pyobj) : string :=
  deterministic_id "scenario-attempt" (PStr (sc_name scenario) :: trigger_key).

Definition _is_scenario_active (name : string) : P bool :=
  gets (λ w, any_value (λ a, eqb_of (act_scenario_name a) name) (sm_activations (w_scenarios w))).

Definition _inactive_decision (attempt_id : string) (scenario : Scenario B) (reason : string) :
    ScenarioDecision :=
  mkScenarioDecision attempt_id (sc_name scenario) false (sc_probability scenario) None reason None.

Definition _store_decision (decision : ScenarioDecision) : P (list ScenarioDecision) :=
  modify (λ w, w <| w_scenarios ::= λ m, m <| sm_decisions ::= <[dec_attempt_id decision := decision]> |> |>) ;;
  mret [decision].

(** The activation a selected attempt creates. *)
Definition activation_of (scenario : Scenario B) (signal : ScenarioSignal) (attempt_id : string)
    (trigger_key : list pyobj) : ScenarioActivation :=
  mkScenarioActivation (deterministic_id "scenario-activation" [PStr attempt_id])
    (sc_name scenario) (sig_now signal) (Z.add (sig_now signal) <$> sc_duration scenario)
    (sc_priority scenario) (sc_effects scenario) trigger_key
    (ev_event_id <$> sig_event signal)
    (match sig_event signal with
     | Some e => match ev_correlation_id e with
                 | Some c => if is_empty c then Some (ev_event_id e) else Some c
                 | None => Some (ev_event_id e)
                 end
     | None => None
     end).

Definition activation_draw (scenario : Scenario B) (trigger_key : list pyobj) : spec_float :=
  RandomSource_random root_seed (PStr "scenario-activation" :: PStr (sc_name scenario) :: trigger_key).

Definition _activate_scenario_if_selected (scenario : Scenario B) (signal : ScenarioSignal)
    (attempt_id : string) (trigger_key : list pyobj) :
    P (bool * spec_float * string * option string) :=
  let draw := activation_draw scenario trigger_key in
  if negb (flt draw (sc_probability scenario)) then mret (false, draw, "probability_miss", None) else
  let activation := activation_of scenario signal attempt_id trigger_key in
  modify (λ w, w <| w_scenarios ::= λ m,
            m <| sm_activations ::= <[act_activation_id activation := activation]> |> |>) ;;
  mret (true, draw, "activated", Some (act_activation_id activation)).

(** One turn of the loop of [evaluate]: the decisions it appends. *)
Definition evaluate_scenario (signal : ScenarioSignal) (scenario : Scenario B) :
    P (list ScenarioDecision) :=
  if negb (matches (sc_trigger scenario) signal) then mret [] else
  trigger_key ← lift (key (sc_trigger scenario) signal) ;
  let attempt_id := _scenario_attempt_id scenario trigger_key in
  previous ← gets (λ w, sm_decisions (w_scenarios w) !! attempt_id) ;
  match previous with
  | Some previous => mret [previous]
  | None =>
    running ← _is_scenario_active (sc_name scenario) ;
    if negb (sc_allow_reentry scenario) && running
    then _store_decision (_inactive_decision attempt_id scenario "already_active") else
    w ← gets (λ w, w) ;
    met ← match sc_condition scenario with
          | Some condition => lift (condition signal w)
          | None => mret true
          end ;
    if negb met
    then _store_decision (_inactive_decision attempt_id scenario "condition_false") else
    outcome ← _activate_scenario_if_selected scenario signal attempt_id trigger_key ;
    let '(activated, draw, reason, activation_id) := outcome in
    _store_decision (mkScenarioDecision attempt_id (sc_name scenario) activated
                       (sc_probability scenario) (Some draw) reason activation_id)
  end.

Definition evaluation_order : list (Scenario B) :=
  values_on (λ s, (sc_priority s, sc_name s)) scenarios.

Definition evaluate (signal : ScenarioSignal) : P (list ScenarioDecision) :=
  expire_due (sig_now signal) ;;
  collect evaluation_order (evaluate_scenario signal).

Definition on_tick : P (list ScenarioDecision) :=
  c ← gets w_clock ;
  evaluate (mkScenarioSignal TICK (clk_now c) (clk_tick c) None).

Definition on_event (event : DomainEvent) : P (list ScenarioDecision) :=
  c ← gets w_clock ;
  evaluate (mkScenarioSignal EVENT (clk_now c) (clk_tick c) (Some event)).
End engine.

(** *** Effects *)

(** [min(l, key=f)]: the first element with the least key. *)
Definition min_on {A K} `{PyOrd K} (f : A → K) (l : list A) : option A := head (sort_on f l).

Definition _attribute_matches (m : scenario_memory) (now : datetime) (k : string) :
    list (ScenarioActivation * pyobj) :=
  flat_map (λ a, flat_map (λ e,
      match e with
      | AttributeEffect k' v => if eqb_of k' k then [(a, v)] else []
      | _ => []
      end) (iter_leaf_effects (act_effects a))) (active_activations m now).

Definition _lowest_priority_matches (l : list (ScenarioActivation * pyobj)) :
    list (ScenarioActivation * pyobj) :=
  match min_on (λ x, act_priority x.1) l with
  | Some best => filter (λ x, act_priority x.1 = act_priority best.1) l
  | None => []
  end.

Definition _latest_activation_matches (l : list (ScenarioActivation * pyobj)) :
    list (ScenarioActivation * pyobj) :=
  match min_on (λ x, - act_activated_at x.1) l with
  | Some latest => filter (λ x, act_activated_at x.1 = act_activated_at latest.1) l
  | None => []
  end.

Definition attribute (m : scenario_memory) (now : datetime) (k : string) (dflt : pyobj) : pyobj :=
  match _attribute_matches m now k with
  | [] => dflt
  | l =>
    match min_on (λ x, act_activation_id x.1)
            (_latest_activation_matches (_lowest_priority_matches l)) with
    | Some x => x.2
    | None => dflt
    end
  end.

Definition transition_weight_multiplier (m : scenario_memory) (now : datetime)
    (entity_type event : string) : spec_float :=
  foldl fmul fone
    (flat_map (λ a, flat_map (λ e,
        match e with
        | TransitionWeightEffect ev multiplier t =>
          if eqb_of ev event
             && match t with Some t => eqb_of t entity_type | None => true end
          then [multiplier] else []
        | _ => []
        end) (iter_leaf_effects (act_effects a))) (active_activations m now)).

Definition transform_transition_weight (m : scenario_memory) (now : datetime)
    (entity_type event : string) (base_weight : spec_float) : spec_float :=
  fmul base_weight (transition_weight_multiplier m now entity_type event).

(** ** Facts *)

(** The memory is keyed by the identities of its records. *)
Definition wf_memory (m : scenario_memory) : Prop :=
  keyed dec_attempt_id (sm_decisions m) ∧ keyed act_activation_id (sm_activations m).

Lemma by_key_lookup {A} (f : A → string) l k x :
  NoDup (f <$> l) → by_key f l !! k = Some x ↔ x ∈ l ∧ f x = k.
Proof.
  induction l as [|y l IH] using rev_ind; [cbn; set_solver|].
  rewrite fmap_app, NoDup_app. intros (Hl & Hy & _). unfold by_key in *. rewrite foldl_app. cbn.
  rewrite lookup_insert_Some, IH, elem_of_app, list_elem_of_singleton by done. split.
  - intros [[<- <-]|(Hne & Hx & <-)]; auto.
  - intros [[Hx| ->] <-]; [|by left]. right. split; [|done]. intros E.
    apply (Hy (f x)); [by apply list_elem_of_fmap_2|]. rewrite <-E. by constructor.
Qed.

Lemma by_key_values {A} (f : A → string) (m : gmap string A) :
  keyed f m → by_key f (sorted_values m) = m.
Proof.
  intros Hm. apply map_eq. intros k. apply option_eq. intros x.
  rewrite by_key_lookup by by apply NoDup_sorted_values.
  rewrite elem_of_sorted_values. split.
  - intros [[j Hj] <-]. by rewrite (Hm _ _ Hj).
  - intros Hk. split; [by exists k|]. by apply Hm.
Qed.

Lemma pop_all_lookup ids m k a :
  pop_all ids m !! k = Some a ↔ m !! k = Some a ∧ k ∉ ids.
Proof.
  unfold pop_all. revert m. induction ids as [|i ids IH]; intros m; cbn; [set_solver|].
  rewrite IH, lookup_delete_Some, not_elem_of_cons. naive_solver.
Qed.

Lemma filter_all_none {A} (f : A → bool) (l : list A) :
  (∀ x, x ∈ l → f x = false) → filter (λ x, f x = true) l = [].
Proof. intros H. apply filter_none. intros x Hx. rewrite (H x Hx). done. Qed.

Section evaluation.
Context {B : Type} `{!Uuid5, !Blake2b, !MersenneTwister}.
Context (root_seed : Z) (scenarios : gmap string (Scenario B)).
Implicit Types (w : world B) (sc : Scenario B).
Abbreviation mem w := (w_scenarios w).

(** [self._decisions[id] = d]. *)
Definition with_decision (d : ScenarioDecision) (m : scenario_memory) : scenario_memory :=
  m <| sm_decisions ::= <[dec_attempt_id d := d]> |>.
Definition with_activation (a : ScenarioActivation) (m : scenario_memory) : scenario_memory :=
  m <| sm_activations ::= <[act_activation_id a := a]> |>.

(** What one turn of the loop does to the memory, and the decisions it gives. *)
Inductive turn (signal : ScenarioSignal) sc (m : scenario_memory) :
    list ScenarioDecision → scenario_memory → Prop :=
  | turn_skipped :
      matches (sc_trigger sc) signal = false → turn signal sc m [] m
  | turn_replayed tk d :
      matches (sc_trigger sc) signal = true → key (sc_trigger sc) signal = Ok tk →
      sm_decisions m !! _scenario_attempt_id sc tk = Some d →
      turn signal sc m [d] m
  | turn_declined tk d :
      matches (sc_trigger sc) signal = true → key (sc_trigger sc) signal = Ok tk →
      sm_decisions m !! _scenario_attempt_id sc tk = None →
      dec_attempt_id d = _scenario_attempt_id sc tk → dec_activated d = false →
      turn signal sc m [d] (with_decision d m)
  | turn_activated tk d a :
      matches (sc_trigger sc) signal = true → key (sc_trigger sc) signal = Ok tk →
      sm_decisions m !! _scenario_attempt_id sc tk = None →
      sc_allow_reentry sc = true
      ∨ any_value (λ a, eqb_of (act_scenario_name a) (sc_name sc)) (sm_activations m) = false →
      a = activation_of sc signal (_scenario_attempt_id sc tk) tk →
      flt (activation_draw root_seed sc tk) (sc_probability sc) = true →
      d = mkScenarioDecision (_scenario_attempt_id sc tk) (sc_name sc) true (sc_probability sc)
            (Some (activation_draw root_seed sc tk)) "activated" (Some (act_activation_id a)) →
      turn signal sc m [d] (with_decision d (with_activation a m)).

Lemma evaluate_scenario_turn signal sc w r w' :
  evaluate_scenario root_seed signal sc w = (r, w') →
  (∃ ds m, r = Ok ds ∧ w' = w <| w_scenarios := m |> ∧ turn signal sc (mem w) ds m)
  ∨ (∃ e, r = Err e ∧ w' = w).
Proof.
  unfold evaluate_scenario, _is_scenario_active, _store_decision, _activate_scenario_if_selected.
  intros Hrun. destruct (matches (sc_trigger sc) signal) eqn:Hm; cbn [negb] in Hrun.
  2:{ injection Hrun as <- <-. left. exists [], (mem w). split_and!; [done|by destruct w|by constructor]. }
  inv_prog.
  all: try (right; eexists; done).
  all: left; match goal with |- ∃ ds m, _ ∧ ?v = _ ∧ _ => eexists _, (w_scenarios v) end.
  all: (split; [done|]); (split; [by destruct w|]); cbn.
  all: repeat match goal with H : Ok _ = key _ _ |- _ => symmetry in H end.
  all: repeat match goal with
    | H : negb _ = true |- _ => apply negb_true_iff in H
    | H : negb _ = false |- _ => apply negb_false_iff in H end.
  all: try (by eapply turn_replayed); try (by eapply turn_declined).
  all: apply andb_false_iff in Heqb as [Hb%negb_false_iff|Hb];
    eapply turn_activated; try done; auto.
Qed.

(** Decisions only accumulate. *)
Definition decided w w' : Prop := sm_decisions (mem w) ⊆ sm_decisions (mem w').

#[export] Instance decided_preorder : PreOrder decided.
Proof. split; [intros w; by unfold decided|]. intros w1 w2 w3. unfold decided. apply transitivity. Qed.

(** A turn done once is only replayed afterwards. *)
Lemma turn_replay signal sc w ds w' :
  evaluate_scenario root_seed signal sc w = (Ok ds, w') →
  decided w w' ∧ ∀ v, decided w' v → evaluate_scenario root_seed signal sc v = (Ok ds, v).
Proof.
  intros Hrun. apply evaluate_scenario_turn in Hrun as [(ds' & m & [= <-] & -> & Ht)|(e & ? & _)]; [|done].
  assert (matches (sc_trigger sc) signal = false ∧ ds = [] ∧ m = mem w ∨
    ∃ tk d, matches (sc_trigger sc) signal = true ∧ key (sc_trigger sc) signal = Ok tk ∧ ds = [d] ∧
            sm_decisions m !! _scenario_attempt_id sc tk = Some d ∧ sm_decisions (mem w) ⊆ sm_decisions m)
    as [(Hm & -> & ->)|(tk & d & Hm & Hk & -> & Hd & Hsub)].
  { destruct Ht as [|tk d|tk d Hm Hk Hn Hid|tk d a Hm Hk Hn _ _ _ Hd].
    - by left.
    - right. by exists tk, d.
    - right. exists tk, d. cbn. rewrite Hid, lookup_insert_eq. split_and!; try done.
      by apply insert_subseteq.
    - right. exists tk, d. cbn. rewrite Hd, lookup_insert_eq. split_and!; try done.
      by apply insert_subseteq. }
  - split; [apply (reflexivity (R:=(⊆)) (sm_decisions (mem w)))|]. intros v _. unfold evaluate_scenario. by rewrite Hm.
  - split; [exact Hsub|]. intros v Hv. unfold evaluate_scenario. rewrite Hm. cbn [negb]. rewrite Hk. run.
    by rewrite (lookup_weaken _ _ _ _ Hd Hv).
Qed.

(** *** Invariants of the memory *)

(** [I m] for the memory: what every turn keeps, every evaluation keeps. *)
Lemma turns_keep (I : scenario_memory → Prop) signal l :
  (∀ sc m ds m', sc ∈ l → I m → turn signal sc m ds m' → I m') →
  keeps (λ w, I (mem w)) (collect l (evaluate_scenario root_seed signal)).
Proof.
  intros Ht. induction l as [|sc l IH]; [apply keeps_ret|]. cbn. apply keeps_bind.
  - intros w Hw. destruct (evaluate_scenario root_seed signal sc w) as [r w'] eqn:E.
    apply evaluate_scenario_turn in E as [(ds & m & -> & -> & E)|(e & -> & ->)]; [|done].
    eapply Ht; [|exact Hw|exact E]. by constructor.
  - intros ds. apply keeps_bind; [apply IH|intros zs; apply keeps_ret].
    intros sc' m ds' m' Hsc. apply Ht. by constructor.
Qed.

Lemma evaluate_keeps (I : scenario_memory → Prop) signal :
  (∀ m, I m → I (m <| sm_activations ::= pop_all (act_activation_id <$>
     filter (λ a, expired (sig_now signal) a = true) (_ordered_activations m)) |>)) →
  (∀ sc m ds m', sc ∈ evaluation_order scenarios → I m → turn signal sc m ds m' → I m') →
  keeps (λ w, I (mem w)) (evaluate root_seed scenarios signal).
Proof.
  intros He Ht. apply keeps_bind; [|intros _; by apply turns_keep].
  unfold expire_due. intros w Hw. by apply He.
Qed.

(** After [expire_due] nothing is expired. *)
Definition unexpired (now : datetime) (m : scenario_memory) : Prop :=
  map_Forall (λ _ a, expired now a = false) (sm_activations m).

Lemma expire_unexpired now w :
  wf_memory (mem w) → unexpired now (mem (expire_due now w).2).
Proof.
  intros [_ Ha] k a [Hk Hn]%pop_all_lookup. apply not_true_iff_false. intros He. apply Hn.
  rewrite <-(Ha _ _ Hk). apply list_elem_of_fmap_2, list_elem_of_filter. split; [done|].
  apply elem_of_sorted_values. by exists k.
Qed.

Lemma expire_nothing now w : unexpired now (mem w) → expire_due now w = (Ok [], w).
Proof.
  intros Hu. unfold expire_due. run. rewrite filter_all_none.
  - by destruct w as [???????????[]????].
  - intros a [k Hk]%elem_of_sorted_values. by apply (Hu k).
Qed.

Lemma turn_unexpired signal sc m ds m' :
  match sc_duration sc with Some d => 0 < d | None => True end →
  unexpired (sig_now signal) m → turn signal sc m ds m' → unexpired (sig_now signal) m'.
Proof.
  intros Hd Hm []; try exact Hm. subst. cbn. apply map_Forall_insert_2; [|exact Hm].
  unfold expired. cbn. destruct (sc_duration sc); [|done]. cbn. apply Z.leb_gt. lia.
Qed.

Lemma turn_wf signal sc m ds m' : wf_memory m → turn signal sc m ds m' → wf_memory m'.
Proof.
  intros [Hd Ha] []; split; cbn; auto with maps.
Qed.

Lemma expire_wf m ids :
  wf_memory m → wf_memory (m <| sm_activations ::= pop_all ids |>).
Proof.
  intros [Hd Ha]. split; [done|]. intros k a [Hk _]%pop_all_lookup. by apply Ha.
Qed.

Lemma evaluate_wf signal : keeps (λ w, wf_memory (mem w)) (evaluate root_seed scenarios signal).
Proof.
  apply evaluate_keeps; [intros m; apply expire_wf|]. intros sc m ds m' _. apply turn_wf.
Qed.

(** Of a scenario that does not allow re-entry there is one activation at most. *)
Definition exclusive_activations (m : scenario_memory) : Prop :=
  ∀ name sc k1 k2 a1 a2,
    scenarios !! name = Some sc → sc_allow_reentry sc = false →
    sm_activations m !! k1 = Some a1 → sm_activations m !! k2 = Some a2 →
    act_scenario_name a1 = name → act_scenario_name a2 = name → k1 = k2.

Lemma turn_exclusive signal sc m ds m' :
  keyed sc_name scenarios → sc ∈ evaluation_order scenarios →
  exclusive_activations m → turn signal sc m ds m' → exclusive_activations m'.
Proof.
  intros Hkeyed [k0 Hsc]%elem_of_values_on Hm Ht.
  destruct Ht as [| | |tk d a _ _ _ Hfree -> _ _]; [exact Hm..|].
  intros name sc' k1 k2 a1 a2 Hsc' Hre H1' H2' Hn1 Hn2. cbn in H1', H2'.
  pose proof (Hkeyed _ _ Hsc) as <-.
  assert (∀ k b, sm_activations m !! k = Some b → act_scenario_name b = sc_name sc →
                 name = sc_name sc → False) as Hnone.
  { intros k b Hb E ->. rewrite Hsc in Hsc'. simplify_eq. destruct Hfree as [?|Hfree]; [congruence|].
    pose proof (any_value_false _ _ _ _ Hfree Hb) as Hf. cbn in Hf.
    by rewrite E, (proj2 (eqb_of_true _ _)) in Hf. }
  apply lookup_insert_Some in H1' as [[<- <-]|[? H1']], H2' as [[<- <-]|[? H2']]; try done.
  - cbn in Hn1. subst name. exfalso. by eapply Hnone.
  - cbn in Hn2. subst name. exfalso. by eapply Hnone.
  - by eapply Hm.
Qed.

Lemma expire_exclusive m ids :
  exclusive_activations m → exclusive_activations (m <| sm_activations ::= pop_all ids |>).
Proof.
  intros Hm name sc k1 k2 a1 a2 Hsc Hre [Ha1 _]%pop_all_lookup [Ha2 _]%pop_all_lookup. by eapply Hm.
Qed.

Lemma snapshot_restored m : wf_memory m → restored (Some (snapshot_state m)) = m.
Proof.
  intros [Hd Ha]. destruct m as [ds acts]. unfold restored, snapshot_state, decisions,
    _ordered_activations. cbn. f_equal; by apply by_key_values.
Qed.

(** What can happen to the scenario memory between two looks at it: evaluating a
    signal (whether it returns or raises), expiring, and a restart from a snapshot. *)
Inductive scenario_action :=
  | Signal (signal : ScenarioSignal)
  | Expire (at_ : datetime)
  | SaveAndRestore.

Definition act (a : scenario_action) (w : world B) : world B :=
  match a with
  | Signal signal => (evaluate root_seed scenarios signal w).2
  | Expire at_ => (expire_due at_ w).2
  | SaveAndRestore => (restore_state (Some (snapshot_state (mem w))) w).2
  end.

Definition run_actions (l : list scenario_action) (w : world B) : world B :=
  foldl (λ w a, act a w) w l.

Lemma run_actions_memory l w :
  keyed sc_name scenarios → wf_memory (mem w) → exclusive_activations (mem w) →
  wf_memory (mem (run_actions l w)) ∧ exclusive_activations (mem (run_actions l w)).
Proof.
  intros Hs. revert w. induction l as [|a l IH]; intros w Hw Hx; [done|]. apply IH.
  - destruct a; cbn [act]; [by apply evaluate_wf|by apply expire_wf|].
    change (wf_memory (restored (Some (snapshot_state (mem w))))). by rewrite snapshot_restored.
  - destruct a; cbn [act].
    + revert w Hw Hx. enough (keeps (λ w, exclusive_activations (mem w)) (evaluate root_seed scenarios signal))
        as Hk by (intros w _; apply Hk).
      apply evaluate_keeps; [intros m; apply expire_exclusive|].
      intros sc m ds m' Hsc. by apply turn_exclusive.
    + by apply expire_exclusive.
    + change (exclusive_activations (restored (Some (snapshot_state (mem w))))).
      by rewrite snapshot_restored.
Qed.
End evaluation.

(** *** Attributes *)

Lemma min_on_least {A K} `{PyOrd K, !PyOrdLaws K} (f : A → K) (l : list A) x :
  min_on f l = Some x → x ∈ l ∧ ∀ y, y ∈ l → py_leb (f x) (f y) = true.
Proof.
  unfold min_on. destruct (sort_on f l) as [|z l'] eqn:E; [done|]. intros [= ->]. split.
  - apply (elem_of_sort_on f). rewrite E. by constructor.
  - intros y Hy. by eapply (sort_on_head f).
Qed.

Lemma min_on_some {A K} `{PyOrd K, !PyOrdLaws K} (f : A → K) (l : list A) x :
  x ∈ l → ∃ y, min_on f l = Some y.
Proof.
  unfold min_on. intros Hx%(elem_of_sort_on f). destruct (sort_on f l); [by apply not_elem_of_nil in Hx|].
  by eexists.
Qed.

Lemma py_leb_Z (x y : Z) : py_leb x y = true ↔ x ≤ y.
Proof. unfold py_leb. change (py_compare x y) with (x ?= y). destruct (Z.compare_spec x y); split; try done; lia. Qed.

Lemma py_leb_pair {A C} `{PyOrd A, !PyOrdLaws A, PyOrd C} (a a' : A) (b b' : C) :
  py_leb a a' = true → (a = a' → py_leb b b' = true) → py_leb (a, b) (a', b') = true.
Proof.
  unfold py_leb. change (py_compare (a, b) (a', b'))
    with (match py_compare a a' with Eq => py_compare b b' | c => c end).
  destruct (py_compare a a') eqn:E; [|done..]. intros _ Hb. by apply Hb, py_compare_eq.
Qed.

(** *** Properties *)

Section properties.
Context {B : Type} `{!Uuid5, !Blake2b, !MersenneTwister}.
Context (root_seed : Z) (scenarios : gmap string (Scenario B)).
Implicit Types (w : world B).

(** Evaluating a signal is idempotent: once it has returned its decisions,
    evaluating the same signal again returns the same decisions and changes
    nothing, whatever the draws and the conditions would say by then. *)
Theorem evaluate_idempotent signal w ds w' :
  map_Forall (λ _ sc, match sc_duration sc with Some d => 0 < d | None => True end) scenarios →
  wf_memory (w_scenarios w) →
  evaluate root_seed scenarios signal w = (Ok ds, w') →
  evaluate root_seed scenarios signal w' = (Ok ds, w').
Proof.
  intros Hdur Hwf Hrun.
  unfold evaluate in Hrun. destruct (expire_due (sig_now signal) w) as [g w1] eqn:Eg.
  pose proof (expire_unexpired (sig_now signal) w Hwf) as Hu. rewrite Eg in Hu. cbn in Hu.
  assert (g = Ok (match g with Ok x => x | Err _ => [] end)) as Hg by (unfold expire_due in Eg; by injection Eg as <- _).
  rewrite Hg in Eg. rewrite (run_bind _ _ _ _ _ Eg) in Hrun. clear g Hg Eg.
  assert (unexpired (sig_now signal) (w_scenarios w')) as Hu'.
  { pose proof (turns_keep root_seed (unexpired (sig_now signal)) signal (evaluation_order scenarios)) as Hk.
    specialize (Hk ltac:(intros sc m ds' m' [k Hsc]%elem_of_values_on; apply turn_unexpired; apply (Hdur _ _ Hsc)) w1 Hu).
    by rewrite Hrun in Hk. }
  eapply run_bind_eq; [by apply expire_nothing|].
  apply (collect_replay decided _ _ _ _ _ (λ sc v ys v' _, turn_replay root_seed signal sc v ys v')) in Hrun
    as [_ Hr].
  by apply Hr.
Qed.

(** Whatever sequence of signals (evaluated or failed), expirations and
    restarts from a snapshot has run on a fresh engine, a scenario that does not
    allow re-entry has at most one activation. *)
Theorem no_reentry (l : list scenario_action) w name sc k1 k2 a1 a2 :
  keyed sc_name scenarios → w_scenarios w = mkScenarioMemory ∅ ∅ →
  let m := w_scenarios (run_actions root_seed scenarios l w) in
  scenarios !! name = Some sc → sc_allow_reentry sc = false →
  sm_activations m !! k1 = Some a1 → sm_activations m !! k2 = Some a2 →
  act_scenario_name a1 = name → act_scenario_name a2 = name → k1 = k2.
Proof.
  intros Hk Hw m. destruct (run_actions_memory root_seed scenarios l w Hk) as [_ Hx].
  - rewrite Hw. split; apply map_Forall_empty.
  - rewrite Hw. intros n s i1 i2 b1 b2 _ _ Hb. cbn in Hb. by rewrite lookup_empty in Hb.
  - apply Hx.
Qed.

(** C32. A snapshot restores exactly the memory it was taken of, whatever has
    been decided, activated and restarted since the engine was fresh. *)
Theorem snapshot_round_trip (l : list scenario_action) w (v : world B) :
  keyed sc_name scenarios → w_scenarios w = mkScenarioMemory ∅ ∅ →
  let m := w_scenarios (run_actions root_seed scenarios l w) in
  restore_state (Some (snapshot_state m)) v = (Ok tt, v <| w_scenarios := m |>).
Proof.
  intros Hk Hw m. destruct (run_actions_memory root_seed scenarios l w Hk) as [Hwf _].
  - rewrite Hw. split; apply map_Forall_empty.
  - rewrite Hw. intros n s i1 i2 b1 b2 _ _ Hb. cbn in Hb. by rewrite lookup_empty in Hb.
  - unfold restore_state, modify. by rewrite (snapshot_restored m Hwf).
Qed.
End properties.

(** The value of an attribute is that of the strongest effect on it: among
    the effects of the activations not expired, none has a smaller
    (priority, activation time latest first, activation identity); with no
    such effect it is the default. *)
Theorem attribute_precedence (m : scenario_memory) now k dflt :
  let l := _attribute_matches m now k in
  (l = [] → attribute m now k dflt = dflt) ∧
  (l ≠ [] → ∃ x, x ∈ l ∧ attribute m now k dflt = x.2 ∧
     ∀ y, y ∈ l →
       py_leb (act_priority x.1, (- act_activated_at x.1, act_activation_id x.1))
         (act_priority y.1, (- act_activated_at y.1, act_activation_id y.1)) = true).
Proof.
  intros l. unfold attribute. fold l. split; [by intros ->|]. intros Hl.
  destruct l as [|z l'] eqn:El; [done|]. rewrite <-El. clear Hl.
  assert (z ∈ l) as Hz by (rewrite El; constructor). clearbody l. clear El l'.
  unfold _lowest_priority_matches.
  destruct (min_on_some (λ x : ScenarioActivation * pyobj, act_priority x.1) l z Hz) as [p Hp].
  rewrite Hp. apply min_on_least in Hp as [Hpl Hpmin].
  set (l1 := filter _ l).
  assert (p ∈ l1) as Hp1 by (by apply list_elem_of_filter).
  unfold _latest_activation_matches.
  destruct (min_on_some (λ x : ScenarioActivation * pyobj, - act_activated_at x.1) l1 p Hp1) as [q Hq].
  rewrite Hq. apply min_on_least in Hq as [Hql Hqmin].
  set (l2 := filter _ l1).
  assert (q ∈ l2) as Hq2 by (by apply list_elem_of_filter).
  destruct (min_on_some (λ x : ScenarioActivation * pyobj, act_activation_id x.1) l2 q Hq2) as [x Hx].
  rewrite Hx. apply min_on_least in Hx as [Hxl Hxmin].
  apply list_elem_of_filter in Hxl as [Hxq Hx1]. pose proof Hx1 as Hx1'.
  apply list_elem_of_filter in Hx1' as [Hxp Hx0].
  exists x. split_and!; try done. intros y Hy.
  apply py_leb_pair; [rewrite Hxp; by apply Hpmin|]. intros Ep.
  assert (y ∈ l1) as Hy1 by (apply list_elem_of_filter; split; [congruence|done]).
  apply py_leb_pair; [rewrite Hxq; by apply Hqmin|]. intros Eq.
  apply Hxmin, list_elem_of_filter. split; [lia|done].
Qed.

(** *** A storm that lasts ten ticks *)

#[local] Existing Instance plain_uuid5.
#[local] Instance plain_blake2b : Blake2b := λ s, s.
#[local] Instance half_random : MersenneTwister := λ _, float_of_Z 0.

Definition storm : Scenario queue_backend :=
  mkScenario "storm" (TickTrigger 1 0) [AttributeEffect "wind" (PInt 9)] None fone (Some 10) 100 false.
Definition weather : gmap string (Scenario queue_backend) := {[ "storm" := storm ]}.
Definition first_tick : ScenarioSignal := mkScenarioSignal TICK 0 0 None.
Definition second_tick : ScenarioSignal := mkScenarioSignal TICK 1 1 None.
Definition stormy : world queue_backend := (evaluate 7 weather first_tick new_process).2.

Lemma weather_keyed : keyed sc_name weather.
Proof. by apply map_Forall_singleton. Qed.

Definition storm_decision : ScenarioDecision :=
  mkScenarioDecision (_scenario_attempt_id storm [PStr "tick"; PInt 0]) "storm" true fone
    (Some (float_of_Z 0)) "activated"
    (Some (deterministic_id "scenario-activation"
             [PStr (_scenario_attempt_id storm [PStr "tick"; PInt 0])])).

Lemma weather_lasts :
  map_Forall (λ _ sc, match sc_duration sc with Some d => 0 < d | None => True end) weather.
Proof. by apply map_Forall_singleton. Qed.

Lemma fresh_memory : wf_memory (w_scenarios new_process).
Proof. split; apply map_Forall_empty. Qed.

Lemma stormy_run : evaluate 7 weather first_tick new_process = (Ok [storm_decision], stormy).
Proof. apply injective_projections; [vm_compute; reflexivity|reflexivity]. Qed.

Lemma evaluate_idempotent_witness :
  evaluate 7 weather first_tick stormy = (Ok [storm_decision], stormy).
Proof.
  exact (evaluate_idempotent 7 weather first_tick new_process [storm_decision] stormy weather_lasts
    fresh_memory stormy_run).
Defined.

Definition weather_actions : list scenario_action :=
  [Signal first_tick; Signal second_tick; SaveAndRestore; Signal second_tick].
Definition storm_activation : ScenarioActivation :=
  activation_of storm first_tick (_scenario_attempt_id storm [PStr "tick"; PInt 0])
    [PStr "tick"; PInt 0].

Lemma no_reentry_witness :
  let k := act_activation_id storm_activation in
  sm_activations (w_scenarios (run_actions 7 weather weather_actions new_process)) !! k
  = Some storm_activation ∧ k = k.
Proof.
  intros k. split; [vm_compute; reflexivity|].
  refine (no_reentry 7 weather weather_actions new_process "storm" storm k k storm_activation
    storm_activation weather_keyed eq_refl _ _ _ _ _ _); vm_compute; reflexivity.
Defined.

Lemma snapshot_round_trip_witness :
  let m := w_scenarios (run_actions 7 weather weather_actions new_process) in
  restore_state (Some (snapshot_state m)) new_process = (Ok tt, new_process <| w_scenarios := m |>).
Proof. exact (snapshot_round_trip 7 weather weather_actions new_process new_process weather_keyed eq_refl). Defined.
