(* ===== verification/Scheduling.v ===== *)
(** * Scheduling

    The in-memory queue ([src/src/sose/core/scheduler.py]), the logical clock
    ([core/clock.py]), the scheduling facade ([factories/schedule.py]) and
    [DurableScheduler] ([core/durable.py]): future commands kept in the store,
    independent of any backend queue. *)
From S2P Require Import Prelude Encoding Records Memory MemoryFacts World QueueBackend.
From stdpp Require Import pretty.
Open Scope string_scope.
Open Scope Z_scope.

(** ** [SimulationClock.advance] *)

Definition advance (steps : Z) : prog clock datetime :=
  raise_if (steps <? 1) (ValueError "steps must be >= 1") ;;
  modify (λ c, c <| clk_tick ::= λ t, t + steps |> <| clk_now ::= λ t, t + clk_step c * steps |>) ;;
  gets clk_now.

(** ** [Scheduler] *)

(** The comparison of [_Scheduled] ignores the command. *)
Definition heap_key (x : _Scheduled) : Z * (Z * Z) :=
  (heap_due_at x, (heap_priority x, heap_sequence x)).

Definition heap_schedule (command : Command) (priority : Z) : prog scheduler unit :=
  modify (λ s, s <| heap_count ::= Z.succ |>) ;;
  n ← gets heap_count ;
  modify (λ s, s <| heap ::= insert_on heap_key (mk_Scheduled (cmd_due_at command) priority n command) |>).

(** The entries [due] pops, and those it leaves. *)
Fixpoint pop_due (at_ : datetime) (l : list _Scheduled) : list _Scheduled * list _Scheduled :=
  match l with
  | [] => ([], [])
  | x :: l => if heap_due_at x <=? at_ then let '(ready, rest) := pop_due at_ l in (x :: ready, rest)
              else ([], x :: l)
  end.

Definition heap_due (at_ : datetime) : prog scheduler (list Command) :=
  popped ← gets (λ s, pop_due at_ (heap s)) ;
  modify (λ s, s <| heap := popped.2 |>) ;;
  mret (heap_command <$> popped.1).

(** ** [DurableScheduler] *)

Section durable_scheduler.
Context {B : Type} `{!TemporalBackend B, !SchedulingBackend B, !Uuid5}.
(** [self._owner_id], checked by the constructor ([check_owner]). *)
Context (owner_id : string).
Abbreviation P := (prog (world B)).

(** The guard of [__init__], of [RuntimeRebuilder] and [Engine] too. *)
Definition check_owner : res unit := fail_if (blank owner_id) (ValueError "owner_id must not be empty").

Definition attach_backend : P unit := modify (λ w, w <| w_attached := true |>).
Definition detach_backend : P unit := modify (λ w, w <| w_attached := false |>).

Definition already_scheduled (command : Command) : exn :=
  ValueError ("command already scheduled: " +:+ cmd_command_id command).

Definition work_id_of (command : Command) : string :=
  deterministic_id "scheduled-work" [PStr owner_id; PStr (cmd_command_id command)].

(** The number of the next work of this owner. *)
Definition next_sequence (existing : list ScheduledWork) : Z :=
  py_max_default 0 (work_sequence <$> filter (λ x, work_owner_id x = owner_id) existing) + 1.

Definition schedule_body (command : Command) (priority : Z) : uprog ScheduledWork :=
  existing ← get_command (cmd_command_id command) ;
  raise_if (match existing with Some _ => true | None => false end) (already_scheduled command) ;;
  existing ← uow_scheduled_work ;
  work ← lift (ScheduledWork_new (work_id_of command) (cmd_due_at command) priority
                 (next_sequence existing) (cmd_command_id command) owner_id) ;
  save_command command ;;
  save_scheduled_work work ;;
  mret work.

Definition schedule (command : Command) (priority : Z) : P ScheduledWork :=
  raise_if (negb (eqb_of (cmd_owner_id command) (Some owner_id)))
    (PermissionError "command belongs to a different or missing owner") ;;
  known ← reads (λ s, Memory.command s (cmd_command_id command)) ;
  raise_if (match known with Some _ => true | None => false end) (already_scheduled command) ;;
  attached ← gets w_attached ;
  at_ ← gets (λ w, now (w_backend w)) ;
  raise_if (attached && (cmd_due_at command <? at_))
    (ValueError "scheduled work cannot be created before backend logical time") ;;
  work ← tx_as owner_id (schedule_body command priority) ;
  (if attached : bool then
     on_backend (schedule_at (work_due_at work) (LateOnDue (mkDurableScheduledItem work command))
                   (work_priority work) [PStr "durable-work"; PStr (work_work_id work)])
   else mret tt) ;;
  mret work.

Definition missing_command (work : ScheduledWork) : exn :=
  RuntimeError ("scheduled work references missing command: " +:+ work_work_id work
                  +:+ "/" +:+ work_command_id work).

(** The work of this owner, with its commands. *)
Definition pending_body : uprog (list DurableScheduledItem) :=
  works ← uow_scheduled_work ;
  collect works (λ work,
    if negb (eqb_of (work_owner_id work) owner_id) then mret [] else
    command ← get_command (work_command_id work) ;
    match command with
    | None => raise (missing_command work)
    | Some command => mret [mkDurableScheduledItem work command]
    end).

Definition pending : P (list DurableScheduledItem) := tx_as owner_id pending_body.

Definition due (at_ : datetime) : P (list DurableScheduledItem) :=
  items ← pending ;
  mret (filter (λ i, work_due_at (sched_work i) ≤ at_) items).

Definition find_pending (entity_type entity_id name : string) : P (option DurableScheduledItem) :=
  items ← pending ;
  let found_ := filter (λ i, cmd_entity_type (sched_command i) = entity_type
                             ∧ cmd_entity_id (sched_command i) = entity_id
                             ∧ cmd_name (sched_command i) = name) items in
  match found_ with
  | [] => mret None
  | [item] => mret (Some item)
  | _ => raise (RuntimeError ("multiple pending scheduled commands match "
                                +:+ entity_type +:+ "/" +:+ entity_id +:+ ":" +:+ name))
  end.

Definition cancel_body (work_id : string) : uprog bool :=
  work ← get_scheduled_work work_id ;
  match work with
  | None => mret false
  | Some work =>
    raise_if (negb (eqb_of (work_owner_id work) owner_id))
      (PermissionError "scheduled work belongs to a different owner") ;;
    command ← get_command (work_command_id work) ;
    match command with
    | None => raise (missing_command work)
    | Some command =>
      raise_if (negb (eqb_of (cmd_owner_id command) (Some owner_id)))
        (PermissionError "scheduled command belongs to a different owner") ;;
      delete_scheduled_work (work_work_id work) ;;
      delete_command (cmd_command_id command) ;;
      mret true
    end
  end.

Definition cancel (work_id : string) : P bool := tx_as owner_id (cancel_body work_id).

Definition cancel_pending (entity_type entity_id name : string) : P bool :=
  item ← find_pending entity_type entity_id name ;
  match item with
  | None => mret false
  | Some item => cancel (work_work_id (sched_work item))
  end.

(** ** [ScheduleFactory] bound to this scheduler *)

Definition at_time (at_ : datetime) (command : Command) (priority : Z) : P Command :=
  let command := if eqb_of (cmd_due_at command) at_ then command
                 else Command_rescheduled command at_ in
  schedule command priority ;;
  mret command.

Definition after (delay : Z) (command : Command) (priority : Z) : P Command :=
  raise_if (delay <? 0) (ValueError "delay cannot be negative") ;;
  c ← gets w_clock ;
  at_time (clk_now c + delay) command priority.
End durable_scheduler.

(** ** The invariant *)

(** Every work has its command, of the same owner, and no two works share one:
    a cancellation or an execution, which deletes both, orphans no work. *)
Record schedule_inv (s : state) : Prop := {
  si_durable : durable s;
  si_command : map_Forall (λ _ x, ∃ c, st_commands s !! work_command_id x = Some c
                                       ∧ cmd_owner_id c = Some (work_owner_id x))
                 (st_scheduled_work s);
  si_unique : unique work_command_id (st_scheduled_work s) }.

(** The pending items of an owner, in the order of execution. *)
Definition items_of (owner_id : string) (s : state) : list DurableScheduledItem :=
  scheduled_work s ≫= λ x,
    if eqb_of (work_owner_id x) owner_id
    then match st_commands s !! work_command_id x with
         | Some c => [mkDurableScheduledItem x c]
         | None => []
         end
    else [].

(** The states after a schedule and after a cancellation. *)
Definition scheduled (command : Command) (work : ScheduledWork) (s : state) : state :=
  s <| st_commands ::= <[cmd_command_id command := command]> |>
    <| st_scheduled_work ::= <[work_work_id work := work]> |>.

Definition unscheduled (work_id command_id : string) (s : state) : state :=
  s <| st_scheduled_work ::= delete work_id |> <| st_commands ::= delete command_id |>.

Lemma scheduled_inv s c x :
  schedule_inv s → st_commands s !! cmd_command_id c = None → work_command_id x = cmd_command_id c →
  cmd_owner_id c = Some (work_owner_id x) → durable (scheduled c x s) →
  schedule_inv (scheduled c x s).
Proof.
  intros [Hd Hc Hu] Hn Hx Ho Hd'.
  assert (∀ k y, st_scheduled_work s !! k = Some y → work_command_id y ≠ cmd_command_id c) as Hne.
  { intros k y Hy E. destruct (Hc _ _ Hy) as (z & Hz & _). congruence. }
  constructor; [done|..]; cbn.
  - apply map_Forall_insert_2; [exists c; by rewrite Hx, lookup_insert_eq|].
    intros k y Hy. destruct (Hc _ _ Hy) as (z & Hz & Hoz). exists z.
    rewrite lookup_insert_ne; [done|]. by apply not_eq_sym, (Hne k).
  - apply unique_insert; [done|]. intros k y Hy E. exfalso. apply (Hne k y Hy). congruence.
Qed.

Lemma unscheduled_inv s k x :
  schedule_inv s → st_scheduled_work s !! k = Some x →
  durable (unscheduled k (work_command_id x) s) →
  schedule_inv (unscheduled k (work_command_id x) s).
Proof.
  intros [Hd Hc Hu] Hx Hd'. constructor; [done|..]; cbn; [|by apply unique_delete].
  intros j y [Hne Hy]%lookup_delete_Some. destruct (Hc _ _ Hy) as (z & Hz & Hoz). exists z.
  rewrite lookup_delete_ne; [done|]. intros E. apply Hne. symmetry. by eapply Hu.
Qed.

Section runs.
Context {B : Type} `{!TemporalBackend B, !SchedulingBackend B, !Uuid5}.
Implicit Types w : world B.

Lemma pending_run owner w :
  schedule_inv (durable_state w) → mp_read_only (w_store w) = false → is_empty owner = false →
  pending owner w = (Ok (items_of owner (durable_state w)), w).
Proof.
  intros [Hd Hc _] Hro Ho. set (s := durable_state w) in *. unfold pending.
  rewrite tx_as_tx by auto. rewrite <-(set_state_same w) at 2. fold s.
  destruct (pending_body owner (begin_uow s)) as [r u] eqn:E.
  assert (r = Ok (items_of owner s) ∧ uow_working u = s) as [-> Hu].
  2:{ rewrite <-Hu at 2. eapply tx_run; [done|exact E|]. apply commit_ok; rewrite Hu; apply Hd. }
  enough (pending_body owner (begin_uow s) = (Ok (items_of owner s), begin_uow s)) as E'.
  { rewrite E in E'. by simplify_eq. }
  unfold pending_body, uow_scheduled_work. run. unfold items_of.
  eapply collect_pass. intros x [k Hx]%elem_of_values_on. cbn in Hx.
  destruct (eqb_of (work_owner_id x) owner); [|done]. cbn. unfold get_command. run. cbn.
  destruct (Hc _ _ Hx) as (c & Hk & _). unfold fork_state. by rewrite Hk.
Qed.

Lemma schedule_body_run owner s c priority x :
  schedule_inv s → st_commands s !! cmd_command_id c = None →
  ScheduledWork_new (work_id_of owner c) (cmd_due_at c) priority
    (next_sequence owner (scheduled_work s)) (cmd_command_id c) owner = Ok x →
  ∃ u, schedule_body owner c priority (begin_uow s) = (Ok x, u) ∧ uow_working u = scheduled c x s.
Proof.
  intros Hinv Hn Hx. unfold schedule_body, get_command, uow_scheduled_work, save_command,
    save_scheduled_work, working, write. eexists. split.
  - run. cbn. unfold fork_state. rewrite Hn. run.
    change (values_on work_key (st_scheduled_work s)) with (scheduled_work s). rewrite Hx. run. cbn.
    unfold absent. assert (work_command_id x = cmd_command_id c) as ->.
    { unfold ScheduledWork_new in Hx. symmetry in Hx. by inv_prog. }
    rewrite lookup_insert_eq. cbn. reflexivity.
  - done.
Qed.

Lemma schedule_uow_body owner c priority : uow_body (schedule_body owner c priority).
Proof. unfold schedule_body, get_command, uow_scheduled_work. solve_bt. Qed.

Lemma cancel_scheduled_body owner id : uow_body (cancel_body owner id).
Proof. unfold cancel_body, get_command, get_scheduled_work. solve_bt. Qed.

Lemma pending_body_body owner : uow_body (pending_body owner).
Proof.
  unfold pending_body, uow_scheduled_work, get_command. apply body_bind; [auto with bt|]. intros works.
  apply body_collect. intros x. solve_bt.
Qed.

Lemma pending_bt owner : by_transactions (pending (B:=B) owner).
Proof. apply bt_tx_as, pending_body_body. Qed.

Lemma schedule_bt owner c priority : by_transactions (schedule (B:=B) owner c priority).
Proof. unfold schedule. pose proof schedule_uow_body. solve_bt. Qed.

Lemma cancel_bt owner id : by_transactions (cancel (B:=B) owner id).
Proof. apply bt_tx_as, cancel_scheduled_body. Qed.
(** The work that [schedule] records. *)
Definition work_of owner c priority s : ScheduledWork :=
  mkScheduledWork (cmd_due_at c) priority (next_sequence owner (scheduled_work s)) (work_id_of owner c)
    (cmd_command_id c) owner.

(** What [schedule] requires of its command. *)
Definition schedulable owner c w : Prop :=
  cmd_owner_id c = Some owner ∧ st_commands (durable_state w) !! cmd_command_id c = None ∧
  (w_attached w = true → now (w_backend w) ≤ cmd_due_at c).

#[export] Instance schedulable_dec owner c w : Decision (schedulable owner c w).
Proof. unfold schedulable. apply _. Defined.

Lemma work_new owner c priority s :
  blank owner = false →
  ScheduledWork_new (work_id_of owner c) (cmd_due_at c) priority
    (next_sequence owner (scheduled_work s)) (cmd_command_id c) owner = Ok (work_of owner c priority s).
Proof. unfold ScheduledWork_new. by intros ->. Qed.

Lemma blank_not_empty owner : blank owner = false → is_empty owner = false.
Proof. by destruct owner. Qed.

Lemma scheduled_durable owner c priority s :
  schedule_inv s → blank owner = false → st_commands s !! cmd_command_id c = None →
  durable (scheduled c (work_of owner c priority s) s).
Proof.
  intros Hinv Ho Hn.
  destruct (schedule_body_run owner s c priority _ Hinv Hn (work_new owner c priority s Ho)) as (u & Hu & E).
  rewrite <-E. apply (body_durable _ _ _ _ (si_durable _ Hinv) (schedule_uow_body owner c priority) Hu);
    by rewrite E.
Qed.

(** Scheduling is durable first: the command and its work are committed, then
    the attached backend is told. *)
Lemma schedule_run owner c priority w :
  schedule_inv (durable_state w) → mp_read_only (w_store w) = false → blank owner = false →
  schedulable owner c w →
  let x := work_of owner c priority (durable_state w) in
  schedule owner c priority w
  = ((if w_attached w
      then on_backend (schedule_at (work_due_at x) (LateOnDue (mkDurableScheduledItem x c)) priority
                         [PStr "durable-work"; PStr (work_work_id x)])
      else mret tt) ;; mret x) (set_state (scheduled c x (durable_state w)) w).
Proof.
  intros Hinv Hro Ho (Hc & Hn & Hat) x. unfold schedule.
  assert (negb (eqb_of (cmd_owner_id c) (Some owner)) = false) as ->.
  { apply negb_false_iff. by apply eqb_of_true. }
  run. change (Memory.command (durable_state w) (cmd_command_id c))
    with (st_commands (durable_state w) !! cmd_command_id c). rewrite Hn. run.
  destruct (schedule_body_run owner _ c priority _ Hinv Hn (work_new owner c priority _ Ho))
    as (u & Hu & E). fold x in Hu, E.
  assert (w_attached w && (cmd_due_at c <? now (w_backend w)) = false) as ->.
  { destruct (w_attached w); [|done]. cbn. apply Z.ltb_ge. by apply Hat. }
  run. apply run_bind_eq with x (set_state (scheduled c x (durable_state w)) w); [|done].
  rewrite tx_as_tx by auto using blank_not_empty. rewrite <-E.
  apply tx_apart; [apply Hinv|done|exact Hu|by rewrite E..].
Qed.

(** A command that cannot be scheduled raises and changes nothing. *)
Lemma schedule_refused owner c priority w :
  schedule_inv (durable_state w) → mp_read_only (w_store w) = false → blank owner = false →
  ¬ schedulable owner c w → ∃ e, schedule owner c priority w = (Err e, w).
Proof.
  intros Hinv Hro Ho Hs. unfold schedule.
  destruct (eqb_of (cmd_owner_id c) (Some owner)) eqn:Hc; run; [|by eexists].
  apply (proj1 (eqb_of_true _ _)) in Hc.
  change (Memory.command (durable_state w) (cmd_command_id c))
    with (st_commands (durable_state w) !! cmd_command_id c).
  destruct (st_commands (durable_state w) !! cmd_command_id c) eqn:Hn; run; [by eexists|].
  destruct (w_attached w) eqn:Hat; cbn; [|destruct Hs; unfold schedulable; by rewrite Hat].
  destruct (cmd_due_at c <? now (w_backend w)) eqn:Hdue; run; [by eexists|].
  apply Z.ltb_ge in Hdue. by destruct Hs.
Qed.

(** The durable state a call of [schedule] leaves. *)
Lemma schedule_state owner c priority w :
  schedule_inv (durable_state w) → mp_read_only (w_store w) = false → blank owner = false →
  let w' := (schedule owner c priority w).2 in
  (schedulable owner c w ∧ durable_state w' = scheduled c (work_of owner c priority (durable_state w)) (durable_state w)
   ∨ ¬ schedulable owner c w ∧ w' = w).
Proof.
  intros Hinv Hro Ho.
  destruct (decide (schedulable owner c w)) as [Hs|Hs].
  - left. split; [exact Hs|]. rewrite (schedule_run owner c priority w Hinv Hro Ho Hs).
    set (v := set_state _ w). change (scheduled _ _ _) with (durable_state v).
    set (m := (if w_attached w then _ else _) : prog (world B) _). 
    destruct (m v) as [r v'] eqn:E.
    assert (durable_state v' = durable_state v) as <-.
    { eapply stored_same; [|exact E]. intros I. subst m. destruct (w_attached w); solve_keeps. }
    unfold mbind, prog_bind. rewrite E. by destruct r.
  - right. destruct (schedule_refused owner c priority w) as [e ->]; auto.
Qed.

(** The key that orders the items. *)
Definition item_key (i : DurableScheduledItem) := work_key (sched_work i).

Lemma work_key_id x y : work_key x = work_key y → work_work_id x = work_work_id y.
Proof. unfold work_key. intros E. by simplify_eq. Qed.

Lemma item_projection owner s y :
  let g x := if eqb_of (work_owner_id x) owner
             then match st_commands s !! work_command_id x with
                  | Some c => [mkDurableScheduledItem x c] | None => [] end
             else [] in
  g y = [] ∨ ∃ j, g y = [j] ∧ item_key j = work_key y.
Proof.
  intros g. unfold g. destruct (eqb_of _ _); [|by left].
  destruct (st_commands s !! work_command_id y) as [c|]; [right|by left]. by eexists.
Qed.

Lemma elem_of_items owner s x c :
  mkDurableScheduledItem x c ∈ items_of owner s ↔
  (∃ k, st_scheduled_work s !! k = Some x) ∧ work_owner_id x = owner
  ∧ st_commands s !! work_command_id x = Some c.
Proof.
  unfold items_of. rewrite list_elem_of_bind. split.
  - intros (y & Hy & [k Hk]%elem_of_values_on). destruct (eqb_of _ _) eqn:Ho; [|by apply not_elem_of_nil in Hy].
    apply (proj1 (eqb_of_true _ _)) in Ho. destruct (st_commands s !! _) eqn:Hc; [|by apply not_elem_of_nil in Hy].
    apply list_elem_of_singleton in Hy. simplify_eq. eauto.
  - intros ([k Hk] & Ho & Hc). exists x. split; [|apply elem_of_values_on; by exists k].
    rewrite (proj2 (eqb_of_true _ _) Ho), Hc. by constructor.
Qed.

Lemma items_sorted owner s : StronglySorted (key_le item_key) (items_of owner s).
Proof.
  unfold items_of, scheduled_work, values_on.
  induction (sort_on_sorted work_key (map_to_list (st_scheduled_work s)).*2) as [|x l Hl IH Hx]; [constructor|].
  cbn. destruct (eqb_of _ _); [|done]. destruct (st_commands s !! _) as [c|]; [|done]. cbn.
  constructor; [done|]. apply Forall_forall. intros [y d] (z & Hy & Hz)%list_elem_of_bind.
  destruct (eqb_of _ _); [|by apply not_elem_of_nil in Hy].
  destruct (st_commands s !! _); [|by apply not_elem_of_nil in Hy].
  apply list_elem_of_singleton in Hy. simplify_eq. exact (proj1 (Forall_forall _ _) Hx z Hz).
Qed.

Lemma items_NoDup owner s :
  keyed work_work_id (st_scheduled_work s) → NoDup ((λ i, work_work_id (sched_work i)) <$> items_of owner s).
Proof.
  intros Hk. pose proof (NoDup_values_on work_key work_work_id _ Hk) as Hnd. unfold items_of, scheduled_work.
  revert Hnd. generalize (values_on work_key (st_scheduled_work s)) as l. induction l as [|x l IH]; [by constructor|].
  cbn. intros [Hx Hnd]%NoDup_cons. destruct (eqb_of _ _); [|by apply IH].
  destruct (st_commands s !! _) as [c|]; [|by apply IH]. cbn. constructor; [|by apply IH].
  intros ([y d] & E & (z & Hy & Hz)%list_elem_of_bind)%list_elem_of_fmap. apply Hx.
  destruct (eqb_of _ _); [|by apply not_elem_of_nil in Hy].
  destruct (st_commands s !! _); [|by apply not_elem_of_nil in Hy].
  apply list_elem_of_singleton in Hy. cbn in E. simplify_eq. rewrite E. by apply list_elem_of_fmap_2.
Qed.

(** Scheduling inserts the item at its place, and leaves the other owners' alone. *)
Lemma items_scheduled owner s c x :
  schedule_inv s → st_commands s !! cmd_command_id c = None → st_scheduled_work s !! work_work_id x = None →
  work_command_id x = cmd_command_id c →
  items_of owner (scheduled c x s)
  = if eqb_of (work_owner_id x) owner then insert_on item_key (mkDurableScheduledItem x c) (items_of owner s)
    else items_of owner s.
Proof.
  intros [Hd Hc _] Hn Hw Hx. unfold items_of at 1, scheduled_work. cbn [scheduled st_scheduled_work st_commands].
  change (st_scheduled_work (scheduled c x s)) with (<[work_work_id x := x]> (st_scheduled_work s)).
  change (st_commands (scheduled c x s)) with (<[cmd_command_id c := c]> (st_commands s)).
  rewrite (values_on_insert work_key work_work_id work_key_id) by (done || apply Hd).
  set (g := λ y, if eqb_of (work_owner_id y) owner then
                   match <[cmd_command_id c := c]> (st_commands s) !! work_command_id y with
                   | Some d => [mkDurableScheduledItem y d] | None => [] end else []).
  assert (values_on work_key (st_scheduled_work s) ≫= g = items_of owner s) as Hg.
  { apply Forall_bind_ext, Forall_forall. intros y [k Hy]%elem_of_values_on. unfold g.
    destruct (Hc _ _ Hy) as (d & Hd' & _). rewrite lookup_insert_ne by congruence. done. }
  pose proof (item_projection owner (scheduled c x s)) as Hp. cbv zeta in Hp.
  destruct (eqb_of (work_owner_id x) owner) eqn:Ho.
  - rewrite <-Hg. apply insert_on_bind; [exact Hp|unfold g; by rewrite Ho, Hx, lookup_insert_eq|apply sort_on_sorted].
  - rewrite <-Hg. clear -Ho. induction (values_on work_key (st_scheduled_work s)) as [|y l IH]; cbn.
    + unfold g. by rewrite Ho.
    + destruct (py_leb _ _); cbn; [unfold g at 1; by rewrite Ho|]. by rewrite IH.
Qed.

(** Cancelling removes the item of the work, and only it. *)
Lemma items_unscheduled owner s k x :
  schedule_inv s → st_scheduled_work s !! k = Some x →
  items_of owner (unscheduled k (work_command_id x) s)
  = filter (λ i, work_work_id (sched_work i) ≠ k) (items_of owner s).
Proof.
  intros [Hd Hc Hu] Hx. unfold items_of at 1, scheduled_work.
  change (st_scheduled_work (unscheduled k (work_command_id x) s)) with (delete k (st_scheduled_work s)).
  change (st_commands (unscheduled k (work_command_id x) s)) with (delete (work_command_id x) (st_commands s)).
  rewrite (values_on_delete work_key work_work_id work_key_id) by apply Hd.
  unfold items_of, scheduled_work.
  assert (Forall (λ y, st_scheduled_work s !! work_work_id y = Some y)
            (values_on work_key (st_scheduled_work s))) as Hall.
  { apply Forall_forall. intros y [j Hj]%elem_of_values_on.
    pose proof (wf_work_key _ (wf_sched _ (durable_wf _ Hd)) _ _ Hj) as E. cbn in E. by rewrite E. }
  induction Hall as [|y l Hy Hl IH]; [done|]. rewrite filter_cons. cbn.
  rewrite filter_app, <-IH. destruct (Hc _ _ Hy) as (c & Hcy & _).
  destruct (decide (work_work_id y = k)) as [E|Hne].
  - rewrite decide_False by naive_solver. rewrite Hcy. destruct (eqb_of _ _); [|done].
    rewrite filter_cons, decide_False by naive_solver. done.
  - rewrite decide_True by done. cbn. rewrite lookup_delete_ne, Hcy.
    + destruct (eqb_of _ _); [|done]. by rewrite filter_cons, decide_True.
    + intros E. destruct Hne. by eapply Hu.
Qed.

(** The three outcomes of a cancellation. *)
Lemma cancel_run owner id w :
  schedule_inv (durable_state w) → mp_read_only (w_store w) = false → is_empty owner = false →
  let s := durable_state w in
  cancel owner id w =
  match st_scheduled_work s !! id with
  | None => (Ok false, w)
  | Some x =>
    if eqb_of (work_owner_id x) owner then (Ok true, set_state (unscheduled id (work_command_id x) s) w)
    else (Err (PermissionError "scheduled work belongs to a different owner"), w)
  end.
Proof.
  cbv zeta. set (s := durable_state w). intros Hinv Hro Ho. pose proof Hinv as [Hd Hc Hu]. unfold cancel. rewrite tx_as_tx by auto.
  assert (Hbegin : uow_working (begin_uow s) = s) by done.
  destruct (st_scheduled_work s !! id) as [x|] eqn:Hx.
  - destruct (Hc _ _ Hx) as (c & Hk & Hco).
    pose proof (wf_work_key _ (wf_sched _ (durable_wf _ Hd)) _ _ Hx) as Hid. cbn in Hid.
    pose proof (wf_commands_key _ (wf_sched _ (durable_wf _ Hd)) _ _ Hk) as Hcid. cbn in Hcid.
    destruct (eqb_of (work_owner_id x) owner) eqn:Hox.
    + apply (proj1 (eqb_of_true _ _)) in Hox.
      assert (∃ u, cancel_body owner id (begin_uow s) = (Ok true, u)
                   ∧ uow_working u = unscheduled id (work_command_id x) s) as (u & Hb & E).
      { unfold cancel_body, get_scheduled_work, get_command, delete_scheduled_work, delete_command, write.
        eexists. split; [|shelve]. run. rewrite Hbegin, Hx.
        rewrite (proj2 (eqb_of_true _ _) Hox). run. rewrite Hbegin, Hk, Hco.
        rewrite (proj2 (eqb_of_true _ _) (f_equal Some Hox)). run. rewrite Hid, Hcid. reflexivity.
        Unshelve. done. }
      rewrite <-E. apply tx_apart; [done|done|exact Hb|by rewrite E..].
    + unfold tx, focus, transaction. rewrite Hro.
      replace (cancel_body owner id (begin_uow (mp_state (w_store w))))
        with (@Err bool (PermissionError "scheduled work belongs to a different owner"), begin_uow s).
      { by destruct w. }
      symmetry. unfold cancel_body, get_scheduled_work. run. change (mp_state (w_store w)) with s.
      rewrite Hbegin, Hx, Hox. by run.
  - rewrite <-(set_state_same w) at 2. eapply tx_run; [done| |].
    + unfold cancel_body, get_scheduled_work. run. change (durable_state w) with s. rewrite Hbegin, Hx. done.
    + apply commit_ok; apply Hd.
Qed.

Lemma cancel_state owner id w :
  schedule_inv (durable_state w) → mp_read_only (w_store w) = false → is_empty owner = false →
  let w' := (cancel owner id w).2 in
  w' = w ∨ ∃ x, st_scheduled_work (durable_state w) !! id = Some x
                ∧ w' = set_state (unscheduled id (work_command_id x) (durable_state w)) w.
Proof.
  intros Hinv Hro Ho. rewrite cancel_run by done. cbv zeta.
  destruct (st_scheduled_work _ !! id) as [x|] eqn:Hx; [|by left].
  destruct (eqb_of _ _); [|by left]. right. by exists x.
Qed.

Lemma item_key_due i j : key_le item_key i j → work_due_at (sched_work i) ≤ work_due_at (sched_work j).
Proof.
  unfold key_le, item_key, work_key, py_leb, py_compare, prod_pyord, py_compare, Z_pyord. cbn.
  by destruct (Z.compare_spec (work_due_at (sched_work i)) (work_due_at (sched_work j))); try lia.
Qed.

(** An identity that is not that of a work of the owner is not in its items. *)
Lemma items_absent owner s id :
  keyed work_work_id (st_scheduled_work s) → st_scheduled_work s !! id = None →
  filter (λ i, work_work_id (sched_work i) ≠ id) (items_of owner s) = items_of owner s.
Proof.
  intros Hk Hn. apply filter_all. intros [x c] ([k Hx] & _)%elem_of_items E. cbn in E.
  rewrite (Hk _ _ Hx) in E. congruence.
Qed.

Lemma items_without owner s id :
  durable s → ∀ x, work_owner_id x ≠ owner → st_scheduled_work s !! id = Some x →
  filter (λ i, work_work_id (sched_work i) ≠ id) (items_of owner s) = items_of owner s.
Proof.
  intros Hd x Hne Hx. apply filter_all. intros [y c] ([k Hy] & Hoy & _)%elem_of_items E. cbn in E.
  rewrite (wf_work_key _ (wf_sched _ (durable_wf _ Hd)) _ _ Hy) in E. congruence.
Qed.

(** ** Sequences of actions *)

(** What the owners' schedulers may do, and what may happen between their
    calls: backends attached and detached, and a crash that leaves the store. *)
Inductive schedule_action :=
  | Schedule (owner_id : string) (command : Command) (priority : Z)
  | Cancel (owner_id work_id : string)
  | CancelPending (owner_id entity_type entity_id name : string)
  | Attach
  | Detach
  | Restart (backend : B) (c : clock).

Definition act (a : schedule_action) w : world B :=
  match a with
  | Schedule owner c priority => if blank owner then w else (schedule owner c priority w).2
  | Cancel owner id => if blank owner then w else (cancel owner id w).2
  | CancelPending owner t i n => if blank owner then w else (cancel_pending owner t i n w).2
  | Attach => (attach_backend w).2
  | Detach => (detach_backend w).2
  | Restart b c => fresh_world (w_store w) b c
  end.

Definition run_actions (l : list schedule_action) w : world B := foldl (λ w a, act a w) w l.

(** The invariant of the durable state with a store that can be written. *)
Definition schedulable_store w : Prop :=
  schedule_inv (durable_state w) ∧ mp_read_only (w_store w) = false.

Lemma cancel_keeps owner id w :
  schedulable_store w → is_empty owner = false → schedulable_store (cancel owner id w).2.
Proof.
  intros [Hinv Hro] Ho.
  pose proof (cancel_bt owner id durable durable_tx_stable w (si_durable _ Hinv)) as Hd.
  destruct (cancel_state owner id w Hinv Hro Ho) as [E|(x & Hx & E)]; rewrite E in Hd |- *; [done|].
  split; [|done]. by apply unscheduled_inv.
Qed.

Lemma act_keeps a w : schedulable_store w → schedulable_store (act a w).
Proof.
  intros [Hinv Hro]. destruct a as [owner c priority|owner id|owner t i n| | |b c]; cbn [act].
  - destruct (blank owner) eqn:Ho; [done|].
    destruct (schedule_state owner c priority w Hinv Hro Ho) as [[Hs E]|[_ E]]; [|by rewrite E].
    split.
    + rewrite E. destruct Hs as (Hco & Hn & _).
      apply scheduled_inv; [done|done|done|done|by apply scheduled_durable].
    + assert (keeps writable (schedule (B:=B) owner c priority)) as Hk by (unfold schedule; solve_keeps).
      by apply Hk.
  - destruct (blank owner) eqn:Ho; [done|]. by apply cancel_keeps, blank_not_empty.
  - destruct (blank owner) eqn:Ho; [done|]. apply blank_not_empty in Ho.
    unfold cancel_pending, find_pending. rewrite run_assoc, (run_bind _ _ _ _ _ (pending_run owner w Hinv Hro Ho)).
    destruct (filter _ _) as [|item [|]]; run; [done| |done]. by apply cancel_keeps.
  - done.
  - done.
  - done.
Qed.

Lemma run_actions_keeps l w : schedulable_store w → schedulable_store (run_actions l w).
Proof. revert w. induction l as [|a l IH]; intros w Hw; [done|]. by apply IH, act_keeps. Qed.
End runs.

(** ** The in-memory queue *)

(** What [schedule] has been called with, numbered from [n]. *)
Fixpoint numbered (n : Z) (l : list (Command * Z)) : list _Scheduled :=
  match l with
  | [] => []
  | (c, p) :: l => mk_Scheduled (cmd_due_at c) p n c :: numbered (n + 1) l
  end.

Fixpoint heap_schedule_all (l : list (Command * Z)) : prog scheduler unit :=
  match l with
  | [] => mret tt
  | (c, p) :: l => heap_schedule c p ;; heap_schedule_all l
  end.

Definition push_key (x : Command * Z) : Z * Z := (cmd_due_at x.1, x.2).
Definition heap_push (x : _Scheduled) : Command * Z := (heap_command x, heap_priority x).

Lemma numbered_ge n l x : x ∈ numbered n l → n ≤ heap_sequence x ∧ heap_due_at x = cmd_due_at (heap_command x).
Proof.
  revert n. induction l as [|[c p] l IH]; intros n; cbn; [by intros ?%not_elem_of_nil|].
  intros [->|Hx]%elem_of_cons; [cbn; split; [lia|done]|]. specialize (IH _ Hx). split; [lia|apply IH].
Qed.

Lemma numbered_NoDup n l : NoDup (heap_key <$> numbered n l).
Proof.
  revert n. induction l as [|[c p] l IH]; intros n; cbn; constructor; [|by apply IH].
  intros (y & E & Hy%numbered_ge)%list_elem_of_fmap. unfold heap_key in E. cbn in E. injection E. lia.
Qed.

(** Among later pushes, the sequence number only breaks ties. *)
Lemma heap_key_leb x y :
  heap_due_at x = cmd_due_at (heap_command x) → heap_due_at y = cmd_due_at (heap_command y) →
  heap_sequence x < heap_sequence y →
  py_leb (heap_key x) (heap_key y) = py_leb (push_key (heap_push x)) (push_key (heap_push y)).
Proof.
  intros Hx Hy Hs. unfold heap_key, push_key, heap_push, py_leb, py_compare, prod_pyord, py_compare, Z_pyord.
  cbn. rewrite <-Hx, <-Hy. destruct (_ ?= _); try done. destruct (_ ?= _); try done.
  destruct (Z.compare_spec (heap_sequence x) (heap_sequence y)); try done; lia.
Qed.

Lemma sort_numbered n l : heap_push <$> sort_on heap_key (numbered n l) = sort_on push_key l.
Proof.
  revert n. induction l as [|[c p] l IH]; intros n; [done|].
  change (sort_on push_key ((c, p) :: l)) with (insert_on push_key (c, p) (sort_on push_key l)).
  cbn [numbered]. set (x := mk_Scheduled (cmd_due_at c) p n c).
  change (sort_on heap_key (x :: numbered (n + 1) l)) with (insert_on heap_key x (sort_on heap_key (numbered (n + 1) l))).
  rewrite <-(IH (n + 1)).
  assert (Forall (λ y, n < heap_sequence y ∧ heap_due_at y = cmd_due_at (heap_command y))
            (sort_on heap_key (numbered (n + 1) l))) as Hall.
  { apply Forall_forall. intros y Hy%elem_of_sort_on%numbered_ge. split; [lia|apply Hy]. }
  induction Hall as [|y k [Hn Hd] _ IHk]; [done|]. cbn.
  rewrite heap_key_leb by done. change (heap_push x) with (c, p).
  destruct (py_leb (push_key (c, p)) _); [done|]. cbn. by rewrite IHk.
Qed.

Lemma heap_schedule_run c p s :
  heap_schedule c p s
  = (Ok tt, mkScheduler (insert_on heap_key (mk_Scheduled (cmd_due_at c) p (Z.succ (heap_count s)) c) (heap s))
              (Z.succ (heap_count s))).
Proof. by destruct s. Qed.

Lemma heap_schedule_all_run l s :
  heap_schedule_all l s
  = (Ok tt, mkScheduler (foldl (λ h x, insert_on heap_key x h) (heap s) (numbered (heap_count s + 1) l))
              (heap_count s + Z.of_nat (length l))).
Proof.
  revert s. induction l as [|[c p] l IH]; intros s; cbn [heap_schedule_all numbered foldl length].
  - rewrite Z.add_0_r. by destruct s.
  - rewrite (run_bind _ _ _ _ _ (heap_schedule_run c p s)), IH. cbn. unfold Z.succ. do 2 f_equal; lia.
Qed.

Lemma foldl_insert_perm l h : foldl (λ h x, insert_on heap_key x h) h l ≡ₚ (h ++ l)%list.
Proof.
  revert h. induction l as [|x l IH]; intros h; cbn; [by rewrite app_nil_r|].
  rewrite IH, insert_on_perm. apply Permutation_middle.
Qed.

Lemma foldl_insert_sorted l h :
  StronglySorted (key_le heap_key) h → StronglySorted (key_le heap_key) (foldl (λ h x, insert_on heap_key x h) h l).
Proof. revert h. induction l as [|x l IH]; intros h Hh; [done|]. by apply IH, insert_on_sorted. Qed.

Lemma heap_sorted l : foldl (λ h x, insert_on heap_key x h) [] (numbered 1 l) = sort_on heap_key (numbered 1 l).
Proof.
  apply (sorted_perm_unique heap_key).
  - rewrite (fmap_Permutation heap_key _ _ (foldl_insert_perm (numbered 1 l) [])). apply numbered_NoDup.
  - rewrite foldl_insert_perm, sort_on_perm. done.
  - apply foldl_insert_sorted. constructor.
  - apply sort_on_sorted.
Qed.

(** The loop of [due] stops at the first later entry: on a sorted heap it splits
    the entries by their time. *)
Lemma pop_due_sorted at_ l :
  StronglySorted (key_le heap_key) l →
  pop_due at_ l = (filter (λ x, heap_due_at x ≤ at_) l, filter (λ x, ¬ heap_due_at x ≤ at_) l).
Proof.
  induction 1 as [|x l Hl IH Hx]; [done|]. cbn [pop_due]. rewrite !filter_cons, IH.
  destruct (heap_due_at x <=? at_) eqn:E.
  - apply Z.leb_le in E. by rewrite decide_True, (decide_False (P:=¬ _)) by naive_solver.
  - apply Z.leb_gt in E. rewrite decide_False, decide_True by lia.
    assert (∀ y, y ∈ l → ¬ heap_due_at y ≤ at_) as Hlate.
    { intros y Hy. apply (proj1 (Forall_forall _ _) Hx) in Hy. unfold key_le, heap_key, py_leb, py_compare, prod_pyord,
        py_compare, Z_pyord in Hy. cbn in Hy. destruct (Z.compare_spec (heap_due_at x) (heap_due_at y)); try done; lia. }
    rewrite filter_none by done. do 2 f_equal. clear -Hlate.
    induction l as [|y l IH]; [done|]. rewrite filter_cons, decide_True by (apply Hlate; constructor).
    f_equal. apply IH. intros z Hz. apply Hlate. by constructor.
Qed.

(** ** Properties *)

Section properties.
Context {B : Type} `{!TemporalBackend B, !SchedulingBackend B, !Uuid5}.
Implicit Types w : world B.

(** C30. Whatever the schedulers of all owners did, through crashes too, the
    pending work of an owner can be read: [pending] returns, in the order of
    execution, each of its works exactly once with its command; and [due] is the
    prefix of the items whose time has come. *)
Theorem pending_complete (l : list schedule_action) w owner at_ :
  schedule_inv (durable_state w) → mp_read_only (w_store w) = false → blank owner = false →
  let v := run_actions l w in
  ∃ items later,
    pending owner v = (Ok items, v) ∧
    StronglySorted (key_le item_key) items ∧
    NoDup ((λ i, work_work_id (sched_work i)) <$> items) ∧
    (∀ k x, st_scheduled_work (durable_state v) !! k = Some x → work_owner_id x = owner →
       ∃ c, st_commands (durable_state v) !! work_command_id x = Some c ∧ mkDurableScheduledItem x c ∈ items) ∧
    (∀ i, i ∈ items → work_owner_id (sched_work i) = owner
                      ∧ (∃ k, st_scheduled_work (durable_state v) !! k = Some (sched_work i))) ∧
    items = (filter (λ i, work_due_at (sched_work i) ≤ at_) items ++ later)%list ∧
    due owner at_ v = (Ok (filter (λ i, work_due_at (sched_work i) ≤ at_) items), v).
Proof.
  intros Hinv Hro Ho v. destruct (run_actions_keeps l w (conj Hinv Hro)) as [Hi Hr]. fold v in Hi, Hr.
  pose proof (pending_run owner v Hi Hr (blank_not_empty _ Ho)) as Hp.
  exists (items_of owner (durable_state v)), (filter (λ i, ¬ work_due_at (sched_work i) ≤ at_) (items_of owner (durable_state v))).
  split_and!; [done|apply items_sorted|apply items_NoDup, Hi|..].
  - intros k x Hx <-. destruct (si_command _ Hi _ _ Hx) as (c & Hc & _). exists c. split; [done|].
    apply elem_of_items. eauto.
  - intros [x c] (Hk & Hx & _)%elem_of_items. done.
  - apply (filter_prefix (key_le item_key)); [apply items_sorted|]. intros i j Hij Hi'. transitivity (work_due_at (sched_work j)); [|done].
    by apply item_key_due.
  - unfold due. by rewrite (run_bind _ _ _ _ _ Hp).
Qed.

(** C31. [schedule] inserts its command in the owner's agenda at the place of its
    time, priority and sequence number, which is above the owner's others, and
    leaves the agendas of the other owners alone; when the command cannot be
    scheduled it raises and changes nothing.  The backend is called, if one is
    attached, when all this is committed. *)
Theorem schedule_inserts owner c priority w :
  schedule_inv (durable_state w) → mp_read_only (w_store w) = false → blank owner = false →
  st_scheduled_work (durable_state w) !! work_id_of owner c = None →
  let x := work_of owner c priority (durable_state w) in
  let w' := (schedule owner c priority w).2 in
  (∀ y, y ∈ items_of owner (durable_state w) → work_sequence (sched_work y) < work_sequence x) ∧
  (¬ schedulable owner c w → ∃ e, schedule owner c priority w = (Err e, w)) ∧
  (schedulable owner c w →
     schedule owner c priority w
     = ((if w_attached w
         then on_backend (schedule_at (cmd_due_at c) (LateOnDue (mkDurableScheduledItem x c)) priority
                            [PStr "durable-work"; PStr (work_work_id x)])
         else mret tt) ;; mret x) (set_state (scheduled c x (durable_state w)) w)) ∧
  ∀ other items, blank other = false → pending other w = (Ok items, w) →
    pending other w'
    = (Ok (if bool_decide (schedulable owner c w ∧ other = owner)
           then insert_on item_key (mkDurableScheduledItem x c) items else items), w').
Proof.
  intros Hinv Hro Ho Hfresh x w'.
  split_and!; [|by apply schedule_refused|by apply schedule_run|].
  - intros [y d] ([k Hy] & Hoy & _)%elem_of_items. cbn. unfold next_sequence.
    assert (work_sequence y ≤ py_max_default 0
              (work_sequence <$> filter (λ x, work_owner_id x = owner) (scheduled_work (durable_state w)))); [|lia].
    apply py_max_default_ge, list_elem_of_fmap_2, list_elem_of_filter. split; [done|].
    apply elem_of_values_on. by exists k.
  - intros other items Hother Hp.
    rewrite (pending_run other w Hinv Hro (blank_not_empty _ Hother)) in Hp. injection Hp as <-.
    assert (schedulable_store w') as [Hi Hr].
    { pose proof (act_keeps (Schedule owner c priority) w (conj Hinv Hro)) as Hk. cbn in Hk. by rewrite Ho in Hk. }
    rewrite (pending_run other w' Hi Hr (blank_not_empty _ Hother)). do 2 f_equal.
    destruct (schedule_state owner c priority w Hinv Hro Ho) as [[Hs E]|[Hs E]]; fold w' in E; rewrite E.
    + rewrite items_scheduled by (done || apply Hs). change (work_owner_id (work_of owner c priority _)) with owner.
      unfold eqb_of. repeat case_bool_decide; naive_solver.
    + rewrite bool_decide_eq_false_2 by naive_solver. done.
Qed.

(** [cancel] removes exactly the named work of its owner from the agenda; a
    work already consumed is a miss, and the work of another owner a
    [PermissionError], which change nothing. *)
Theorem cancel_removes owner id w items :
  schedule_inv (durable_state w) → mp_read_only (w_store w) = false → blank owner = false →
  pending owner w = (Ok items, w) →
  let w' := (cancel owner id w).2 in
  pending owner w' = (Ok (filter (λ i, work_work_id (sched_work i) ≠ id) items), w') ∧
  (cancel owner id w).1
  = match st_scheduled_work (durable_state w) !! id with
    | None => Ok false
    | Some x => if eqb_of (work_owner_id x) owner then Ok true
                else Err (PermissionError "scheduled work belongs to a different owner")
    end ∧
  ((cancel owner id w).1 ≠ Ok true → w' = w) ∧
  cancel owner id w' = (match (cancel owner id w).1 with Ok _ => Ok false | Err e => Err e end, w').
Proof.
  intros Hinv Hro Ho Hp w'. apply blank_not_empty in Ho as He.
  rewrite (pending_run owner w Hinv Hro He) in Hp. injection Hp as <-.
  destruct (cancel_keeps owner id w (conj Hinv Hro) He) as [Hi Hr]. fold w' in Hi, Hr.
  rewrite (pending_run owner w' Hi Hr He), (cancel_run owner id w' Hi Hr He).
  pose proof (cancel_run owner id w Hinv Hro He) as E. cbv zeta in E.
  assert (∀ x, work_owner_id x ≠ owner → st_scheduled_work (durable_state w) !! id = Some x →
            filter (λ i, work_work_id (sched_work i) ≠ id) (items_of owner (durable_state w)) = items_of owner (durable_state w))
    as Hother by apply items_without, Hinv.
  destruct (st_scheduled_work (durable_state w) !! id) as [x|] eqn:Hx.
  - destruct (eqb_of (work_owner_id x) owner) eqn:Hox; unfold w' in *; rewrite E; cbn.
    + split_and!; [by rewrite <-(items_unscheduled owner _ id x Hinv Hx)|done|done|]. by rewrite lookup_delete_eq.
    + apply eqb_of_false in Hox. rewrite (Hother x Hox eq_refl), Hx, (proj2 (eqb_of_false _ _) Hox). done.
  - unfold w' in *; rewrite E; cbn. rewrite Hx. split_and!; try done. do 2 f_equal. symmetry.
    apply items_absent; [apply Hinv|done].
Qed.
End properties.

(** The in-memory queue is a stable sort: after any calls of [schedule] on an
    empty queue, [due] returns the commands whose time has come by time, then
    priority, then order of the calls, and keeps the others. *)
Theorem heap_stable (l : list (Command * Z)) (at_ : datetime) :
  let s := (heap_schedule_all l empty_scheduler).2 in
  (heap_due at_ s).1 = Ok (filter (λ c, cmd_due_at c ≤ at_) (sort_on push_key l).*1) ∧
  heap_push <$> heap (heap_due at_ s).2 = filter (λ x, ¬ cmd_due_at x.1 ≤ at_) (sort_on push_key l).
Proof.
  rewrite heap_schedule_all_run. cbn [snd heap heap_count empty_scheduler]. rewrite heap_sorted.
  unfold heap_due. run. cbn [heap]. rewrite pop_due_sorted by apply sort_on_sorted. cbn.
  rewrite <-(sort_numbered 1 l).
  assert (Forall (λ y, heap_due_at y = cmd_due_at (heap_command y)) (sort_on heap_key (numbered 1 l))) as Hall.
  { apply Forall_forall. intros y Hy%elem_of_sort_on%numbered_ge. apply Hy. }
  split; [f_equal|]; induction Hall as [|y k Hy _ IH]; try done; cbn [fmap list_fmap]; rewrite !filter_cons;
    cbn; rewrite <-Hy; case_decide; cbn; by rewrite ?IH.
Qed.

(** *** An agenda *)

#[local] Existing Instance plain_uuid5.

Definition alarm (id : string) (at_ : datetime) : Command :=
  mkCommand id "ring" "clock" "c1" at_ None None ∅ None None (Some "sim").

Definition agenda_actions : list (schedule_action (B:=queue_backend)) :=
  [Schedule "sim" (alarm "a" 20) 100; Schedule "sim" (alarm "b" 10) 100; Attach;
   Schedule "sim" (alarm "d" 30) 100; Schedule "other" (alarm "e" 5) 1; Cancel "sim" "unknown";
   Restart (new_queue_backend 0) (mkClock 0 1000000 0)].
Definition agenda : world queue_backend := run_actions agenda_actions new_process.
Definition agenda_items : list DurableScheduledItem := items_of "sim" (durable_state agenda).

Example agenda_order : (cmd_command_id ∘ sched_command) <$> agenda_items = ["b"; "a"; "d"].
Proof. vm_compute. reflexivity. Qed.

Lemma empty_schedule_inv : schedule_inv (durable_state new_process).
Proof.
  constructor; [exact durable_empty|apply map_Forall_empty|]. intros i j x y Hx. cbn in Hx.
  by rewrite lookup_empty in Hx.
Qed.

Lemma agenda_inv : schedulable_store agenda.
Proof. apply run_actions_keeps. split; [exact empty_schedule_inv|reflexivity]. Qed.

Lemma agenda_pending : pending "sim" agenda = (Ok agenda_items, agenda).
Proof. destruct agenda_inv. by apply pending_run. Qed.

Lemma pending_complete_witness :
  ∃ items later,
    pending "sim" agenda = (Ok items, agenda) ∧
    items = (filter (λ i, work_due_at (sched_work i) ≤ 10) items ++ later)%list ∧
    due "sim" 10 agenda = (Ok (filter (λ i, work_due_at (sched_work i) ≤ 10) items), agenda).
Proof.
  destruct (pending_complete agenda_actions new_process "sim" 10 empty_schedule_inv eq_refl eq_refl)
    as (items & later & H1 & _ & _ & _ & _ & H2 & H3).
  exists items, later. exact (conj H1 (conj H2 H3)).
Defined.

Lemma schedule_inserts_witness :
  pending "sim" (schedule "sim" (alarm "f" 15) 100 agenda).2
  = (Ok (insert_on item_key
           (mkDurableScheduledItem (work_of "sim" (alarm "f" 15) 100 (durable_state agenda)) (alarm "f" 15))
           agenda_items), (schedule "sim" (alarm "f" 15) 100 agenda).2).
Proof.
  destruct (schedule_inserts "sim" (alarm "f" 15) 100 agenda (proj1 agenda_inv) (proj2 agenda_inv) eq_refl)
    as (_ & _ & _ & H); [vm_compute; reflexivity|].
  specialize (H "sim" agenda_items eq_refl agenda_pending).
  rewrite bool_decide_eq_true_2 in H; [exact H|]. split; [|reflexivity].
  split; [reflexivity|]. split; [vm_compute; reflexivity|]. vm_compute. discriminate.
Defined.

Lemma cancel_removes_witness :
  let id := work_id_of "sim" (alarm "a" 20) in
  (cancel "sim" id agenda).1 = Ok true ∧
  pending "sim" (cancel "sim" id agenda).2
  = (Ok (filter (λ i, work_work_id (sched_work i) ≠ id) agenda_items), (cancel "sim" id agenda).2).
Proof.
  intros id.
  destruct (cancel_removes "sim" id agenda agenda_items (proj1 agenda_inv) (proj2 agenda_inv) eq_refl agenda_pending)
    as (H1 & H2 & _).
  split; [|exact H1]. rewrite H2. vm_compute. reflexivity.
Defined.
