(* ===== verification/Diagnostics.v ===== *)
(** * Diagnostics of the durable runtime

    [core/diagnostics.py]: one owner's durable records are counted, and every
    reference to a record that does not exist is an issue, as is every pending
    sink delivery that has failed. *)
From S2P Require Import Prelude Encoding Records Memory MemoryFacts World QueueBackend.
From S2P Require Import Scenarios Scheduling.
From stdpp Require Import pretty.
Open Scope string_scope.
Open Scope Z_scope.

Record DiagnosticIssue := mkDiagnosticIssue {
  iss_code : string;
  iss_message : string }.

Record RuntimeCounts := mkRuntimeCounts {
  cnt_events : nat;
  cnt_scheduled_work : nat;
  cnt_scenario_decisions : nat;
  cnt_scenario_activations : nat;
  cnt_resource_demands : nat;
  cnt_resource_reservations : nat;
  cnt_resource_release_intents : nat;
  cnt_store_items : nat;
  cnt_store_put_intents : nat;
  cnt_store_get_requests : nat;
  cnt_store_get_results : nat;
  cnt_container_operation_intents : nat;
  cnt_container_operation_results : nat;
  cnt_preemptive_resource_demands : nat;
  cnt_preemptive_resource_reservations : nat;
  cnt_preemptive_resource_release_intents : nat;
  cnt_resource_preemption_results : nat;
  cnt_sink_deliveries_pending : nat;
  cnt_sink_deliveries_failed : nat }.

Record RuntimeDiagnostics := mkRuntimeDiagnostics {
  diag_position : option SimulationPosition;
  diag_counts : RuntimeCounts;
  diag_issues : list DiagnosticIssue }.

Definition healthy (d : RuntimeDiagnostics) : bool := match diag_issues d with [] => true | _ => false end.

(** [_append_missing_reference_issues]: the issues of the records whose
    reference is not known. *)
Definition missing_reference_issues {A} (records : list A) (known : list string) (code : string)
    (reference_of : A → string) (message_of : A → string → string) : list DiagnosticIssue :=
  (λ r, mkDiagnosticIssue code (message_of r (reference_of r)))
    <$> filter (λ r, reference_of r ∉ known) records.

(** [_append_missing_command_issues], through [missing_command_ids]. *)
Definition missing_command_issues (s : state) (scheduled : list ScheduledWork) : list DiagnosticIssue :=
  let missing := missing_command_ids s (list_to_set (work_command_id <$> scheduled)) in
  (λ w, mkDiagnosticIssue "scheduled.command_missing"
          ("scheduled work " +:+ work_work_id w +:+ " references missing command " +:+ work_command_id w))
    <$> filter (λ w, work_command_id w ∈ missing) scheduled.

Definition resource_reference_issues (s : state) : list DiagnosticIssue :=
  let names := rdef_name <$> resource_definitions s in
  let code := "resource.definition_missing" in
  (missing_reference_issues (resource_demands s) names code dem_resource_name
     (λ d n, "resource demand " +:+ dem_request_id d +:+ " references unknown resource " +:+ n)
   ++ missing_reference_issues (resource_reservations s) names code rsv_resource_name
     (λ r n, "resource reservation " +:+ rsv_reservation_id r +:+ " references unknown resource " +:+ n)
   ++ missing_reference_issues (resource_release_intents s) names code rel_resource_name
     (λ i n, "resource release intent " +:+ rel_intent_id i +:+ " references unknown resource " +:+ n))%list.

Definition store_reference_issues (s : state) : list DiagnosticIssue :=
  let names := sdef_name <$> store_definitions s in
  let code := "store.definition_missing" in
  (missing_reference_issues (store_items s) names code item_store_name
     (λ i n, "store item " +:+ item_item_id i +:+ " references unknown store " +:+ n)
   ++ missing_reference_issues (store_put_intents s) names code put_store_name
     (λ i n, "store put intent " +:+ put_item_id i +:+ " references unknown store " +:+ n)
   ++ missing_reference_issues (store_get_requests s) names code get_store_name
     (λ r n, "store get request " +:+ get_request_id r +:+ " references unknown store " +:+ n)
   ++ missing_reference_issues (store_get_results s) names code got_store_name
     (λ r n, "store get result " +:+ got_request_id r +:+ " references unknown store " +:+ n))%list.

Definition container_reference_issues (s : state) : list DiagnosticIssue :=
  let names := cdef_name <$> container_definitions s in
  let code := "container.definition_missing" in
  (missing_reference_issues (container_states s) names code cst_name
     (λ _ n, "container state " +:+ n +:+ " has no definition")
   ++ missing_reference_issues (container_operation_intents s) names code cint_container_name
     (λ i n, "container intent " +:+ cint_request_id i +:+ " references unknown container " +:+ n)
   ++ missing_reference_issues (container_operation_results s) names code cres_container_name
     (λ r n, "container result " +:+ cres_request_id r +:+ " references unknown container " +:+ n))%list.

Definition preemptive_reference_issues (s : state) : list DiagnosticIssue :=
  let names := pdef_name <$> preemptive_resource_definitions s in
  let code := "preemptive.definition_missing" in
  (missing_reference_issues (preemptive_resource_demands s) names code pdem_resource_name
     (λ d n, "preemptive demand " +:+ pdem_request_id d +:+ " references unknown resource " +:+ n)
   ++ missing_reference_issues (preemptive_resource_reservations s) names code prsv_resource_name
     (λ r n, "preemptive reservation " +:+ prsv_reservation_id r +:+ " references unknown resource " +:+ n)
   ++ missing_reference_issues (preemptive_resource_release_intents s) names code prel_resource_name
     (λ i n, "preemptive release intent " +:+ prel_intent_id i +:+ " references unknown resource " +:+ n))%list.

(** [_sink_delivery_health]: the pending deliveries, and those that have failed. *)
Definition sink_delivery_health (deliveries : list SinkDelivery) : list SinkDelivery * list SinkDelivery :=
  let pending := filter (λ d, sdel_status d = "pending") deliveries in
  (pending, filter (λ d, sdel_last_error d ≠ None) pending).

(** The text of an issue; the [repr] of a sink's name, quoted here for names
    without quotes and escapes. *)
Definition sink_issue (d : SinkDelivery) : DiagnosticIssue :=
  mkDiagnosticIssue "sink.delivery_failed"
    ("sink delivery " +:+ sdel_delivery_id d +:+ " to '" +:+ sdel_sink_name d +:+ "' failed: "
       +:+ default "None" (sdel_last_error d)).

Definition scheduled_of (owner_id : string) (s : state) : list ScheduledWork :=
  filter (λ w, work_owner_id w = owner_id) (scheduled_work s).

Definition issues_of (owner_id : string) (s : state) : list DiagnosticIssue :=
  (missing_command_issues s (scheduled_of owner_id s) ++ resource_reference_issues s ++ store_reference_issues s
   ++ container_reference_issues s ++ preemptive_reference_issues s
   ++ (sink_issue <$> (sink_delivery_health (sink_deliveries s None None)).2))%list.

Definition counts_of (owner_id : string) (s : state) (events : nat) (scenario : option ScenarioRuntimeState) : RuntimeCounts :=
  let sinks := sink_delivery_health (sink_deliveries s None None) in
  mkRuntimeCounts events (length (scheduled_of owner_id s))
    (match scenario with None => 0%nat | Some x => length (scn_decisions x) end)
    (match scenario with None => 0%nat | Some x => length (scn_activations x) end)
    (length (resource_demands s)) (length (resource_reservations s)) (length (resource_release_intents s))
    (length (store_items s)) (length (store_put_intents s)) (length (store_get_requests s)) (length (store_get_results s))
    (length (container_operation_intents s)) (length (container_operation_results s))
    (length (preemptive_resource_demands s)) (length (preemptive_resource_reservations s))
    (length (preemptive_resource_release_intents s)) (length (resource_preemption_results s))
    (length sinks.1) (length sinks.2).

(** [collect_runtime_diagnostics], over a snapshot of the store. *)
Definition collect_runtime_diagnostics (owner_id : string) (s : state) : res RuntimeDiagnostics :=
  fail_if (blank owner_id) (ValueError "owner_id must not be empty") ;;
  event_count ← count_events s owner_id ;
  scenario ← scenario_state s owner_id ;
  position ← simulation_position s owner_id ;
  mret (mkRuntimeDiagnostics position (counts_of owner_id s event_count scenario) (issues_of owner_id s)).

(** ** Facts *)

(** The references of the durable records: what the diagnostics look for. *)
Record referenced (s : state) : Prop := {
  ref_demands : refers dem_resource_name (st_resource_demands s) (st_resource_definitions s);
  ref_reservations : refers rsv_resource_name (st_resource_reservations s) (st_resource_definitions s);
  ref_releases : refers rel_resource_name (st_resource_release_intents s) (st_resource_definitions s);
  ref_items : refers item_store_name (st_store_items s) (st_store_definitions s);
  ref_puts : refers put_store_name (st_store_put_intents s) (st_store_definitions s);
  ref_gets : refers get_store_name (st_store_get_requests s) (st_store_definitions s);
  ref_gots : refers got_store_name (st_store_get_results s) (st_store_definitions s);
  ref_states : refers cst_name (st_container_states s) (st_container_definitions s);
  ref_intents : refers cint_container_name (st_container_operation_intents s) (st_container_definitions s);
  ref_results : refers cres_container_name (st_container_operation_results s) (st_container_definitions s);
  ref_pdemands : refers pdem_resource_name (st_preemptive_resource_demands s) (st_preemptive_resource_definitions s);
  ref_preservations : refers prsv_resource_name (st_preemptive_resource_reservations s) (st_preemptive_resource_definitions s);
  ref_preleases : refers prel_resource_name (st_preemptive_resource_release_intents s) (st_preemptive_resource_definitions s) }.

(** Every work of the owner has its command; no pending sink delivery has failed. *)
Definition commanded (owner_id : string) (s : state) : Prop :=
  ∀ k w, st_scheduled_work s !! k = Some w → work_owner_id w = owner_id → is_Some (st_commands s !! work_command_id w).
Definition sinks_sound (s : state) : Prop :=
  ∀ k d, st_sink_deliveries s !! k = Some d → sdel_status d = "pending" → sdel_last_error d = None.

Lemma fmap_nil_filter {A B} (f : A → B) (P : A → Prop) `{∀ x, Decision (P x)} (l : list A) :
  f <$> filter P l = [] ↔ ∀ x, x ∈ l → ¬ P x.
Proof.
  split.
  - intros E%fmap_nil_inv x Hx Px. assert (x ∈ filter P l) as Hin by (by apply list_elem_of_filter). rewrite E in Hin.
    by apply not_elem_of_nil in Hin.
  - intros Hl. by rewrite filter_none.
Qed.

(** No missing reference: every record refers to a definition. *)
Lemma missing_references_nil {A D} (records : list A) (m : gmap string A) (defs : list D) (d : gmap string D)
    (name : D → string) code (f : A → string) msg :
  (∀ x, x ∈ records ↔ ∃ k, m !! k = Some x) → (∀ y, y ∈ defs ↔ ∃ k, d !! k = Some y) → keyed name d →
  missing_reference_issues records (name <$> defs) code f msg = [] ↔ refers f m d.
Proof.
  intros Hr Hd Hk. unfold missing_reference_issues. rewrite fmap_nil_filter. split.
  - intros H k x Hx. specialize (H x (proj2 (Hr x) (ex_intro _ k Hx))).
    apply dec_stable, list_elem_of_fmap in H as (y & E & [j Hy]%Hd). rewrite E, (Hk _ _ Hy : name y = j). eauto.
  - intros H x [k Hx]%Hr Hn. destruct (H k x Hx) as [y Hy]. apply Hn. rewrite <-(Hk _ _ Hy : name y = _).
    apply list_elem_of_fmap_2, Hd. eauto.
Qed.

Ltac solve_references :=
  repeat apply Morphisms_Prop.and_iff_morphism; apply missing_references_nil; try done; intros;
    first [apply elem_of_values_on|apply elem_of_sorted_values].

Lemma resource_issues_nil s :
  keyed rdef_name (st_resource_definitions s) →
  resource_reference_issues s = [] ↔
  refers dem_resource_name (st_resource_demands s) (st_resource_definitions s)
  ∧ refers rsv_resource_name (st_resource_reservations s) (st_resource_definitions s)
  ∧ refers rel_resource_name (st_resource_release_intents s) (st_resource_definitions s).
Proof.
  intros Hk. unfold resource_reference_issues. rewrite !app_nil. solve_references.
Qed.

Lemma store_issues_nil s :
  keyed sdef_name (st_store_definitions s) →
  store_reference_issues s = [] ↔
  refers item_store_name (st_store_items s) (st_store_definitions s)
  ∧ refers put_store_name (st_store_put_intents s) (st_store_definitions s)
  ∧ refers get_store_name (st_store_get_requests s) (st_store_definitions s)
  ∧ refers got_store_name (st_store_get_results s) (st_store_definitions s).
Proof.
  intros Hk. unfold store_reference_issues. rewrite !app_nil. solve_references.
Qed.

Lemma container_issues_nil s :
  keyed cdef_name (st_container_definitions s) →
  container_reference_issues s = [] ↔
  refers cst_name (st_container_states s) (st_container_definitions s)
  ∧ refers cint_container_name (st_container_operation_intents s) (st_container_definitions s)
  ∧ refers cres_container_name (st_container_operation_results s) (st_container_definitions s).
Proof.
  intros Hk. unfold container_reference_issues. rewrite !app_nil. solve_references.
Qed.

Lemma preemptive_issues_nil s :
  keyed pdef_name (st_preemptive_resource_definitions s) →
  preemptive_reference_issues s = [] ↔
  refers pdem_resource_name (st_preemptive_resource_demands s) (st_preemptive_resource_definitions s)
  ∧ refers prsv_resource_name (st_preemptive_resource_reservations s) (st_preemptive_resource_definitions s)
  ∧ refers prel_resource_name (st_preemptive_resource_release_intents s) (st_preemptive_resource_definitions s).
Proof.
  intros Hk. unfold preemptive_reference_issues. rewrite !app_nil. solve_references.
Qed.

Lemma command_issues_nil owner s : missing_command_issues s (scheduled_of owner s) = [] ↔ commanded owner s.
Proof.
  unfold missing_command_issues. rewrite fmap_nil_filter. unfold scheduled_of, missing_command_ids. split.
  - intros H k w Hw Ho. assert (w ∈ filter (λ w, work_owner_id w = owner) (scheduled_work s)) as Hin.
    { apply list_elem_of_filter. split; [done|]. apply elem_of_values_on. eauto. }
    apply dec_stable. intros Hn. apply (H w Hin). apply elem_of_difference. split.
    + apply elem_of_list_to_set, list_elem_of_fmap_2, Hin.
    + by rewrite elem_of_dom.
  - intros H w [Ho [k Hw]%elem_of_values_on]%list_elem_of_filter [_ Hd]%elem_of_difference.
    apply Hd, elem_of_dom. by eapply H.
Qed.

Lemma sink_issues_nil s : sink_issue <$> (sink_delivery_health (sink_deliveries s None None)).2 = [] ↔ sinks_sound s.
Proof.
  cbn. rewrite fmap_nil_filter. split.
  - intros H k d Hd Hp. apply dec_stable. apply H. apply list_elem_of_filter. split; [done|].
    unfold sink_deliveries. apply list_elem_of_filter. split; [by split; left|]. apply elem_of_values_on. eauto.
  - intros H d [Hp [_ [k Hd]%elem_of_values_on]%list_elem_of_filter]%list_elem_of_filter Hn. apply Hn. by eapply H.
Qed.

Lemma issues_nil owner s :
  durable s → issues_of owner s = [] ↔ commanded owner s ∧ referenced s ∧ sinks_sound s.
Proof.
  intros Hd. unfold issues_of. rewrite !app_nil, command_issues_nil, resource_issues_nil, store_issues_nil,
    container_issues_nil, preemptive_issues_nil, sink_issues_nil by (apply Hd).
  split; [intros; split_and!; [tauto|constructor; tauto|tauto]|intros (? & [] & ?); tauto].
Qed.

(** The diagnostics are exact: a store is reported healthy for an owner iff
    every scheduled work of the owner has its command, every record of the
    resources, stores, containers and preemptive resources refers to a
    definition that exists, and no pending sink delivery has failed. *)
Theorem diagnostics_exact owner s d :
  durable s → collect_runtime_diagnostics owner s = Ok d →
  healthy d = true ↔ commanded owner s ∧ referenced s ∧ sinks_sound s.
Proof.
  intros Hd E. rewrite <-(issues_nil _ _ Hd). unfold collect_runtime_diagnostics in E. symmetry in E. inv_prog.
  unfold healthy. cbn [diag_issues]. by destruct (issues_of owner s).
Qed.

(** What can be wrong with a store that the schedulers and managers keep:
    the diagnostics return, and report exactly the release intents whose
    resource has no definition, and the pending sink deliveries that have
    failed.  No work lacks its command and no other reference dangles; and the
    counts are those of the dictionaries. *)
Theorem durable_diagnosis owner s :
  schedule_inv s → blank owner = false →
  ∃ d, collect_runtime_diagnostics owner s = Ok d
  ∧ diag_issues d =
      (missing_reference_issues (resource_release_intents s) (rdef_name <$> resource_definitions s)
         "resource.definition_missing" rel_resource_name
         (λ i n, "resource release intent " +:+ rel_intent_id i +:+ " references unknown resource " +:+ n)
       ++ missing_reference_issues (preemptive_resource_release_intents s) (pdef_name <$> preemptive_resource_definitions s)
         "preemptive.definition_missing" prel_resource_name
         (λ i n, "preemptive release intent " +:+ prel_intent_id i +:+ " references unknown resource " +:+ n)
       ++ (sink_issue <$> filter (λ d, sdel_last_error d ≠ None)
             (filter (λ d, sdel_status d = "pending") (sink_deliveries s None None))))%list
  ∧ cnt_events (diag_counts d) = length (filter (λ e, ev_owner_id e = Some owner) (st_events s))
  ∧ cnt_resource_demands (diag_counts d) = size (st_resource_demands s)
  ∧ cnt_resource_reservations (diag_counts d) = size (st_resource_reservations s)
  ∧ cnt_store_items (diag_counts d) = size (st_store_items s)
  ∧ cnt_store_get_requests (diag_counts d) = size (st_store_get_requests s)
  ∧ cnt_container_operation_intents (diag_counts d) = size (st_container_operation_intents s)
  ∧ cnt_preemptive_resource_reservations (diag_counts d) = size (st_preemptive_resource_reservations s).
Proof.
  intros Hs Ho. destruct (si_durable _ Hs) as [[_ Hr Hst Hco Hp] _ _].
  unfold collect_runtime_diagnostics, count_events, scenario_state, simulation_position, owned. rewrite Ho. cbn.
  eexists. split; [reflexivity|]. cbn [diag_issues diag_counts counts_of cnt_events]. split; [|split_and!].
  - unfold issues_of. rewrite (proj2 (command_issues_nil owner s)).
    2: { intros k w Hw <-. destruct (si_command _ Hs _ _ Hw) as (c & Hc & _). eauto. }
    rewrite (proj2 (store_issues_nil s (wf_sdef_key _ Hst))) by (split_and!; apply Hst).
    rewrite (proj2 (container_issues_nil s (wf_cdef_key _ Hco))) by (split_and!; apply Hco).
    unfold resource_reference_issues, preemptive_reference_issues.
    rewrite (proj2 (missing_references_nil (resource_demands s) (st_resource_demands s) (resource_definitions s) (st_resource_definitions s) _ _ _ _
                      (elem_of_values_on _ _) (elem_of_sorted_values _) (wf_rdef_key _ Hr))) by apply Hr.
    rewrite (proj2 (missing_references_nil (resource_reservations s) (st_resource_reservations s) (resource_definitions s)
                      (st_resource_definitions s)
                      _ _ _ _ (elem_of_sorted_values _) (elem_of_sorted_values _) (wf_rdef_key _ Hr))) by apply Hr.
    rewrite (proj2 (missing_references_nil (preemptive_resource_demands s) (st_preemptive_resource_demands s) (preemptive_resource_definitions s)
                      (st_preemptive_resource_definitions s) _ _ _ _
                      (elem_of_values_on _ _) (elem_of_sorted_values _) (wf_pdef_key _ Hp))) by apply Hp.
    rewrite (proj2 (missing_references_nil (preemptive_resource_reservations s) (st_preemptive_resource_reservations s) (preemptive_resource_definitions s)
                      (st_preemptive_resource_definitions s) _ _ _ _
                      (elem_of_values_on _ _) (elem_of_sorted_values _) (wf_pdef_key _ Hp))) by apply Hp.
    reflexivity.
  - done.
  - apply length_values_on.
  - apply length_sorted_values.
  - apply length_values_on.
  - apply length_values_on.
  - apply length_values_on.
  - apply length_values_on.
Qed.

(** ** The diagnosis of a yard

    The agenda of the clock, and the release of a crane that has no definition. *)
#[local] Existing Instance plain_uuid5.

Definition stray_release : ResourceReleaseIntent := mkResourceReleaseIntent "r1" "v1" "crane" 40.
Definition with_release (x : ResourceReleaseIntent) (s : state) : state :=
  s <| st_resource_release_intents := {[ rel_intent_id x := x ]} |>.

Lemma with_release_inv x s : schedule_inv s → schedule_inv (with_release x s).
Proof.
  intros [[[[] [] [] [] []] ??] Hc Hu]. repeat constructor; try assumption. by apply map_Forall_singleton.
Qed.

Definition yard : state := with_release stray_release (durable_state agenda).
Lemma yard_inv : schedule_inv yard.
Proof. exact (with_release_inv stray_release (durable_state agenda) (proj1 agenda_inv)). Qed.

Lemma diagnostics_exact_witness :
  ∃ d, collect_runtime_diagnostics "sim" yard = Ok d ∧ healthy d = false
  ∧ (healthy d = true ↔ commanded "sim" yard ∧ referenced yard ∧ sinks_sound yard).
Proof.
  eexists. split; [reflexivity|]. split; [vm_compute; reflexivity|].
  apply (diagnostics_exact "sim" yard); [exact (si_durable _ yard_inv)|reflexivity].
Defined.

Lemma durable_diagnosis_witness :
  ∃ d, collect_runtime_diagnostics "sim" yard = Ok d
  ∧ diag_issues d = [mkDiagnosticIssue "resource.definition_missing"
                       "resource release intent r1 references unknown resource crane"].
Proof.
  destruct (durable_diagnosis "sim" yard yard_inv eq_refl) as (d & E & Hi & _). exists d. split; [exact E|].
  rewrite Hi. vm_compute. reflexivity.
Defined.
