(* ===== verification/Factories.v ===== *)
(** * Factories

    [src/src/sose/factories/]: commands, events and entities with deterministic
    identities and causal metadata, and the buffer of emitted events of
    [SimulationContext] ([core/context.py]).  The state of a factory is its
    counter, in the world; its owner, bound once by the engine, is a parameter. *)
From S2P Require Import Prelude Encoding Records Memory MemoryFacts World.
Open Scope string_scope.
Open Scope Z_scope.

(** [a or b] on optional strings. *)
Definition str_or (a b : option string) : option string :=
  match a with
  | Some s => if is_empty s then b else a
  | None => b
  end.

(** [key or default]. *)
Definition key_or (key : option (list pyobj)) (dflt : list pyobj) : list pyobj :=
  match key with
  | Some (x :: l) => x :: l
  | _ => dflt
  end.

(** [Cause]. *)
Inductive cause :=
  | ByCommand (c : Command)
  | ByEvent (e : DomainEvent).

Definition _message_id (message : option cause) : option string :=
  match message with
  | None => None
  | Some (ByEvent e) => str_or (Some (ev_event_id e)) None
  | Some (ByCommand c) => Some (cmd_command_id c)
  end.

Definition _correlation_id (message : option cause) : option string :=
  match message with
  | None => None
  | Some (ByEvent e) => str_or (ev_correlation_id e) (_message_id message)
  | Some (ByCommand c) => str_or (cmd_correlation_id c) (_message_id message)
  end.

(** [bind_owner] of both factories: the owner bound afterwards. *)
Definition bind_owner (bound : option string) (owner_id : string) : res (option string) :=
  fail_if (blank owner_id) (ValueError "owner_id must not be empty") ;;
  fail_if (match bound with Some o => negb (eqb_of o owner_id) | None => false end)
    (ValueError "factory cannot be rebound to another owner") ;;
  mret (Some owner_id).

Section factories.
Context {B : Type} `{!Uuid5}.
(** [self._owner_id]. *)
Context (owner_id : option string).
Abbreviation P := (prog (world B)).

(** [identity]: the parts, after the owner if there is one. *)
Definition identity (identity_parts : list pyobj) : list pyobj :=
  match owner_id with Some o => PStr o :: identity_parts | None => identity_parts end.

(** [identity_parts] of a message without a key. *)
Definition unkeyed (tick : Z) (target : Entity) (name : string) (cause_id : option string) (sequence : Z) :
    list pyobj :=
  [PInt tick; PStr (ent_entity_type target); PStr (ent_id target); PStr name;
   PStr (default "root" (str_or cause_id None)); PInt sequence].

(** [CommandFactory.create]; [payload] is [payload] overridden by [payload_fields]. *)
Definition command_create (name : string) (target : Entity) (due_at : option datetime)
    (caused_by : option cause) (correlation_id : option string) (payload payload_fields : mapping)
    (key : option (list pyobj)) : P Command :=
  modify (λ w, w <| w_commands_made ::= Z.succ |>) ;;
  c ← gets w_clock ;
  sequence ← gets w_commands_made ;
  let cause_id := _message_id caused_by in
  let correlation := str_or correlation_id (_correlation_id caused_by) in
  let identity_parts := key_or key (unkeyed (clk_tick c) target name cause_id sequence) in
  let command_id := deterministic_id "command" (identity identity_parts) in
  mret (mkCommand command_id name (ent_entity_type target) (ent_id target) (default (clk_now c) due_at)
          (Some (clk_now c)) (Some (clk_tick c)) (payload_fields ∪ payload) cause_id
          (str_or correlation (Some command_id)) owner_id).

(** [EventFactory.create]. *)
Definition event_create (name : string) (entity : Entity) (caused_by : option cause)
    (correlation_id : option string) (payload payload_fields : mapping)
    (key : option (list pyobj)) : P DomainEvent :=
  modify (λ w, w <| w_events_made ::= Z.succ |>) ;;
  c ← gets w_clock ;
  sequence ← gets w_events_made ;
  let cause_id := _message_id caused_by in
  let correlation := str_or correlation_id (_correlation_id caused_by) in
  let identity_parts := key_or key (unkeyed (clk_tick c) entity name cause_id sequence) in
  let event_id := deterministic_id "event" (identity identity_parts) in
  mret (mkDomainEvent event_id name (ent_entity_type entity) (ent_id entity) (clk_now c)
          (Some (clk_tick c)) (payload_fields ∪ payload) cause_id
          (str_or correlation (Some event_id)) owner_id).

(** [EventFactory.transition]. *)
Definition transition (entity : Entity) (trigger from_state to_state : string)
    (caused_by : option cause) : P DomainEvent :=
  c ← gets w_clock ;
  event_create "entity.state_transition" entity caused_by None ∅
    (<["trigger" := PStr trigger]> (<["from_state" := PStr from_state]> {["to_state" := PStr to_state]}))
    (Some [PInt (clk_tick c); PStr (ent_entity_type entity); PStr (ent_id entity);
           PInt (ent_version entity); PStr trigger; PStr from_state; PStr to_state]).

(** [EventFactory.exception]. *)
Definition exception (name : string) (entity : Entity) (caused_by : option cause) (payload : mapping) :
    P DomainEvent :=
  event_create ("exception." +:+ name) entity caused_by None ∅ payload None.

(** [EntityFactory.create] for a class whose type is named. *)
Definition entity_create (key : list pyobj) (entity_type st : string) (attributes : mapping)
    (created_at : option datetime) : P Entity :=
  raise_if (match key with [] => true | _ => false end)
    (ValueError "entity key must contain at least one part") ;;
  raise_if (is_empty entity_type) (ValueError "entity_type is required") ;;
  c ← gets w_clock ;
  let at_ := default (clk_now c) created_at in
  mret (mkEntity (deterministic_id "entity" (PStr entity_type :: key)) entity_type st attributes
          (Some at_) (Some at_) 0).

(** [SimulationContext.emit], [drain_events]. *)
Definition emit (event : DomainEvent) : P unit :=
  modify (λ w, w <| w_pending ::= λ l, (l ++ [event])%list |>).

Definition drain_events : P (list DomainEvent) :=
  events ← gets w_pending ;
  modify (λ w, w <| w_pending := [] |>) ;;
  mret events.

(** *** [TransitionRecorder] ([statecharts/base.py])

    The listener of a chart: it works on the entity, which is the chart's model,
    and on the context. *)

Definition on_world {A} (m : P A) : prog (Entity * world B) A :=
  focus snd (λ w ew, (ew.1, w)) m.

Definition after_transition (caused_by : option cause) (event source target : string) :
    prog (Entity * world B) unit :=
  at_ ← gets (λ ew, clk_now (w_clock ew.2)) ;
  modify (λ ew, (Entity_touch ew.1 at_, ew.2)) ;;
  entity ← gets fst ;
  e ← on_world (transition entity event source target caused_by) ;
  on_world (emit e).
End factories.
