(* ===== verification/Warehouse.v ===== *)
(** * The domain warehouse

    [src/src/sose/domain/]: the business state kept apart from the durable
    execution state ([warehouse.py]), the outbox that carries mutations to it
    ([outbox.py], [delivery.py], [projector.py]) and the view that hides the
    delay ([entity_store.py]).  [DomainWarehouse] is the protocol of the code and
    [DomainWarehouseLaws] what it promises; [MemoryDomainWarehouse] implements
    them, and the clients' theorems use the promises only. *)
From S2P Require Import Prelude Encoding Records Memory MemoryFacts.
From stdpp Require Import pretty.
Open Scope string_scope.
Open Scope Z_scope.

(** ** The protocol *)

Inductive DomainApplyResult := APPLIED | REPLAYED | SUPERSEDED.

Class DomainWarehouse (Wh : Type) := {
  wh_entity : Wh → string → string → option Entity;
  wh_apply : DomainMutation → prog Wh DomainApplyResult }.

(** The entity after a mutation: the newer of the two, the old one at a tie. *)
Definition newer (current : option Entity) (e : Entity) : Entity :=
  match current with
  | Some c => if ent_version c <? ent_version e then e else c
  | None => e
  end.

Definition is_about (e : Entity) (t i : string) : bool :=
  eqb_of (ent_entity_type e) t && eqb_of (ent_id e) i.

(** "Apply monotonically by entity version", and idempotently. *)
Class DomainWarehouseLaws (Wh : Type) `{DomainWarehouse Wh} (sound : Wh → Prop) : Prop := {
  wh_entity_key wh t i c : sound wh → wh_entity wh t i = Some c → is_about c t i = true;
  wh_apply_sound m : keeps sound (wh_apply m);
  wh_apply_err m wh e wh' : sound wh → wh_apply m wh = (Err e, wh') → wh' = wh;
  wh_apply_ok m wh r wh' : sound wh → wh_apply m wh = (Ok r, wh') →
    let e := mut_entity m in
    (∀ t i, wh_entity wh' t i
            = if is_about e t i then Some (newer (wh_entity wh t i) e) else wh_entity wh t i) ∧
    (∀ c, wh_entity wh (ent_entity_type e) (ent_id e) = Some c → ent_version c = ent_version e → c = e);
  wh_apply_again m wh r wh' : sound wh → wh_apply m wh = (Ok r, wh') →
    wh_apply m wh' = (Ok REPLAYED, wh') }.

(** ** [MemoryDomainWarehouse] *)

Record memory_warehouse := mkMemoryWarehouse {
  mw_entities : gmap (string * string) Entity;
  mw_mutations : gmap string DomainMutation }.
#[export] Instance memory_warehouse_eta : Eta memory_warehouse := λ w,
  mkMemoryWarehouse (mw_entities w) (mw_mutations w).

(** [MemoryDomainWarehouse()]. *)
Definition empty_warehouse : memory_warehouse := mkMemoryWarehouse ∅ ∅.

Definition warehouse_entity (wh : memory_warehouse) (entity_type entity_id : string) : option Entity :=
  mw_entities wh !! (entity_type, entity_id).

(** [entities]: sorted by type and identity, the dictionary's keys. *)
Definition warehouse_entities (wh : memory_warehouse) (entity_type : option string) : list Entity :=
  (filter (λ kv : (string * string) * Entity, entity_type = None ∨ entity_type = Some kv.1.1)
     (sort_on (λ kv : (string * string) * Entity, (ent_entity_type kv.2, ent_id kv.2))
        (map_to_list (mw_entities wh)))).*2.

Definition warehouse_mutation (wh : memory_warehouse) (mutation_id : string) : option DomainMutation :=
  mw_mutations wh !! mutation_id.

Definition remember (m : DomainMutation) : prog memory_warehouse unit :=
  modify (λ wh, wh <| mw_mutations ::= <[mut_mutation_id m := m]> |>).

Definition warehouse_apply (m : DomainMutation) : prog memory_warehouse DomainApplyResult :=
  existing ← gets (λ wh, mw_mutations wh !! mut_mutation_id m) ;
  match existing with
  | Some x =>
    raise_if (negb (eqb_of x m))
      (ValueError ("domain mutation identity conflict: " +:+ mut_mutation_id m)) ;;
    mret REPLAYED
  | None =>
    let e := mut_entity m in
    let k := (ent_entity_type e, ent_id e) in
    current ← gets (λ wh, mw_entities wh !! k) ;
    match current with
    | Some c =>
      if ent_version e <? ent_version c then remember m ;; mret SUPERSEDED
      else if ent_version e =? ent_version c then
        raise_if (negb (eqb_of e c))
          (ValueError ("conflicting domain entity version: " +:+ ent_entity_type e +:+ "/" +:+ ent_id e
                         +:+ " v" +:+ pretty (ent_version e))) ;;
        remember m ;; mret REPLAYED
      else
        modify (λ wh, wh <| mw_entities ::= <[k := e]> |>) ;; remember m ;; mret APPLIED
    | None => modify (λ wh, wh <| mw_entities ::= <[k := e]> |>) ;; remember m ;; mret APPLIED
    end
  end.

#[export] Instance memory_domain_warehouse : DomainWarehouse memory_warehouse := {
  wh_entity := warehouse_entity;
  wh_apply := warehouse_apply }.

(** Every applied mutation is reflected by an entity at least as new. *)
Record warehouse_sound (wh : memory_warehouse) : Prop := {
  ws_key : map_Forall (λ k e, (ent_entity_type e, ent_id e) = k) (mw_entities wh);
  ws_id : map_Forall (λ k m, mut_mutation_id m = k) (mw_mutations wh);
  ws_reflected : map_Forall (λ _ m, let e := mut_entity m in
      ∃ c, mw_entities wh !! (ent_entity_type e, ent_id e) = Some c ∧ ent_version e ≤ ent_version c
           ∧ (ent_version c = ent_version e → c = e)) (mw_mutations wh) }.

Lemma is_about_true e t i : is_about e t i = true ↔ (ent_entity_type e, ent_id e) = (t, i).
Proof.
  unfold is_about. rewrite andb_true_iff, !eqb_of_true. split; [by intros [-> ->]|by intros [= -> ->]].
Qed.

(** The three ways of applying a mutation. *)
Lemma warehouse_apply_inv m wh r wh' :
  warehouse_apply m wh = (r, wh') →
  let e := mut_entity m in let k := (ent_entity_type e, ent_id e) in
  let kept := wh <| mw_mutations ::= <[mut_mutation_id m := m]> |> in
  (∃ x, r = Err x ∧ wh' = wh)
  ∨ (r = Ok REPLAYED ∧ wh' = wh ∧ mw_mutations wh !! mut_mutation_id m = Some m)
  ∨ (mw_mutations wh !! mut_mutation_id m = None ∧
     ((∃ c, mw_entities wh !! k = Some c ∧ wh' = kept
            ∧ (r = Ok SUPERSEDED ∧ ent_version e < ent_version c ∨ r = Ok REPLAYED ∧ c = e))
      ∨ (r = Ok APPLIED ∧ wh' = kept <| mw_entities ::= <[k := e]> |>
         ∧ ∀ c, mw_entities wh !! k = Some c → ent_version c < ent_version e))).
Proof.
  intros H. cbv zeta. unfold warehouse_apply, remember in H.
  inv_prog; guard_facts; subst; eauto; right; right; (split; [done|]).
  - left. eexists. split_and!; [done|done|]. left. split; [done|]. by apply Z.ltb_lt.
  - left. eexists. split_and!; [done|done|]. by right.
  - right. split_and!; [done|by destruct wh|]. intros c Hc. simplify_eq.
    match goal with H1 : (_ <? _) = false, H2 : (_ =? _) = false |- _ =>
      apply Z.ltb_ge in H1; apply Z.eqb_neq in H2 end. lia.
  - right. split_and!; [done|by destruct wh|]. intros c Hc. congruence.
Qed.

Lemma kept_sound m wh :
  warehouse_sound wh →
  (∃ c, mw_entities wh !! (ent_entity_type (mut_entity m), ent_id (mut_entity m)) = Some c
        ∧ ent_version (mut_entity m) ≤ ent_version c
        ∧ (ent_version c = ent_version (mut_entity m) → c = mut_entity m)) →
  warehouse_sound (wh <| mw_mutations ::= <[mut_mutation_id m := m]> |>).
Proof. intros [Hk Hi Hr] H. constructor; [done|by apply map_Forall_insert_2..]. Qed.

Lemma applied_sound m wh :
  warehouse_sound wh →
  let k := (ent_entity_type (mut_entity m), ent_id (mut_entity m)) in
  (∀ c, mw_entities wh !! k = Some c → ent_version c < ent_version (mut_entity m)) →
  warehouse_sound (wh <| mw_mutations ::= <[mut_mutation_id m := m]> |>
                      <| mw_entities ::= <[k := mut_entity m]> |>).
Proof.
  intros [Hk Hi Hr] k Hnew. constructor; cbn.
  - by apply map_Forall_insert_2.
  - by apply map_Forall_insert_2.
  - apply map_Forall_insert_2.
    + exists (mut_entity m). rewrite lookup_insert_eq. split_and!; [done|lia|done].
    + intros i n Hn. destruct (Hr _ _ Hn) as (c & Hc & Hle & Heq). cbn.
      destruct (decide (k = (ent_entity_type (mut_entity n), ent_id (mut_entity n)))) as [E|Hne].
      * exists (mut_entity m). rewrite E, lookup_insert_eq. rewrite <-E in Hc. apply Hnew in Hc.
        split_and!; [done|lia|lia].
      * exists c. by rewrite lookup_insert_ne.
Qed.

Lemma newer_same wh (e c : Entity) :
  mw_entities wh !! (ent_entity_type e, ent_id e) = Some c → ent_version e ≤ ent_version c →
  ∀ t i, mw_entities wh !! (t, i)
         = if is_about e t i then Some (newer (mw_entities wh !! (t, i)) e) else mw_entities wh !! (t, i).
Proof.
  intros Hc Hle t i. destruct (is_about e t i) eqn:Ha; [|done]. apply is_about_true in Ha as <-.
  rewrite Hc. unfold newer. by rewrite (proj2 (Z.ltb_ge _ _) Hle).
Qed.

#[export] Instance memory_warehouse_laws : DomainWarehouseLaws memory_warehouse warehouse_sound.
Proof.
  split; cbn [wh_entity wh_apply memory_domain_warehouse].
  - intros wh t i c Hs Hc. apply is_about_true. by apply (ws_key _ Hs) in Hc.
  - intros m wh Hs. destruct (warehouse_apply m wh) as [r wh'] eqn:E. cbn.
    apply warehouse_apply_inv in E as [(x & _ & ->)|[(_ & -> & _)|(_ & [(c & Hc & -> & Hv)|(_ & -> & Hv)])]].
    + done.
    + done.
    + apply kept_sound; [done|]. exists c. split_and!; [done|..]; naive_solver lia.
    + by apply applied_sound.
  - intros m wh e wh' Hs E. apply warehouse_apply_inv in E as [(x & _ & ->)|[(? & _)|(_ & [(c & _ & _ & Hv)|(? & _)])]];
      naive_solver.
  - intros m wh r wh' Hs E. set (e := mut_entity m). unfold warehouse_entity.
    apply warehouse_apply_inv in E as [(x & ? & _)|[(_ & -> & Hm)|(_ & [(c & Hc & -> & Hv)|(_ & -> & Hv)])]]; [done|..].
    + destruct (ws_reflected _ Hs _ _ Hm) as (c & Hc & Hle & Heq). fold e in Hc, Hle, Heq.
      split; [apply newer_same with c; [done|lia]|]. intros c' Hc'. simplify_eq. done.
    + fold e in Hc, Hv. split; [intros t i; cbn; apply (newer_same wh e c); [done|naive_solver lia]|].
      intros c' Hc' E. simplify_eq. naive_solver lia.
    + fold e in Hv |- *. split.
      * intros t i. cbn. destruct (is_about e t i) eqn:Ha.
        -- apply is_about_true in Ha as <-. rewrite lookup_insert_eq. unfold newer.
           destruct (mw_entities wh !! _) as [c|] eqn:Hc; [|done]. specialize (Hv c eq_refl).
           by rewrite (proj2 (Z.ltb_lt _ _) Hv).
        -- rewrite lookup_insert_ne; [done|]. intros E. apply is_about_true in E. congruence.
      * intros c Hc E. apply Hv in Hc. lia.
  - intros m wh r wh' Hs E.
    assert (mw_mutations wh' !! mut_mutation_id m = Some m) as Hm.
    { apply warehouse_apply_inv in E as [(x & ? & _)|[(_ & -> & Hm)|(_ & [(c & _ & -> & _)|(_ & -> & _)])]];
        [done|done|by cbn; rewrite lookup_insert_eq..]. }
    unfold warehouse_apply. run. rewrite Hm. rewrite (proj2 (eqb_of_true m m) eq_refl). by run.
Qed.

(** ** The outbox *)

Definition DomainMutation_new (mutation_id : string) (e : Entity) : res DomainMutation :=
  fail_if (is_empty mutation_id) (ValueError "mutation_id cannot be empty") ;;
  mret (mkDomainMutation mutation_id e).

Definition DomainDelivery_new (m : DomainMutation) (attempts : Z) (last_error : option string) :
    res DomainDelivery :=
  fail_if (attempts <? 0) (ValueError "domain delivery attempts must be >= 0") ;;
  mret (mkDomainDelivery m attempts last_error).

Definition mutation_conflict (m : DomainMutation) : exn :=
  ValueError ("domain mutation identity conflict: " +:+ mut_mutation_id m).

(** [DomainMutationOutbox.enqueue]. *)
Definition enqueue (m : DomainMutation) : uprog DomainDelivery :=
  delivery ← lift (DomainDelivery_new m 0 None) ;
  existing ← get_domain_delivery (mut_mutation_id m) ;
  match existing with
  | Some d =>
    raise_if (negb (eqb_of (ddel_mutation d) m)) (mutation_conflict m) ;;
    mret d
  | None =>
    save_domain_delivery delivery ;;
    mret delivery
  end.

(** The identity of a version of an entity. *)
Definition version_id `{!Uuid5} (e : Entity) : string :=
  deterministic_id "domain-entity-version"
    [PStr (ent_entity_type e); PStr (ent_id e); PInt (ent_version e)].

Section outbox.
Context {Wh : Type} `{!DomainWarehouse Wh, !Uuid5}.
Abbreviation P := (prog (persistence * Wh)).

(** [with self.persistence.transaction() as uow: body]; a reader of the
    persistence; a call of the warehouse. *)
Definition ptx {A} (body : uprog A) : P A := focus fst (λ p pw, (p, pw.2)) (transaction None body).
Definition preads {A} (f : state → A) : P A := gets (λ pw, f (mp_state pw.1)).
Definition on_warehouse {A} (m : prog Wh A) : P A := focus snd (λ wh pw, (pw.1, wh)) m.

Definition prepare (m : DomainMutation) : P DomainDelivery := ptx (enqueue m).

Definition outbox_pending : P (list DomainDelivery) := preads domain_deliveries.

(** The [except] branch of [deliver]. *)
Definition record_failure (current : DomainDelivery) (e : exn) : uprog unit :=
  failed ← lift (DomainDelivery_new (ddel_mutation current) (ddel_attempts current + 1) (Some (exn_text e))) ;
  latest ← get_domain_delivery (ddel_mutation_id current) ;
  match latest with
  | Some _ => save_domain_delivery failed
  | None => mret tt
  end.

Definition deliver (delivery : DomainDelivery) : P (option DomainApplyResult) :=
  current ← preads (λ s, domain_delivery s (ddel_mutation_id delivery)) ;
  match current with
  | None => mret None
  | Some current =>
    result ← attempt (on_warehouse (wh_apply (ddel_mutation current))) ;
    match result with
    | Err e => ptx (record_failure current e) ;; raise e
    | Ok result =>
      ptx (delete_domain_delivery (ddel_mutation_id current)) ;;
      mret (Some result)
    end
  end.

Definition flush : P Z :=
  deliveries ← outbox_pending ;
  sum_each deliveries (λ d, deliver d ;; mret 1).

(** *** [DomainWarehouseProjector] *)

Definition prepare_entities (identities : list (string * string)) : P Z :=
  sum_each identities (λ '(entity_type, entity_id),
    e ← preads (λ s, Memory.entity s entity_type entity_id) ;
    match e with
    | None => mret 0
    | Some e =>
      m ← lift (DomainMutation_new (version_id e) e) ;
      prepare m ;;
      mret 1
    end).

Definition sync_entities (identities : list (string * string)) : P Z :=
  prepare_entities identities ;;
  flush.

(** *** [WarehouseBackedEntityStore] *)

Definition _pending_entities_for (s : state) (t i : string) : list Entity :=
  (mut_entity ∘ ddel_mutation)
    <$> filter (λ d, is_about (mut_entity (ddel_mutation d)) t i = true) (domain_deliveries s).

Definition _latest_consistent_entity (candidates : list Entity) (t i : string) : res Entity :=
  let max_version := py_max_default 0 (ent_version <$> candidates) in
  match filter (λ e, ent_version e = max_version) candidates with
  | [] => Err (ValueError "max() iterable argument is empty")
  | x :: rest =>
    fail_if (existsb (λ e, negb (eqb_of e x)) rest)
      (RuntimeError ("conflicting domain entity version: " +:+ t +:+ "/" +:+ i
                       +:+ " v" +:+ pretty max_version)) ;;
    mret x
  end.

Definition entity_view (s : state) (wh : Wh) (t i : string) : res (option Entity) :=
  let candidates := (option_list (wh_entity wh t i) ++ _pending_entities_for s t i)%list in
  match candidates with
  | [] => Ok None
  | _ => e ← _latest_consistent_entity candidates t i ; mret (Some e)
  end.
End outbox.

(** ** The view *)

Lemma py_max_in d l : l ≠ [] → py_max_default d l ∈ l.
Proof.
  destruct l as [|x l]; [done|]. intros _. cbn. revert x. induction l as [|y l IH]; intros x; cbn; [by constructor|].
  specialize (IH (x `max` y)). destruct (Z.max_spec x y) as [[_ E]|[_ E]]; rewrite E in IH |- *; set_solver.
Qed.

(** [e] is the only newest of the candidates. *)
Definition newest (l : list Entity) (e : Entity) : Prop :=
  e ∈ l ∧ ∀ c, c ∈ l → ent_version c ≤ ent_version e ∧ (ent_version c = ent_version e → c = e).

Lemma latest_spec l t i e : _latest_consistent_entity l t i = Ok e ↔ newest l e.
Proof.
  unfold _latest_consistent_entity, newest. set (m := py_max_default 0 (ent_version <$> l)).
  assert (∀ c, c ∈ l → ent_version c ≤ m) as Hm.
  { intros c Hc. apply py_max_default_ge. by apply list_elem_of_fmap_2. }
  assert (∀ c, c ∈ filter (λ e, ent_version e = m) l ↔ ent_version c = m ∧ c ∈ l) as Hf
    by (intros c; by rewrite list_elem_of_filter).
  assert (∀ x rest, filter (λ e, ent_version e = m) l = x :: rest →
            existsb (λ e, negb (eqb_of e x)) rest = false ↔ ∀ c, c ∈ l → ent_version c = m → c = x) as Hex.
  { intros x rest E. rewrite E in Hf. rewrite <-not_true_iff_false, existsb_exists. split.
    - intros Hn c Hc Ev. pose proof (proj2 (Hf c) (conj Ev Hc)) as [->|Hin]%elem_of_cons; [done|].
      destruct (decide (c = x)) as [|Hne]; [done|]. destruct Hn. exists c. rewrite <-list_elem_of_In.
      split; [done|]. by apply negb_true_iff, eqb_of_false.
    - intros Hall (c & Hin%list_elem_of_In & Hne%negb_true_iff%eqb_of_false). apply Hne.
      destruct (proj1 (Hf c)) as [Ev Hc]; [by constructor|]. by apply Hall. }
  destruct (filter _ l) as [|x rest] eqn:E.
  - split; [done|]. intros [He Hle]. exfalso. apply (not_elem_of_nil (A:=Entity) e), Hf. split; [|done].
    assert (ent_version <$> l ≠ []) as Hne by (by destruct He).
    apply (py_max_in 0) in Hne. fold m in Hne. apply list_elem_of_fmap in Hne as (c & Ec & Hc).
    specialize (Hm e He). destruct (Hle c Hc) as [? _]. lia.
  - destruct (proj1 (Hf x)) as [Ex Hx]; [by constructor|]. specialize (Hex x rest eq_refl).
    destruct (existsb _ rest) eqn:Hr.
    + split; [done|]. intros [He Hle]. exfalso. apply Bool.diff_true_false. apply Hex.
      assert (ent_version e = m) as Ee by (specialize (Hm e He); destruct (Hle x Hx); lia).
      intros c Hc Ec. transitivity e; [apply Hle; [done|congruence]|].
      symmetry. apply Hle; [done|congruence].
    + assert (∀ c, c ∈ l → ent_version c = m → c = x) as Hu by by apply Hex.
      split.
      * intros [= <-]. split; [done|]. intros c Hc. rewrite Ex. split; [by apply Hm|by apply Hu].
      * intros [He Hle]. cbn. do 2 f_equal. symmetry. apply Hu; [done|]. specialize (Hm e He). destruct (Hle x Hx). lia.
Qed.

Section views.
Context {Wh : Type} `{!DomainWarehouse Wh}.

(** What the store knows of an entity. *)
Definition candidates (s : state) (wh : Wh) (t i : string) : list Entity :=
  (option_list (wh_entity wh t i) ++ _pending_entities_for s t i)%list.

Lemma view_none s wh t i : entity_view s wh t i = Ok None ↔ candidates s wh t i = [].
Proof.
  unfold entity_view. fold (candidates s wh t i). destruct (candidates s wh t i) as [|x l] eqn:E; [done|].
  split; [|done]. destruct (_latest_consistent_entity _ t i); cbn; [|done]. by intros [=].
Qed.

Lemma view_some s wh t i e : entity_view s wh t i = Ok (Some e) ↔ newest (candidates s wh t i) e.
Proof.
  unfold entity_view. fold (candidates s wh t i). rewrite <-(latest_spec _ t i).
  destruct (candidates s wh t i) as [|x l] eqn:E; [done|].
  destruct (_latest_consistent_entity _ t i); cbn; [|done]. split; by intros [= ->].
Qed.

Lemma elem_of_pending s t i e :
  e ∈ _pending_entities_for s t i ↔
  ∃ k d, st_domain_deliveries s !! k = Some d ∧ e = mut_entity (ddel_mutation d) ∧ is_about e t i = true.
Proof.
  unfold _pending_entities_for, domain_deliveries. rewrite list_elem_of_fmap. split.
  - intros (d & -> & [Ha [k Hk]%elem_of_sorted_values]%list_elem_of_filter). eauto.
  - intros (k & d & Hk & -> & Ha). exists d. split; [done|]. apply list_elem_of_filter. split; [done|].
    apply elem_of_sorted_values. by exists k.
Qed.

Lemma elem_of_candidates s (wh : Wh) t i e :
  e ∈ candidates s wh t i ↔
  wh_entity wh t i = Some e ∨
  ∃ k d, st_domain_deliveries s !! k = Some d ∧ e = mut_entity (ddel_mutation d) ∧ is_about e t i = true.
Proof.
  unfold candidates. rewrite elem_of_app, elem_of_pending. f_equiv.
  destruct (wh_entity wh t i); cbn; [|set_solver]. rewrite list_elem_of_singleton. naive_solver.
Qed.

(** A view that is not an error is preserved by a change of the candidates that
    only drops candidates older than, or equal to, one that stays. *)
Lemma view_same s s' (wh wh' : Wh) t i o :
  entity_view s wh t i = Ok o →
  (∀ e, e ∈ candidates s' wh' t i → e ∈ candidates s wh t i) →
  (∀ e, e ∈ candidates s wh t i → ∃ e', e' ∈ candidates s' wh' t i ∧ (ent_version e < ent_version e' ∨ e = e')) →
  entity_view s' wh' t i = Ok o.
Proof.
  intros Hv Hsub Hsup. destruct o as [e|].
  - apply view_some in Hv as [He Hle]. apply view_some. split.
    + destruct (Hsup e He) as (e' & He' & [Hlt| ->]); [|done].
      destruct (Hle e' (Hsub _ He')). lia.
    + intros c Hc. by apply Hle, Hsub.
  - apply view_none in Hv. apply view_none. rewrite Hv in Hsub.
    destruct (candidates s' wh' t i) as [|x l]; [done|]. destruct (not_elem_of_nil (A:=Entity) x).
    apply Hsub. by constructor.
Qed.
End views.

Section deliveries.
Context {Wh : Type} `{!DomainWarehouse Wh} (sound : Wh → Prop) `{!DomainWarehouseLaws Wh sound}.
Implicit Types (pw : persistence * Wh) (wh : Wh) (s : state).

(** The mutations waiting in the outbox. *)
Definition waiting s (m : DomainMutation) : Prop :=
  ∃ k d, st_domain_deliveries s !! k = Some d ∧ ddel_mutation d = m.

Lemma candidates_waiting s wh t i e :
  e ∈ candidates s wh t i ↔
  wh_entity wh t i = Some e ∨ ∃ m, waiting s m ∧ e = mut_entity m ∧ is_about e t i = true.
Proof.
  rewrite elem_of_candidates. unfold waiting. f_equiv. split.
  - intros (k & d & Hk & -> & Ha). exists (ddel_mutation d). eauto 6.
  - intros (m & (k & d & Hk & <-) & -> & Ha). eauto 6.
Qed.

(** Applying a waiting mutation, and then forgetting it, is invisible. *)
Lemma view_applied s s' wh wh' m r t i o :
  sound wh → waiting s m → wh_apply m wh = (Ok r, wh') →
  (∀ n, waiting s' n → waiting s n) → (∀ n, waiting s n → n = m ∨ waiting s' n) →
  entity_view s wh t i = Ok o → entity_view s' wh' t i = Ok o.
Proof.
  intros Hs Hm Happ Hsub Hsup Hv.
  destruct (wh_apply_ok m wh r wh' Hs Happ) as [He Htie]. set (e := mut_entity m) in *.
  eapply view_same; [exact Hv|..]; intros x; rewrite !candidates_waiting.
  - rewrite He. intros [Hx|(n & Hn & -> & Ha)]; [|right; eauto].
    destruct (is_about e t i) eqn:Ha; [|by left]. injection Hx as <-. unfold newer.
    assert (∃ n, waiting s n ∧ e = mut_entity n ∧ is_about e t i = true) as Hwait by eauto.
    destruct (wh_entity wh t i) as [c|] eqn:Hc; [destruct (ent_version c <? ent_version e)|]; auto.
  - assert (∀ y, is_about e t i = true → wh_entity wh t i = Some y →
              ent_version y < ent_version (newer (wh_entity wh t i) e) ∨ y = newer (wh_entity wh t i) e) as Hold.
    { intros y Ha Hy. rewrite Hy. cbn. destruct (ent_version y <? ent_version e) eqn:E; [|by right].
      left. by apply Z.ltb_lt. }
    intros [Hx|(n & Hn & -> & Ha)].
    + destruct (is_about e t i) eqn:Ha.
      * exists (newer (wh_entity wh t i) e). rewrite candidates_waiting, He, Ha. split; [by left|by apply Hold].
      * exists x. rewrite candidates_waiting, He, Ha. split; [by left|by right].
    + destruct (Hsup n Hn) as [->|Hn'].
      * fold e in Ha |- *. exists (newer (wh_entity wh t i) e). rewrite candidates_waiting, He, Ha. split; [by left|].
        destruct (wh_entity wh t i) as [c|] eqn:Hc; cbn; [|by right].
        destruct (ent_version c <? ent_version e) eqn:E; [by right|]. apply Z.ltb_ge in E.
        destruct (decide (ent_version c = ent_version e)) as [Ev|Hne]; [|left; lia]. right. symmetry. apply Htie; [|done].
        apply is_about_true in Ha as E'. injection E' as -> ->. done.
      * exists (mut_entity n). rewrite candidates_waiting. split; [right; eauto|by right].
Qed.

Lemma ptx_inv {A} (body : uprog A) pw r pw' :
  ptx body pw = (r, pw') →
  (∃ e, r = Err e ∧ pw' = pw)
  ∨ (∃ a u, body (begin_uow (mp_state pw.1)) = (Ok a, u) ∧ r = Ok a
            ∧ pw' = (pw.1 <| mp_state := uow_working u |>, pw.2)).
Proof.
  unfold ptx, focus. destruct (transaction None body pw.1) as [[a|e] p] eqn:E; intros [= <- <-].
  - right. apply transaction_ok in E as (u & E & _ & ->). eauto.
  - left. apply transaction_err in E as ->. exists e. by destruct pw.
Qed.

(** The states a delivery can leave: nothing done, the failure recorded, or the
    mutation applied and, unless the acknowledgement failed, forgotten. *)
Lemma deliver_inv d pw r pw' :
  sound pw.2 → deliver d pw = (r, pw') →
  let s := mp_state pw.1 in let s' := mp_state pw'.1 in let k := ddel_mutation_id d in
  (st_domain_deliveries s !! k = None ∧ r = Ok None ∧ pw' = pw)
  ∨ ∃ c, st_domain_deliveries s !! k = Some c ∧
      ((∃ e, r = Err e ∧ pw'.2 = pw.2
             ∧ (s' = s ∨ ∃ f, ddel_mutation f = ddel_mutation c
                              ∧ s' = s <| st_domain_deliveries ::= <[ddel_mutation_id c := f]> |>))
       ∨ ∃ a, wh_apply (ddel_mutation c) pw.2 = (Ok a, pw'.2)
              ∧ ((∃ e, r = Err e ∧ pw'.1 = pw.1)
                 ∨ r = Ok (Some a) ∧ s' = s <| st_domain_deliveries ::= delete (ddel_mutation_id c) |>)).
Proof.
  intros Hs H. unfold deliver in H. cbv zeta.
  apply bind_inv in H as [(cur & pw1 & Hc & H)|(e & [= ] & _)]. injection Hc as <- <-.
  change (domain_delivery (mp_state pw.1) (ddel_mutation_id d))
    with (st_domain_deliveries (mp_state pw.1) !! ddel_mutation_id d) in H.
  destruct (st_domain_deliveries _ !! _) as [c|] eqn:Hk; [|left; by injection H as <- <-].
  right. exists c. split; [done|].
  unfold attempt, on_warehouse, focus in H. unfold mbind at 1, prog_bind at 1 in H.
  destruct (wh_apply (ddel_mutation c) pw.2) as [[a|x] wh'] eqn:Happ.
  - right. exists a. apply bind_inv in H as [([] & pw1 & H1 & H)|(e & H1 & ->)].
    + injection H as <- <-. apply ptx_inv in H1 as [(e & ? & _)|([] & u & Hb & _ & ->)]; [done|].
      unfold delete_domain_delivery, write in Hb. injection Hb as <-. cbn. split; [done|]. by right.
    + apply ptx_inv in H1 as [(x & _ & ->)|(? & ? & _ & ? & _)]; [|done]. cbn. split; [done|]. left. by exists e.
  - apply (wh_apply_err _ _ _ _ Hs) in Happ as ->. left.
    apply bind_inv in H as [([] & pw1 & H1 & H)|(e & H1 & ->)].
    + injection H as <- <-. exists x. split; [done|].
      apply ptx_inv in H1 as [(e & ? & _)|([] & u & Hb & _ & ->)]; [done|]. cbn. split; [done|].
      unfold record_failure, get_domain_delivery, DomainDelivery_new, save_domain_delivery, working, write in Hb.
      inv_prog; [right|by left]. eexists. split; [|reflexivity]. done.
    + apply ptx_inv in H1 as [(y & _ & ->)|(? & ? & _ & ? & _)]; [|done]. exists e. split; [done|]. cbn. by auto.
Qed.

(** The outbox and the warehouse are consistent. *)
Definition outbox_inv pw : Prop :=
  sound pw.2 ∧ keyed ddel_mutation_id (st_domain_deliveries (mp_state pw.1)).

(** What the engine sees of an entity. *)
Definition sees (t i : string) (o : option Entity) pw : Prop :=
  entity_view (mp_state pw.1) pw.2 t i = Ok o.

Lemma deliver_keeps d t i o : keeps (λ pw, outbox_inv pw ∧ sees t i o pw) (deliver d).
Proof.
  intros pw [[Hs Hk] Hv]. destruct (deliver d pw) as [r pw'] eqn:E. cbn.
  apply deliver_inv in E as [(_ & _ & ->)|(c & Hc & [(e & _ & Hw & Hs')|(a & Happ & Hs')])]; [done|..|done].
  - assert (∀ n, waiting (mp_state pw.1) n ↔ waiting (mp_state pw'.1) n) as Hwait.
    { intros n. destruct Hs' as [->|(f & Hf & ->)]; [done|]. pose proof (Hk _ _ Hc) as Hid. cbn in Hid.
      unfold waiting. cbn. split.
      - intros (k & x & Hx & <-). destruct (decide (k = ddel_mutation_id c)) as [->|Hne].
        + rewrite Hid in Hx. simplify_eq. exists (ddel_mutation_id c), f. by rewrite lookup_insert_eq.
        + exists k, x. by rewrite lookup_insert_ne.
      - intros (k & x & [[<- <-]|[_ Hx]]%lookup_insert_Some & <-); [|by exists k, x].
        exists (ddel_mutation_id d), c. by rewrite Hf. }
    unfold sees in *. rewrite Hw. split; [split; [by rewrite Hw|]|].
    + destruct Hs' as [->|(f & Hf & ->)]; [done|]. cbn. apply map_Forall_insert_2; [|done].
      unfold ddel_mutation_id. by rewrite Hf.
    + assert (∀ x, x ∈ candidates (mp_state pw.1) pw.2 t i ↔ x ∈ candidates (mp_state pw'.1) pw.2 t i) as Hsame.
      { intros x. rewrite !candidates_waiting. f_equiv. split; intros (m & Hm%Hwait & ?); by exists m. }
      eapply view_same; [exact Hv|intros x; apply Hsame|]. intros x Hx%Hsame. exists x. auto.
  - assert (sound pw'.2) as Hs2 by (pose proof (wh_apply_sound (ddel_mutation c) pw.2 Hs) as H; by rewrite Happ in H).
    assert (waiting (mp_state pw.1) (ddel_mutation c)) as Hwc by (by exists (ddel_mutation_id d), c).
    assert (keyed ddel_mutation_id (st_domain_deliveries (mp_state pw'.1))
            ∧ (∀ n, waiting (mp_state pw'.1) n → waiting (mp_state pw.1) n)
            ∧ (∀ n, waiting (mp_state pw.1) n → n = ddel_mutation c ∨ waiting (mp_state pw'.1) n)) as (Hk' & H1 & H2).
    { destruct Hs' as [(e & _ & ->)|[_ ->]]; [by auto|]. cbn. split_and!; [by apply keyed_delete|..]; unfold waiting; cbn.
      - intros n (k & x & [_ Hx]%lookup_delete_Some & <-). exists k, x. done.
      - intros n (k & x & Hx & <-). destruct (decide (k = ddel_mutation_id c)) as [->|Hne].
        + left. pose proof (Hk _ _ Hc) as Hid. cbn in Hid. rewrite Hid in Hx. congruence.
        + right. exists k, x. by rewrite lookup_delete_ne. }
    split; [by split|]. exact (view_applied _ _ _ _ _ _ t i o Hs Hwc Happ H1 H2 Hv).
Qed.

Lemma flush_keeps t i o : keeps (λ pw, outbox_inv pw ∧ sees t i o pw) flush.
Proof.
  unfold flush, outbox_pending, preads. apply keeps_bind; [apply keeps_gets|]. intros l. apply keeps_sum_each.
  intros d. apply keeps_bind; [apply deliver_keeps|]. intros _. apply keeps_ret.
Qed.

Lemma deliver_inv_keeps d : keeps outbox_inv (deliver d).
Proof.
  intros pw Hi. destruct Hi as [Hs Hk]. destruct (deliver d pw) as [r pw'] eqn:E. cbn.
  apply deliver_inv in E as [(_ & _ & ->)|(c & Hc & [(e & _ & Hw & Hs')|(a & Happ & Hs')])]; [done|..|done].
  - split; [by rewrite Hw|]. destruct Hs' as [->|(f & Hf & ->)]; [done|]. cbn.
    apply map_Forall_insert_2; [|done]. unfold ddel_mutation_id. by rewrite Hf.
  - split; [pose proof (wh_apply_sound (ddel_mutation c) pw.2 Hs) as H; by rewrite Happ in H|].
    destruct Hs' as [(e & _ & ->)|[_ ->]]; [done|]. by apply keyed_delete.
Qed.

(** A delivery that returns has emptied its place in the outbox. *)
Lemma deliver_ok d pw a pw' :
  outbox_inv pw → deliver d pw = (Ok a, pw') →
  st_domain_deliveries (mp_state pw'.1) = delete (ddel_mutation_id d) (st_domain_deliveries (mp_state pw.1)).
Proof.
  intros [Hs Hk] E.
  apply deliver_inv in E as [(Hn & _ & ->)|(c & Hc & [(e & ? & _)|(b & _ & [(e & ? & _)|[_ ->]])])]; try done.
  - by rewrite delete_id.
  - cbn. pose proof (Hk _ _ Hc) as Hid. cbn in Hid. by rewrite Hid.
Qed.

Lemma flush_drains pw n pw' :
  outbox_inv pw → flush pw = (Ok n, pw') → st_domain_deliveries (mp_state pw'.1) = ∅.
Proof.
  intros Hi. unfold flush, outbox_pending, preads. run.
  assert (∀ k x, st_domain_deliveries (mp_state pw.1) !! k = Some x →
            k ∈ ddel_mutation_id <$> domain_deliveries (mp_state pw.1)) as Hall.
  { intros k x Hx. pose proof (proj2 Hi _ _ Hx) as E. cbn in E. rewrite <-E. apply list_elem_of_fmap_2.
    unfold domain_deliveries. apply elem_of_sorted_values. by exists k. }
  revert Hall. generalize (domain_deliveries (mp_state pw.1)) as l. revert pw n Hi.
  intros pw n Hi l. revert pw n Hi. induction l as [|d l IH]; intros pw n Hi Hall; cbn.
  - intros [= <- <-]. apply map_empty. intros k. destruct (st_domain_deliveries _ !! k) eqn:E; [|done].
    apply Hall in E. by apply not_elem_of_nil in E.
  - intros E. apply bind_inv in E as [(a & pw1 & E1 & E)|(? & _ & ?)]; [|done].
    apply bind_inv in E1 as [(b & pw2 & Ed & Er)|(? & _ & ?)]; [|done]. injection Er as <- <-.
    apply bind_inv in E as [(m & pw3 & El & E)|(? & _ & ?)]; [|done]. injection E as _ <-.
    pose proof (deliver_inv_keeps d pw Hi) as Hi2. rewrite Ed in Hi2. apply (IH pw2 m Hi2); [|done].
    intros k x. rewrite (deliver_ok d pw b pw2 Hi Ed). intros [Hne Hx]%lookup_delete_Some.
    apply Hall in Hx. cbn in Hx. apply elem_of_cons in Hx as [->|]; [done|done].
Qed.

(** C33. Emptying the outbox is invisible to the engine: whatever becomes of a
    [flush], be it complete or broken off by a failure of the warehouse or of the
    store at any point, the engine sees of every entity what it saw; a [flush]
    that returns leaves an empty outbox and the warehouse itself holds what the
    engine sees. *)
Theorem flush_invisible pw r pw' t i o :
  outbox_inv pw → entity_view (mp_state pw.1) pw.2 t i = Ok o → flush pw = (r, pw') →
  outbox_inv pw' ∧ entity_view (mp_state pw'.1) pw'.2 t i = Ok o ∧
  (is_ok r = true → st_domain_deliveries (mp_state pw'.1) = ∅ ∧ wh_entity pw'.2 t i = o).
Proof.
  intros Hi Hv E. pose proof (flush_keeps t i o pw (conj Hi Hv)) as [Hi' Hv']. rewrite E in Hi', Hv'. cbn in Hi', Hv'.
  split_and!; [done|done|]. destruct r as [n|]; [|done]. intros _.
  pose proof (flush_drains pw n pw' Hi E) as He. split; [done|].
  unfold sees in Hv'. destruct o as [e|].
  - apply view_some in Hv' as [He' _]. apply candidates_waiting in He' as [|(m & (k & d & Hd & _) & _)]; [done|].
    by rewrite He, lookup_empty in Hd.
  - apply view_none in Hv'. unfold candidates in Hv'. by destruct (wh_entity pw'.2 t i).
Qed.

(** A delivery broken off between the warehouse and its acknowledgement can
    be repeated: the warehouse answers [REPLAYED] and both are left exactly as an
    uninterrupted delivery leaves them. *)
Theorem redelivery_safe d pw a wh' :
  sound pw.2 → durable (mp_state pw.1) → mp_read_only pw.1 = false →
  st_domain_deliveries (mp_state pw.1) !! ddel_mutation_id d = Some d →
  wh_apply (ddel_mutation d) pw.2 = (Ok a, wh') →
  let acknowledged := (pw.1 <| mp_state ::= λ s, s <| st_domain_deliveries ::= delete (ddel_mutation_id d) |> |>, wh') in
  deliver d pw = (Ok (Some a), acknowledged) ∧
  deliver d (pw.1, wh') = (Ok (Some REPLAYED), acknowledged).
Proof.
  intros Hs Hd Hro Hk Happ acknowledged.
  assert (∀ wh b, wh_apply (ddel_mutation d) wh = (Ok b, wh') → deliver d (pw.1, wh) = (Ok (Some b), acknowledged)) as H.
  { intros wh b Hb. unfold deliver, preads. run.
    change (domain_delivery (mp_state (pw.1, wh).1) (ddel_mutation_id d))
      with (st_domain_deliveries (mp_state pw.1) !! ddel_mutation_id d). rewrite Hk.
    apply run_bind_eq with (Ok b) (pw.1, wh'); [unfold attempt, on_warehouse, focus; cbn; by rewrite Hb|].
    apply run_bind_eq with tt acknowledged; [|done]. unfold ptx, focus, transaction. cbn [fst snd]. rewrite Hro.
    unfold delete_domain_delivery, write, modify. rewrite commit_ok by apply Hd. reflexivity. }
  split; [destruct pw; by apply H|]. apply H. by eapply wh_apply_again.
Qed.
End deliveries.

(** *** An order on its way to the warehouse *)

Definition order (version : Z) : Entity := mkEntity "o1" "order" "placed" ∅ None None version.
Definition order_delivery : DomainDelivery := mkDomainDelivery (mkDomainMutation "m1" (order 2)) 0 None.
Definition order_store : persistence :=
  mkPersistence (empty_state <| st_domain_deliveries := {["m1" := order_delivery]} |>) false.
Definition old_orders : memory_warehouse := mkMemoryWarehouse {[("order", "o1") := order 1]} ∅.
Definition new_orders : memory_warehouse := (warehouse_apply (ddel_mutation order_delivery) old_orders).2.
Definition flushed : persistence * memory_warehouse := (flush (order_store, old_orders)).2.

Lemma old_orders_sound : warehouse_sound old_orders.
Proof. constructor; [by apply map_Forall_singleton|apply map_Forall_empty..]. Qed.

Lemma order_outbox : outbox_inv warehouse_sound (order_store, old_orders).
Proof. split; [exact old_orders_sound|]. by apply map_Forall_singleton. Qed.

Lemma order_durable : durable (mp_state order_store).
Proof. destruct durable_empty as [[[] [] [] [] []] ? ?]. constructor; [constructor; constructor|..]; assumption. Qed.

Lemma flush_invisible_witness :
  wh_entity flushed.2 "order" "o1" = Some (order 2) ∧ st_domain_deliveries (mp_state flushed.1) = ∅.
Proof.
  destruct (flush_invisible warehouse_sound (order_store, old_orders) (Ok 1) flushed "order" "o1" (Some (order 2))
    order_outbox) as (_ & _ & H).
  - vm_compute. reflexivity.
  - apply injective_projections; [vm_compute; reflexivity|reflexivity].
  - destruct (H eq_refl) as [H1 H2]. exact (conj H2 H1).
Defined.

Lemma redelivery_safe_witness :
  deliver order_delivery (order_store, new_orders)
  = (Ok (Some REPLAYED), (deliver order_delivery (order_store, old_orders)).2).
Proof.
  destruct (redelivery_safe warehouse_sound order_delivery (order_store, old_orders) APPLIED new_orders
    old_orders_sound order_durable eq_refl) as [H1 H2].
  - vm_compute. reflexivity.
  - apply injective_projections; [vm_compute; reflexivity|reflexivity].
  - rewrite H1. exact H2.
Defined.
