(* ===== verification/Sinks.v ===== *)
(** * The outbox of the analytical sinks

    [src/src/sose/sinks/]: batches of events, the checkpoints and deliveries of
    each sink ([model.py]), the protocol of a sink ([base.py]) and the durable
    outbox that delivers to it ([outbox.py]).  A sink is external: [AnalyticalSink]
    is its protocol and [AnalyticalSinkLaws] what its documentation asks of it. *)
From S2P Require Import Prelude Encoding EncodingFacts Records Memory MemoryFacts Warehouse.
From stdpp Require Import pretty.
Open Scope string_scope.
Open Scope Z_scope.

(** ** [sinks/model.py] *)

Definition AnalyticalBatch_new (b : AnalyticalBatch) : res AnalyticalBatch :=
  fail_if (is_empty (batch_batch_id b) || is_empty (batch_job_id b) || is_empty (batch_domain_name b))
    (ValueError "analytical batch identity cannot be empty") ;;
  fail_if (batch_from_event_offset b <? 0) (ValueError "from_event_offset must be >= 0") ;;
  fail_if (batch_to_event_offset b <? batch_from_event_offset b) (ValueError "invalid analytical batch event range") ;;
  fail_if (negb (Z.of_nat (length (batch_events b)) =? batch_to_event_offset b - batch_from_event_offset b))
    (ValueError "analytical batch range does not match event count") ;;
  mret b.

Definition SinkCheckpoint_new (c : SinkCheckpoint) : res SinkCheckpoint :=
  fail_if (is_empty (chk_job_id c) || is_empty (chk_sink_name c)) (ValueError "sink checkpoint identity cannot be empty") ;;
  fail_if (chk_event_offset c <? 0) (ValueError "sink checkpoint event_offset must be >= 0") ;;
  mret c.

Definition SinkDelivery_new (d : SinkDelivery) : res SinkDelivery :=
  fail_if (is_empty (sdel_delivery_id d) || is_empty (sdel_sink_name d)) (ValueError "sink delivery identity cannot be empty") ;;
  fail_if (negb (eqb_of (sdel_status d) "pending" || eqb_of (sdel_status d) "delivered"))
    (ValueError ("unsupported sink delivery status: " +:+ sdel_status d)) ;;
  fail_if (sdel_attempts d <? 0) (ValueError "sink delivery attempts must be >= 0") ;;
  mret d.

(** ** [sinks/base.py] *)

(** "Publish one deterministic batch idempotently by batch_id." *)
Class AnalyticalSink (Sk : Type) := publish : AnalyticalBatch → prog Sk unit.

(** The batches a sink holds, in the order they came.  Publishing one whose
    identity it holds adds nothing; publishing can fail before or after the batch
    is written. *)
Definition with_batch (received : list AnalyticalBatch) (b : AnalyticalBatch) : list AnalyticalBatch :=
  if bool_decide (batch_batch_id b ∈ batch_batch_id <$> received) then received else (received ++ [b])%list.

Class AnalyticalSinkLaws (Sk : Type) `{AnalyticalSink Sk} (received : Sk → list AnalyticalBatch) : Prop := {
  publish_ok b k k' : publish b k = (Ok tt, k') → received k' = with_batch (received k) b;
  publish_err b k e k' : publish b k = (Err e, k') → received k' = received k ∨ received k' = with_batch (received k) b }.

(** ** [sinks/outbox.py] *)

(** [l[start:]]. *)
Definition slice_from {A} (start : Z) (l : list A) : list A :=
  drop (Z.to_nat (if start <? 0 then Z.max 0 (Z.of_nat (length l) + start) else start)) l.

Definition checkpoint_offset (c : option SinkCheckpoint) : Z :=
  match c with None => 0 | Some c => chk_event_offset c end.

Definition last_event_id (l : list DomainEvent) : string :=
  match last l with Some e => ev_event_id e | None => "" end.

#[export] Instance sink_delivery_eta : Eta SinkDelivery := λ d,
  mkSinkDelivery (sdel_delivery_id d) (sdel_sink_name d) (sdel_batch d) (sdel_status d) (sdel_attempts d)
    (sdel_last_error d) (sdel_delivered_at d).

Section outbox.
Context {Sk : Type} `{!AnalyticalSink Sk, !Uuid5}.
Abbreviation P := (prog (persistence * Sk)).

Definition pending_of (s : state) (job_id sink_name : string) : list SinkDelivery :=
  filter (λ d, sdel_status d = "pending") (sink_deliveries s (Some job_id) (Some sink_name)).
Definition pending (job_id sink_name : string) : P (list SinkDelivery) := preads (λ s, pending_of s job_id sink_name).

Definition analytical_batch_id (job_id sink_name : string) (from_offset to_offset : Z) (last_id : string) : string :=
  deterministic_id "analytical-batch" [PStr job_id; PStr sink_name; PInt from_offset; PInt to_offset; PStr last_id].
Definition sink_delivery_id (sink_name batch_id : string) : string :=
  deterministic_id "sink-delivery" [PStr sink_name; PStr batch_id].

(** The delivery of the events behind the checkpoint. *)
Definition next_delivery (st : SimulationJobState) (sink_name : string) (offset : Z) (events : list DomainEvent) : res SinkDelivery :=
  let selected := slice_from offset events in
  let to_offset := Z.of_nat (length events) in
  let batch_id := analytical_batch_id (job_job_id st) sink_name offset to_offset (last_event_id selected) in
  batch ← AnalyticalBatch_new (mkAnalyticalBatch batch_id (job_job_id st) (job_domain_name st) (job_config_revision st)
            (job_next_tick st) (job_logical_time st) offset to_offset selected) ;
  SinkDelivery_new (mkSinkDelivery (sink_delivery_id sink_name batch_id) sink_name batch "pending" 0 None None).

(** The transaction of [prepare]. *)
Definition prepare_body (job_id : string) (offset : Z) (delivery : SinkDelivery) : uprog (option SinkDelivery) :=
  current_checkpoint ← get_sink_checkpoint job_id (sdel_sink_name delivery) ;
  if negb (checkpoint_offset current_checkpoint =? offset) then mret None else
  existing ← get_sink_delivery (sdel_delivery_id delivery) ;
  match existing with
  | Some d => mret (Some d)
  | None => save_sink_delivery delivery ;; mret (Some delivery)
  end.

Definition prepare (st : SimulationJobState) (sink_name : string) : P (option SinkDelivery) :=
  waiting ← pending (job_job_id st) sink_name ;
  match waiting with
  | d :: _ => mret (Some d)
  | [] =>
    checkpoint ← preads (λ s, sink_checkpoint s (job_job_id st) sink_name) ;
    checkpoint ← (match checkpoint with
                  | Some c => mret c
                  | None => lift (SinkCheckpoint_new (mkSinkCheckpoint (job_job_id st) sink_name 0 None))
                  end) ;
    events ← preads events ;
    if Z.of_nat (length events) <=? chk_event_offset checkpoint then mret None else
    delivery ← lift (next_delivery st sink_name (chk_event_offset checkpoint) events) ;
    ptx (prepare_body (job_job_id st) (chk_event_offset checkpoint) delivery)
  end.

(** [_record_failed_delivery]. *)
Definition failed_body (delivery failed : SinkDelivery) : uprog unit :=
  current ← get_sink_delivery (sdel_delivery_id delivery) ;
  match current with
  | Some c => if eqb_of (sdel_status c) "delivered" then mret tt else save_sink_delivery failed
  | None => mret tt
  end.
Definition _record_failed_delivery (delivery : SinkDelivery) (e : exn) : P unit :=
  failed ← lift (SinkDelivery_new
    (delivery <| sdel_attempts := sdel_attempts delivery + 1 |> <| sdel_last_error := Some (exn_text e) |>)) ;
  ptx (failed_body delivery failed).

Definition _completed_delivery (delivery : SinkDelivery) : res SinkDelivery :=
  SinkDelivery_new
    (delivery <| sdel_status := "delivered" |> <| sdel_attempts := sdel_attempts delivery + 1 |>
       <| sdel_last_error := None |> <| sdel_delivered_at := Some (batch_logical_time (sdel_batch delivery)) |>).

Definition _delivery_checkpoint (binding_name : string) (delivery : SinkDelivery) : res SinkCheckpoint :=
  SinkCheckpoint_new (mkSinkCheckpoint (batch_job_id (sdel_batch delivery)) binding_name
                        (batch_to_event_offset (sdel_batch delivery)) (Some (sdel_delivery_id delivery))).

(** The transaction of [deliver] after the batch is published. *)
Definition settle_checkpoint (binding_name : string) (delivery completed : SinkDelivery) (checkpoint : SinkCheckpoint) : uprog SinkDelivery :=
  let batch := sdel_batch delivery in
  existing ← get_sink_checkpoint (batch_job_id batch) binding_name ;
  let existing_offset := checkpoint_offset existing in
  checkpoint ← (if batch_from_event_offset batch <? existing_offset then
                  match existing with
                  | Some c => mret c
                  | None => raise (AttributeError "'NoneType' object has no attribute 'job_id'")
                  end
                else if existing_offset <? batch_from_event_offset batch then
                  raise (RuntimeError "sink checkpoint is behind delivery start; an earlier delivery is unresolved")
                else mret checkpoint) ;
  save_sink_checkpoint checkpoint ;;
  delete_sink_delivery (sdel_delivery_id delivery) ;;
  mret completed.

Definition complete_body (binding_name : string) (delivery completed : SinkDelivery) (checkpoint : SinkCheckpoint) : uprog SinkDelivery :=
  current ← get_sink_delivery (sdel_delivery_id delivery) ;
  match current with
  | Some c =>
    if eqb_of (sdel_status c) "delivered" then mret c else settle_checkpoint binding_name delivery completed checkpoint
  | None => settle_checkpoint binding_name delivery completed checkpoint
  end.

(** [deliver]; a binding is its name and its sink. *)
Definition deliver_batch (binding_name : string) (delivery : SinkDelivery) : P SinkDelivery :=
  raise_if (negb (eqb_of (sdel_sink_name delivery) binding_name)) (ValueError "sink binding does not own delivery") ;;
  if eqb_of (sdel_status delivery) "delivered" then mret delivery else
  r ← attempt (on_warehouse (publish (sdel_batch delivery))) ;
  match r with
  | Err e => _record_failed_delivery delivery e ;; raise e
  | Ok _ =>
    completed ← lift (_completed_delivery delivery) ;
    checkpoint ← lift (_delivery_checkpoint binding_name delivery) ;
    ptx (complete_body binding_name delivery completed checkpoint)
  end.

Definition flush_sink (binding_name : string) (st : SimulationJobState) : P (option SinkDelivery) :=
  delivery ← prepare st binding_name ;
  match delivery with
  | Some d => d ← deliver_batch binding_name d ; mret (Some d)
  | None =>
    waiting ← pending (job_job_id st) binding_name ;
    match waiting with
    | [] => mret None
    | d :: _ => d ← deliver_batch binding_name d ; mret (Some d)
    end
  end.
End outbox.
