(* ===== verification/SinksFacts.v ===== *)
(** * What the sinks receive

    The outbox of [Sinks.v] as a protocol of independent workers, each step one
    transaction or one call of the sink; and as one worker that flushes. *)
From S2P Require Import Prelude Encoding EncodingFacts Records Memory MemoryFacts Warehouse Sinks.
From stdpp Require Import pretty.
Open Scope string_scope.
Open Scope Z_scope.

(** ** Identities of batches *)

(** Texts and offsets of which eight identities fit in the memory of a machine. *)
Definition short (s : string) : Prop := Z.of_nat (String.length s) < 2 ^ 60.

Lemma pretty_length z : 0 ≤ z → Z.of_nat (String.length (pretty z)) ≤ z + 1.
Proof.
  assert (∀ n s, Z.of_nat (String.length (pretty_N_go n s)) ≤ Z.of_N n + Z.of_nat (String.length s)) as Hgo.
  { intros n. induction (N.lt_wf_0 n) as [n _ IH]; intros s. destruct (decide (n = 0)%N) as [->|Hn]; [rewrite pretty_N_go_0; lia|].
    rewrite pretty_N_go_step by lia. etransitivity; [apply IH, N.div_lt; lia|]. cbn [String.length].
    assert (n / 10 < n)%N by (apply N.div_lt; lia). lia. }
  intros Hz. destruct z as [|p|p]; [cbn; lia| |lia]. change (pretty (Zpos p)) with (pretty_N_go (Npos p) EmptyString).
  specialize (Hgo (Npos p) EmptyString). cbn [String.length] in Hgo. lia.
Qed.

Section identities.
Context `{!Uuid5, !Inj (=) (=) uuid5}.

Lemma batch_name_fits job nm from to last :
  short job → short nm → short last → 0 ≤ from < 2 ^ 60 → 0 ≤ to < 2 ^ 60 →
  fits (encode_deterministic_parts (PStr "analytical-batch" :: [PStr job; PStr nm; PInt from; PInt to; PStr last])).
Proof.
  unfold short, fits. intros Hj Hn Hl Hf Ht. pose proof (pretty_length from ltac:(lia)). pose proof (pretty_length to ltac:(lia)).
  unfold encode_deterministic_parts. cbn [fmap list_fmap concat_str frame encode_scalar].
  rewrite !string_length_app, !length_tagged. cbn [String.length]. lia.
Qed.

Lemma batch_id_inj job nm from to last job' from' to' last' :
  short job → short nm → short last → 0 ≤ from < 2 ^ 60 → 0 ≤ to < 2 ^ 60 →
  analytical_batch_id job nm from to last = analytical_batch_id job' nm from' to' last' → job = job' ∧ from = from' ∧ to = to'.
Proof.
  intros Hj Hn Hl Hf Ht E. apply deterministic_id_same in E as [_ E]; [|done|done|by apply batch_name_fits].
  repeat match goal with H : Forall2 same (_ :: _) _ |- _ => inversion H; clear H; subst end.
  repeat match goal with H : same _ _ |- _ => inversion H; clear H; subst end. done.
Qed.
End identities.

(** ** Transactions *)

(** The state a transaction leaves. *)
Definition tx_state {A} (body : uprog A) (s : state) : state := mp_state (transaction None body (mkPersistence s false)).2.

Lemma tx_state_cases {A} (body : uprog A) s :
  tx_state body s = s ∨ ∃ a u, body (begin_uow s) = (Ok a, u) ∧ tx_state body s = uow_working u.
Proof.
  unfold tx_state, transaction. cbn [mp_read_only mp_state]. destruct (body (begin_uow s)) as [[a|e] u] eqn:E; [|by left].
  destruct (commit u) as [s'|e] eqn:Ec; [|by left]. right. exists a, u. split; [done|]. cbn.
  unfold commit in Ec. repeat case_match; naive_solver.
Qed.


Section bodies.
Context `{!Uuid5}.
Implicit Types (s : state) (d : SinkDelivery).

Lemma prepare_state job off d s :
  tx_state (prepare_body job off d) s = s
  ∨ (st_sink_deliveries s !! sdel_delivery_id d = None
     ∧ tx_state (prepare_body job off d) s = s <| st_sink_deliveries ::= <[sdel_delivery_id d := d]> |>).
Proof.
  destruct (tx_state_cases (prepare_body job off d) s) as [->|(a & u & E & ->)]; [by left|].
  unfold prepare_body, get_sink_checkpoint, get_sink_delivery, save_sink_delivery, write in E. inv_prog; [by left|by left|].
  by right.
Qed.

Lemma failed_state d f s :
  tx_state (failed_body d f) s = s
  ∨ ((∃ c, st_sink_deliveries s !! sdel_delivery_id d = Some c)
     ∧ tx_state (failed_body d f) s = s <| st_sink_deliveries ::= <[sdel_delivery_id f := f]> |>).
Proof.
  destruct (tx_state_cases (failed_body d f) s) as [->|(a & u & E & ->)]; [by left|].
  unfold failed_body, get_sink_delivery, save_sink_delivery, write in E. inv_prog; try by left. right. split; [by eexists|done].
Qed.

(** The checkpoint a completed delivery leaves. *)
Definition settled_checkpoint (existing : option SinkCheckpoint) (from : Z) (checkpoint x : SinkCheckpoint) : Prop :=
  (existing = Some x ∧ from < chk_event_offset x) ∨ (checkpoint_offset existing = from ∧ x = checkpoint).

Lemma complete_state nm d c chk s :
  tx_state (complete_body nm d c chk) s = s
  ∨ ∃ x, settled_checkpoint (sink_checkpoint s (batch_job_id (sdel_batch d)) nm) (batch_from_event_offset (sdel_batch d)) chk x
     ∧ tx_state (complete_body nm d c chk) s
       = s <| st_sink_checkpoints ::= <[(chk_job_id x, chk_sink_name x) := x]> |>
           <| st_sink_deliveries ::= delete (sdel_delivery_id d) |>.
Proof.
  destruct (tx_state_cases (complete_body nm d c chk) s) as [->|(a & u & E & ->)]; [by left|].
  assert (∀ u0, settle_checkpoint nm d c chk u0 = (Ok a, u) → uow_working u0 = s →
    ∃ x, settled_checkpoint (sink_checkpoint s (batch_job_id (sdel_batch d)) nm) (batch_from_event_offset (sdel_batch d)) chk x
     ∧ uow_working u = s <| st_sink_checkpoints ::= <[(chk_job_id x, chk_sink_name x) := x]> |>
           <| st_sink_deliveries ::= delete (sdel_delivery_id d) |>) as Hsettle.
  { intros u0 Hu <-. unfold settle_checkpoint, get_sink_checkpoint, save_sink_checkpoint, delete_sink_delivery, write in Hu.
    unfold sink_checkpoint, settled_checkpoint. inv_prog.
    - eexists. split; [left; split; [done|]|done]. match goal with H : (_ <? _) = true |- _ => by apply Z.ltb_lt in H end.
    - exists chk. split; [right|done]. split; [|done].
      repeat match goal with H : (_ <? _) = false |- _ => apply Z.ltb_ge in H end. lia. }
  unfold complete_body, get_sink_delivery in E. inv_prog; [by left|right; by eapply Hsettle..].
Qed.
End bodies.

(** ** Workers in any order

    The steps of any number of workers on one sink: the transactions and the calls
    of [prepare] and [deliver], with arguments that were read at any earlier time,
    between the commits of the simulation. *)

(** The states published so far and the sink. *)
Record outbox_world (Sk : Type) := mkOutboxWorld { ow_past : list state; ow_now : state; ow_sink : Sk }.
Arguments mkOutboxWorld {Sk} _ _ _.
Arguments ow_past {Sk} _.
Arguments ow_now {Sk} _.
Arguments ow_sink {Sk} _.

(** Event identities and their number fit in the memory of a machine. *)
Definition plausible (events : list DomainEvent) : Prop :=
  Forall (λ e, short (ev_event_id e)) events ∧ Z.of_nat (length events) < 2 ^ 60.

Section protocol.
Context {Sk : Type} `{!AnalyticalSink Sk, !Uuid5}.
Context (received : Sk → list AnalyticalBatch) `{!AnalyticalSinkLaws Sk received, !Inj (=) (=) uuid5}.
Context (nm : string).

Definition offset_of (s : state) (job : string) : Z := checkpoint_offset (sink_checkpoint s job nm).

(** A delivery some worker may hold: it was durable at some time. *)
Definition held (w : outbox_world Sk) (d : SinkDelivery) : Prop :=
  ∃ s, s ∈ ow_now w :: ow_past w ∧ sink_delivery s (sdel_delivery_id d) = Some d.

Definition after_tx {A} (w : outbox_world Sk) (body : uprog A) : outbox_world Sk :=
  mkOutboxWorld (ow_now w :: ow_past w) (tx_state body (ow_now w)) (ow_sink w).

Inductive outbox_step (w : outbox_world Sk) : outbox_world Sk → Prop :=
  | step_commit s :
      st_sink_deliveries s = st_sink_deliveries (ow_now w) → st_sink_checkpoints s = st_sink_checkpoints (ow_now w) →
      st_events (ow_now w) `prefix_of` st_events s → plausible (st_events s) →
      outbox_step w (mkOutboxWorld (ow_now w :: ow_past w) s (ow_sink w))
  | step_prepare st s1 s2 d :
      s1 ∈ ow_now w :: ow_past w → s2 ∈ ow_now w :: ow_past w → short (job_job_id st) →
      offset_of s1 (job_job_id st) < Z.of_nat (length (st_events s2)) →
      next_delivery st nm (offset_of s1 (job_job_id st)) (st_events s2) = Ok d →
      outbox_step w (after_tx w (prepare_body (job_job_id st) (offset_of s1 (job_job_id st)) d))
  | step_publish d r k :
      held w d → sdel_sink_name d = nm → publish (sdel_batch d) (ow_sink w) = (r, k) →
      outbox_step w (mkOutboxWorld (ow_past w) (ow_now w) k)
  | step_complete d c chk :
      held w d → sdel_sink_name d = nm → batch_batch_id (sdel_batch d) ∈ batch_batch_id <$> received (ow_sink w) →
      _completed_delivery d = Ok c → _delivery_checkpoint nm d = Ok chk →
      outbox_step w (after_tx w (complete_body nm d c chk))
  | step_fail d e f :
      held w d →
      SinkDelivery_new (d <| sdel_attempts := sdel_attempts d + 1 |> <| sdel_last_error := Some (exn_text e) |>) = Ok f →
      outbox_step w (after_tx w (failed_body d f)).

(** *** The invariant *)

(** The events of a batch are the events of the journal at its offsets. *)
Record good_batch (events : list DomainEvent) (b : AnalyticalBatch) : Prop := {
  good_from : 0 ≤ batch_from_event_offset b;
  good_range : batch_from_event_offset b < batch_to_event_offset b;
  good_to : batch_to_event_offset b ≤ Z.of_nat (length events);
  good_events : batch_events b = take (Z.to_nat (batch_to_event_offset b - batch_from_event_offset b))
                                   (drop (Z.to_nat (batch_from_event_offset b)) events);
  good_id : batch_batch_id b = analytical_batch_id (batch_job_id b) nm (batch_from_event_offset b) (batch_to_event_offset b)
                                 (last_event_id (batch_events b));
  good_job : short (batch_job_id b) }.

(** Every event before the checkpoint has been received. *)
Definition covered (batches : list AnalyticalBatch) (s : state) : Prop :=
  ∀ job i, 0 ≤ i < offset_of s job →
    ∃ b, b ∈ batches ∧ batch_job_id b = job ∧ batch_from_event_offset b ≤ i < batch_to_event_offset b.

Record outbox_sound (w : outbox_world Sk) : Prop := {
  sound_plausible : plausible (st_events (ow_now w));
  sound_events s : s ∈ ow_past w → st_events s `prefix_of` st_events (ow_now w);
  sound_offsets s job : s ∈ ow_past w → offset_of s job ≤ offset_of (ow_now w) job;
  sound_deliveries s k d : s ∈ ow_now w :: ow_past w → st_sink_deliveries s !! k = Some d →
    k = sdel_delivery_id d ∧ (sdel_sink_name d = nm → good_batch (st_events (ow_now w)) (sdel_batch d));
  sound_checkpoints s k c : s ∈ ow_now w :: ow_past w → st_sink_checkpoints s !! k = Some c →
    k = (chk_job_id c, chk_sink_name c) ∧ 0 ≤ chk_event_offset c;
  sound_received b : b ∈ received (ow_sink w) → good_batch (st_events (ow_now w)) b;
  sound_covered : covered (received (ow_sink w)) (ow_now w) }.

Lemma batch_new b b' : AnalyticalBatch_new b = Ok b' → b' = b.
Proof. unfold AnalyticalBatch_new. intros E. symmetry in E. repeat (apply res_bind_inv in E as (?&?&E)). by injection E. Qed.
Lemma delivery_new d d' : SinkDelivery_new d = Ok d' → d' = d.
Proof. unfold SinkDelivery_new. intros E. symmetry in E. repeat (apply res_bind_inv in E as (?&?&E)). by injection E. Qed.
Lemma checkpoint_new c c' : SinkCheckpoint_new c = Ok c' → c' = c ∧ 0 ≤ chk_event_offset c.
Proof.
  unfold SinkCheckpoint_new. intros E. symmetry in E. apply res_bind_inv in E as (?&?&E).
  apply res_bind_inv in E as ([] & Hc%fail_if_inv & E). injection E as ->. split; [done|lia].
Qed.

Lemma good_prefix evs evs' b : evs `prefix_of` evs' → good_batch evs b → good_batch evs' b.
Proof.
  intros [new ->] [Hf Hr Ht He Hi Hj]. split; try done.
  - rewrite length_app. lia.
  - rewrite He. rewrite drop_app_le by lia. rewrite take_app_le by (rewrite length_drop; lia). done.
Qed.

Lemma last_short l : Forall (λ e, short (ev_event_id e)) l → short (last_event_id l).
Proof.
  intros Hl. unfold last_event_id. destruct (last l) as [e|] eqn:E; [|by unfold short].
  rewrite Forall_forall in Hl. apply Hl. apply last_Some_elem_of in E. done.
Qed.

Lemma good_last_short evs b : plausible evs → good_batch evs b → short (last_event_id (batch_events b)).
Proof.
  intros [Hs _] [_ _ _ -> _ _]. apply last_short. by apply Forall_take, Forall_drop.
Qed.

(** What [prepare] prepares. *)
Lemma next_delivery_good st offset evs d :
  0 ≤ offset < Z.of_nat (length evs) → short (job_job_id st) → next_delivery st nm offset evs = Ok d →
  sdel_sink_name d = nm ∧ good_batch evs (sdel_batch d) ∧ batch_job_id (sdel_batch d) = job_job_id st
  ∧ batch_from_event_offset (sdel_batch d) = offset ∧ batch_to_event_offset (sdel_batch d) = Z.of_nat (length evs)
  ∧ sdel_status d = "pending".
Proof.
  intros Ho Hj E. unfold next_delivery in E. symmetry in E. apply res_bind_inv in E as (b & Hb%batch_new & E).
  symmetry in E. apply delivery_new in E. subst. split_and!; try done. split; cbn; try done; try lia.
  unfold slice_from. assert (offset <? 0 = false) as -> by lia. rewrite firstn_all2; [done|]. rewrite length_drop. lia.
Qed.

(** A delivery a worker holds is a good one. *)
Lemma held_good w d : outbox_sound w → held w d → sdel_sink_name d = nm → good_batch (st_events (ow_now w)) (sdel_batch d).
Proof. intros Hw (s & Hs & Hd) Hn. by eapply (sound_deliveries w Hw). Qed.

Lemma past_events w s : outbox_sound w → s ∈ ow_now w :: ow_past w → st_events s `prefix_of` st_events (ow_now w).
Proof. intros Hw [->|Hs]%elem_of_cons; [done|by apply (sound_events w Hw)]. Qed.

Lemma past_offsets w s job : outbox_sound w → s ∈ ow_now w :: ow_past w → 0 ≤ offset_of s job ≤ offset_of (ow_now w) job.
Proof.
  intros Hw Hs. split.
  - unfold offset_of, checkpoint_offset. case_match eqn:E; [|done]. apply (sound_checkpoints w Hw s) in E; [|done]. tauto.
  - apply elem_of_cons in Hs as [->|Hs]; [done|by apply (sound_offsets w Hw)].
Qed.

(** A transaction keeps the invariant when it keeps the events and moves no
    checkpoint back, and what it adds is good. *)
Lemma after_tx_sound {A} w (body : uprog A) :
  outbox_sound w →
  st_events (tx_state body (ow_now w)) = st_events (ow_now w) →
  (∀ job, offset_of (ow_now w) job ≤ offset_of (tx_state body (ow_now w)) job) →
  (∀ k d, st_sink_deliveries (tx_state body (ow_now w)) !! k = Some d → st_sink_deliveries (ow_now w) !! k = Some d
     ∨ k = sdel_delivery_id d ∧ (sdel_sink_name d = nm → good_batch (st_events (ow_now w)) (sdel_batch d))) →
  (∀ k c, st_sink_checkpoints (tx_state body (ow_now w)) !! k = Some c → st_sink_checkpoints (ow_now w) !! k = Some c
     ∨ k = (chk_job_id c, chk_sink_name c) ∧ 0 ≤ chk_event_offset c) →
  (∀ job i, offset_of (ow_now w) job ≤ i < offset_of (tx_state body (ow_now w)) job →
     ∃ b, b ∈ received (ow_sink w) ∧ batch_job_id b = job ∧ batch_from_event_offset b ≤ i < batch_to_event_offset b) →
  outbox_sound (after_tx w body).
Proof.
  intros Hw He Ho Hd Hc Hr. split; cbn [after_tx ow_now ow_past ow_sink]; rewrite ?He.
  - apply Hw.
  - intros s Hs. by eapply past_events.
  - intros s job Hs. etransitivity; [|apply Ho]. by apply past_offsets.
  - intros s k d [->|Hs]%elem_of_cons Hk; [|by eapply (sound_deliveries w Hw)].
    apply Hd in Hk as [Hk|Hk]; [|done]. eapply (sound_deliveries w Hw), Hk. set_solver.
  - intros s k c [->|Hs]%elem_of_cons Hk; [|by eapply (sound_checkpoints w Hw)].
    apply Hc in Hk as [Hk|Hk]; [|done]. eapply (sound_checkpoints w Hw), Hk. set_solver.
  - apply Hw.
  - intros job i Hi. destruct (decide (i < offset_of (ow_now w) job)); [apply (sound_covered w Hw); lia|apply Hr; lia].
Qed.

(** A transaction that leaves the state as it was. *)
Lemma idle_tx_sound {A} w (body : uprog A) : outbox_sound w → tx_state body (ow_now w) = ow_now w → outbox_sound (after_tx w body).
Proof. intros Hw E. apply after_tx_sound; rewrite ?E; auto with lia. Qed.

(** A transaction that writes one delivery. *)
Lemma delivery_tx_sound {A} w (body : uprog A) k d :
  outbox_sound w → tx_state body (ow_now w) = ow_now w <| st_sink_deliveries ::= <[k := d]> |> →
  k = sdel_delivery_id d → (sdel_sink_name d = nm → good_batch (st_events (ow_now w)) (sdel_batch d)) →
  outbox_sound (after_tx w body).
Proof.
  intros Hw E -> Hd. apply after_tx_sound; [done|rewrite E..]; [done| | |by left|].
  - intros job. done.
  - intros k d'. cbn. intros [(<- & ->)|[_ ?]]%lookup_insert_Some; auto.
  - unfold offset_of, sink_checkpoint. cbn. lia.
Qed.

Lemma commit_sound w s :
  outbox_sound w → st_sink_deliveries s = st_sink_deliveries (ow_now w) → st_sink_checkpoints s = st_sink_checkpoints (ow_now w) →
  st_events (ow_now w) `prefix_of` st_events s → plausible (st_events s) →
  outbox_sound (mkOutboxWorld (ow_now w :: ow_past w) s (ow_sink w)).
Proof.
  intros Hw Hd Hc He Hp.
  assert (∀ job, offset_of s job = offset_of (ow_now w) job) as Ho by (intros job; unfold offset_of, sink_checkpoint; by rewrite Hc).
  split; cbn [ow_now ow_past ow_sink].
  - done.
  - intros s' Hs. etransitivity; [by apply past_events|done].
  - intros s' job Hs. rewrite Ho. by apply past_offsets.
  - intros s' k d Hs Hk. assert (∃ s0, s0 ∈ ow_now w :: ow_past w ∧ st_sink_deliveries s0 !! k = Some d) as (s0 & Hs0 & Hk0).
    { apply elem_of_cons in Hs as [->|Hs]; [exists (ow_now w); rewrite <- Hd; split; [left|done]|by exists s']. }
    destruct (sound_deliveries w Hw s0 k d Hs0 Hk0) as [-> Hg]. split; [done|]. intros Hn. eapply good_prefix; eauto.
  - intros s' k c [->|Hs]%elem_of_cons Hk; [|by eapply (sound_checkpoints w Hw)].
    rewrite Hc in Hk. eapply (sound_checkpoints w Hw), Hk. left.
  - intros b Hb. eapply good_prefix; [done|]. by apply (sound_received w Hw).
  - intros job i. rewrite Ho. apply (sound_covered w Hw).
Qed.

Lemma prepare_sound w st s1 s2 d :
  outbox_sound w → s1 ∈ ow_now w :: ow_past w → s2 ∈ ow_now w :: ow_past w → short (job_job_id st) →
  offset_of s1 (job_job_id st) < Z.of_nat (length (st_events s2)) →
  next_delivery st nm (offset_of s1 (job_job_id st)) (st_events s2) = Ok d →
  outbox_sound (after_tx w (prepare_body (job_job_id st) (offset_of s1 (job_job_id st)) d)).
Proof.
  intros Hw Hs1 Hs2 Hj Ho E. pose proof (past_offsets w s1 (job_job_id st) Hw Hs1) as Ho1.
  apply next_delivery_good in E as (Hn & Hg & _); [|lia|done].
  destruct (prepare_state (job_job_id st) (offset_of s1 (job_job_id st)) d (ow_now w)) as [E|[_ E]].
  - by apply idle_tx_sound.
  - eapply delivery_tx_sound; [done|exact E|done|]. intros _. eapply good_prefix; [|done]. by apply past_events.
Qed.

Lemma fail_sound w d e f :
  outbox_sound w → held w d →
  SinkDelivery_new (d <| sdel_attempts := sdel_attempts d + 1 |> <| sdel_last_error := Some (exn_text e) |>) = Ok f →
  outbox_sound (after_tx w (failed_body d f)).
Proof.
  intros Hw Hh ->%delivery_new. destruct (failed_state d (d <| sdel_attempts := sdel_attempts d + 1 |> <| sdel_last_error := Some (exn_text e) |>) (ow_now w)) as [E|[_ E]].
  - by apply idle_tx_sound.
  - eapply delivery_tx_sound; [done|exact E|done|]. cbn. by apply held_good.
Qed.

Lemma received_with_batch l b b' : b' ∈ with_batch l b → b' ∈ l ∨ b' = b.
Proof. unfold with_batch. case_match; [by left|]. rewrite elem_of_app, list_elem_of_singleton. done. Qed.
Lemma with_batch_received l b b' : b' ∈ l → b' ∈ with_batch l b.
Proof. unfold with_batch. case_match; [done|]. set_solver. Qed.

Lemma publish_sound w d r k :
  outbox_sound w → held w d → sdel_sink_name d = nm → publish (sdel_batch d) (ow_sink w) = (r, k) →
  outbox_sound (mkOutboxWorld (ow_past w) (ow_now w) k).
Proof.
  intros Hw Hh Hn E.
  assert (received k = received (ow_sink w) ∨ received k = with_batch (received (ow_sink w)) (sdel_batch d)) as Hk.
  { destruct r as [[]|e]; [right; by eapply publish_ok|by eapply publish_err]. }
  split; cbn [ow_now ow_past ow_sink]; try apply Hw.
  - intros b Hb. destruct Hk as [->| ->] in Hb; [by apply (sound_received w Hw)|].
    apply received_with_batch in Hb as [Hb| ->]; [by apply (sound_received w Hw)|by apply held_good].
  - intros job i Hi. destruct (sound_covered w Hw job i Hi) as (b & Hb & ?). exists b. split; [|done].
    destruct Hk as [->| ->]; [done|by apply with_batch_received].
Qed.

(** A good batch whose identity has been received has been received. *)
Lemma good_batch_received w b :
  outbox_sound w → short nm → good_batch (st_events (ow_now w)) b → batch_batch_id b ∈ batch_batch_id <$> received (ow_sink w) →
  ∃ b', b' ∈ received (ow_sink w) ∧ batch_job_id b' = batch_job_id b
    ∧ batch_from_event_offset b' = batch_from_event_offset b ∧ batch_to_event_offset b' = batch_to_event_offset b.
Proof.
  intros Hw Hn Hb (b' & E & Hb')%list_elem_of_fmap. exists b'. split; [done|].
  pose proof (sound_received w Hw b' Hb') as Hg. pose proof (sound_plausible w Hw) as Hp.
  rewrite (good_id _ _ Hb), (good_id _ _ Hg) in E.
  pose proof (good_last_short _ _ Hp Hb). destruct Hb, Hp. apply batch_id_inj in E; try done; try lia. naive_solver.
Qed.

Lemma complete_sound w d c chk :
  outbox_sound w → short nm → held w d → sdel_sink_name d = nm →
  batch_batch_id (sdel_batch d) ∈ batch_batch_id <$> received (ow_sink w) →
  _delivery_checkpoint nm d = Ok chk → outbox_sound (after_tx w (complete_body nm d c chk)).
Proof.
  intros Hw Hs Hh Hn Hr [-> Hto]%checkpoint_new. cbn in Hto. pose proof (held_good w d Hw Hh Hn) as Hg.
  destruct (good_batch_received w (sdel_batch d) Hw Hs Hg Hr) as (b & Hb & Hj & Hfrom & Hto').
  destruct (complete_state nm d c (mkSinkCheckpoint (batch_job_id (sdel_batch d)) nm (batch_to_event_offset (sdel_batch d))
    (Some (sdel_delivery_id d))) (ow_now w)) as [E|(x & Hx & E)]; [by apply idle_tx_sound|].
  assert ((chk_job_id x, chk_sink_name x) = (batch_job_id (sdel_batch d), nm) ∧ 0 ≤ chk_event_offset x) as [Hk Hx0].
  { destruct Hx as [[Hx _]|[_ ->]]; [|done]. apply (sound_checkpoints w Hw (ow_now w)) in Hx as [-> ?]; [done|left]. }
  assert (∀ job, offset_of (tx_state (complete_body nm d c (mkSinkCheckpoint (batch_job_id (sdel_batch d)) nm
      (batch_to_event_offset (sdel_batch d)) (Some (sdel_delivery_id d)))) (ow_now w)) job
    = if decide (job = batch_job_id (sdel_batch d)) then chk_event_offset x else offset_of (ow_now w) job) as Ho.
  { intros job. unfold offset_of, sink_checkpoint. rewrite E. cbn. rewrite Hk. case_decide as Hd.
    - subst. by rewrite lookup_insert_eq.
    - rewrite lookup_insert_ne by congruence. done. }
  assert (offset_of (ow_now w) (batch_job_id (sdel_batch d)) ≤ chk_event_offset x
    ∧ (∀ i, offset_of (ow_now w) (batch_job_id (sdel_batch d)) ≤ i < chk_event_offset x →
         batch_from_event_offset (sdel_batch d) ≤ i < batch_to_event_offset (sdel_batch d))) as [Hle Hin].
  { destruct Hg. unfold offset_of. destruct Hx as [[-> _]|[-> ->]]; cbn; split; intros; lia. }
  apply after_tx_sound; [done|rewrite E; done| | | |].
  - intros job. rewrite Ho. case_decide; [subst; lia|lia].
  - intros k d'. rewrite E. cbn. intros [_ ?]%lookup_delete_Some. by left.
  - intros k c'. rewrite E. cbn. rewrite Hk. intros [(<- & ->)|[_ ?]]%lookup_insert_Some; [right|by left]. by rewrite Hk.
  - intros job i. rewrite Ho. case_decide as Hd; [|lia]. subst job. intros Hi. exists b. split_and!; [done|done|..]; apply Hin in Hi; lia.
Qed.

Lemma step_sound w w' : short nm → outbox_step w w' → outbox_sound w → outbox_sound w'.
Proof.
  intros Hn Hs Hw. destruct Hs.
  - by apply commit_sound.
  - by apply prepare_sound with s2.
  - by eapply publish_sound.
  - by apply complete_sound.
  - by eapply fail_sound.
Qed.

Lemma steps_sound w w' : short nm → rtc outbox_step w w' → outbox_sound w → outbox_sound w'.
Proof. intros Hn. induction 1 as [|w w1 w2 Hs _ IH]; [done|]. intros Hw. apply IH. by eapply step_sound. Qed.

(** A new sink. *)
Definition fresh_outbox (s : state) (k : Sk) : Prop :=
  plausible (st_events s) ∧ st_sink_deliveries s = ∅ ∧ st_sink_checkpoints s = ∅ ∧ received k = [].

Lemma fresh_sound s k : fresh_outbox s k → outbox_sound (mkOutboxWorld [] s k).
Proof.
  intros (Hp & Hd & Hc & Hr). split; cbn [ow_now ow_past ow_sink]; try done.
  - intros s' Hs. by apply not_elem_of_nil in Hs.
  - intros s' job Hs. by apply not_elem_of_nil in Hs.
  - intros s' k' d ->%list_elem_of_singleton. by rewrite Hd, lookup_empty.
  - intros s' k' d ->%list_elem_of_singleton. by rewrite Hc, lookup_empty.
  - rewrite Hr. intros b Hb. by apply not_elem_of_nil in Hb.
  - intros job i. unfold offset_of, sink_checkpoint. rewrite Hc, lookup_empty. cbn. lia.
Qed.

Lemma step_past w w' : outbox_step w w' → ∀ s, s ∈ ow_now w :: ow_past w → s ∈ ow_now w' :: ow_past w'.
Proof. destruct 1; cbn; set_solver. Qed.

Lemma steps_past w w' : rtc outbox_step w w' → ∀ s, s ∈ ow_now w :: ow_past w → s ∈ ow_now w' :: ow_past w'.
Proof. induction 1 as [|w w1 w2 Hs _ IH]; [done|]. intros s Hin. by eapply IH, step_past. Qed.

(** C14. No event is lost, whatever the workers do: between any commits of the
    simulation, any number of workers prepare, publish, complete and record failures
    in any order, crash between any two steps and act on what they read at any
    earlier time; the sink fails at will.  From a new sink on, a checkpoint never
    moves back, and every event of the journal before it lies in a batch the sink has
    received, which holds exactly the journal's events at its offsets. *)
Theorem outbox_no_loss s k w w' :
  short nm → fresh_outbox s k → rtc outbox_step (mkOutboxWorld [] s k) w → rtc outbox_step w w' →
  (∀ job, offset_of (ow_now w) job ≤ offset_of (ow_now w') job)
  ∧ ∀ job i, 0 ≤ i < offset_of (ow_now w') job →
      ∃ b e, b ∈ received (ow_sink w') ∧ batch_job_id b = job ∧ st_events (ow_now w') !! Z.to_nat i = Some e
        ∧ batch_events b !! Z.to_nat (i - batch_from_event_offset b) = Some e.
Proof.
  intros Hn Hf Hs Hs'. assert (outbox_sound w) as Hw by (eapply steps_sound; eauto using fresh_sound).
  assert (outbox_sound w') as Hw' by by eapply steps_sound. split.
  - intros job. apply past_offsets; [done|]. eapply steps_past; [done|left].
  - intros job i Hi. destruct (sound_covered w' Hw' job i Hi) as (b & Hb & Hj & Hrange).
    pose proof (sound_received w' Hw' b Hb) as Hg. destruct Hg as [Hf0 Hr Ht He _ _].
    destruct (lookup_lt_is_Some_2 (st_events (ow_now w')) (Z.to_nat i)) as [e Hev]; [lia|]. exists b, e. split_and!; try done.
    rewrite He, lookup_take_lt by lia. rewrite lookup_drop. rewrite <- Hev. f_equal. lia.
Qed.

(** *** The operations are made of these steps *)

Notation world := (persistence * Sk)%type.

(** A transaction fails and changes nothing, or its state is published. *)
Definition tx_result {A} (body : uprog A) (s s' : state) (r : res A) : Prop :=
  (s' = s ∧ ∃ e, r = Err e) ∨ (s' = tx_state body s ∧ ∃ a u, r = Ok a ∧ body (begin_uow s) = (Ok a, u) ∧ s' = uow_working u).

Lemma ptx_state {A} (body : uprog A) (pw pw' : world) r :
  ptx body pw = (r, pw') → pw'.2 = pw.2 ∧ tx_result body (mp_state pw.1) (mp_state pw'.1) r.
Proof.
  unfold ptx, focus, tx_result, tx_state, transaction. cbn [mp_read_only mp_state].
  destruct (mp_read_only pw.1); [intros [= <- <-]; naive_solver|].
  destruct (body (begin_uow (mp_state pw.1))) as [[a|e] u] eqn:Eb; [|intros [= <- <-]; naive_solver].
  destruct (commit u) as [s'|e] eqn:Ec; intros [= <- <-]; [|naive_solver].
  cbn. split; [done|]. right. split; [done|]. exists a, u. split_and!; try done. unfold commit in Ec. repeat case_match; naive_solver.
Qed.

(** The failure of a sink is recorded, or not; its success completes the delivery, or not. *)
Inductive delivered_as (d : SinkDelivery) (s s' : state) : res unit → res SinkDelivery → Prop :=
  | as_failed e x f r :
      SinkDelivery_new (d <| sdel_attempts := sdel_attempts d + 1 |> <| sdel_last_error := Some (exn_text e) |>) = Ok f →
      tx_result (failed_body d f) s s' r → delivered_as d s s' (Err e) (Err x)
  | as_completed c chk r :
      _completed_delivery d = Ok c → _delivery_checkpoint nm d = Ok chk →
      tx_result (complete_body nm d c chk) s s' r → delivered_as d s s' (Ok tt) r
  | as_left r x : s' = s → delivered_as d s s' r (Err x).

Lemma deliver_cases d (pw pw' : world) r :
  deliver_batch nm d pw = (r, pw') →
  (pw' = pw ∧ (sdel_sink_name d = nm → sdel_status d = "delivered"))
  ∨ (sdel_sink_name d = nm ∧ ∃ o, publish (sdel_batch d) pw.2 = (o, pw'.2)
     ∧ delivered_as d (mp_state pw.1) (mp_state pw'.1) o r).
Proof.
  unfold deliver_batch, _record_failed_delivery, attempt, on_warehouse, focus. intros E.
  apply bind_inv in E as [([] & w1 & E1 & E)|(x & E1 & ->)]; apply raise_if_inv in E1 as [Eq ->];
    destruct (eqb_of (sdel_sink_name d) nm) eqn:En; try done.
  2: { left. split; [done|]. intros ?. by apply (eqb_of_false (sdel_sink_name d)) in En. }
  apply (eqb_of_true (sdel_sink_name d)) in En. destruct (eqb_of (sdel_status d) "delivered") eqn:Es.
  { injection E as <- <-. left. split; [done|]. intros _. by apply (eqb_of_true (sdel_status d)). }
  right. split; [done|]. apply bind_inv in E as [(o & w1 & E1 & E)|(x & E1 & ->)]; cbv beta in E1; destruct (publish (sdel_batch d) pw.2) as [o' k] eqn:Ep;
    [|done]. injection E1 as <- <-. exists o'. destruct o' as [[]|e]; inv_prog.
  all: repeat match goal with H : ptx _ _ = _ |- _ => apply ptx_state in H as [??]; cbn [fst snd] in * end.
  all: try (split; [congruence|]; by econstructor). all: split; [done|]; by apply as_left.
Qed.

Lemma prepare_cases st (pw pw' : world) r :
  prepare st nm pw = (r, pw') →
  let s := mp_state pw.1 in let job := job_job_id st in
  (pw' = pw ∧ ((∃ x, r = Err x) ∨ r = Ok None ∧ pending_of s job nm = [] ∨ ∃ d l, pending_of s job nm = d :: l ∧ r = Ok (Some d)))
  ∨ (∃ d, pending_of s job nm = [] ∧ offset_of s job < Z.of_nat (length (st_events s))
      ∧ next_delivery st nm (offset_of s job) (st_events s) = Ok d
      ∧ pw'.2 = pw.2 ∧ tx_result (prepare_body job (offset_of s job) d) s (mp_state pw'.1) r).
Proof.
  intros E s job. unfold prepare, pending, preads in E.
  rewrite run_gets in E. fold s job in E.
  destruct (pending_of s job nm) as [|d l] eqn:Ew; [|injection E as <- <-; naive_solver].
  rewrite run_gets in E. fold s in E.
  apply bind_inv in E as [(c & w1 & E1 & E)|(x & E1 & ->)].
  2: { left. split; [by destruct (sink_checkpoint s job nm); [|apply lift_inv in E1 as [_ ->]]|eauto]. }
  assert (w1 = pw ∧ chk_event_offset c = offset_of s job) as [-> Hc].
  { unfold offset_of. destruct (sink_checkpoint s job nm) as [c'|]; [by injection E1 as <- <-|].
    apply lift_inv in E1 as [E1 ->]. symmetry in E1. apply checkpoint_new in E1 as [-> _]. done. }
  rewrite run_gets in E. fold s in E. rewrite Hc in E. unfold events in E.
  destruct (Z.leb_spec (Z.of_nat (length (st_events s))) (offset_of s job)); [injection E as <- <-; naive_solver|].
  apply bind_inv in E as [(d & w1 & E2 & E)|(x & E2 & ->)]; apply lift_inv in E2 as [E2 ->]; [|naive_solver].
  apply ptx_state in E as [? ?]. right. exists d. split_and!; auto.
Qed.

Lemma pending_stored w job d l :
  outbox_sound w → pending_of (ow_now w) job nm = d :: l →
  held w d ∧ sdel_sink_name d = nm ∧ batch_job_id (sdel_batch d) = job ∧ sdel_status d = "pending".
Proof.
  intros Hw E. assert (d ∈ pending_of (ow_now w) job nm) as Hd by (rewrite E; left).
  unfold pending_of, sink_deliveries in Hd. apply list_elem_of_filter in Hd as [Hs Hd].
  apply list_elem_of_filter in Hd as [[[?|Hj] [?|Hn]] Hd]; simplify_eq.
  apply elem_of_values_on in Hd as [key Hk]. assert (ow_now w ∈ ow_now w :: ow_past w) as Hin by left.
  destruct (sound_deliveries w Hw _ _ _ Hin Hk) as [-> _]. split_and!; try done. by exists (ow_now w).
Qed.

(** What [prepare] returns is durable. *)
Lemma prepared_stored w job off d s' d' :
  outbox_sound w → tx_result (prepare_body job off d) (ow_now w) s' (Ok (Some d')) → sink_delivery s' (sdel_delivery_id d') = Some d'.
Proof.
  intros Hw [[_ [? ?]]|(_ & a & u & [= <-] & E & ->)]; [done|].
  unfold prepare_body, get_sink_checkpoint, get_sink_delivery, save_sink_delivery, write in E. unfold sink_delivery. inv_prog.
  - match goal with H : _ !! _ = Some _ |- _ => change (st_sink_deliveries (ow_now w) !! sdel_delivery_id d = Some s) in H end.
    destruct (sound_deliveries w Hw (ow_now w) (sdel_delivery_id d) s) as [E _]; [left|done|]. by rewrite <- E.
  - cbn. apply lookup_insert_eq.
Qed.

Lemma tx_steps {A} w (body : uprog A) s' r :
  tx_result body (ow_now w) s' r → outbox_step w (after_tx w body) →
  ∃ w', rtc outbox_step w w' ∧ ow_now w' = s' ∧ ow_sink w' = ow_sink w.
Proof.
  intros [[-> _]|[-> _]] Hs; [by exists w|]. exists (after_tx w body). split_and!; [by apply rtc_once|done..].
Qed.

Lemma deliver_steps w d (pw pw' : world) r :
  deliver_batch nm d pw = (r, pw') → ow_now w = mp_state pw.1 → ow_sink w = pw.2 → held w d →
  ∃ w', rtc outbox_step w w' ∧ ow_now w' = mp_state pw'.1 ∧ ow_sink w' = pw'.2.
Proof.
  intros E Hs Hk Hh. apply deliver_cases in E as [[-> _]|(Hn & o & Ep & Hd)]; [by exists w|].
  rewrite <- Hk in Ep. pose proof (step_publish w d o pw'.2 Hh Hn Ep) as Hstep.
  set (w1 := mkOutboxWorld (ow_past w) (ow_now w) pw'.2) in *. assert (held w1 d) as Hh1 by done.
  cut (∃ w', rtc outbox_step w1 w' ∧ ow_now w' = mp_state pw'.1 ∧ ow_sink w' = ow_sink w1).
  { intros (w' & ? & ? & ?). exists w'. split_and!; try done. by eapply rtc_l. }
  inversion Hd as [e x f r0 Hf Ht|c chk r0 Hc Hchk Ht|? ? Hsame]; subst; rewrite <- Hs in *.
  - eapply tx_steps; [exact Ht|]. by eapply step_fail.
  - eapply tx_steps; [exact Ht|]. apply step_complete; try done. cbn. rewrite (publish_ok _ _ _ Ep).
    unfold with_batch. case_bool_decide; [done|]. rewrite fmap_app. set_solver.
  - by exists w1.
Qed.

Lemma flush_steps st w (pw pw' : world) r :
  outbox_sound w → short nm → short (job_job_id st) → ow_now w = mp_state pw.1 → ow_sink w = pw.2 → flush_sink nm st pw = (r, pw') →
  ∃ w', rtc outbox_step w w' ∧ ow_now w' = mp_state pw'.1 ∧ ow_sink w' = pw'.2.
Proof.
  intros Hw Hn Hj Hs Hk E. unfold flush_sink in E.
  assert (∀ rp pw1, prepare st nm pw = (rp, pw1) → ∃ w1, rtc outbox_step w w1 ∧ ow_now w1 = mp_state pw1.1 ∧ ow_sink w1 = pw1.2
    ∧ (∀ d, rp = Ok (Some d) → held w1 d)) as Hprepare.
  { intros rp pw1 [[-> Hr]|(d & Hp & Ho & Hd & Hsink & Ht)]%prepare_cases; rewrite <- Hs in *.
    - exists w. split_and!; try done. intros d ->. destruct Hr as [[? ?]|[[? _]|(d' & l & Hp & [= ->])]]; [done..|].
      by apply pending_stored in Hp as [? _].
    - assert (outbox_step w (after_tx w (prepare_body (job_job_id st) (offset_of (ow_now w) (job_job_id st)) d))) as Hstep.
      { apply step_prepare with (ow_now w); try done; left. }
      destruct (tx_steps w _ _ _ Ht Hstep) as (w1 & Hw1 & Hs1 & Hk1). exists w1. split_and!; try congruence.
      intros d' ->. exists (ow_now w1). split; [left|]. rewrite Hs1. by eapply prepared_stored. }
  apply bind_inv in E as [(o & pw1 & E1 & E)|(x & E1 & ->)].
  2: { destruct (Hprepare _ _ E1) as (w1 & ? & ? & ? & _). eauto. }
  destruct (Hprepare _ _ E1) as (w1 & Hw1 & Hs1 & Hk1 & Hh). assert (outbox_sound w1) as Hsound1 by by eapply steps_sound.
  assert (∀ d rd pw2, deliver_batch nm d pw1 = (rd, pw2) → held w1 d →
    ∃ w', rtc outbox_step w w' ∧ ow_now w' = mp_state pw2.1 ∧ ow_sink w' = pw2.2) as Hdeliver.
  { intros d rd pw2 Ed Hd. destruct (deliver_steps w1 d pw1 pw2 rd) as (w2 & ? & ? & ?); try done.
    exists w2. split_and!; try done. by etransitivity. }
  destruct o as [d|].
  - apply bind_inv in E as [(? & pw2 & E2 & [= <- <-])|(x & E2 & ->)]; eapply Hdeliver; eauto.
  - unfold pending, preads in E. rewrite run_gets in E. rewrite <- Hs1 in E.
    destruct (pending_of (ow_now w1) (job_job_id st) nm) as [|d l] eqn:Hp; [injection E as <- <-; eauto|].
    apply pending_stored in Hp as [Hd _]; [|done].
    apply bind_inv in E as [(? & pw2 & E2 & [= <- <-])|(x & E2 & ->)]; eapply Hdeliver; eauto.
Qed.

(** C21. The outbox implements the protocol: a flush in any world the protocol
    reaches, whatever it returns and wherever the sink or a commit fails, is a
    sequence of the protocol's steps. *)
Theorem flush_refines s0 k0 st w (pw pw' : world) r :
  short nm → fresh_outbox s0 k0 → rtc outbox_step (mkOutboxWorld [] s0 k0) w →
  short (job_job_id st) → ow_now w = mp_state pw.1 → ow_sink w = pw.2 → flush_sink nm st pw = (r, pw') →
  ∃ w', rtc outbox_step w w' ∧ ow_now w' = mp_state pw'.1 ∧ ow_sink w' = pw'.2.
Proof. intros Hn Hf Hreach. apply flush_steps; [|done]. eapply steps_sound; eauto using fresh_sound. Qed.

(** *** One worker

    A single worker that flushes between the commits of the simulation. *)
Inductive worker_step (pw : world) : world → Prop :=
  | work_commit s :
      st_sink_deliveries s = st_sink_deliveries (mp_state pw.1) → st_sink_checkpoints s = st_sink_checkpoints (mp_state pw.1) →
      st_events (mp_state pw.1) `prefix_of` st_events s → plausible (st_events s) →
      worker_step pw (pw.1 <| mp_state := s |>, pw.2)
  | work_flush st r pw' : short (job_job_id st) → flush_sink nm st pw = (r, pw') → worker_step pw pw'.

(** The batches of a job a sink holds. *)
Definition job_batches (k : Sk) (job : string) : list AnalyticalBatch := filter (λ b, batch_job_id b = job) (received k).

Definition stored (s : state) (job key : string) (d : SinkDelivery) : Prop :=
  st_sink_deliveries s !! key = Some d ∧ sdel_sink_name d = nm ∧ batch_job_id (sdel_batch d) = job.

(** What a sink has of a job is its events up to the checkpoint, and at most the
    batch of the one delivery that waits. *)
Definition job_progress (s : state) (k : Sk) (job : string) : Prop :=
  ∃ parts, concat (batch_events <$> parts) = take (Z.to_nat (offset_of s job)) (st_events s)
    ∧ (∀ b, b ∈ parts → batch_to_event_offset b ≤ offset_of s job)
    ∧ (job_batches k job = parts ∨ ∃ key d, stored s job key d ∧ job_batches k job = (parts ++ [sdel_batch d])%list).

Record worker_inv (s : state) (k : Sk) : Prop := {
  inv_sound : outbox_sound (mkOutboxWorld [] s k);
  inv_start job key d : stored s job key d → sdel_status d = "pending" ∧ batch_from_event_offset (sdel_batch d) = offset_of s job;
  inv_one job key d key' d' : stored s job key d → stored s job key' d' → key = key';
  inv_offset job : offset_of s job ≤ Z.of_nat (length (st_events s));
  inv_progress job : job_progress s k job }.

Lemma forget_past w : outbox_sound w → outbox_sound (mkOutboxWorld [] (ow_now w) (ow_sink w)).
Proof.
  intros Hw. split; cbn [ow_now ow_past ow_sink]; try apply Hw.
  - intros s' Hs. by apply not_elem_of_nil in Hs.
  - intros s' job Hs. by apply not_elem_of_nil in Hs.
  - intros s' k' d ->%list_elem_of_singleton. apply (sound_deliveries w Hw). left.
  - intros s' k' d ->%list_elem_of_singleton. apply (sound_checkpoints w Hw). left.
Qed.

Lemma fresh_inv s k : fresh_outbox s k → worker_inv s k.
Proof.
  intros Hf. pose proof (fresh_sound s k Hf) as Hsound. destruct Hf as (_ & Hd & Hc & Hr).
  assert (∀ job, offset_of s job = 0) as Ho by (intros; unfold offset_of, sink_checkpoint; by rewrite Hc, lookup_empty).
  assert (∀ job key d, ¬ stored s job key d) as Hno by (intros ? ? ? [Hk _]; by rewrite Hd, lookup_empty in Hk).
  split; try done.
  - naive_solver.
  - naive_solver.
  - intros job. rewrite Ho. lia.
  - intros job. exists []. rewrite Ho. split_and!; [done|set_solver|left]. unfold job_batches. by rewrite Hr.
Qed.

Lemma sink_commit_inv s s' k :
  worker_inv s k → st_sink_deliveries s' = st_sink_deliveries s → st_sink_checkpoints s' = st_sink_checkpoints s →
  st_events s `prefix_of` st_events s' → plausible (st_events s') → worker_inv s' k.
Proof.
  intros Hinv Hd Hc He Hp.
  assert (∀ job, offset_of s' job = offset_of s job) as Ho by (intros job; unfold offset_of, sink_checkpoint; by rewrite Hc).
  assert (∀ job key d, stored s' job key d ↔ stored s job key d) as Hst by (intros; unfold stored; by rewrite Hd).
  split.
  - apply (forget_past (mkOutboxWorld [s] s' k)), (commit_sound (mkOutboxWorld [] s k)); [apply Hinv|done..].
  - intros job key d ?%Hst. rewrite Ho. by apply (inv_start s k Hinv) with key.
  - intros job key d key' d' ?%Hst ?%Hst. by eapply (inv_one s k Hinv).
  - intros job. rewrite Ho. apply prefix_length in He. pose proof (inv_offset s k Hinv job). lia.
  - intros job. destruct (inv_progress s k Hinv job) as (parts & Hev & Hto & Hb). exists parts. rewrite Ho. split_and!; [|done|].
    + rewrite Hev. destruct He as [l ->]. rewrite take_app_le; [done|]. pose proof (inv_offset s k Hinv job). lia.
    + destruct Hb as [|(key & d & Hd' & ?)]; [by left|right]. exists key, d. by rewrite Hst.
Qed.

Lemma stored_insert s job key d' key0 d :
  stored (s <| st_sink_deliveries ::= <[key0 := d]> |>) job key d'
  ↔ (key = key0 ∧ d' = d ∧ sdel_sink_name d = nm ∧ batch_job_id (sdel_batch d) = job) ∨ (key ≠ key0 ∧ stored s job key d').
Proof. unfold stored. cbn. rewrite lookup_insert_Some. naive_solver. Qed.

Lemma prepared_inv s k d :
  worker_inv s k → outbox_sound (mkOutboxWorld [] (s <| st_sink_deliveries ::= <[sdel_delivery_id d := d]> |>) k) →
  (∀ key d', ¬ stored s (batch_job_id (sdel_batch d)) key d') → st_sink_deliveries s !! sdel_delivery_id d = None →
  sdel_sink_name d = nm → sdel_status d = "pending" → batch_from_event_offset (sdel_batch d) = offset_of s (batch_job_id (sdel_batch d)) →
  worker_inv (s <| st_sink_deliveries ::= <[sdel_delivery_id d := d]> |>) k.
Proof.
  intros Hinv Hs Hno Hnone Hn Hp Hfrom. split; [done|..].
  - intros job key d' [(-> & -> & _ & <-)|[_ Hd]]%stored_insert; [done|]. by apply (inv_start s k Hinv) in Hd.
  - intros job key d' key' d'' Hd Hd'. apply stored_insert in Hd as [(-> & -> & _ & E)|[_ Hd]], Hd' as [(-> & -> & _ & E')|[_ Hd']].
    + done.
    + subst job. by apply Hno in Hd'.
    + subst job. by apply Hno in Hd.
    + by eapply (inv_one s k Hinv).
  - apply (inv_offset s k Hinv).
  - intros job. destruct (inv_progress s k Hinv job) as (parts & Hev & Hto & Hb). exists parts. split_and!; [done..|].
    destruct Hb as [|(key & d' & Hd & ?)]; [by left|right]. exists key, d'. split; [|done]. apply stored_insert. right.
    split; [|done]. intros ->. destruct Hd as [Hd _]. by rewrite Hnone in Hd.
Qed.

Lemma failed_inv s k d f key :
  worker_inv s k → outbox_sound (mkOutboxWorld [] (s <| st_sink_deliveries ::= <[key := f]> |>) k) →
  stored s (batch_job_id (sdel_batch d)) key d → sdel_batch f = sdel_batch d → sdel_sink_name f = nm → sdel_status f = sdel_status d →
  worker_inv (s <| st_sink_deliveries ::= <[key := f]> |>) k.
Proof.
  intros Hinv Hs Hd Hb Hn Hst. split; [done|..].
  - intros job key' d' [(-> & -> & _ & <-)|[_ Hd']]%stored_insert; [|by apply (inv_start s k Hinv) in Hd'].
    rewrite Hb, Hst. by apply (inv_start s k Hinv) in Hd.
  - intros job key' d' key'' d'' Hd' Hd''.
    apply stored_insert in Hd' as [(-> & -> & _ & E)|[Hne' Hd']], Hd'' as [(-> & -> & _ & E')|[Hne'' Hd'']].
    + done.
    + rewrite Hb in E. subst job. by eapply (inv_one s k Hinv).
    + rewrite Hb in E'. subst job. by eapply (inv_one s k Hinv).
    + by eapply (inv_one s k Hinv).
  - apply (inv_offset s k Hinv).
  - intros job. destruct (inv_progress s k Hinv job) as (parts & Hev & Hto & Hbs). exists parts. split_and!; [done..|].
    destruct Hbs as [|(key' & d' & Hd' & ?)]; [by left|right]. destruct (decide (key' = key)) as [->|].
    + assert (d' = d) as -> by (destruct Hd as [Hd _], Hd' as [Hd' _]; congruence).
      exists key, f. rewrite Hb. split; [|done]. apply stored_insert. left. split_and!; try done. rewrite Hb. apply Hd'.
    + exists key', d'. split; [|done]. apply stored_insert. by right.
Qed.

(** Publishing a stored delivery. *)
Lemma published_batches s k d key :
  worker_inv s k → short nm → stored s (batch_job_id (sdel_batch d)) key d →
  ∃ parts, concat (batch_events <$> parts) = take (Z.to_nat (batch_from_event_offset (sdel_batch d))) (st_events s)
    ∧ (∀ b, b ∈ parts → batch_to_event_offset b ≤ batch_from_event_offset (sdel_batch d))
    ∧ (job_batches k (batch_job_id (sdel_batch d)) = parts ∨ job_batches k (batch_job_id (sdel_batch d)) = (parts ++ [sdel_batch d])%list)
    ∧ filter (λ b, batch_job_id b = batch_job_id (sdel_batch d)) (with_batch (received k) (sdel_batch d)) = (parts ++ [sdel_batch d])%list.
Proof.
  intros Hinv Hn Hd. set (job := batch_job_id (sdel_batch d)) in *.
  destruct (inv_start s k Hinv job key d Hd) as [_ Hfrom]. destruct (inv_progress s k Hinv job) as (parts & Hev & Hto & Hb).
  rewrite Hfrom. exists parts. split_and!; [done..| |].
  { destruct Hb as [|(key' & d' & Hd' & Hb)]; [by left|right]. assert (key' = key) as -> by by eapply (inv_one s k Hinv).
    destruct Hd as [Hd _], Hd' as [Hd' _]. congruence. }
  pose proof (inv_sound s k Hinv) as Hs. assert (good_batch (st_events s) (sdel_batch d)) as Hg.
  { eapply (sound_deliveries _ Hs s key d); [left|apply Hd..]. }
  destruct (decide (batch_batch_id (sdel_batch d) ∈ batch_batch_id <$> received k)) as [Hin|Hin].
  - unfold with_batch. rewrite bool_decide_true by done. destruct (good_batch_received _ _ Hs Hn Hg Hin) as (b & Hr & Hj & Hf & Ht).
    assert (b ∈ job_batches k job) as Hbj by (apply list_elem_of_filter; done). cbn in Hr.
    fold (job_batches k job). destruct Hb as [Hb|(key' & d' & Hd' & Hb)].
    + rewrite Hb in Hbj. apply Hto in Hbj. destruct Hg. lia.
    + rewrite Hb. do 2 f_equal. assert (key' = key) as -> by by eapply (inv_one s k Hinv).
      destruct Hd as [Hd _], Hd' as [Hd' _]. congruence.
  - unfold with_batch. rewrite bool_decide_false by done. rewrite filter_app. fold (job_batches k job).
    rewrite filter_cons_True by done. destruct Hb as [-> |(key' & d' & Hd' & Hb)]; [done|]. exfalso. apply Hin.
    assert (key' = key) as -> by by eapply (inv_one s k Hinv). assert (d' = d) as -> by (destruct Hd as [Hd _], Hd' as [Hd' _]; congruence).
    apply list_elem_of_fmap. exists (sdel_batch d). split; [done|].
    assert (sdel_batch d ∈ job_batches k job) as Hbj by (rewrite Hb; set_solver). by apply list_elem_of_filter in Hbj as [_ ?].
Qed.

(** The sink has the batch of a delivery, after the events before it. *)
Definition has_batch (s : state) (k : Sk) (d : SinkDelivery) : Prop :=
  ∃ parts, concat (batch_events <$> parts) = take (Z.to_nat (batch_from_event_offset (sdel_batch d))) (st_events s)
    ∧ (∀ b, b ∈ parts → batch_to_event_offset b ≤ batch_from_event_offset (sdel_batch d))
    ∧ job_batches k (batch_job_id (sdel_batch d)) = (parts ++ [sdel_batch d])%list.

Lemma published_inv s k k' d key r :
  worker_inv s k → short nm → stored s (batch_job_id (sdel_batch d)) key d → publish (sdel_batch d) k = (r, k') →
  worker_inv s k' ∧ (r = Ok tt → has_batch s k' d).
Proof.
  intros Hinv Hn Hd E. pose proof (inv_sound s k Hinv) as Hs.
  assert (key = sdel_delivery_id d ∧ held (mkOutboxWorld [] s k) d) as [-> Hh].
  { destruct (sound_deliveries _ Hs s key d) as [-> _]; [left|apply Hd|]. split; [done|]. exists s. split; [left|apply Hd]. }
  assert (received k' = received k ∨ received k' = with_batch (received k) (sdel_batch d)) as Hk.
  { destruct r as [[]|e]; [right; by eapply publish_ok|by eapply publish_err]. }
  destruct (inv_start s k Hinv _ _ _ Hd) as [_ Hfrom].
  destruct (published_batches s k d _ Hinv Hn Hd) as (parts & Hev & Hto & Hold & Hnew).
  split.
  - split; [|apply Hinv..|].
    + refine (publish_sound (mkOutboxWorld [] s k) d r k' Hs Hh _ E). apply Hd.
    + intros job. unfold job_progress, job_batches. destruct (decide (job = batch_job_id (sdel_batch d))) as [->|Hj].
      * exists parts. rewrite <- Hfrom. split_and!; [done..|]. destruct Hk as [->| ->].
        -- destruct Hold as [?|?]; [by left|right; eauto].
        -- right; eauto.
      * destruct (inv_progress s k Hinv job) as (parts' & ? & ? & Hb). exists parts'. split_and!; [done..|].
        assert (filter (λ b, batch_job_id b = job) (received k') = job_batches k job) as ->; [|done].
        unfold job_batches. destruct Hk as [->| ->]; [done|]. unfold with_batch. case_match; [done|].
        rewrite filter_app, filter_cons_False, filter_nil, app_nil_r by congruence. done.
  - intros ->. exists parts. split_and!; [done..|]. unfold job_batches. by rewrite (publish_ok _ _ _ E).
Qed.

Lemma take_slice {A} (l : list A) i j : 0 ≤ i ≤ j → (take (Z.to_nat i) l ++ take (Z.to_nat (j - i)) (drop (Z.to_nat i) l))%list = take (Z.to_nat j) l.
Proof. intros Hij. rewrite take_take_drop. f_equal. lia. Qed.

Lemma settled_inv s k d key x :
  worker_inv s k → stored s (batch_job_id (sdel_batch d)) key d → has_batch s k d →
  chk_event_offset x = batch_to_event_offset (sdel_batch d) →
  outbox_sound (mkOutboxWorld [] (s <| st_sink_checkpoints ::= <[(batch_job_id (sdel_batch d), nm) := x]> |>
                                    <| st_sink_deliveries ::= delete key |>) k) →
  worker_inv (s <| st_sink_checkpoints ::= <[(batch_job_id (sdel_batch d), nm) := x]> |> <| st_sink_deliveries ::= delete key |>) k.
Proof.
  intros Hinv Hd (parts & Hev & Hto & Hb) Hx Hs.
  assert (good_batch (st_events s) (sdel_batch d)) as Hg.
  { eapply (sound_deliveries _ (inv_sound s k Hinv) s key d); [left|apply Hd..]. }
  set (s' := s <| st_sink_checkpoints ::= _ |> <| st_sink_deliveries ::= _ |>) in *.
  assert (∀ job, offset_of s' job = if decide (job = batch_job_id (sdel_batch d)) then batch_to_event_offset (sdel_batch d) else offset_of s job) as Ho.
  { intros job. unfold offset_of, sink_checkpoint, s'. cbn. case_decide as Hj; [subst job; by rewrite lookup_insert_eq|].
    by rewrite lookup_insert_ne by congruence. }
  assert (∀ job key' d', stored s' job key' d' ↔ key' ≠ key ∧ stored s job key' d') as Hst.
  { intros. unfold stored, s'. cbn. rewrite lookup_delete_Some. naive_solver. }
  assert (∀ key' d', ¬ stored s' (batch_job_id (sdel_batch d)) key' d') as Hnone.
  { intros key' d' [Hne Hd']%Hst. apply Hne. by eapply (inv_one s k Hinv). }
  split; [done|..].
  - intros job key' d' Hd'. rewrite Ho. case_decide as Hj; [subst; by apply Hnone in Hd'|]. apply Hst in Hd' as [_ Hd'].
    by apply (inv_start s k Hinv) in Hd'.
  - intros job key' d' key'' d'' [_ ?]%Hst [_ ?]%Hst. by eapply (inv_one s k Hinv).
  - intros job. rewrite Ho. case_decide; [apply Hg|apply (inv_offset s k Hinv)].
  - intros job. unfold job_progress. rewrite Ho. case_decide as Hj.
    + subst job. exists (parts ++ [sdel_batch d])%list. split_and!; [|..].
      * rewrite fmap_app, concat_app, Hev. cbn. rewrite app_nil_r, (good_events _ _ Hg). apply take_slice. destruct Hg. lia.
      * intros b [Hb'%Hto| ->%list_elem_of_singleton]%elem_of_app; [|lia]. destruct Hg. lia.
      * by left.
    + destruct (inv_progress s k Hinv job) as (parts' & ? & ? & Hbs). exists parts'. split_and!; [done..|].
      destruct Hbs as [|(key' & d' & Hd' & ?)]; [by left|right]. exists key', d'. split; [|done]. apply Hst. split; [|done].
      intros ->. destruct Hd as (Hd & _), Hd' as (Hd' & _ & Hj'). congruence.
Qed.

Lemma recorded_inv s s' k d key e f r :
  worker_inv s k → stored s (batch_job_id (sdel_batch d)) key d →
  SinkDelivery_new (d <| sdel_attempts := sdel_attempts d + 1 |> <| sdel_last_error := Some (exn_text e) |>) = Ok f →
  tx_result (failed_body d f) s s' r → worker_inv s' k.
Proof.
  intros Hinv Hd Ef [[-> _]|[-> _]]; [done|].
  assert (key = sdel_delivery_id d) as -> by (eapply (sound_deliveries _ (inv_sound s k Hinv) s); [left|apply Hd]).
  assert (held (mkOutboxWorld [] s k) d) as Hh by (exists s; split; [left|apply Hd]).
  pose proof (fail_sound _ d e f (inv_sound s k Hinv) Hh Ef) as Hs%forget_past. apply delivery_new in Ef as ->.
  match type of Hs with context [failed_body d ?f] => destruct (failed_state d f s) as [E|[_ E]] end; cbn in Hs; rewrite E in *; [done|].
  eapply failed_inv; [done|exact Hs|exact Hd|done|apply Hd|done].
Qed.

Lemma completed_inv s s' k d key c chk r :
  worker_inv s k → short nm → stored s (batch_job_id (sdel_batch d)) key d → has_batch s k d →
  _delivery_checkpoint nm d = Ok chk → tx_result (complete_body nm d c chk) s s' r → worker_inv s' k.
Proof.
  intros Hinv Hn Hd Hb Ec [[-> _]|[-> _]]; [done|].
  assert (key = sdel_delivery_id d) as -> by (eapply (sound_deliveries _ (inv_sound s k Hinv) s); [left|apply Hd]).
  assert (held (mkOutboxWorld [] s k) d) as Hh by (exists s; split; [left|apply Hd]).
  assert (batch_batch_id (sdel_batch d) ∈ batch_batch_id <$> received k) as Hin.
  { destruct Hb as (parts & _ & _ & Hb). apply list_elem_of_fmap. exists (sdel_batch d). split; [done|].
    assert (sdel_batch d ∈ job_batches k (batch_job_id (sdel_batch d))) as [_ ?]%list_elem_of_filter; [|done]. rewrite Hb. set_solver. }
  pose proof (complete_sound _ d c chk (inv_sound s k Hinv) Hn Hh (proj1 (proj2 Hd)) Hin Ec) as Hs%forget_past.
  apply checkpoint_new in Ec as [-> _]. cbn in Hs. match goal with |- context [complete_body nm d c ?chk] => destruct (complete_state nm d c chk s) as [E|(x & Hx & E)] end.
  { by rewrite E. }
  rewrite E in *.
  destruct (inv_start s k Hinv _ _ _ Hd) as [_ Hfrom]. destruct Hx as [[Hx Hlt]|[_ ->]].
  - exfalso. unfold offset_of in Hfrom. rewrite Hx in Hfrom. cbn in Hfrom. lia.
  - by apply settled_inv.
Qed.

Lemma sink_deliver_inv d key (pw pw' : world) r :
  worker_inv (mp_state pw.1) pw.2 → short nm → sink_delivery (mp_state pw.1) key = Some d → deliver_batch nm d pw = (r, pw') →
  worker_inv (mp_state pw'.1) pw'.2.
Proof.
  intros Hinv Hn Hd [[-> _]|(Hnm & o & Ep & Has)]%deliver_cases; [done|].
  assert (stored (mp_state pw.1) (batch_job_id (sdel_batch d)) key d) as Hst by done.
  destruct (published_inv _ _ _ _ _ _ Hinv Hn Hst Ep) as [Hinv' Hbatch].
  inversion Has as [e x f r0 Hf Ht|c chk r0 Hc Hchk Ht|? ? Hsame]; subst.
  - by eapply recorded_inv.
  - by eapply completed_inv, Ht; [..|apply Hbatch|].
  - by rewrite Hsame.
Qed.

Lemma flush_inv st (pw pw' : world) r :
  worker_inv (mp_state pw.1) pw.2 → short nm → short (job_job_id st) → flush_sink nm st pw = (r, pw') →
  worker_inv (mp_state pw'.1) pw'.2.
Proof.
  intros Hinv Hn Hj E. pose proof (inv_sound _ _ Hinv) as Hs.
  assert (∀ rp pw1, prepare st nm pw = (rp, pw1) → worker_inv (mp_state pw1.1) pw1.2
    ∧ (∀ d, rp = Ok (Some d) → ∃ key, sink_delivery (mp_state pw1.1) key = Some d)) as Hprepare.
  { intros rp pw1 [[-> Hr]|(d & Hp & Ho & Hd & -> & Ht)]%prepare_cases.
    - split; [done|]. intros d ->. destruct Hr as [[? ?]|[[? _]|(d' & l & Hp & [= ->])]]; [done..|].
      destruct (pending_stored _ _ _ _ Hs Hp) as [(s & ->%list_elem_of_singleton & ?) _]. eauto.
    - split; [|intros d' ->; eexists; by eapply (prepared_stored (mkOutboxWorld [] (mp_state pw.1) pw.2))].
      destruct Ht as [[-> _]|[-> _]]; [done|].
      assert (outbox_sound (after_tx (mkOutboxWorld [] (mp_state pw.1) pw.2)
        (prepare_body (job_job_id st) (offset_of (mp_state pw.1) (job_job_id st)) d))) as Hs1%forget_past.
      { apply prepare_sound with (mp_state pw.1); try done; left. }
      destruct (prepare_state (job_job_id st) (offset_of (mp_state pw.1) (job_job_id st)) d (mp_state pw.1)) as [Et|[Hnone Et]];
        cbn in Hs1; rewrite Et in *; [done|].
      apply next_delivery_good in Hd as (Hdn & Hg & Hdj & Hdf & _ & Hdp); [|split; [|done]|done].
      2: { by apply (past_offsets _ _ _ Hs); left. }
      apply prepared_inv; try done; rewrite Hdj; [|done]. intros key d' Hd'.
      assert (d' ∈ pending_of (mp_state pw.1) (job_job_id st) nm) as Hin; [|rewrite Hp in Hin; by apply not_elem_of_nil in Hin].
      destruct (inv_start _ _ Hinv _ _ _ Hd') as [Hst _]. destruct Hd' as (Hd' & Hn' & Hj').
      apply list_elem_of_filter. split; [done|]. apply list_elem_of_filter. split; [split; right; congruence|]. apply elem_of_values_on. eauto. }
  unfold flush_sink in E. apply bind_inv in E as [(o & pw1 & E1 & E)|(x & E1 & ->)]; [|by apply (Hprepare _ _ E1)].
  destruct (Hprepare _ _ E1) as [Hinv1 Hkey].
  assert (∀ d, (∃ key, sink_delivery (mp_state pw1.1) key = Some d) →
    (d ← deliver_batch nm d ; mret (Some d)) pw1 = (r, pw') → worker_inv (mp_state pw'.1) pw'.2) as Hdeliver.
  { intros d [key Hk] Ed. apply bind_inv in Ed as [(? & pw2 & E2 & [= <- <-])|(x & E2 & ->)]; by eapply sink_deliver_inv. }
  destruct o as [d|]; [by eapply Hdeliver, E; apply Hkey|].
  unfold pending, preads in E. rewrite run_gets in E.
  destruct (pending_of (mp_state pw1.1) (job_job_id st) nm) as [|d l] eqn:Hp; [by injection E as <- <-|].
  eapply Hdeliver, E. destruct (pending_stored _ _ _ _ (inv_sound _ _ Hinv1) Hp) as [(s & ->%list_elem_of_singleton & ?) _]. eauto.
Qed.

(** C13. One worker delivers exactly once and in order: whatever the sink and the
    commits do, after any number of flushes between the commits of the simulation
    the batches a sink has received of a job hold, one after the other, the first
    events of the journal, each once, at least up to the checkpoint. *)
Theorem flush_exactly_once (p : persistence) k pw job :
  short nm → fresh_outbox (mp_state p) k → rtc worker_step (p, k) pw →
  ∃ n, offset_of (mp_state pw.1) job ≤ n ≤ Z.of_nat (length (st_events (mp_state pw.1)))
    ∧ concat (batch_events <$> filter (λ b, batch_job_id b = job) (received pw.2))
      = take (Z.to_nat n) (st_events (mp_state pw.1)).
Proof.
  intros Hn Hf Hsteps. assert (worker_inv (mp_state pw.1) pw.2) as Hinv.
  { apply fresh_inv in Hf. change p with ((p, k).1) in Hf. change k with ((p, k).2) in Hf at 2.
    induction Hsteps as [|pw pw1 pw2 Hs _ IH]; [done|]. apply IH. destruct Hs; [by eapply sink_commit_inv|by eapply flush_inv]. }
  fold (job_batches pw.2 job). destruct (inv_progress _ _ Hinv job) as (parts & Hev & _ & [->|(key & d & Hd & ->)]).
  - exists (offset_of (mp_state pw.1) job). split; [|done]. pose proof (inv_offset _ _ Hinv job). lia.
  - destruct (inv_start _ _ Hinv _ _ _ Hd) as [_ Hfrom].
    assert (good_batch (st_events (mp_state pw.1)) (sdel_batch d)) as Hg.
    { eapply (sound_deliveries _ (inv_sound _ _ Hinv) (mp_state pw.1) key d); [left|apply Hd..]. }
    exists (batch_to_event_offset (sdel_batch d)). destruct Hg as [? ? ? He _ _]. split; [lia|].
    rewrite fmap_app, concat_app, Hev. cbn. rewrite app_nil_r, He, <- Hfrom. apply take_slice. lia.
Qed.
End protocol.

(** ** A sink that fails after it has written *)

(** The failures to come and the batches written. *)
Definition flaky_sink : Type := nat * list AnalyticalBatch.
#[local] Instance flaky_publish : AnalyticalSink flaky_sink := λ b k,
  match k.1 with
  | O => (Ok tt, (O, with_batch k.2 b))
  | S n => (Err (RuntimeError "the connection was lost"), (n, with_batch k.2 b))
  end.
#[local] Instance flaky_laws : AnalyticalSinkLaws flaky_sink snd.
Proof. split; intros b [[|n] l] *; unfold publish, flaky_publish; cbn; intros [= <-]; naive_solver. Qed.

(** Identities by their names. *)
#[local] Instance plain_uuid : Uuid5 := λ name, name.
#[local] Instance plain_uuid_inj : Inj (=) (=) uuid5.
Proof. by intros ? ?. Qed.

Definition shop_event (id : string) : DomainEvent := mkDomainEvent id "order.placed" "order" "o1" 0 (Some 0) ∅ None None None.
Definition shop_job : SimulationJobState :=
  mkSimulationJobState "shop" "orders" "{}" 1 "active" true 0 1 1 None None None None None 0 0 None 0 [] "idle" None [] [] [].
Definition one_event : state := empty_state <| st_events := [shop_event "e1"] |>.
Definition shop_world : persistence * flaky_sink := (mkPersistence one_event false, (1%nat, [])).

(** The sink fails, the job goes on, the sink recovers. *)
Definition flush_lake (pw : persistence * flaky_sink) := (flush_sink "lake" shop_job pw).2.
Definition go_on (evs : list DomainEvent) (pw : persistence * flaky_sink) : persistence * flaky_sink :=
  (pw.1 <| mp_state := mp_state pw.1 <| st_events := evs |> |>, pw.2).
Definition two_events := [shop_event "e1"; shop_event "e2"].
Definition sink_caught_up := flush_lake (flush_lake (go_on two_events (flush_lake shop_world))).

Lemma caught_up_steps pw evs :
  st_events (mp_state (flush_lake pw).1) `prefix_of` evs → plausible evs →
  rtc (worker_step "lake") pw (flush_lake (flush_lake (go_on evs (flush_lake pw)))).
Proof.
  intros Hp He. assert (∀ pw, worker_step "lake" pw (flush_lake pw)) as Hflush.
  { intros pw'. eapply work_flush; [|apply surjective_pairing]. done. }
  eapply rtc_l; [apply Hflush|]. eapply rtc_l; [by apply (work_commit "lake" _ (mp_state (flush_lake pw).1 <| st_events := evs |>))|].
  eapply rtc_l; [apply Hflush|]. apply rtc_once, Hflush.
Qed.

Lemma two_events_prefix : st_events (mp_state (flush_lake shop_world).1) `prefix_of` two_events.
Proof. exists [shop_event "e2"]. vm_compute. reflexivity. Qed.

Lemma fresh_shop : fresh_outbox snd one_event (1%nat, []).
Proof. split_and!; try done. split; [by repeat constructor|done]. Qed.

Lemma two_plausible : plausible two_events.
Proof. split; [by repeat constructor|done]. Qed.

Example two_batches_once :
  (λ b, (batch_from_event_offset b, ev_event_id <$> batch_events b)) <$> sink_caught_up.2.2 = [(0, ["e1"]); (1, ["e2"])].
Proof. vm_compute. reflexivity. Qed.

Lemma flush_exactly_once_witness :
  ∃ n, concat (batch_events <$> filter (λ b, batch_job_id b = "shop") (sink_caught_up.2.2))
       = take (Z.to_nat n) (st_events (mp_state sink_caught_up.1)).
Proof.
  destruct (flush_exactly_once snd "lake" (mkPersistence one_event false) (1%nat, []) sink_caught_up "shop") as (n & _ & E).
  - done.
  - exact fresh_shop.
  - exact (caught_up_steps shop_world two_events two_events_prefix two_plausible).
  - by exists n.
Defined.

Definition steady_world : persistence * flaky_sink := (mkPersistence one_event false, (0%nat, [])).

Lemma steady_offset : offset_of "lake" (mp_state (flush_lake steady_world).1) "shop" = 1.
Proof. vm_compute. reflexivity. Qed.

Lemma outbox_no_loss_witness :
  ∃ b e, b ∈ (flush_lake steady_world).2.2 ∧ batch_job_id b = "shop"
    ∧ st_events (mp_state (flush_lake steady_world).1) !! 0%nat = Some e.
Proof.
  assert (fresh_outbox snd one_event (0%nat, [])) as Hf by (split_and!; try done; split; [by repeat constructor|done]).
  destruct (flush_steps snd "lake" shop_job (mkOutboxWorld [] one_event (0%nat, [])) steady_world (flush_lake steady_world)
    (flush_sink "lake" shop_job steady_world).1) as (w & Hw & Hs & Hk); [by apply fresh_sound|done..|apply surjective_pairing|].
  destruct (outbox_no_loss snd "lake" one_event (0%nat, []) w w) as [_ H].
  - done.
  - exact Hf.
  - exact Hw.
  - done.
  - rewrite Hs, Hk in H. destruct (H "shop" 0) as (b & e & Hb & Hj & He & _); [split; [done|apply Z.lt_le_trans with 1; [done|]; apply Z.eq_le_incl; symmetry; apply steady_offset]|]. by exists b, e.
Defined.

Lemma flush_refines_witness :
  ∃ w', rtc (outbox_step snd "lake") (mkOutboxWorld [] one_event (1%nat, [])) w' ∧ ow_sink w' = (flush_lake shop_world).2.
Proof.
  destruct (flush_refines snd "lake" one_event (1%nat, []) shop_job (mkOutboxWorld [] one_event (1%nat, []))
    shop_world (flush_lake shop_world) (flush_sink "lake" shop_job shop_world).1) as (w' & Hw & _ & Hk).
  - done.
  - exact fresh_shop.
  - done.
  - done.
  - done.
  - done.
  - apply surjective_pairing.
  - by exists w'.
Defined.

(** Two workers that read the journal at different times prepare two deliveries
    from the same checkpoint, and both wait: what a sink receives may overlap. *)
Example overlapping_deliveries :
  match next_delivery shop_job "lake" 0 [shop_event "e1"], next_delivery shop_job "lake" 0 two_events with
  | Ok d, Ok d' => (λ d, (batch_from_event_offset (sdel_batch d), batch_to_event_offset (sdel_batch d))) <$>
      pending_of (tx_state (prepare_body "shop" 0 d') (tx_state (prepare_body "shop" 0 d) one_event)) "shop" "lake"
  | _, _ => []
  end ≡ₚ [(0, 1); (0, 2)].
Proof. vm_compute. first [reflexivity|apply Permutation_swap]. Qed.
