(* ===== verification/Probability.v ===== *)
(** * Probabilistic transitions

    [src/src/sose/probability/] and [statecharts/topology.py]: the stochastic
    choice among the events a statechart enables.  The chart itself is domain
    code run by python-statemachine; what the code reads of it is the data of
    [chart_view] and [chart_state].  A weight function is domain code: it may
    raise. *)
From S2P Require Import Prelude Encoding Randomness Records Memory MemoryFacts World QueueBackend.
Open Scope string_scope.
Open Scope Z_scope.

(** ** [probability/model.py] *)

Record StateConfiguration := mkStateConfiguration { states : list string }.
#[export] Instance StateConfiguration_eq_dec : EqDecision StateConfiguration.
Proof. solve_decision. Defined.

Definition StateConfiguration_new (l : list string) : res StateConfiguration :=
  let normalized := sort_on id (remove_dups l) in
  fail_if (match normalized with [] => true | _ => false end)
    (ValueError "state configuration cannot be empty") ;;
  mret (mkStateConfiguration normalized).

Definition contains (c : StateConfiguration) (state_id : string) : bool :=
  bool_decide (state_id ∈ states c).

Record TransitionEdge := mkTransitionEdge {
  edge_edge_id : string;
  edge_source : string;
  edge_targets : list string;
  edge_event : option string;
  edge_metadata : mapping }.
#[export] Instance TransitionEdge_eq_dec : EqDecision TransitionEdge.
Proof. solve_decision. Defined.

Definition TransitionEdge_new (edge_id source : string) (targets : list string) (event : option string)
    (metadata : mapping) : res TransitionEdge :=
  fail_if (is_empty edge_id) (ValueError "edge_id cannot be empty") ;;
  fail_if (is_empty source) (ValueError "edge source cannot be empty") ;;
  mret (mkTransitionEdge edge_id source targets event metadata).

Definition available_from (e : TransitionEdge) (c : StateConfiguration) : bool :=
  contains c (edge_source e).

Record TransitionOption := mkTransitionOption {
  opt_event : string;
  opt_weight : spec_float;
  opt_probability : spec_float;
  opt_edges : list TransitionEdge }.

Record TransitionDecision := mkTransitionDecision {
  tdec_event : string;
  tdec_weight : spec_float;
  tdec_probability : spec_float;
  tdec_draw : spec_float;
  tdec_configuration : StateConfiguration;
  tdec_edges : list TransitionEdge }.

(** [repr] of a tuple of strings without quotes and escapes. *)
Definition repr_tuple (l : list string) : string :=
  match l with
  | [x] => "('" +:+ x +:+ "',)"
  | _ => "(" +:+ String.concat ", " ((λ x, "'" +:+ x +:+ "'") <$> l) +:+ ")"
  end.

(** [class NoProbabilisticTransition(RuntimeError)]. *)
Definition NoProbabilisticTransition (msg : string) : exn := RuntimeError msg.

(** ** [sum] of floats

    Python 3.12 and later sum floats with Neumaier's compensation, added at the
    end unless it is zero or not finite. *)
Definition fsum_step (acc : spec_float * spec_float) (x : spec_float) : spec_float * spec_float :=
  let '(total, c) := acc in
  let t := fadd total x in
  let lost := if fle (SFabs x) (SFabs total) then fadd (fsub total t) x else fadd (fsub x t) total in
  (t, fadd c lost).

Definition py_sum (l : list spec_float) : spec_float :=
  match l with
  | [] => fzero
  | x :: l =>
    let '(total, c) := foldl fsum_step (fadd fzero x, fzero) l in
    if negb (feq c fzero) && isfinite c then fadd total c else total
  end.

Section probability.
Context {B : Type} `{!Blake2b, !MersenneTwister, !Uuid5}.

(** ** [probability/policy.py] *)

Record TransitionEvaluation := mkTransitionEvaluation {
  tev_event : string;
  tev_configuration : StateConfiguration;
  tev_edges : list TransitionEdge;
  tev_entity : Entity;
  tev_context : world B }.

(** [WeightSpec]: a number, an object with a [weight] method ([ConstantWeight],
    [CallableWeight]), a callable, or anything else. *)
Inductive WeightSpec :=
  | Number (value : spec_float)
  | ConstantWeight (value : spec_float)
  | CallableWeight (fn : TransitionEvaluation → res spec_float)
  | WeightPolicy (weight : TransitionEvaluation → res spec_float)
  | Callable (fn : TransitionEvaluation → res spec_float)
  | Unsupported (repr : string).

Definition _resolve (spec : WeightSpec) (evaluation : TransitionEvaluation) : res spec_float :=
  match spec with
  | Number value | ConstantWeight value => Ok value
  | CallableWeight fn | WeightPolicy fn | Callable fn => fn evaluation
  | Unsupported repr => Err (TypeError ("unsupported transition weight: " +:+ repr))
  end.

Record TransitionPolicy := mkTransitionPolicy {
  pol_weights : gmap string WeightSpec;
  pol_default_weight : WeightSpec;
  pol_excluded_events : gset string;
  pol_strict : bool }.

(** [TransitionPolicy()]. *)
Definition default_policy : TransitionPolicy := mkTransitionPolicy ∅ (Number fone) ∅ false.

Definition has_explicit_weight (p : TransitionPolicy) (event : string) : bool :=
  present event (pol_weights p).

Definition is_probabilistically_eligible (p : TransitionPolicy) (event : string) : bool :=
  negb (bool_decide (event ∈ pol_excluded_events p)).

Definition weight_for (p : TransitionPolicy) (evaluation : TransitionEvaluation) : res spec_float :=
  fail_if (pol_strict p && absent (tev_event evaluation) (pol_weights p))
    (KeyError ("no transition weight configured for event: " +:+ tev_event evaluation)) ;;
  _resolve (default (pol_default_weight p) (pol_weights p !! tev_event evaluation)) evaluation.

Definition excluded_events (p : TransitionPolicy) : list string := sort_on id (elements (pol_excluded_events p)).

(** ** [probability/graph.py] *)

Definition ProbabilisticTransitionGraph_new (edges : list TransitionEdge) : res (list TransitionEdge) :=
  fail_if (match edges with [] => true | _ => false end)
    (ValueError "probabilistic transition graph needs at least one edge") ;;
  fail_if (negb (bool_decide (NoDup (edge_edge_id <$> edges))))
    (ValueError "transition edge ids must be unique") ;;
  mret edges.

Definition outgoing (edges : list TransitionEdge) (c : StateConfiguration) : list TransitionEdge :=
  filter (λ e, available_from e c = true) edges.

(** One turn of the loop of [event_edges], on the dictionary [grouped]. *)
Definition group_edge (enabled : option (list string)) (grouped : list (string * list TransitionEdge))
    (e : TransitionEdge) : list (string * list TransitionEdge) :=
  match edge_event e with
  | None => grouped
  | Some event =>
    if match enabled with Some l => negb (bool_decide (event ∈ l)) | None => false end then grouped
    else dict_set event (default [] (dict_get event grouped) ++ [e])%list grouped
  end.

Definition event_edges (edges : list TransitionEdge) (c : StateConfiguration)
    (enabled : option (list string)) : list (string * list TransitionEdge) :=
  foldl (group_edge enabled) [] (outgoing edges c).

(** The checks of a weight, and whether the event is kept. *)
Definition weigh (event : string) (weight : spec_float) (edges : list TransitionEdge) :
    res (list (string * spec_float * list TransitionEdge)) :=
  fail_if (negb (isfinite weight))
    (ValueError ("transition weight for '" +:+ event +:+ "' must be finite")) ;;
  fail_if (flt weight fzero)
    (ValueError ("transition weight for '" +:+ event +:+ "' cannot be negative")) ;;
  mret (if flt fzero weight then [(event, weight, edges)] else []).

Fixpoint weighted (policy : TransitionPolicy) (c : StateConfiguration) (entity : Entity) (context : world B)
    (weight_transform : option (TransitionEvaluation → spec_float → spec_float))
    (grouped : list (string * list TransitionEdge)) :
    res (list (string * spec_float * list TransitionEdge)) :=
  match grouped with
  | [] => Ok []
  | (event, edges) :: grouped =>
    if negb (is_probabilistically_eligible policy event)
    then weighted policy c entity context weight_transform grouped
    else
      let evaluation := mkTransitionEvaluation event c edges entity context in
      weight ← weight_for policy evaluation ;
      let weight := match weight_transform with Some f => f evaluation weight | None => weight end in
      kept ← weigh event weight edges ;
      rest ← weighted policy c entity context weight_transform grouped ;
      mret (kept ++ rest)%list
  end.

Definition distribution (edges : list TransitionEdge) (c : StateConfiguration) (policy : TransitionPolicy)
    (entity : Entity) (context : world B) (enabled : option (list string))
    (weight_transform : option (TransitionEvaluation → spec_float → spec_float)) :
    res (list TransitionOption) :=
  weighted ← weighted policy c entity context weight_transform (sort_on fst (event_edges edges c enabled)) ;
  let total := py_sum ((λ '(_, weight, _), weight) <$> weighted) in
  fail_if (fle total fzero)
    (NoProbabilisticTransition ("no positive-weight enabled transition from " +:+ repr_tuple (states c))) ;;
  mret ((λ '(event, weight, edges), mkTransitionOption event weight (fdiv weight total) edges) <$> weighted).

(** The loop of [sample]: the option whose interval holds the draw, the last one
    if rounding leaves it past them all. *)
Fixpoint pick (draw cumulative : spec_float) (selected : TransitionOption) (l : list TransitionOption) :
    TransitionOption :=
  match l with
  | [] => selected
  | option :: l =>
    let cumulative := fadd cumulative (opt_probability option) in
    if flt draw cumulative then option else pick draw cumulative selected l
  end.

Definition sample (distribution : list TransitionOption) (draw : spec_float) (c : StateConfiguration) :
    res TransitionDecision :=
  match last distribution with
  | None => Err (NoProbabilisticTransition "cannot sample an empty distribution")
  | Some selected =>
    let selected := pick draw fzero selected distribution in
    mret (mkTransitionDecision (opt_event selected) (opt_weight selected) (opt_probability selected) draw c
            (opt_edges selected))
  end.

(** ** [probability/runtime.py] *)

(** What the runtime reads of a bound chart: [configuration_values],
    [current_state_value] and [enabled_events( **kwargs)], which may raise. *)
Record chart_view := mkChartView {
  configuration_values : option (list string);
  current_state_value : option string;
  enabled_events : option (mapping → res (list string)) }.

Definition _configuration_values (chart : chart_view) : res (list string) :=
  match configuration_values chart with
  | Some values => Ok values
  | None =>
    match current_state_value chart with
    | Some current => Ok [current]
    | None => Err (TypeError "chart must expose configuration_values or current_state_value")
    end
  end.

Definition _enabled_events (chart : chart_view) (kwargs : mapping) : res (option (list string)) :=
  match enabled_events chart with
  | None => Ok None
  | Some fn => values ← fn kwargs ; mret (Some values)
  end.

(** [ProbabilisticTransitionRuntime.decide]. *)
Definition decide_transition (root_seed : Z) (tick : Z) (chart : chart_view) (graph : list TransitionEdge)
    (policy : TransitionPolicy) (entity : Entity) (context : world B)
    (weight_transform : option (TransitionEvaluation → spec_float → spec_float))
    (guard_kwargs : mapping) (scope : list pyobj) : res TransitionDecision :=
  values ← _configuration_values chart ;
  c ← StateConfiguration_new values ;
  enabled ← _enabled_events chart guard_kwargs ;
  options ← distribution graph c policy entity context enabled weight_transform ;
  sample options
    (RandomSource_random root_seed
       (PStr "transition" :: PInt tick :: PStr (ent_entity_type entity) :: PStr (ent_id entity)
          :: (PStr <$> states c) ++ scope)%list) c.

(** ** [statecharts/topology.py] *)

(** The public surface of a chart class: a transition object may be listed by
    several states, [ct_identity] is its [id()]. *)
Record chart_transition := mkChartTransition {
  ct_identity : nat;
  ct_source : string;
  ct_targets : list string;
  ct_events : list string;
  ct_internal : bool;
  ct_initial : bool }.

Inductive chart_state := ChartState (state_id : string) (transitions : list chart_transition)
                           (children : list chart_state).

Fixpoint _walk_states (s : chart_state) : list (list chart_transition) :=
  match s with
  | ChartState _ transitions children => transitions :: flat_map _walk_states children
  end.

Definition _edge_id (chart_name source : string) (event : option string) (targets : list string)
    (ordinal : Z) : string :=
  deterministic_id "transition-edge"
    (PStr chart_name :: PStr source
       :: PStr (match event with Some e => if is_empty e then "<eventless>" else e | None => "<eventless>" end)
       :: (PStr <$> targets) ++ [PInt ordinal])%list.

(** The events of a transition, [None] for the one edge of an eventless one. *)
Definition labels (t : chart_transition) : list (option string) :=
  match ct_events t with [] => [None] | l => Some <$> l end.

Fixpoint number_edges (chart_name : string) (ordinal : Z) (l : list (chart_transition * option string)) :
    res (list TransitionEdge) :=
  match l with
  | [] => Ok []
  | (t, event) :: l =>
    e ← TransitionEdge_new (_edge_id chart_name (ct_source t) event (ct_targets t) ordinal) (ct_source t)
          (ct_targets t) event (<["internal" := PBool (ct_internal t)]> {["initial" := PBool (ct_initial t)]}) ;
    rest ← number_edges chart_name (ordinal + 1) l ;
    mret (e :: rest)
  end.

(** The first occurrence of every transition object. *)
Fixpoint unseen (seen : list nat) (l : list chart_transition) : list chart_transition :=
  match l with
  | [] => []
  | t :: l => if bool_decide (ct_identity t ∈ seen) then unseen seen l
              else t :: unseen (ct_identity t :: seen) l
  end.

Definition graph_from_statechart (chart_name : string) (l : list chart_state) : res (list TransitionEdge) :=
  let transitions := unseen [] (concat (flat_map _walk_states l)) in
  edges ← number_edges chart_name 0 (flat_map (λ t, pair t <$> labels t) transitions) ;
  fail_if (match edges with [] => true | _ => false end) (ValueError "statechart exposes no transitions") ;;
  ProbabilisticTransitionGraph_new edges.

(** [policy_from_statechart]: the policy attached to the class. *)
Definition policy_from_statechart (attached : option TransitionPolicy) : TransitionPolicy :=
  default default_policy attached.
End probability.
Arguments TransitionEvaluation : clear implicits.
Arguments WeightSpec : clear implicits.
Arguments TransitionPolicy : clear implicits.

(** ** Facts *)

Section facts.
Context {B : Type} `{!Blake2b, !MersenneTwister, !Uuid5}.
Implicit Types (edges : list TransitionEdge) (c : StateConfiguration).

(** An event that may be chosen as far as the guards go. *)
Definition allowed (enabled : option (list string)) (event : string) : bool :=
  match enabled with Some l => bool_decide (event ∈ l) | None => true end.

Lemma group_spec enabled l event :
  NoDup (foldl (group_edge enabled) [] l).*1 ∧
  dict_get event (foldl (group_edge enabled) [] l)
  = match filter (λ e, edge_event e = Some event) l with
    | [] => None
    | es => if allowed enabled event then Some es else None
    end.
Proof.
  induction l as [|e l [IHn IH]] using rev_ind; [split; [constructor|done]|].
  rewrite foldl_app, filter_app. cbn [foldl]. unfold group_edge at 1 3.
  destruct (edge_event e) as [ev|] eqn:Hev; [|rewrite filter_cons, decide_False, app_nil_r by congruence; done].
  assert (match enabled with Some l0 => negb (bool_decide (ev ∈ l0)) | None => false end = negb (allowed enabled ev)) as ->
    by by destruct enabled.
  destruct (allowed enabled ev) eqn:Ha; cbn [negb].
  - split; [by apply dict_set_NoDup|]. rewrite dict_get_set. case_bool_decide as Hk; [subst ev|].
    + rewrite IH, filter_cons, decide_True by done. rewrite Ha.
      destruct (filter _ l) as [|x es]; done.
    + rewrite filter_cons, decide_False, app_nil_r by congruence. done.
  - split; [done|]. rewrite IH, filter_cons. case_decide as Hk; [|by rewrite app_nil_r].
    rewrite Hev in Hk. injection Hk as <-. rewrite Ha. by destruct (filter _ l).
Qed.

Lemma event_edges_spec edges c enabled event es :
  (event, es) ∈ event_edges edges c enabled ↔
  es ≠ [] ∧ allowed enabled event = true ∧
  es = filter (λ e, edge_event e = Some event) (outgoing edges c).
Proof.
  unfold event_edges. destruct (group_spec enabled (outgoing edges c) event) as [Hn Hg].
  rewrite elem_of_dict by done. rewrite Hg.
  destruct (filter _ _) as [|x l]; [naive_solver|]. destruct (allowed enabled event); naive_solver.
Qed.

Lemma weighted_spec (policy : TransitionPolicy B) c e w f l k event weight es :
  weighted policy c e w f l = Ok k → (event, weight, es) ∈ k →
  (event, es) ∈ l ∧ is_probabilistically_eligible policy event = true ∧ isfinite weight = true
  ∧ flt fzero weight = true.
Proof.
  revert k. induction l as [|[ev es'] l IH]; intros k; cbn [weighted].
  { intros [= <-] Hin. by apply not_elem_of_nil in Hin. }
  destruct (is_probabilistically_eligible policy ev) eqn:He; cbn [negb].
  2:{ intros Hk Hin. destruct (IH k Hk Hin) as (Hx1 & Hx2). split; [by constructor|done]. }
  intros Hk Hin. symmetry in Hk.
  apply res_bind_inv in Hk as (v & Hv & Hk). apply res_bind_inv in Hk as (kept & Hkept & Hk).
  apply res_bind_inv in Hk as (rest & Hrest & Hk). injection Hk as ->.
  apply elem_of_app in Hin as [Hin|Hin].
  - unfold weigh in Hkept. set (v' := match f with Some g => _ | None => v end) in *.
    destruct (isfinite v') eqn:Hf; [|done]. destruct (flt v' fzero); [done|]. injection Hkept as <-.
    destruct (flt fzero v') eqn:Hp; [|by apply not_elem_of_nil in Hin].
    apply list_elem_of_singleton in Hin. injection Hin as -> -> ->. split; [by constructor|done].
  - destruct (IH rest Hrest Hin) as (Hx1 & Hx2). split; [by constructor|done].
Qed.

(** The sum of the probabilities up to an option, as [sample] accumulates it. *)
Definition cumulative (start : spec_float) (l : list TransitionOption) : spec_float :=
  foldl fadd start (opt_probability <$> l).

Lemma pick_spec draw start selected l :
  last l = Some selected →
  ∃ pre post, l = (pre ++ pick draw start selected l :: post)%list ∧
    (∀ n, (1 ≤ n ≤ length pre)%nat → flt draw (cumulative start (take n l)) = false) ∧
    (flt draw (cumulative start (pre ++ [pick draw start selected l])) = true ∨ post = []).
Proof.
  revert start. induction l as [|x l IH]; intros start Hl; [done|]. cbn [pick].
  destruct (flt draw (fadd start (opt_probability x))) eqn:Hx.
  { exists [], l. split_and!; [done|intros n; cbn; lia|by left]. }
  destruct l as [|y l].
  - injection Hl as ->. exists [], []. cbn. split_and!; [done|lia|by right].
  - destruct (IH (fadd start (opt_probability x))) as (pre & post & E & Hpre & Hpost); [done|].
    exists (x :: pre), post. cbn [app]. rewrite <-E. split_and!; [done| |done].
    intros [|[|n]] Hn; [lia|done|]. apply (Hpre (S n)). cbn in Hn. lia.
Qed.

(** C36. A probabilistic choice is a legal one: the event is enabled by the guards,
    not excluded, of finite positive weight, and leaves a state of the current
    configuration along exactly the edges of the graph that carry it there; it is
    the first option whose cumulated probability exceeds the draw, which is the
    one of the choice's own scope. *)
Theorem choice_legal root_seed tick chart edges (policy : TransitionPolicy B) entity w f kwargs scope d :
  decide_transition root_seed tick chart edges policy entity w f kwargs scope = Ok d →
  ∃ c enabled options,
    tdec_configuration d = c ∧ _enabled_events chart kwargs = Ok enabled ∧
    (∃ l, _configuration_values chart = Ok l ∧ ∀ st, st ∈ states c ↔ st ∈ l) ∧
    distribution edges c policy entity w enabled f = Ok options ∧
    allowed enabled (tdec_event d) = true ∧
    is_probabilistically_eligible policy (tdec_event d) = true ∧
    isfinite (tdec_weight d) = true ∧ flt fzero (tdec_weight d) = true ∧
    tdec_edges d ≠ [] ∧
    (∀ e, e ∈ tdec_edges d ↔ e ∈ edges ∧ edge_event e = Some (tdec_event d) ∧ edge_source e ∈ states c) ∧
    tdec_draw d = RandomSource_random root_seed
      (PStr "transition" :: PInt tick :: PStr (ent_entity_type entity) :: PStr (ent_id entity)
         :: (PStr <$> states c) ++ scope)%list ∧
    (∃ pre o post, options = (pre ++ o :: post)%list ∧ opt_event o = tdec_event d ∧
       (∀ n, (1 ≤ n ≤ length pre)%nat → flt (tdec_draw d) (cumulative fzero (take n options)) = false) ∧
       (flt (tdec_draw d) (cumulative fzero (pre ++ [o])) = true ∨ post = [])).
Proof.
  intros Hd. symmetry in Hd. unfold decide_transition in Hd.
  apply res_bind_inv in Hd as (l & Hl & Hd). apply res_bind_inv in Hd as (c & Hc & Hd).
  apply res_bind_inv in Hd as (enabled & Hen & Hd). apply res_bind_inv in Hd as (options & Hopt & Hd).
  unfold sample in Hd. set (draw := RandomSource_random _ _) in *.
  destruct (last options) as [selected|] eqn:Hlast; [|done]. injection Hd as ->. cbn.
  destruct (pick_spec draw fzero selected options Hlast) as (pre & post & E & Hpre & Hpost).
  set (o := pick draw fzero selected options) in *.
  assert (tdec_c : states c = sort_on id (remove_dups l)).
  { unfold StateConfiguration_new in Hc. destruct (sort_on id (remove_dups l)); [done|]. injection Hc as Hc. by subst c. }
  assert (o ∈ options) as Ho by (rewrite E; set_solver).
  pose proof Hopt as Hopt'. unfold distribution in Hopt'. symmetry in Hopt'.
  apply res_bind_inv in Hopt' as (k & Hk & Hopt').
  destruct (fle _ fzero); [done|]. injection Hopt' as Eo. rewrite Eo in Ho.
  apply list_elem_of_fmap in Ho as ([[event weight] es] & Ho & Hin). rewrite Ho. cbn.
  destruct (weighted_spec _ _ _ _ _ _ _ _ _ _ Hk Hin) as (Hes & Hel & Hfin & Hpos).
  rewrite elem_of_sort_on in Hes. apply event_edges_spec in Hes as (Hne & Hal & ->).
  exists c, enabled, options. split_and!; try done.
  - exists l. split; [done|]. intros st. rewrite tdec_c, elem_of_sort_on. apply elem_of_remove_dups.
  - intros e. rewrite list_elem_of_filter. unfold outgoing, available_from, contains.
    rewrite list_elem_of_filter, bool_decide_eq_true. tauto.
  - exists pre, o, post. split_and!; [exact E|by rewrite Ho|exact Hpre|exact Hpost].
Qed.
End facts.

(** *** A loan that is approved three times in four *)

#[local] Existing Instance plain_uuid5.
#[local] Instance plain_digest : Blake2b := λ s, s.
#[local] Instance low_draw : MersenneTwister := λ _, fdiv fone (float_of_Z 8).

Definition loan_edge (id target event : string) : TransitionEdge :=
  mkTransitionEdge id "reviewing" [target] (Some event) ∅.
Definition loan_graph : list TransitionEdge :=
  [loan_edge "e1" "denied" "deny"; loan_edge "e2" "approved" "approve"; loan_edge "e3" "closed" "close"].
Definition loan_policy : TransitionPolicy queue_backend :=
  mkTransitionPolicy {["approve" := Number (float_of_Z 3); "deny" := Number fone]} (Number fone) {["close"]} false.
Definition loan : Entity := mkEntity "l1" "loan" "reviewing" ∅ None None 3.
Definition loan_chart : chart_view :=
  mkChartView (Some ["reviewing"]) None (Some (λ _, Ok ["deny"; "approve"; "close"])).
Definition loan_choice : res TransitionDecision :=
  decide_transition 7 0 loan_chart loan_graph loan_policy loan new_process None ∅ [].
Definition loan_decision : TransitionDecision :=
  mkTransitionDecision "approve" (float_of_Z 3) (fdiv (float_of_Z 3) (float_of_Z 4)) (low_draw 0)
    (mkStateConfiguration ["reviewing"]) [loan_edge "e2" "approved" "approve"].

Lemma loan_chosen : loan_choice = Ok loan_decision.
Proof. vm_compute. reflexivity. Qed.

Lemma choice_legal_witness :
  isfinite (tdec_weight loan_decision) = true ∧ flt fzero (tdec_weight loan_decision) = true.
Proof.
  destruct (choice_legal 7 0 loan_chart loan_graph loan_policy loan new_process None ∅ [] loan_decision loan_chosen)
    as (c & enabled & options & _ & _ & _ & _ & _ & _ & H1 & H2 & _).
  exact (conj H1 H2).
Defined.
