(* ===== verification/Attestation.v ===== *)
(** * Attested transitions

    [src/src/sose/core/transition_authority.py]: a signature, by a secret that
    is not in the store, of a transition the engine has executed.  [json.dumps]
    with sorted keys, SHA-256 and HMAC are parameters. *)
From S2P Require Import Prelude Encoding Records Memory MemoryFacts QueueBackend.
From Stdlib Require Import Ascii.
Open Scope string_scope.
Open Scope Z_scope.

(** [_encoded]: [dumps(data, sort_keys=True, separators=(",", ":"), allow_nan=False)],
    which may refuse a value. *)
Class Json := _encoded : mapping → res string.
(** [sha256(data).hexdigest()] and [hmac_new(secret, data, sha256).hexdigest()]. *)
Class Sha256 := sha256_hex : string → string.
Class Hmac := hmac_hex : string → string → string.

Definition ATTESTATION_EVENT : string := "engine.statechart_transition_attested".

(** [len(s)]: the code points of a UTF-8 string; [s.isascii()]. *)
Fixpoint py_len (s : string) : Z :=
  match s with
  | EmptyString => 0
  | String a s => (if (128 <=? N_of_ascii a)%N && (N_of_ascii a <? 192)%N then 0 else 1) + py_len s
  end.
Fixpoint is_ascii (s : string) : bool :=
  match s with
  | EmptyString => true
  | String a s => (N_of_ascii a <? 128)%N && is_ascii s
  end.

(** [d.get(key)] of a payload, and [None] or a string as a value. *)
Definition pget (k : string) (d : mapping) : pyobj := default PNone (d !! k).
Definition opt_str (o : option string) : pyobj := match o with Some s => PStr s | None => PNone end.
Definition opt_int (o : option Z) : pyobj := match o with Some z => PInt z | None => PNone end.
Definition is_int (v : pyobj) : bool := match v with PInt _ => true | _ => false end.

Record TransitionAuthority := mkTransitionAuthority {
  issuer_id : string;
  key_id : string;
  secret : string }.

Definition TransitionAuthority_new (issuer key secret : string) : res TransitionAuthority :=
  fail_if (bool_decide (String.length secret < 32)%nat)
    (ValueError "transition authority requires a protected 256-bit secret") ;;
  fail_if (blank issuer || blank key) (ValueError "issuer and key IDs must be nonblank") ;;
  mret (mkTransitionAuthority issuer key secret).

Section authority.
Context `{!Uuid5, !Json, !Sha256, !Hmac}.
Context (self : TransitionAuthority).

Definition _record_id (event_id : string) : string :=
  deterministic_id "engine-attested-transition" [PStr event_id].

(** Instants are timezone-aware; an absent one is refused. *)
Definition _utc_timestamp (value : option datetime) : res datetime :=
  match value with
  | Some t => Ok t
  | None => Err (ValueError "Engine attestation requires timezone-aware causal timestamps")
  end.

(** The disjuncts of the first test of [seal]. *)
Definition not_genuine (event_at due_at before_at : datetime) (issued_at : option datetime)
    (before after : Entity) (event : DomainEvent) (command : Command) : bool :=
  (event_at <? due_at) || (event_at <? before_at)
  || (match issued_at with Some t => event_at <? t | None => false end)
  || negb (eqb_of (cmd_entity_id command) (ent_id after))
  || negb (eqb_of (cmd_entity_type command) (ent_entity_type after))
  || negb (eqb_of (ev_name event) "entity.state_transition")
  || negb (eqb_of (ev_owner_id event) (cmd_owner_id command))
  || negb (eqb_of (ev_causation_id event) (Some (cmd_command_id command)))
  || negb (eqb_of (ev_entity_id event) (ent_id after)) || negb (eqb_of (ent_id before) (ent_id after))
  || negb (eqb_of (ev_entity_type event) (ent_entity_type after))
  || negb (eqb_of (ent_entity_type before) (ent_entity_type after))
  || negb (eqb_of (pget "trigger" (ev_payload event)) (PStr (cmd_name command)))
  || negb (eqb_of (pget "from_state" (ev_payload event)) (PStr (ent_state before)))
  || negb (eqb_of (pget "to_state" (ev_payload event)) (PStr (ent_state after)))
  || negb (is_int (opt_int (ev_tick event)))
  || negb (ent_version after =? ent_version before + 1)
  || negb (eqb_of (ent_updated_at after) (Some (ev_occurred_at event))).

(** [command.correlation_id or command.command_id]. *)
Definition command_correlation (command : Command) : string :=
  match cmd_correlation_id command with
  | Some c => if is_empty c then cmd_command_id command else c
  | None => cmd_command_id command
  end.

Definition claim_items (before after : Entity) (event : DomainEvent) (command : Command)
    (payload_sha256 : string) : list (string * pyobj) :=
    [("event_name", PStr (ev_name event)); ("event_payload_sha256", PStr payload_sha256);
     ("issuer_id", PStr (issuer_id self)); ("key_id", PStr (key_id self));
     ("event_id", PStr (ev_event_id event)); ("owner_id", opt_str (ev_owner_id event));
     ("command_id", PStr (cmd_command_id command));
     ("entity_type", PStr (ent_entity_type after)); ("entity_id", PStr (ent_id after));
     ("from_state", PStr (ent_state before)); ("to_state", PStr (ent_state after));
     ("from_version", PInt (ent_version before)); ("to_version", PInt (ent_version after));
     ("trigger", PStr (cmd_name command));
     ("occurred_at", PStr (datetime_isoformat (ev_occurred_at event)));
     ("tick", opt_int (ev_tick event)); ("correlation_id", opt_str (ev_correlation_id event))].

(** [claims]. *)
Definition claims_of (before after : Entity) (event : DomainEvent) (command : Command) (payload_sha256 : string) :
    mapping := list_to_map (claim_items before after event command payload_sha256).

Definition seal (before after : Entity) (event : DomainEvent) (command : Command) : res DomainEvent :=
  before_at ← _utc_timestamp (ent_updated_at before) ;
  _utc_timestamp (ent_updated_at after) ;;
  fail_if (not_genuine (ev_occurred_at event) (cmd_due_at command) before_at (cmd_issued_at command)
             before after event command)
    (ValueError "Engine attestation requires one genuine committed transition") ;;
  let expected_id :=
    deterministic_id "event"
      [opt_str (ev_owner_id event); opt_int (ev_tick event); PStr (ent_entity_type after); PStr (ent_id after);
       PInt (ent_version after); PStr (cmd_name command); PStr (ent_state before); PStr (ent_state after)] in
  fail_if (negb (eqb_of (ev_event_id event) expected_id)
           || negb (eqb_of (ev_correlation_id event) (Some (command_correlation command)))
           || negb (bool_decide (dom (ev_payload event) = ({["trigger"; "from_state"; "to_state"]} : gset string))))
    (ValueError "Engine attestation refuses unrecorded source-event identity") ;;
  payload ← _encoded (ev_payload event) ;
  let claims := claims_of before after event command (sha256_hex payload) in
  encoded ← _encoded claims ;
  mret (mkDomainEvent (_record_id (ev_event_id event)) ATTESTATION_EVENT (ev_entity_type event) (ev_entity_id event)
          (ev_occurred_at event) (ev_tick event)
          (<["signature" := PStr (hmac_hex (secret self) encoded)]> claims)
          (Some (ev_event_id event)) (ev_correlation_id event) (ev_owner_id event)).

(** [compare_digest] refuses strings that are not ASCII. *)
Definition compare_digest (a b : string) : res bool :=
  fail_if (negb (is_ascii a && is_ascii b))
    (TypeError "comparing strings with non-ASCII characters is not supported") ;;
  mret (eqb_of a b).

(** The disjuncts of the tests of [verify] on the receipt and on its claims. *)
Definition envelope_mismatch (event receipt : DomainEvent) : bool :=
  negb (is_int (opt_int (ev_tick event))) || negb (is_int (opt_int (ev_tick receipt)))
  || negb (eqb_of (ev_name receipt) ATTESTATION_EVENT)
  || negb (eqb_of (ev_causation_id receipt) (Some (ev_event_id event)))
  || negb (eqb_of (ev_owner_id receipt) (ev_owner_id event))
  || negb (eqb_of (ev_entity_type receipt) (ev_entity_type event))
  || negb (eqb_of (ev_entity_id receipt) (ev_entity_id event))
  || negb (ev_occurred_at receipt =? ev_occurred_at event)
  || negb (eqb_of (ev_tick receipt) (ev_tick event))
  || negb (eqb_of (ev_correlation_id receipt) (ev_correlation_id event)).

(** [data["to_version"] != data["from_version"] + 1] after the type checks. *)
Definition versions_follow (data : mapping) : bool :=
  match pget "from_version" data, pget "to_version" data with
  | PInt a, PInt b => b =? a + 1
  | _, _ => false
  end.

Definition contradicts (event : DomainEvent) (data : mapping) (payload_sha256 : string) : bool :=
  negb (eqb_of (ev_name event) "entity.state_transition")
  || negb (eqb_of (pget "event_name" data) (PStr (ev_name event)))
  || negb (eqb_of (pget "event_payload_sha256" data) (PStr payload_sha256))
  || negb (eqb_of (pget "event_id" data) (PStr (ev_event_id event)))
  || negb (eqb_of (pget "owner_id" data) (opt_str (ev_owner_id event)))
  || negb (eqb_of (pget "entity_id" data) (PStr (ev_entity_id event)))
  || negb (eqb_of (pget "entity_type" data) (PStr (ev_entity_type event)))
  || negb (eqb_of (pget "occurred_at" data) (PStr (datetime_isoformat (ev_occurred_at event))))
  || negb (is_int (pget "tick" data)) || negb (eqb_of (pget "tick" data) (opt_int (ev_tick event)))
  || negb (eqb_of (pget "correlation_id" data) (opt_str (ev_correlation_id event)))
  || negb (eqb_of (pget "trigger" data) (pget "trigger" (ev_payload event)))
  || negb (eqb_of (pget "from_state" data) (pget "from_state" (ev_payload event)))
  || negb (eqb_of (pget "to_state" data) (pget "to_state" (ev_payload event)))
  || negb (eqb_of (pget "command_id" data) (opt_str (ev_causation_id event)))
  || negb (is_int (pget "from_version" data)) || negb (is_int (pget "to_version" data))
  || negb (versions_follow data).

Definition int_of (v : pyobj) : Z := match v with PInt z => z | _ => 0 end.

Definition verify (event : DomainEvent) : uprog DomainEvent :=
  events ← uow_events ;
  raise_if (negb (eqb_of (filter (λ x, ev_event_id x = ev_event_id event) events) [event]))
    (ValueError "authenticated StateChart source event missing, duplicated or modified") ;;
  match filter (λ x, ev_event_id x = _record_id (ev_event_id event)) events with
  | [receipt] =>
    raise_if (envelope_mismatch event receipt)
      (ValueError "authenticated StateChart receipt envelope mismatch") ;;
    let data := delete "signature" (ev_payload receipt) in
    match pget "signature" (ev_payload receipt) with
    | PStr mac =>
      raise_if (negb (py_len mac =? 64))
        (ValueError "authenticated StateChart receipt signature missing") ;;
      raise_if (negb (eqb_of (pget "issuer_id" data) (PStr (issuer_id self)))
                || negb (eqb_of (pget "key_id" data) (PStr (key_id self))))
        (ValueError "authenticated StateChart receipt issuer mismatch") ;;
      encoded ← lift (_encoded data) ;
      equal ← lift (compare_digest mac (hmac_hex (secret self) encoded)) ;
      raise_if (negb equal) (ValueError "authenticated StateChart receipt signature invalid") ;;
      payload ← (if negb (eqb_of (ev_name event) "entity.state_transition")
                    || negb (eqb_of (pget "event_name" data) (PStr (ev_name event)))
                 then mret "" else lift (_encoded (ev_payload event))) ;
      raise_if (contradicts event data (sha256_hex payload))
        (ValueError "authenticated StateChart receipt evidence contradicts event") ;;
      current ← get_entity (ev_entity_type event) (ev_entity_id event) ;
      let to_version := int_of (pget "to_version" data) in
      raise_if (match current with Some e => ent_version e <? to_version | None => true end)
        (ValueError "authenticated StateChart receipt lacks committed entity version") ;;
      raise_if (match current with
                | Some e => (ent_version e =? to_version)
                            && negb (eqb_of (PStr (ent_state e)) (pget "to_state" data))
                | None => false
                end)
        (ValueError "authenticated StateChart receipt contradicts terminal projection") ;;
      mret receipt
    | _ => raise (ValueError "authenticated StateChart receipt signature missing")
    end
  | _ => raise (ValueError "authenticated StateChart receipt missing or duplicated")
  end.
End authority.

(** ** Facts *)

Section facts.
Context `{!Uuid5, !Json, !Sha256, !Hmac}.
Context (self : TransitionAuthority).
Implicit Types (before after : Entity) (event receipt : DomainEvent) (command : Command).

Lemma claim_get before after event command h k v :
  (k, v) ∈ claim_items self before after event command h →
  pget k (claims_of self before after event command h) = v.
Proof.
  intros Hk. unfold pget, claims_of.
  enough (list_to_map (claim_items self before after event command h) !! k = Some v) as E by by setoid_rewrite E.
  apply elem_of_list_to_map_1; [|done].
  apply (bool_decide_unpack _). vm_compute. done.
Qed.

Lemma claim_signature before after event command h :
  claims_of self before after event command h !! "signature" = None.
Proof.
  apply not_elem_of_list_to_map_1. apply (bool_decide_unpack _). vm_compute. done.
Qed.

(** What a sealed transition satisfies. *)
Record sealed before after event command receipt (h encoded : string) : Prop := {
  sealed_genuine : ∃ t, ent_updated_at before = Some t ∧
    not_genuine (ev_occurred_at event) (cmd_due_at command) t (cmd_issued_at command) before after event command = false;
  sealed_correlation : ev_correlation_id event = Some (command_correlation command);
  sealed_payload : ∃ p, _encoded (ev_payload event) = Ok p ∧ h = sha256_hex p;
  sealed_claims : _encoded (claims_of self before after event command h) = Ok encoded;
  sealed_receipt : receipt =
    mkDomainEvent (_record_id (ev_event_id event)) ATTESTATION_EVENT (ev_entity_type event) (ev_entity_id event)
      (ev_occurred_at event) (ev_tick event)
      (<["signature" := PStr (hmac_hex (secret self) encoded)]> (claims_of self before after event command h))
      (Some (ev_event_id event)) (ev_correlation_id event) (ev_owner_id event) }.

Lemma seal_inv before after event command receipt :
  seal self before after event command = Ok receipt →
  ∃ h encoded, sealed before after event command receipt h encoded.
Proof.
  intros E. symmetry in E. unfold seal in E.
  apply res_bind_inv in E as (t & Ht & E). apply res_bind_inv in E as (t' & Ht' & E).
  apply res_bind_inv in E as ([] & Hg%fail_if_inv & E). apply res_bind_inv in E as ([] & Hid%fail_if_inv & E).
  apply res_bind_inv in E as (p & Hp & E). apply res_bind_inv in E as (encoded & Hc & E).
  injection E as ->. exists (sha256_hex p), encoded. guard_facts. constructor; eauto.
  exists t. split; [|done]. unfold _utc_timestamp in Ht. destruct (ent_updated_at before); [by injection Ht as ->|done].
Qed.
End facts.

Lemma pget_insert k v (d : mapping) : pget k (<[k := v]> d) = v.
Proof. unfold pget. by setoid_rewrite (lookup_insert_eq (M:=gmap string)). Qed.

Lemma delete_fresh k v (d : mapping) : d !! k = None → delete k (<[k := v]> d) = d.
Proof. apply (delete_insert_id (M:=gmap string)). Qed.

(** The documented form of [hexdigest()]: 64 hexadecimal digits. *)
Class HmacLaws `{!Hmac} : Prop := {
  hmac_length s m : py_len (hmac_hex s m) = 64;
  hmac_ascii s m : is_ascii (hmac_hex s m) = true }.

Section round_trip.
Context `{!Uuid5, !Json, !Sha256, !Hmac}.
Context (self : TransitionAuthority).
Implicit Types (before after : Entity) (event receipt : DomainEvent) (command : Command).

(** A literal element of a literal list. *)
Ltac in_list := solve [repeat (exact (list_elem_of_here _ _) || apply list_elem_of_further)].

Lemma eqb_of_refl {A} `{EqDecision A} (x : A) : eqb_of x x = true.
Proof. by apply eqb_of_true. Qed.

(** The facts that the first test of [seal] establishes. *)
Lemma genuine_facts before after event command receipt h encoded :
  sealed self before after event command receipt h encoded →
  ev_name event = "entity.state_transition" ∧ ev_owner_id event = cmd_owner_id command ∧
  ev_causation_id event = Some (cmd_command_id command) ∧ ev_entity_id event = ent_id after ∧
  ev_entity_type event = ent_entity_type after ∧
  pget "trigger" (ev_payload event) = PStr (cmd_name command) ∧
  pget "from_state" (ev_payload event) = PStr (ent_state before) ∧
  pget "to_state" (ev_payload event) = PStr (ent_state after) ∧
  is_int (opt_int (ev_tick event)) = true ∧ ent_version after = ent_version before + 1.
Proof.
  intros [(t & _ & Hg) _ _ _ _]. unfold not_genuine in Hg. guard_facts.
  split_and!; try done. by apply Z.eqb_eq.
Qed.

(** C35. What [seal] signs, [verify] accepts: once the event and its receipt are
    recorded, each once, and the entity has reached the sealed version (with the
    sealed state, if it is there), the verification returns that receipt. *)
Theorem seal_verify `{!HmacLaws} before after event command receipt u e :
  seal self before after event command = Ok receipt →
  filter (λ x, ev_event_id x = ev_event_id event) (st_events (uow_working u)) = [event] →
  filter (λ x, ev_event_id x = ev_event_id receipt) (st_events (uow_working u)) = [receipt] →
  st_entities (uow_working u) !! (ev_entity_type event, ev_entity_id event) = Some e →
  ent_version after ≤ ent_version e →
  (ent_version after = ent_version e → ent_state e = ent_state after) →
  verify self event u = (Ok receipt, u).
Proof.
  intros Hs Hev Hrec He Hle Hst. destruct (seal_inv _ _ _ _ _ _ Hs) as (h & encoded & Hsealed).
  destruct (genuine_facts _ _ _ _ _ _ _ Hsealed) as (Hname & Howner & Hcause & Hid & Htype & Htr & Hfrom & Hto & Htick & Hver).
  destruct Hsealed as [_ Hcorr (p & Hp & ->) Henc Hreceipt].
  assert (ev_event_id receipt = _record_id (ev_event_id event)) as Hrid by by rewrite Hreceipt.
  unfold verify, uow_events, get_entity. run. rewrite Hev, eqb_of_refl. cbn [negb]. run.
  rewrite Hrid in Hrec. rewrite Hrec.
  assert (envelope_mismatch event receipt = false) as Henv.
  { rewrite Hreceipt. unfold envelope_mismatch. cbn. rewrite Htick, Z.eqb_refl.
    rewrite !eqb_of_refl. done. }
  rewrite Henv. run. set (claims := claims_of self before after event command (sha256_hex p)) in *.
  assert (ev_payload receipt = <["signature" := PStr (hmac_hex (secret self) encoded)]> claims) as -> by by rewrite Hreceipt.
  rewrite pget_insert, delete_fresh by apply claim_signature.
  rewrite hmac_length, Z.eqb_refl. cbn [negb]. run.
  assert (∀ k v, (k, v) ∈ claim_items self before after event command (sha256_hex p) → pget k claims = v) as Hget
    by (intros k v; apply claim_get).
  rewrite (Hget "issuer_id" (PStr (issuer_id self))) by in_list.
  rewrite (Hget "key_id" (PStr (key_id self))) by in_list.
  rewrite !eqb_of_refl. cbn [negb orb]. run. rewrite Henc. run. unfold compare_digest. rewrite hmac_ascii, eqb_of_refl.
  cbn [fail_if negb andb]. run. cbn [negb]. run.
  assert (pget "event_name" claims = PStr (ev_name event)) as Hn by (apply Hget; in_list).
  rewrite ?Hn, Hname, ?eqb_of_refl. cbn [negb orb]. run. rewrite Hp. run.
  assert (contradicts event claims (sha256_hex p) = false) as ->.
  { unfold contradicts, versions_follow.
    rewrite Hn, (Hget "event_payload_sha256" (PStr (sha256_hex p))), (Hget "event_id" (PStr (ev_event_id event))),
      (Hget "owner_id" (opt_str (ev_owner_id event))), (Hget "entity_id" (PStr (ent_id after))),
      (Hget "entity_type" (PStr (ent_entity_type after))),
      (Hget "occurred_at" (PStr (datetime_isoformat (ev_occurred_at event)))), (Hget "tick" (opt_int (ev_tick event))),
      (Hget "correlation_id" (opt_str (ev_correlation_id event))), (Hget "trigger" (PStr (cmd_name command))),
      (Hget "from_state" (PStr (ent_state before))), (Hget "to_state" (PStr (ent_state after))),
      (Hget "command_id" (PStr (cmd_command_id command))), (Hget "from_version" (PInt (ent_version before))),
      (Hget "to_version" (PInt (ent_version after))) by in_list.
    rewrite Htick, Htr, Hfrom, Hto, Hid, Htype, Hcause, Hname, Hver, Z.eqb_refl. cbn [opt_str is_int].
    by rewrite !eqb_of_refl. }
  run. rewrite He. rewrite (Hget "to_version" (PInt (ent_version after))), (Hget "to_state" (PStr (ent_state after))) by in_list.
  cbn [int_of]. rewrite (proj2 (Z.ltb_ge _ _) Hle). run.
  destruct (Z.eqb_spec (ent_version e) (ent_version after)) as [E|_]; [|done]. cbn [andb].
  rewrite (Hst (eq_sym E)), eqb_of_refl. done.
Qed.

(** What [verify] has established when it returns. *)
Lemma verify_inv event receipt u u' :
  verify self event u = (Ok receipt, u') →
  u' = u ∧
  filter (λ x, ev_event_id x = ev_event_id event) (st_events (uow_working u)) = [event] ∧
  filter (λ x, ev_event_id x = _record_id (ev_event_id event)) (st_events (uow_working u)) = [receipt] ∧
  let data := delete "signature" (ev_payload receipt) in
  ∃ encoded p, _encoded data = Ok encoded ∧ _encoded (ev_payload event) = Ok p ∧
    pget "signature" (ev_payload receipt) = PStr (hmac_hex (secret self) encoded) ∧
    contradicts event data (sha256_hex p) = false.
Proof.
  intros E. unfold verify, uow_events, get_entity in E.
  apply bind_inv in E as [(evs & u1 & Hevs & E)|(? & _ & ?)]; [|done]. apply gets_inv in Hevs as [[= ->] ->].
  apply bind_inv in E as [([] & u1 & Hr1 & E)|(? & _ & ?)]; [|done]. apply raise_if_inv in Hr1 as [Hr1 ->].
  destruct (eqb_of (filter _ _) [event]) eqn:Hev; [|done]. apply (proj1 (eqb_of_true _ _)) in Hev.
  destruct (filter (λ x, ev_event_id x = _record_id (ev_event_id event)) _) as [|r [|]] eqn:Hrec; [done| |done].
  apply bind_inv in E as [([] & u1 & Hr2 & E)|(? & _ & ?)]; [|done]. apply raise_if_inv in Hr2 as [_ ->].
  destruct (pget "signature" (ev_payload r)) eqn:Hsig; try done.
  apply bind_inv in E as [([] & u1 & Hr2 & E)|(? & _ & ?)]; [|done]. apply raise_if_inv in Hr2 as [_ ->].
  apply bind_inv in E as [([] & u1 & Hr2 & E)|(? & _ & ?)]; [|done]. apply raise_if_inv in Hr2 as [_ ->].
  apply bind_inv in E as [(encoded & u1 & Hr2 & E)|(? & _ & ?)]; [|done]. apply lift_inv in Hr2 as [Henc ->].
  apply bind_inv in E as [(equal & u1 & Hr2 & E)|(? & _ & ?)]; [|done]. apply lift_inv in Hr2 as [Hcmp ->].
  apply bind_inv in E as [([] & u1 & Hr2 & E)|(? & _ & ?)]; [|done]. apply raise_if_inv in Hr2 as [Heq ->].
  apply bind_inv in E as [(p & u1 & Hr2 & E)|(? & _ & ?)]; [|done].
  apply bind_inv in E as [([] & u2 & Hr3 & E)|(? & _ & ?)]; [|done]. apply raise_if_inv in Hr3 as [Hcon ->].
  destruct (contradicts event _ (sha256_hex p)) eqn:Hc; [done|].
  assert (_encoded (ev_payload event) = Ok p ∧ u1 = u) as [Hp ->].
  { pose proof Hc as Hc'. unfold contradicts in Hc'. rewrite !orb_false_iff in Hc'. destruct_and!.
    repeat match goal with Hx : negb _ = false |- _ => rewrite Hx in Hr2; clear Hx end. cbn [orb] in Hr2.
    by apply lift_inv in Hr2 as [? ->]. }
  apply bind_inv in E as [(cur & u2 & Hr3 & E)|(? & _ & ?)]; [|done]. apply gets_inv in Hr3 as [_ ->].
  apply bind_inv in E as [([] & u2 & Hr3 & E)|(? & _ & ?)]; [|done]. apply raise_if_inv in Hr3 as [_ ->].
  apply bind_inv in E as [([] & u2 & Hr3 & E)|(? & _ & ?)]; [|done]. apply raise_if_inv in Hr3 as [_ ->].
  injection E as <- <-. split_and!; try done. exists encoded, p. split_and!; [by symmetry|done| |done].
  unfold compare_digest in Hcmp. destruct (is_ascii s && _); [|done]. injection Hcmp as ->.
  destruct (eqb_of s _) eqn:Hs; [|done]. apply (proj1 (eqb_of_true _ _)) in Hs. by rewrite <-Hs.
Qed.

End round_trip.

(** *** A sealed opening *)

#[local] Existing Instance plain_uuid5.
#[local] Instance plain_json : Json := λ m, Ok "{}".
#[local] Instance plain_sha : Sha256 := λ s, s.
#[local] Instance plain_hmac : Hmac := λ _ _,
  "0123456789abcdef0123456789abcdef0123456789abcdef0123456789abcdef".
#[local] Instance plain_hmac_laws : HmacLaws.
Proof. by split. Qed.

Definition notary : TransitionAuthority := mkTransitionAuthority "engine" "k1" "00000000000000000000000000000000".
Definition closed_door : Entity := mkEntity "d1" "door" "closed" ∅ (Some 0) (Some 0) 1.
Definition open_door : Entity := mkEntity "d1" "door" "open" ∅ (Some 0) (Some 5) 2.
Definition open_it : Command :=
  mkCommand "c1" "open" "door" "d1" 5 (Some 1) (Some 0) ∅ None (Some "c1") (Some "sim").
Definition opened : DomainEvent :=
  mkDomainEvent
    (deterministic_id "event" [PStr "sim"; PInt 0; PStr "door"; PStr "d1"; PInt 2; PStr "open"; PStr "closed"; PStr "open"])
    "entity.state_transition" "door" "d1" 5 (Some 0)
    (<["trigger" := PStr "open"]> (<["from_state" := PStr "closed"]> {["to_state" := PStr "open"]}))
    (Some "c1") (Some "c1") (Some "sim").
Definition opened_receipt : DomainEvent :=
  match seal notary closed_door open_door opened open_it with Ok r => r | Err _ => opened end.
Definition opened_uow : uow :=
  begin_uow (empty_state <| st_events := [opened; opened_receipt] |>
                         <| st_entities := {[("door", "d1") := open_door]} |>).

Lemma opened_sealed : seal notary closed_door open_door opened open_it = Ok opened_receipt.
Proof. vm_compute. reflexivity. Qed.

Lemma seal_verify_witness : verify notary opened opened_uow = (Ok opened_receipt, opened_uow).
Proof.
  refine (seal_verify notary closed_door open_door opened open_it opened_receipt opened_uow open_door opened_sealed
    _ _ _ _ _); [vm_compute; reflexivity..|discriminate|reflexivity].
Defined.

Lemma opened_verifies : verify notary opened opened_uow = (Ok opened_receipt, opened_uow).
Proof. apply injective_projections; [vm_compute; reflexivity|vm_compute; reflexivity]. Qed.

