(* ===== verification/Engine.v ===== *)
(** * The engine

    [src/src/sose/core/engine.py]: commands run on statecharts, events recorded
    and scenario signals evaluated inside one transaction of the store.  A chart
    is domain code run by python-statemachine; [cls_send] is what
    [chart.send(...)] does to the entity (the chart's model) and to the context,
    calling the listener after every transition. *)
From S2P Require Import Prelude Encoding Randomness Records Memory MemoryFacts World QueueBackend.
From S2P Require Import Scenarios Scheduling Factories Warehouse Probability Attestation.
Open Scope string_scope.
Open Scope Z_scope.

(** ** [domain/registry.py] *)

(** A chart class, as [chart_factory] and the reflection of
    [statecharts/topology.py] expose it. *)
Record chart_class (B : Type) := mkChartClass {
  cls_name : string;
  cls_states : list chart_state;
  cls_policy : option (TransitionPolicy B);
  cls_view : Entity → chart_view;
  cls_send : (string → string → string → prog (Entity * world B) unit) →
             string → mapping → prog (Entity * world B) unit }.
Arguments mkChartClass {B}.
Arguments cls_name {B}.
Arguments cls_states {B}.
Arguments cls_policy {B}.
Arguments cls_view {B}.
Arguments cls_send {B}.

(** [DomainRegistry]: [_types]. *)
Definition registry (B : Type) := gmap string (chart_class B).

(** [DomainRegistry.register]. *)
Definition register_type {B} (name : string) (c : chart_class B) (r : registry B) : res (registry B) :=
  fail_if (present name r) (ValueError ("entity type already registered: " +:+ name)) ;;
  mret (<[name := c]> r).

(** [DomainRegistry.supports]. *)
Definition supports {B} (r : registry B) (name : string) : bool := present name r.

(** [DomainRegistry.chart_for]. *)
Definition chart_for {B} (r : registry B) (e : Entity) : res (chart_class B) :=
  match r !! ent_entity_type e with
  | Some c => Ok c
  | None => Err (KeyError (ent_entity_type e))
  end.

(** [ScenarioRule] ([scenarios/rules.py]). *)
Record ScenarioRule (B : Type) := mkScenarioRule {
  rule_name : string;
  rule_when : Entity → world B → res bool;
  rule_decide : Entity → world B → res (option string) }.
Arguments mkScenarioRule {B}.
Arguments rule_name {B}.
Arguments rule_when {B}.
Arguments rule_decide {B}.

Definition rule_evaluate {B} (rule : ScenarioRule B) (e : Entity) (w : world B) : res (option string) :=
  holds ← rule_when rule e w ;
  if negb holds then mret None else rule_decide rule e w.

(** ** [Engine] *)

(** What the constructor stores. *)
Record engine (B Wh : Type) := mkEngine {
  eng_owner_id : string;
  eng_registry : registry B;
  eng_rules_for : string → list (ScenarioRule B);
  eng_scenarios : gmap string (Scenario B);
  eng_root_seed : Z;
  eng_domain_warehouse : option Wh;
  eng_transition_authority : option TransitionAuthority }.
Arguments mkEngine {B Wh}.
Arguments eng_owner_id {B Wh}.
Arguments eng_registry {B Wh}.
Arguments eng_rules_for {B Wh}.
Arguments eng_scenarios {B Wh}.
Arguments eng_root_seed {B Wh}.
Arguments eng_domain_warehouse {B Wh}.
Arguments eng_transition_authority {B Wh}.

(** [Engine.__init__] over a context whose factories are bound to [commands] and
    [events] and whose scenarios are [registered]. *)
Definition Engine_new {B Wh} (r : registry B) (rules_for : string → list (ScenarioRule B))
    (registered : gmap string (Scenario B)) (scenarios : list (Scenario B)) (root_seed : Z)
    (domain_warehouse : option Wh) (owner_id : string) (authority : option TransitionAuthority)
    (commands events : option string) : res (engine B Wh) :=
  fail_if (blank owner_id) (ValueError "owner_id must not be empty") ;;
  fail_if (match authority, domain_warehouse with Some _, Some _ => true | _, _ => false end)
    (ValueError "transition proof requires entity and event in one store") ;;
  bind_owner commands owner_id ;;
  bind_owner events owner_id ;;
  scenarios ← register_many registered scenarios ;
  mret (mkEngine owner_id r rules_for scenarios root_seed domain_warehouse authority).

Section engine.
Context {B Wh : Type} `{!TemporalBackend B, !SchedulingBackend B, !DomainWarehouse Wh}.
Context `{!Uuid5, !Blake2b, !MersenneTwister, !Json, !Sha256, !Hmac}.
Context (self : engine B Wh).
Abbreviation P := (prog (world B)).
(** Code inside [with self.persistence.transaction(...) as uow]. *)
Abbreviation U := (prog (uow * world B)).
Abbreviation owner_id := (eng_owner_id self).

Definition on_uow {A} (m : uprog A) : U A := focus fst (λ u uw, (u, uw.2)) m.
Definition on_ctx {A} (m : P A) : U A := focus snd (λ w uw, (uw.1, w)) m.

(** [with self.persistence.transaction(owner_id=self.owner_id) as uow: body].
    The fork is taken at the entry and published at the exit, whatever the body
    has published in between. *)
Definition within {A} (body : U A) : P A := λ w,
  if mp_read_only (w_store w) then (Err (RuntimeError "read snapshot is read-only"), w) else
  if is_empty owner_id then (Err (ValueError "owner_id must not be empty"), w) else
  match body (begin_uow (durable_state w), w) with
  | (Err e, uw) => (Err e, uw.2)
  | (Ok a, uw) =>
    match commit uw.1 with
    | Err e => (Err e, uw.2)
    | Ok s => (Ok a, set_state s uw.2)
    end
  end.

(** [_load_entity]: the warehouse view reads the published state. *)
Definition _load_entity (entity_type entity_id : string) : U (option Entity) :=
  match eng_domain_warehouse self with
  | Some wh =>
    s ← on_ctx (gets durable_state) ;
    lift (entity_view s wh entity_type entity_id)
  | None => on_uow (get_entity entity_type entity_id)
  end.

Definition _save_entity (e : Entity) : U unit :=
  match eng_domain_warehouse self with
  | None => on_uow (save_entity e)
  | Some _ =>
    mutation ← lift (DomainMutation_new (version_id e) e) ;
    existing ← on_uow (get_domain_delivery (mut_mutation_id mutation)) ;
    raise_if (conflicts (λ d m, eqb_of (ddel_mutation d) (ddel_mutation m)) existing (mkDomainDelivery mutation 0 None))
      (mutation_conflict mutation) ;;
    match existing with
    | None => delivery ← lift (DomainDelivery_new mutation 0 None) ; on_uow (save_domain_delivery delivery)
    | Some _ => mret tt
    end
  end.

(** [statecharts.bind(entity, caused_by=command)], then
    [chart.send(command.name, **payload)]: the entity it leaves. *)
Definition send (command : Command) (e : Entity) : P Entity := λ w,
  match chart_for (eng_registry self) e with
  | Err x => (Err x, w)
  | Ok chart =>
    match cls_send chart (after_transition (Some owner_id) (Some (ByCommand command)))
            (cmd_name command) (cmd_payload command) (e, w) with
    | (Ok _, (e', w')) => (Ok e', w')
    | (Err x, (_, w')) => (Err x, w')
    end
  end.

(** The body of the loop over the emitted events. *)
Definition record_event (before after : Entity) (command : Command) (event : DomainEvent) : U unit :=
  on_uow (append_event event) ;;
  match eng_transition_authority self with
  | Some authority =>
    if eqb_of (ev_name event) "entity.state_transition"
    then receipt ← lift (seal authority before after event command) ; on_uow (append_event receipt)
    else mret tt
  | None => mret tt
  end ;;
  on_ctx (on_event (eng_root_seed self) (eng_scenarios self) event) ;;
  mret tt.

Definition not_found (command : Command) : exn :=
  KeyError ("entity not found: " +:+ cmd_entity_type command +:+ "/" +:+ cmd_entity_id command).

(** [uow.set_scenario_state(self.context.scenarios.snapshot_state(), ...)]. *)
Definition save_scenarios : U unit :=
  m ← on_ctx (gets w_scenarios) ;
  on_uow (set_scenario_state (snapshot_state m) owner_id).

Definition attested : bool := match eng_transition_authority self with Some _ => true | None => false end.

(** The lines [dispatch] and [_dispatch_scheduled_in_uow] share: load the entity,
    run its chart, save it, record what it emitted. *)
Definition execute (command : Command) : U unit :=
  loaded ← _load_entity (cmd_entity_type command) (cmd_entity_id command) ;
  e ← match loaded with Some e => mret e | None => raise (not_found command) end ;
  pending ← on_ctx (gets w_pending) ;
  raise_if (attested && match pending with [] => false | _ => true end)
    (ValueError "cannot attest preexisting pending source events") ;;
  after ← on_ctx (send command e) ;
  _save_entity after ;;
  emitted ← on_ctx drain_events ;
  raise_if (attested && negb (match emitted with
                              | [x] => eqb_of (ev_name x) "entity.state_transition"
                              | _ => false
                              end))
    (ValueError "attested dispatch requires exactly one recorder-produced transition") ;;
  for_each emitted (record_event e after command) ;;
  save_scenarios.

Definition foreign_command : exn := PermissionError "command belongs to a different or missing owner".
Definition foreign_work : exn := PermissionError "scheduled work belongs to a different owner".

Definition dispatch (command : Command) : P unit :=
  raise_if (negb (eqb_of (cmd_owner_id command) (Some owner_id))) foreign_command ;;
  scenario_before ← gets (λ w, snapshot_state (w_scenarios w)) ;
  r ← attempt (within (execute command)) ;
  match r with
  | Ok _ => mret tt
  | Err x => restore_state (Some scenario_before) ;; raise x
  end.

Definition set_now (t : datetime) : P unit := modify (λ w, w <| w_clock ::= λ c, c <| clk_now := t |> |>).

Definition _dispatch_scheduled_in_uow (item : DurableScheduledItem) : U bool :=
  let command := sched_command item in
  let work := sched_work item in
  raise_if (negb (eqb_of (cmd_owner_id command) (Some owner_id))) foreign_command ;;
  raise_if (negb (eqb_of (work_owner_id work) owner_id)) foreign_work ;;
  raise_if (negb (eqb_of (cmd_command_id command) (work_command_id work)))
    (ValueError "scheduled work does not match command") ;;
  raise_if (negb (eqb_of (work_due_at work) (cmd_due_at command)))
    (ValueError "scheduled work due time does not match command") ;;
  persisted_work ← on_uow (get_scheduled_work (work_work_id work)) ;
  persisted_command ← on_uow (get_command (cmd_command_id command)) ;
  if differs eqb_of persisted_work work || differs eqb_of persisted_command command then mret false else
  c ← on_ctx (gets w_clock) ;
  raise_if (work_due_at work <? clk_now c)
    (ValueError "scheduled work cannot execute before current logical time") ;;
  on_ctx (set_now (work_due_at work)) ;;
  execute command ;;
  on_uow (delete_scheduled_work (work_work_id work)) ;;
  on_uow (delete_command (cmd_command_id command)) ;;
  mret true.

(** The restoration of the [except] branches: clock, pending events, scenarios. *)
Definition roll_back (now : datetime) (tick : Z) (pending : list DomainEvent) (scenarios : ScenarioRuntimeState) :
    P unit :=
  modify (λ w, w <| w_clock ::= λ c, c <| clk_now := now |> <| clk_tick := tick |> |>
                 <| w_pending := pending |>) ;;
  restore_state (Some scenarios).

(** [uow.set_simulation_position(SimulationPosition(...), owner_id=...)]. *)
Definition move_to (now : datetime) (sequence tick : Z) : U unit :=
  position ← lift (SimulationPosition_new now sequence sequence tick) ;
  on_uow (set_simulation_position position owner_id).

Definition dispatch_scheduled (item : DurableScheduledItem) : P bool :=
  raise_if (negb (eqb_of (work_owner_id (sched_work item)) owner_id)) foreign_work ;;
  raise_if (negb (eqb_of (cmd_owner_id (sched_command item)) (Some owner_id))) foreign_command ;;
  w ← gets (λ w, w) ;
  r ← attempt (within (
         executed ← _dispatch_scheduled_in_uow item ;
         if negb executed then mret false else
         previous ← on_uow (get_simulation_position owner_id) ;
         c ← on_ctx (gets w_clock) ;
         move_to (clk_now c) (match previous with None => 1 | Some p => pos_execution_sequence p + 1 end)
           (clk_tick c) ;;
         mret true)) ;
  match r with
  | Ok executed => mret executed
  | Err x =>
    roll_back (clk_now (w_clock w)) (clk_tick (w_clock w)) (w_pending w) (snapshot_state (w_scenarios w)) ;;
    raise x
  end.

(** [self.context.statecharts.decide(...)]. *)
Definition choose_transition (e : Entity) (event_kwargs : mapping) (scope : list pyobj) : P TransitionDecision :=
  w ← gets (λ w, w) ;
  chart ← lift (chart_for (eng_registry self) e) ;
  graph ← lift (graph_from_statechart (cls_name chart) (cls_states chart)) ;
  lift (decide_transition (eng_root_seed self) (clk_tick (w_clock w)) (cls_view chart e) graph
          (policy_from_statechart (cls_policy chart)) e w
          (Some (λ evaluation, transform_transition_weight (w_scenarios w) (clk_now (w_clock w))
                                 (ent_entity_type (tev_entity evaluation)) (tev_event evaluation)))
          event_kwargs scope).

Definition dispatch_probabilistic (e : Entity) (event_kwargs : mapping) (scope : list pyobj)
    (caused_by : option cause) : P TransitionDecision :=
  decision ← choose_transition e event_kwargs scope ;
  c ← gets w_clock ;
  command ← command_create (Some owner_id) (tdec_event decision) e None caused_by None event_kwargs ∅
              (Some (PStr "probabilistic-transition" :: PInt (clk_tick c) :: PStr (ent_entity_type e)
                       :: PStr (ent_id e)
                       :: (PStr <$> states (tdec_configuration decision)) ++ scope ++ [PStr (tdec_event decision)])%list) ;
  dispatch command ;;
  mret decision.

Definition evaluate_entity (e : Entity) : P unit :=
  for_each (eng_rules_for self (ent_entity_type e)) (λ rule,
    w ← gets (λ w, w) ;
    command_name ← lift (rule_evaluate rule e w) ;
    match str_or command_name None with
    | Some name =>
      c ← gets w_clock ;
      command ← command_create (Some owner_id) name e (Some (clk_now c)) None None ∅ ∅
                  (Some [PStr "scenario"; PInt (clk_tick c); PStr (rule_name rule);
                         PStr (ent_entity_type e); PStr (ent_id e)]) ;
      dispatch command
    | None => mret tt
    end).

(** [0 if position is None else position.f]. *)
Definition position_field (f : SimulationPosition → Z) (p : option SimulationPosition) : Z :=
  match p with Some p => f p | None => 0 end.

(** The loop of [advance_tick]: how many items were executed. *)
Definition execute_due (items : list DurableScheduledItem) : U Z :=
  sum_each items (λ item,
    executed ← _dispatch_scheduled_in_uow item ;
    mret (if executed : bool then 1 else 0)).

(** The transaction of [advance_tick]. *)
Definition tick_body (position_before : option SimulationPosition) (tick_end current_tick : Z) : U unit :=
  position ← on_uow (get_simulation_position owner_id) ;
  raise_if (negb (eqb_of position position_before))
    (RuntimeError "stale owner simulation position at tick admission") ;;
  save_scenarios ;;
  items ← on_ctx (due owner_id tick_end) ;
  executed ← execute_due items ;
  on_uow (set_committed_tick current_tick owner_id) ;;
  move_to tick_end (position_field pos_execution_sequence position_before + executed) (current_tick + 1).

Definition advance_tick : P unit :=
  w ← gets (λ w, w) ;
  let tick_start := clk_now (w_clock w) in
  let tick_end := tick_start + clk_step (w_clock w) in
  let current_tick := clk_tick (w_clock w) in
  raise_if (match heap (w_scheduler w) with [] => false | _ => true end)
    (RuntimeError "unowned in-memory scheduling is not supported") ;;
  position_before ← lift (simulation_position (durable_state w) owner_id) ;
  r ← attempt (on_tick (eng_root_seed self) (eng_scenarios self) ;;
               within (tick_body position_before tick_end current_tick)) ;
  match r with
  | Ok _ => modify (λ w, w <| w_clock ::= λ c, c <| clk_now := tick_end |> <| clk_tick := current_tick + 1 |> |>)
  | Err x => roll_back tick_start current_tick (w_pending w) (snapshot_state (w_scenarios w)) ;; raise x
  end.
End engine.

(** ** Well-behaved charts

    The handlers of a chart work on the entity and emit events.  They open no
    transaction and move neither the clock nor the scenarios nor the in-memory
    queue, unless the listener does. *)

Definition quiet {W B} (get : W → world B) {A} (m : prog W A) : Prop :=
  ∀ x, let w := get x in let w' := get (m x).2 in
    w_store w' = w_store w ∧ w_clock w' = w_clock w ∧ w_scenarios w' = w_scenarios w
    ∧ w_scheduler w' = w_scheduler w.

Class QuietCharts {B} (r : registry B) : Prop :=
  quiet_send t c listener name payload :
    r !! t = Some c → (∀ event source target, quiet snd (listener event source target)) →
    quiet snd (cls_send c listener name payload).

Lemma quiet_bind {W B A C} (get : W → world B) (m : prog W A) (f : A → prog W C) :
  quiet get m → (∀ a, quiet get (f a)) → quiet get (m ≫= f).
Proof.
  intros Hm Hf x. specialize (Hm x). unfold mbind, prog_bind. destruct (m x) as [[a|e] x']; cbn in *; [|done].
  specialize (Hf a x'). cbn in Hf. destruct Hf as (E1 & E2 & E3 & E4), Hm as (F1 & F2 & F3 & F4).
  rewrite E1, E2, E3, E4. done.
Qed.

Lemma recorder_quiet {B} `{!Uuid5} owner caused_by event source target :
  quiet (B:=B) snd (after_transition owner caused_by event source target).
Proof. intros [e w]. done. Qed.
