(* ===== verification/EngineFacts.v ===== *)
(** * What an execution of the engine does

    The transactions of [Engine.v] as equations: [dispatch] commits the entity
    its chart left, the events and the scenarios in one state or nothing;
    [dispatch_scheduled] also consumes the work; [advance_tick] empties the
    agenda of the tick. *)
From S2P Require Import Prelude Encoding Randomness Records Memory MemoryFacts World QueueBackend.
From S2P Require Import Scenarios Scheduling Factories Warehouse Probability Attestation Engine.
Open Scope string_scope.
Open Scope Z_scope.

(** ** Programs on both halves *)

Section halves.
Context {B : Type}.

Lemma on_uow_inv {A} (m : uprog A) (uw : uow * world B) r uw' :
  on_uow m uw = (r, uw') → ∃ u, m uw.1 = (r, u) ∧ uw' = (u, uw.2).
Proof. unfold on_uow, focus. destruct (m uw.1) as [r1 u]. intros [= <- <-]. eauto. Qed.

Lemma on_ctx_inv {A} (m : prog (world B) A) (uw : uow * world B) r uw' :
  on_ctx m uw = (r, uw') → ∃ w, m uw.2 = (r, w) ∧ uw' = (uw.1, w).
Proof. unfold on_ctx, focus. destruct (m uw.2) as [r1 w]. intros [= <- <-]. eauto. Qed.

Lemma keeps_on_uow {A} (I : uow → Prop) (J : world B → Prop) (m : uprog A) :
  keeps I m → keeps (λ uw, I uw.1 ∧ J uw.2) (on_uow m).
Proof.
  intros Hm [u w] [Hu Hw]. unfold on_uow, focus. specialize (Hm u Hu). cbn [fst]. by destruct (m u).
Qed.

Lemma keeps_on_ctx {A} (I : uow → Prop) (J : world B → Prop) (m : prog (world B) A) :
  keeps J m → keeps (λ uw, I uw.1 ∧ J uw.2) (on_ctx m).
Proof.
  intros Hm [u w] [Hu Hw]. unfold on_ctx, focus. specialize (Hm w Hw). cbn [snd]. by destruct (m w).
Qed.
End halves.

(** ** The context *)

(** What a chart, an evaluation and an execution leave alone in the context. *)
Definition same_frame {B} (w v : world B) : Prop :=
  w_store v = w_store w ∧ w_clock v = w_clock w ∧ w_scheduler v = w_scheduler w.

Section context.
Context {B Wh : Type} `{!TemporalBackend B, !SchedulingBackend B, !DomainWarehouse Wh}.
Context `{!Uuid5, !Blake2b, !MersenneTwister, !Json, !Sha256, !Hmac}.
Context (self : engine B Wh) `{!QuietCharts (eng_registry self)}.
Abbreviation owner_id := (eng_owner_id self).
Implicit Types (w : world B) (u : uow).

#[export] Instance same_frame_preorder : PreOrder (same_frame (B:=B)).
Proof. split; [by intros w|]. intros w1 w2 w3 (E1 & E2 & E3) (F1 & F2 & F3). unfold same_frame. by rewrite F1, F2, F3. Qed.

Lemma send_quiet command e : quiet id (send self command e).
Proof.
  intros w. cbv zeta. unfold id, send. destruct (chart_for (eng_registry self) e) as [c|x] eqn:Hc; [|done].
  assert (eng_registry self !! ent_entity_type e = Some c) as Hr.
  { unfold chart_for in Hc. destruct (eng_registry self !! _); [by injection Hc as ->|done]. }
  pose proof (quiet_send _ c (after_transition (Some owner_id) (Some (ByCommand command))) (cmd_name command)
    (cmd_payload command) Hr (recorder_quiet _ _) (e, w)) as Hq.
  destruct (cls_send _ _ _ _ _) as [[[]|x] [e' w']]; exact Hq.
Qed.

(** Evaluating a signal changes the scenarios only. *)
Lemma evaluate_only w signal :
  ∃ m, (evaluate (eng_root_seed self) (eng_scenarios self) signal w).2 = w <| w_scenarios := m |>.
Proof.
  enough (keeps (λ v, ∃ m, v = w <| w_scenarios := m |>)
            (evaluate (eng_root_seed self) (eng_scenarios self) signal)) as Hk.
  { apply Hk. exists (w_scenarios w). by destruct w. }
  apply keeps_bind.
  - unfold expire_due. intros v [m ->]. by eexists.
  - intros _. apply keeps_collect. intros sc v [m ->].
    destruct (evaluate_scenario _ _ _ _) as [r v'] eqn:E.
    apply evaluate_scenario_turn in E as [(ds & m' & _ & -> & _)|(e & _ & ->)]; by eexists.
Qed.

Lemma on_event_only w event :
  ∃ m, (on_event (eng_root_seed self) (eng_scenarios self) event w).2 = w <| w_scenarios := m |>.
Proof. unfold on_event. run. apply evaluate_only. Qed.

Lemma on_tick_only w :
  ∃ m, (on_tick (eng_root_seed self) (eng_scenarios self) w).2 = w <| w_scenarios := m |>.
Proof. unfold on_tick. run. apply evaluate_only. Qed.

(** The signals of the recorded events. *)
Definition signals (l : list DomainEvent) : prog (world B) unit :=
  for_each l (λ e, on_event (eng_root_seed self) (eng_scenarios self) e ;; mret tt).

Lemma signals_only l w : ∃ m, (signals l w).2 = w <| w_scenarios := m |>.
Proof.
  enough (keeps (λ v, ∃ m, v = w <| w_scenarios := m |>) (signals l)) as Hk.
  { apply Hk. exists (w_scenarios w). by destruct w. }
  apply keeps_for_each. intros e. apply keeps_bind; [|intros _; apply keeps_ret].
  intros v [m ->]. destruct (on_event_only (w <| w_scenarios := m |>) e) as [m' ->]. by eexists.
Qed.
End context.

(** ** An execution *)

Section execution.
Context {B Wh : Type} `{!TemporalBackend B, !SchedulingBackend B, !DomainWarehouse Wh}.
Context `{!Uuid5, !Blake2b, !MersenneTwister, !Json, !Sha256, !Hmac}.
Context (self : engine B Wh) `{!QuietCharts (eng_registry self)}.
Abbreviation owner_id := (eng_owner_id self).
Implicit Types (w : world B) (u : uow) (command : Command).

(** The receipt that follows an attested transition. *)
Definition receipts (before after : Entity) command (event : DomainEvent) : res (list DomainEvent) :=
  match eng_transition_authority self with
  | Some authority =>
    if eqb_of (ev_name event) "entity.state_transition"
    then receipt ← seal authority before after event command ; mret [receipt]
    else mret []
  | None => mret []
  end.

(** What the store records of the emitted events. *)
Fixpoint recorded (before after : Entity) command (l : list DomainEvent) : res (list DomainEvent) :=
  match l with
  | [] => mret []
  | event :: l =>
    mine ← receipts before after command event ;
    rest ← recorded before after command l ;
    mret (event :: mine ++ rest)%list
  end.

Definition with_events (l : list DomainEvent) (s : state) : state := s <| st_events ::= λ k, (k ++ l)%list |>.

Definition executed (after : Entity) (events : list DomainEvent) (m : scenario_memory) (s : state) : state :=
  with_events events (s <| st_entities ::= <[(ent_entity_type after, ent_id after) := after]> |>)
    <| st_scenario_states ::= <[owner_id := snapshot_state m]> |>.

Lemma with_events_app l k s : with_events k (with_events l s) = with_events (l ++ k)%list s.
Proof.
  change (with_events k (with_events l s)) with (s <| st_events := ((st_events s ++ l) ++ k)%list |>).
  by rewrite <-app_assoc.
Qed.

Lemma with_events_nil s : with_events [] s = s.
Proof.
  change (with_events [] s) with (s <| st_events := (st_events s ++ [])%list |>). rewrite app_nil_r. by destruct s.
Qed.

Lemma append_event_inv e u a u' :
  append_event e u = (Ok a, u') → uow_working u' = with_events [e] (uow_working u).
Proof. unfold append_event, working, write. intros H'. by inv_prog. Qed.

Lemma on_append_inv e (uw : uow * world B) a uw' :
  on_uow (append_event e) uw = (Ok a, uw') →
  uow_working uw'.1 = with_events [e] (uow_working uw.1) ∧ uw'.2 = uw.2.
Proof. intros (u & Hu%append_event_inv & ->)%on_uow_inv. done. Qed.

Lemma record_event_inv before after command e (uw : uow * world B) a uw' :
  record_event self before after command e uw = (Ok a, uw') →
  ∃ l, receipts before after command e = Ok l
       ∧ uow_working uw'.1 = with_events (e :: l) (uow_working uw.1)
       ∧ (on_event (eng_root_seed self) (eng_scenarios self) e ;; mret tt) uw.2 = (Ok tt, uw'.2).
Proof.
  unfold record_event, receipts. intros Hrun. apply bind_inv in Hrun as [(?&uw1&Ha&Hrun)|(?&?&?)]; [|done].
  apply on_append_inv in Ha as [Ew Ec].
  apply bind_inv in Hrun as [([]&uw2&Hr&Hrun)|(?&?&?)]; [|done].
  apply bind_inv in Hrun as [(ds&uw3&He&Hrun)|(?&?&?)]; [|done]. apply ret_inv in Hrun as [_ ->].
  apply on_ctx_inv in He as (w3 & He & ->).
  assert (∃ l, receipts before after command e = Ok l ∧ uow_working uw2.1 = with_events l (uow_working uw1.1)
               ∧ uw2.2 = uw1.2) as (l & Hl & Ew2 & Ec2).
  { unfold receipts. destruct (eng_transition_authority self) as [authority|].
    2:{ apply ret_inv in Hr as [_ ->]. exists []. by rewrite with_events_nil. }
    destruct (eqb_of _ _).
    2:{ apply ret_inv in Hr as [_ ->]. exists []. by rewrite with_events_nil. }
    apply bind_inv in Hr as [(receipt&uw0&Hs&Hr)|(?&?&?)]; [|done].
    apply lift_inv in Hs as [Hs ->]. rewrite <-Hs. apply on_append_inv in Hr as [Ew2 Ec2].
    exists [receipt]. done. }
  exists l. split; [exact Hl|]. rewrite Ec2, Ec in He. cbn [fst snd] in *. split.
  - by rewrite Ew2, Ew, with_events_app.
  - by rewrite (run_bind _ _ _ _ _ He).
Qed.

Lemma record_events_inv before after command l (uw : uow * world B) uw' :
  for_each l (record_event self before after command) uw = (Ok tt, uw') →
  ∃ k, recorded before after command l = Ok k
       ∧ uow_working uw'.1 = with_events k (uow_working uw.1)
       ∧ signals self l uw.2 = (Ok tt, uw'.2).
Proof.
  revert uw. unfold signals. induction l as [|e l IH]; intros uw; cbn [for_each recorded].
  - intros [_ ->]%ret_inv. exists []. by rewrite with_events_nil.
  - intros [([] & uw1 & (k1 & Hk1 & Ew & Hs)%record_event_inv & (k & Hk & Ew' & Hs')%IH)|(?&?&?)]%bind_inv; [|done].
    exists (e :: k1 ++ k)%list. rewrite Hk1, Hk, Ew', Ew, with_events_app, (run_bind _ _ _ _ _ Hs). done.
Qed.

(** A successful execution without a warehouse. *)
Record execution command u w u' w' (e after : Entity) (v : world B) (events : list DomainEvent) : Prop := {
  x_loaded : st_entities (uow_working u) !! (cmd_entity_type command, cmd_entity_id command) = Some e;
  x_sent : send self command e w = (Ok after, v);
  x_recorded : recorded e after command (w_pending v) = Ok events;
  x_signalled : signals self (w_pending v) (v <| w_pending := [] |>) = (Ok tt, w');
  x_saved : uow_working u' = executed after events (w_scenarios w') (uow_working u);
  x_alone : attested self = true →
    w_pending w = [] ∧ ∃ x, w_pending v = [x] ∧ ev_name x = "entity.state_transition" }.

Lemma save_scenarios_inv (uw : uow * world B) a uw' :
  save_scenarios self uw = (Ok a, uw') →
  uow_working uw'.1 = (uow_working uw.1) <| st_scenario_states ::= <[owner_id := snapshot_state (w_scenarios uw.2)]> |>
  ∧ uw'.2 = uw.2.
Proof.
  unfold save_scenarios. intros [(m & uw1 & Hm & Hr)|(?&?&?)]%bind_inv; [|done].
  apply on_ctx_inv in Hm as (w1 & [Em ->]%gets_inv & ->). injection Em as ->.
  apply on_uow_inv in Hr as (u1 & Hr & ->). unfold set_scenario_state, require_owner, write in Hr. by inv_prog.
Qed.

Lemma execute_inv command u w uw' :
  eng_domain_warehouse self = None → execute self command (u, w) = (Ok tt, uw') →
  ∃ e after v events, execution command u w uw'.1 uw'.2 e after v events.
Proof.
  intros Hwh. unfold execute, _load_entity, _save_entity. rewrite Hwh.
  intros [(loaded & uw1 & Hl & Hrun)|(?&?&?)]%bind_inv; [|done].
  apply on_uow_inv in Hl as (u1 & [El ->]%gets_inv & ->). injection El as ->. cbn [fst snd] in *.
  destruct (st_entities (uow_working u) !! _) as [e|] eqn:He.
  2:{ apply bind_inv in Hrun as [(?&?&[? _]%raise_inv&_)|(?&_&?)]; done. }
  rewrite run_ret in Hrun.
  apply bind_inv in Hrun as [(pending & uw2 & Hp & Hrun)|(?&_&?)]; [|done].
  apply on_ctx_inv in Hp as (w1 & [Ep ->]%gets_inv & ->). injection Ep as ->. cbn [fst snd] in *.
  apply bind_inv in Hrun as [([] & ? & [Eg ->]%raise_if_inv & Hrun)|(?&_&?)]; [|done].
  apply bind_inv in Hrun as [(after & ? & (v & Hs & ->)%on_ctx_inv & Hrun)|(?&_&?)]; [|done].
  apply bind_inv in Hrun as [(? & ? & (u2 & Hsave & ->)%on_uow_inv & Hrun)|(?&_&?)]; [|done].
  unfold save_entity, write in Hsave. apply modify_inv in Hsave as [_ ->]. cbn [fst snd] in *.
  apply bind_inv in Hrun as [(emitted & ? & (w2 & Hd & ->)%on_ctx_inv & Hrun)|(?&_&?)]; [|done].
  cbn [fst snd] in *.
  assert (emitted = w_pending v ∧ w2 = v <| w_pending := [] |>) as [-> ->] by (unfold drain_events in Hd; by inv_prog).
  apply bind_inv in Hrun as [([] & ? & [Ex ->]%raise_if_inv & Hrun)|(?&_&?)]; [|done].
  apply bind_inv in Hrun as [([] & ? & (events & Hrec & Ew & Hsig)%record_events_inv & Hrun)|(?&_&?)]; [|done].
  cbn [fst snd] in *.
  apply save_scenarios_inv in Hrun as [Ew' Ec].
  exists e, after, v, events. constructor; try done.
  - by rewrite Ec.
  - rewrite Ew', Ew, Ec. done.
  - intros Hat. rewrite Hat in *. cbn in *. split; [by destruct (w_pending w)|].
    destruct (w_pending v) as [|ev [|]]; try done. exists ev. split; [done|]. apply (proj1 (eqb_of_true _ _)). by destruct (eqb_of _ _).
Qed.
End execution.

(** ** Transactions of the engine *)

Section transactions.
Context {B Wh : Type} `{!TemporalBackend B, !SchedulingBackend B, !DomainWarehouse Wh}.
Context `{!Uuid5, !Blake2b, !MersenneTwister, !Json, !Sha256, !Hmac}.
Context (self : engine B Wh) `{!QuietCharts (eng_registry self)}.
Abbreviation owner_id := (eng_owner_id self).
Implicit Types (w : world B) (u : uow) (command : Command) (s : state).

Lemma within_inv {A} (body : prog (uow * world B) A) w r w' :
  within self body w = (r, w') →
  (∃ a uw s, r = Ok a ∧ body (begin_uow (durable_state w), w) = (Ok a, uw) ∧ commit uw.1 = Ok s
             ∧ w' = set_state s uw.2 ∧ mp_read_only (w_store w) = false ∧ is_empty owner_id = false)
  ∨ (∃ e, r = Err e ∧ (w' = w ∨ w' = (body (begin_uow (durable_state w), w)).2.2)).
Proof.
  unfold within. destruct (mp_read_only _) eqn:?; [intros [= <- <-]; right; eauto|].
  destruct (is_empty _) eqn:?; [intros [= <- <-]; right; eauto|].
  destruct (body _) as [[a|e] uw]; [|intros [= <- <-]; right; eauto].
  destruct (commit uw.1) as [s|e] eqn:E; intros [= <- <-]; [left; by exists a, uw, s|right; eauto].
Qed.

Lemma commit_inv u s : commit u = Ok s → s = uow_working u.
Proof. unfold commit. repeat case_match; congruence. Qed.

(** *** What no run changes, whether it returns or raises *)

Definition frame_kept {A} w0 (m : prog (uow * world B) A) : Prop := keeps (λ uw, same_frame w0 uw.2) m.

Lemma frame_on_uow {A} w0 (m : uprog A) : frame_kept w0 (on_uow m).
Proof. intros [u w] Hw. unfold on_uow, focus. cbn [fst]. by destruct (m u). Qed.

Lemma frame_on_ctx {A} w0 (m : prog (world B) A) : keeps (same_frame w0) m → frame_kept w0 (on_ctx m).
Proof. intros Hm [u w] Hw. unfold on_ctx, focus. specialize (Hm w Hw). cbn [snd]. by destruct (m w). Qed.

Lemma frame_gets {A} w0 (f : world B → A) : frame_kept w0 (on_ctx (gets f)).
Proof. apply frame_on_ctx, keeps_gets. Qed.

Lemma frame_send w0 command e : frame_kept w0 (on_ctx (send self command e)).
Proof.
  apply frame_on_ctx. intros w (E1 & E2 & E3). destruct (send_quiet self command e w) as (F1 & F2 & _ & F4).
  unfold id, same_frame in *. by rewrite F1, F2, F4.
Qed.

Lemma frame_drain w0 : frame_kept w0 (on_ctx drain_events).
Proof. apply frame_on_ctx. by intros w. Qed.

Lemma frame_on_event w0 event :
  frame_kept w0 (on_ctx (on_event (eng_root_seed self) (eng_scenarios self) event)).
Proof. apply frame_on_ctx. intros w Hw. by destruct (on_event_only self w event) as [m ->]. Qed.

Lemma execute_frame w0 command : frame_kept w0 (execute self command).
Proof.
  unfold execute, _load_entity, _save_entity, record_event, save_scenarios, frame_kept.
  solve_keeps; try apply frame_on_uow; try apply frame_gets; try apply frame_send; try apply frame_drain;
    apply frame_on_event.
Qed.

(** A scheduled execution also moves the clock. *)
Definition same_store (w v : world B) : Prop :=
  w_store v = w_store w ∧ clk_step (w_clock v) = clk_step (w_clock w) ∧ w_scheduler v = w_scheduler w.
Definition store_kept {A} w0 (m : prog (uow * world B) A) : Prop := keeps (λ uw, same_store w0 uw.2) m.

Lemma store_on_uow {A} w0 (m : uprog A) : store_kept w0 (on_uow m).
Proof. intros [u w] Hw. unfold on_uow, focus. cbn [fst]. by destruct (m u). Qed.

Lemma store_on_ctx {A} w0 (m : prog (world B) A) : keeps (same_store w0) m → store_kept w0 (on_ctx m).
Proof. intros Hm [u w] Hw. unfold on_ctx, focus. specialize (Hm w Hw). cbn [snd]. by destruct (m w). Qed.

Lemma execute_store w0 command : store_kept w0 (execute self command).
Proof.
  intros uw (E1 & E2 & E3). pose proof (execute_frame uw.2 command uw (reflexivity _)) as (F1 & F2 & F3).
  unfold same_store. by rewrite F1, F2, F3.
Qed.

Lemma in_uow_store w0 item : store_kept w0 (_dispatch_scheduled_in_uow self item).
Proof.
  unfold _dispatch_scheduled_in_uow, set_now, store_kept.
  solve_keeps; try apply store_on_uow; try apply execute_store; apply store_on_ctx;
    [apply keeps_gets|apply keeps_modify; by intros w].
Qed.

Lemma move_to_store w0 now_ sequence tick : store_kept w0 (move_to self now_ sequence tick).
Proof. unfold move_to, store_kept. solve_keeps; apply store_on_uow. Qed.

Lemma due_run w at_ :
  schedule_inv (durable_state w) → mp_read_only (w_store w) = false → blank owner_id = false →
  due owner_id at_ w = (Ok (filter (λ i, work_due_at (sched_work i) ≤ at_) (items_of owner_id (durable_state w))), w).
Proof.
  intros Hinv Hro Ho. unfold due. by rewrite (run_bind _ _ _ _ _ (pending_run owner_id w Hinv Hro (blank_not_empty _ Ho))).
Qed.

Lemma tick_body_store w0 position tick_end tick :
  schedule_inv (durable_state w0) → mp_read_only (w_store w0) = false → blank owner_id = false →
  store_kept w0 (tick_body self position tick_end tick).
Proof.
  intros Hinv Hro Ho. unfold tick_body, execute_due, save_scenarios, store_kept.
  assert (store_kept w0 (on_ctx (due owner_id tick_end))) as Hdue.
  { apply store_on_ctx. intros w Hw. pose proof Hw as (E & _ & _).
    rewrite due_run; unfold durable_state; by rewrite ?E. }
  solve_keeps; try apply store_on_uow; try apply in_uow_store; try apply move_to_store; try exact Hdue.
  apply store_on_ctx, keeps_gets.
Qed.

(** *** Rolling back *)

Lemma roll_back_run w v :
  wf_memory (w_scenarios w) → same_store w v →
  let w' := (roll_back (clk_now (w_clock w)) (clk_tick (w_clock w)) (w_pending w) (snapshot_state (w_scenarios w)) v).2 in
  roll_back (clk_now (w_clock w)) (clk_tick (w_clock w)) (w_pending w) (snapshot_state (w_scenarios w)) v = (Ok tt, w') ∧
  same_frame w w' ∧ w_pending w' = w_pending w ∧ w_scenarios w' = w_scenarios w.
Proof.
  intros Hm (E1 & E2 & E3). cbv zeta. unfold roll_back, restore_state. run. cbn. unfold same_frame. split_and!; try done.
  - cbn. destruct (w_clock w), (w_clock v). cbn in *. by rewrite E2.
  - by apply snapshot_restored.
Qed.
(** *** What a scheduled execution does when it returns *)

Record consumption (item : DurableScheduledItem) u w u' w' : Prop := {
  c_work : st_scheduled_work (uow_working u) !! work_work_id (sched_work item) = Some (sched_work item);
  c_command : st_commands (uow_working u) !! cmd_command_id (sched_command item) = Some (sched_command item);
  c_same_command : work_command_id (sched_work item) = cmd_command_id (sched_command item);
  c_owners : work_owner_id (sched_work item) = owner_id ∧ cmd_owner_id (sched_command item) = Some owner_id;
  c_due : cmd_due_at (sched_command item) = work_due_at (sched_work item) ∧ clk_now (w_clock w) ≤ work_due_at (sched_work item);
  c_executed : ∃ u1 e after v events,
    execution self (sched_command item) u (w <| w_clock ::= λ c, c <| clk_now := work_due_at (sched_work item) |> |>)
      u1 w' e after v events
    ∧ uow_working u' = unscheduled (work_work_id (sched_work item)) (cmd_command_id (sched_command item)) (uow_working u1) }.

Lemma delete_pair_inv id cid (uw : uow * world B) a uw' :
  (on_uow (delete_scheduled_work id) ;; on_uow (delete_command cid) ;; mret true) uw = (Ok a, uw') →
  a = true ∧ uow_working uw'.1 = unscheduled id cid (uow_working uw.1) ∧ uw'.2 = uw.2.
Proof.
  intros [(? & ? & (u1 & H1' & ->)%on_uow_inv & Hr)|(?&_&?)]%bind_inv; [|done].
  apply bind_inv in Hr as [(? & ? & (u2 & H2' & ->)%on_uow_inv & Hr)|(?&_&?)]; [|done].
  unfold delete_scheduled_work, delete_command, write in *. by inv_prog.
Qed.

Lemma in_uow_inv item u w b uw' :
  eng_domain_warehouse self = None → _dispatch_scheduled_in_uow self item (u, w) = (Ok b, uw') →
  match b with
  | true => consumption item u w uw'.1 uw'.2
  | false => uw' = (u, w)
             ∧ (st_scheduled_work (uow_working u) !! work_work_id (sched_work item) = Some (sched_work item) →
                st_commands (uow_working u) !! cmd_command_id (sched_command item) ≠ Some (sched_command item))
  end.
Proof.
  intros Hwh Hrun. unfold _dispatch_scheduled_in_uow in Hrun. cbv zeta in Hrun.
  set (work := sched_work item) in *. set (command := sched_command item) in *.
  do 4 (apply bind_inv in Hrun as [(? & ? & [? ->]%raise_if_inv & Hrun)|(?&_&?)]; [|done]).
  do 2 (apply bind_inv in Hrun as [(? & ? & (? & [? ->]%gets_inv & ->)%on_uow_inv & Hrun)|(?&_&?)]; [|done]).
  cbn [fst snd] in *. simplify_eq.
  repeat match goal with H : Ok _ = (if ?b then _ else _) |- _ => destruct b eqn:?; [done|]; clear H end.
  repeat match goal with H : negb _ = false |- _ => apply negb_false_iff, (proj1 (eqb_of_true _ _)) in H end.
  destruct (differs _ _ work || differs _ _ command) eqn:Hd.
  - apply ret_inv in Hrun as [[= ->] ->]. split; [done|]. intros E1 E2. by rewrite E1, E2, !differs_self in Hd.
  - apply orb_false_iff in Hd as [Hw%differs_false Hc%differs_false].
    apply bind_inv in Hrun as [(? & ? & (? & [[= ->] ->]%gets_inv & ->)%on_ctx_inv & Hrun)|(?&_&?)]; [|done].
    apply bind_inv in Hrun as [(? & ? & [Hlate ->]%raise_if_inv & Hrun)|(?&_&?)]; [|done].
    apply bind_inv in Hrun as [(? & ? & (? & [_ ->]%modify_inv & ->)%on_ctx_inv & Hrun)|(?&_&?)]; [|done].
    apply bind_inv in Hrun as [([] & [u1 w1] & Hex & Hrun)|(?&_&?)]; [|done].
    cbn [fst snd] in *. apply execute_inv in Hex as (e & after & v & events & Hex); [|done].
    apply delete_pair_inv in Hrun as (-> & Eu & Ec). cbn [fst snd] in *.
    constructor; try done.
    + split; [done|]. destruct (work_due_at work <? _) eqn:E; [done|]. by apply Z.ltb_ge in E.
    + rewrite Ec. by exists u1, e, after, v, events.
Qed.
Lemma within_run {A} (body : prog (uow * world B) A) w a u v s :
  mp_read_only (w_store w) = false → is_empty owner_id = false →
  body (begin_uow (durable_state w), w) = (Ok a, (u, v)) → commit u = Ok s →
  within self body w = (Ok a, set_state s v).
Proof. unfold within. intros -> -> -> ?. cbn [fst snd]. by destruct (commit u); simplify_eq. Qed.

Lemma execution_frame command u w u' w' e after v events :
  execution self command u w u' w' e after v events → same_frame w w' ∧ w_pending w' = [].
Proof.
  intros [_ X2 _ X4 _ _]. destruct (signals_only self (w_pending v) (v <| w_pending := [] |>)) as [m Hs].
  rewrite X4 in Hs. cbn in Hs. subst w'. destruct (send_quiet self command e w) as (F1 & F2 & _ & F4).
  unfold id in *. rewrite X2 in F1, F2, F4. done.
Qed.

(** A work that has left the agenda is not executed again. *)
Lemma in_uow_again item u w u' w' u2 w2 :
  consumption item u w u' w' → st_scheduled_work (uow_working u2) !! work_work_id (sched_work item) = None →
  _dispatch_scheduled_in_uow self item (u2, w2) = (Ok false, (u2, w2)).
Proof.
  intros [_ _ C3 [C4 C4'] [C5 _] _] Hn. unfold _dispatch_scheduled_in_uow. cbv zeta.
  rewrite C3, C4, C4', C5. rewrite !(proj2 (eqb_of_true _ _) eq_refl). run.
  unfold get_scheduled_work, get_command.
  erewrite run_bind by (unfold on_uow, focus; reflexivity). cbn [fst snd]. rewrite Hn.
  erewrite run_bind by (unfold on_uow, focus; reflexivity). done.
Qed.

(** *** The agenda after an execution *)

Lemma executed_inv after events m s : schedule_inv s → schedule_inv (executed self after events m s).
Proof. intros [[[[] [] [] [] []] ??] Hc Hu]. repeat constructor; assumption. Qed.

Lemma positioned_inv p s : schedule_inv s → schedule_inv (s <| st_simulation_positions ::= <[owner_id := p]> |>).
Proof. intros [[[[] [] [] [] []] ??] Hc Hu]. repeat constructor; assumption. Qed.

Lemma ticked_inv t s : schedule_inv s → schedule_inv (s <| st_committed_ticks ::= <[owner_id := t]> |>).
Proof. intros [[[[] [] [] [] []] ??] Hc Hu]. repeat constructor; assumption. Qed.

Lemma snapshot_inv m s : schedule_inv s → schedule_inv (s <| st_scenario_states ::= <[owner_id := m]> |>).
Proof. intros [[[[] [] [] [] []] ??] Hc Hu]. repeat constructor; assumption. Qed.

Lemma unscheduled_durable k c s : durable s → durable (unscheduled k c s).
Proof.
  intros [[[] [] [] [] []] ??]. repeat constructor; try assumption; cbn; by apply keyed_delete.
Qed.

Lemma consumption_inv item u w u' w' :
  schedule_inv (uow_working u) → consumption item u w u' w' →
  schedule_inv (uow_working u') ∧
  (∀ other, items_of other (uow_working u')
            = filter (λ i, work_work_id (sched_work i) ≠ work_work_id (sched_work item)) (items_of other (uow_working u))) ∧
  st_scheduled_work (uow_working u') !! work_work_id (sched_work item) = None.
Proof.
  intros Hinv [C1 C2 C3 _ _ (u1 & e & after & v & events & [_ _ _ _ X5 _] & Eu)].
  pose proof (executed_inv after events (w_scenarios w') _ Hinv) as Hinv'. rewrite Eu, X5, <-C3.
  set (s1 := executed _ _ _ _ _) in *. assert (Hw : st_scheduled_work s1 !! work_work_id (sched_work item) = Some (sched_work item)) by exact C1.
  split_and!.
  - apply unscheduled_inv; [done|done|]. by apply unscheduled_durable, Hinv'.
  - intros other. by rewrite (items_unscheduled other s1 _ _ Hinv' Hw).
  - apply lookup_delete_eq.
Qed.

Lemma move_to_inv now_ n tick (uw : uow * world B) a uw' :
  move_to self now_ n tick uw = (Ok a, uw') →
  uow_working uw'.1 = uow_working uw.1 <| st_simulation_positions ::= <[owner_id := mkSimulationPosition now_ n n tick]> |>
  ∧ uw'.2 = uw.2.
Proof.
  unfold move_to. intros [(p & ? & [Hp ->]%lift_inv & (u & Hu & ->)%on_uow_inv)|(?&_&?)]%bind_inv; [|done].
  unfold SimulationPosition_new in Hp. unfold set_simulation_position, require_owner, write in Hu. by inv_prog.
Qed.

Lemma consumption_positions item u w u' w' :
  consumption item u w u' w' → st_simulation_positions (uow_working u') = st_simulation_positions (uow_working u).
Proof. intros [_ _ _ _ _ (u1 & e & after & v & events & [_ _ _ _ X5 _] & Eu)]. by rewrite Eu, X5. Qed.

Lemma consumption_item item u w u' w' :
  consumption item u w u' w' → item ∈ items_of owner_id (uow_working u).
Proof. intros [C1 C2 C3 [C4 _] _ _]. destruct item as [x c]. cbn in *. apply elem_of_items. rewrite C3. eauto. Qed.

(** The transaction of [dispatch_scheduled]. *)
Lemma scheduled_body_inv item u w b uw' :
  eng_domain_warehouse self = None →
  (executed ← _dispatch_scheduled_in_uow self item ;
   if negb executed then mret false else
   previous ← on_uow (get_simulation_position owner_id) ;
   c ← on_ctx (gets w_clock) ;
   move_to self (clk_now c) (match previous with None => 1 | Some p => pos_execution_sequence p + 1 end)
     (clk_tick c) ;;
   mret true) (u, w) = (Ok b, uw') →
  if b : bool then ∃ u1, consumption item u w u1 uw'.2 ∧
    uow_working uw'.1 = uow_working u1 <| st_simulation_positions ::= <[owner_id := mkSimulationPosition
      (clk_now (w_clock uw'.2)) (position_field pos_execution_sequence (st_simulation_positions (uow_working u1) !! owner_id) + 1)
      (position_field pos_execution_sequence (st_simulation_positions (uow_working u1) !! owner_id) + 1)
      (clk_tick (w_clock uw'.2))]> |>
  else uw' = (u, w) ∧ (st_scheduled_work (uow_working u) !! work_work_id (sched_work item) = Some (sched_work item) →
         st_commands (uow_working u) !! cmd_command_id (sched_command item) ≠ Some (sched_command item)).
Proof.
  intros Hwh [(ex & [u1 w1] & Hex%in_uow_inv & Hrun)|(?&_&?)]%bind_inv; [|done..].
  destruct ex; cbn [negb fst snd] in *.
  2:{ apply ret_inv in Hrun as [[= ->] ->]. done. }
  apply bind_inv in Hrun as [(? & ? & (? & Hg & ->)%on_uow_inv & Hrun)|(?&_&?)]; [|done].
  unfold get_simulation_position, require_owner in Hg.
  apply bind_inv in Hg as [(?&?&[_ ->]%raise_if_inv&[[= ->] ->]%gets_inv)|(?&_&?)]; [|done].
  apply bind_inv in Hrun as [(? & ? & (? & [[= ->] ->]%gets_inv & ->)%on_ctx_inv & Hrun)|(?&_&?)]; [|done].
  apply bind_inv in Hrun as [(? & ? & [Eu Ec]%move_to_inv & [[= ->] ->]%ret_inv)|(?&_&?)]; [|done].
  cbn [fst snd] in *. exists u1. rewrite Ec. split; [done|]. rewrite Eu. by destruct (_ !! _).
Qed.

Lemma dispatch_scheduled_gone item u w u' w' (w2 : world B) :
  consumption item u w u' w' → mp_read_only (w_store w2) = false → is_empty owner_id = false →
  durable (durable_state w2) → st_scheduled_work (durable_state w2) !! work_work_id (sched_work item) = None →
  dispatch_scheduled self item w2 = (Ok false, w2).
Proof.
  intros Hc Hro Ho Hd Hn. pose proof Hc as [_ _ _ [C4 C4'] _ _]. unfold dispatch_scheduled.
  rewrite C4, C4', !(proj2 (eqb_of_true _ _) eq_refl). run.
  rewrite (run_attempt _ _ w2 (Ok false) w2); [done|].
  rewrite <-(set_state_same w2) at 2. eapply within_run; [done|done| |].
  - rewrite (run_bind _ _ _ _ _ (in_uow_again _ _ _ _ _ (begin_uow (durable_state w2)) w2 Hc Hn)). done.
  - apply commit_ok; apply Hd.
Qed.

(** Running the transaction of [dispatch_scheduled] leaves the store to the commit. *)
Lemma within_store {A} w0 (body : prog (uow * world B) A) w :
  store_kept w0 body → same_store w0 w → ∀ v, v = w ∨ v = (body (begin_uow (durable_state w), w)).2.2 → same_store w0 v.
Proof. intros Hb Hw v [-> | ->]; [done|]. by apply Hb. Qed.

(** *** The loop of a tick *)

(** Running all the items of a sorted prefix of the agenda consumes them in turn. *)
Lemma execute_due_inv items u w n uw' :
  eng_domain_warehouse self = None → schedule_inv (uow_working u) →
  NoDup ((λ i, work_work_id (sched_work i)) <$> items) →
  (∀ i, i ∈ items → i ∈ items_of owner_id (uow_working u)) →
  execute_due self items (u, w) = (Ok n, uw') →
  n = Z.of_nat (length items) ∧ schedule_inv (uow_working uw'.1) ∧
  st_simulation_positions (uow_working uw'.1) = st_simulation_positions (uow_working u) ∧
  ∀ other, items_of other (uow_working uw'.1)
           = filter (λ i, work_work_id (sched_work i) ∉ (λ i, work_work_id (sched_work i)) <$> items)
               (items_of other (uow_working u)).
Proof.
  intros Hwh. revert u w n. induction items as [|item items IH]; intros u w n Hinv Hnd Hin; cbn [execute_due sum_each].
  - intros [[= ->] ->]%ret_inv. split_and!; try done. intros other. rewrite filter_all; [done|].
    intros i _. apply not_elem_of_nil.
  - intros Hrun. cbn in Hnd. apply NoDup_cons in Hnd as [Hnew Hnd].
    apply bind_inv in Hrun as [(k & [u1 w1] & Hk & Hrun)|(?&_&?)]; [|done].
    apply bind_inv in Hk as [(b & uw1 & Hb & [Ek Euw]%ret_inv)|(?&_&?)]; [|done]. subst uw1.
    apply in_uow_inv in Hb; [|done]. destruct b.
    2:{ destruct Hb as [_ Hb]. exfalso. specialize (Hin item ltac:(constructor)).
        destruct item as [x c]. apply elem_of_items in Hin as ([j Hj] & _ & Hc). cbn in *.
        pose proof (wf_work_key _ (wf_sched _ (durable_wf _ (si_durable _ Hinv))) _ _ Hj) as <-.
        pose proof (wf_commands_key _ (wf_sched _ (durable_wf _ (si_durable _ Hinv))) _ _ Hc) as Ec. cbn in Ec.
        apply (Hb Hj). by rewrite Ec. }
    cbn [fst snd] in *. injection Ek as ->.
    pose proof (consumption_inv item u w u1 w1 Hinv Hb) as (Hinv1 & Hitems & _).
    apply bind_inv in Hrun as [(m & uw2 & Hm & [[= ->] ->]%ret_inv)|(?&_&?)]; [|done].
    apply IH in Hm as (-> & Hinv2 & Hpos & Hrest); [|done|done|].
    + split_and!; [cbn [length]; lia|done|by rewrite Hpos, (consumption_positions item u w u1 w1 Hb)|].
      intros other. rewrite Hrest, Hitems, list_filter_filter. apply list_filter_iff. intros i.
      rewrite fmap_cons, not_elem_of_cons. naive_solver.
    + intros i Hi. rewrite Hitems. apply list_elem_of_filter. split; [|apply Hin; by constructor].
      intros E. apply Hnew, list_elem_of_fmap. by exists i.
Qed.

(** The items due in a tick, and what is left of the agendas without them. *)
Definition due_items (tick_end : datetime) s : list DurableScheduledItem :=
  filter (λ i, work_due_at (sched_work i) ≤ tick_end) (items_of owner_id s).

Lemma due_items_distinct tick_end s :
  schedule_inv s → NoDup ((λ i, work_work_id (sched_work i)) <$> due_items tick_end s).
Proof.
  intros Hinv. eapply sublist_NoDup; [|apply fmap_sublist, sublist_filter].
  apply items_NoDup, (wf_work_key _ (wf_sched _ (durable_wf _ (si_durable _ Hinv)))).
Qed.

(** The identity of a work decides its item. *)
Lemma items_same s o1 o2 i j :
  schedule_inv s → i ∈ items_of o1 s → j ∈ items_of o2 s →
  work_work_id (sched_work i) = work_work_id (sched_work j) → i = j ∧ o1 = o2.
Proof.
  intros Hinv. destruct i as [x c], j as [y d]. intros ([k Hx] & <- & Hc)%elem_of_items ([l Hy] & <- & Hd)%elem_of_items.
  pose proof (wf_work_key _ (wf_sched _ (durable_wf _ (si_durable _ Hinv))) _ _ Hx) as <-.
  pose proof (wf_work_key _ (wf_sched _ (durable_wf _ (si_durable _ Hinv))) _ _ Hy) as <-.
  cbn in *. intros E. rewrite E in Hx. naive_solver.
Qed.

Lemma agenda_left tick_end s other :
  schedule_inv s →
  filter (λ i, work_work_id (sched_work i) ∉ (λ i, work_work_id (sched_work i)) <$> due_items tick_end s) (items_of other s)
  = if eqb_of other owner_id then filter (λ i, ¬ work_due_at (sched_work i) ≤ tick_end) (items_of other s)
    else items_of other s.
Proof.
  intros Hinv. destruct (eqb_of other owner_id) eqn:E.
  - apply (proj1 (eqb_of_true _ _)) in E as ->. apply filter_iff_in. intros i Hi. rewrite list_elem_of_fmap. split.
    + intros Hn Hd. apply Hn. exists i. split; [done|]. by apply list_elem_of_filter.
    + intros Hn (j & E & [Hj Hin]%list_elem_of_filter). by destruct (items_same _ _ _ _ _ Hinv Hi Hin E) as [-> _].
  - apply eqb_of_false in E. apply filter_all. intros i Hi (j & Ej & [_ Hin]%list_elem_of_filter)%list_elem_of_fmap.
    by destruct (items_same _ _ _ _ _ Hinv Hi Hin Ej).
Qed.

(** The transaction of a tick that returns. *)
Lemma tick_body_inv position tick_end tick u w a uw' :
  eng_domain_warehouse self = None → schedule_inv (durable_state w) → mp_read_only (w_store w) = false →
  blank owner_id = false → uow_working u = durable_state w →
  tick_body self position tick_end tick (u, w) = (Ok a, uw') →
  let s := durable_state w in
  let s' := uow_working uw'.1 in
  let n := position_field pos_execution_sequence (st_simulation_positions s !! owner_id)
           + Z.of_nat (length (due_items tick_end s)) in
  schedule_inv s' ∧
  (∀ other, items_of other s'
     = if eqb_of other owner_id then filter (λ i, ¬ work_due_at (sched_work i) ≤ tick_end) (items_of other s)
       else items_of other s) ∧
  st_simulation_positions s' !! owner_id = Some (mkSimulationPosition tick_end n n (tick + 1)) ∧
  st_committed_ticks s' !! owner_id = Some tick.
Proof.
  intros Hwh Hinv Hro Ho Hu Hrun s s' n. unfold tick_body in Hrun.
  apply bind_inv in Hrun as [(before & ? & (u1 & Hg & ->)%on_uow_inv & Hrun)|(?&_&?)]; [|done].
  unfold get_simulation_position, require_owner in Hg.
  apply bind_inv in Hg as [(?&?&[_ ->]%raise_if_inv&[[= ->] ->]%gets_inv)|(?&_&?)]; [|done].
  apply bind_inv in Hrun as [(? & ? & [Hsame ->]%raise_if_inv & Hrun)|(?&_&?)]; [|done].
  destruct (eqb_of _ position) eqn:E; [|done]. apply (proj1 (eqb_of_true _ _)) in E. clear Hsame. cbn [fst snd] in *.
  apply bind_inv in Hrun as [(? & [u2 w2] & [Eu Ew]%save_scenarios_inv & Hrun)|(?&_&?)]; [|done].
  cbn [fst snd] in *. subst w2.
  apply bind_inv in Hrun as [(items & ? & (w3 & Hdue & ->)%on_ctx_inv & Hrun)|(?&_&?)]; [|done].
  cbn [fst snd] in *. rewrite due_run in Hdue by done. injection Hdue as <- <-.
  apply bind_inv in Hrun as [(k & [u3 w4] & Hk & Hrun)|(?&_&?)]; [|done].
  assert (schedule_inv (uow_working u2)) as Hinv2 by (rewrite Eu, Hu; by apply snapshot_inv).
  assert (∀ o, items_of o (uow_working u2) = items_of o s) as Hitems by (intros o; by rewrite Eu, Hu).
  change (filter _ _) with (due_items tick_end s) in Hk.
  apply execute_due_inv in Hk as (-> & Hinv3 & Hpos & Hleft); [|done|done|by apply due_items_distinct|].
  2:{ intros i [_ Hi]%list_elem_of_filter. by rewrite Hitems. }
  apply bind_inv in Hrun as [(? & ? & (u4 & Ht & ->)%on_uow_inv & Hrun)|(?&_&?)]; [|done].
  cbn [fst snd] in *. apply move_to_inv in Hrun as [Eu5 _]. cbn [fst snd] in *.
  unfold set_committed_tick, require_owner, write in Ht.
  apply bind_inv in Ht as [(?&?&[_ ->]%raise_if_inv&[_ ->]%modify_inv)|(?&_&?)]; [|done].
  cbn [fst snd uow_working] in *. unfold s'. rewrite Eu5. split_and!.
  - by apply positioned_inv, ticked_inv.
  - intros other. rewrite <-(agenda_left tick_end s other Hinv), <-Hitems, <-Hleft. done.
  - cbn. rewrite lookup_insert_eq, <-E, Hu. done.
  - cbn. by rewrite lookup_insert_eq.
Qed.
End transactions.

(** ** Properties *)

Section properties.
Context {B Wh : Type} `{!TemporalBackend B, !SchedulingBackend B, !DomainWarehouse Wh}.
Context `{!Uuid5, !Blake2b, !MersenneTwister, !Json, !Sha256, !Hmac}.
Context (self : engine B Wh) `{!QuietCharts (eng_registry self)}.
Abbreviation owner_id := (eng_owner_id self).
Implicit Types (w : world B) (command : Command).

(** C8. [dispatch] is atomic.  When it raises, the store, the clock, the queue
    and the scenarios are as before.  When it returns, one commit has replaced
    the loaded entity by the one its chart left, appended what the chart emitted
    (an attested transition with its receipt) and saved the scenarios as the
    signals of those events left them; no event is left pending. *)
Theorem dispatch_atomic command w r w' :
  eng_domain_warehouse self = None → wf_memory (w_scenarios w) →
  dispatch self command w = (r, w') →
  let s := durable_state w in
  match r with
  | Err _ => same_frame w w' ∧ w_scenarios w' = w_scenarios w
  | Ok _ => ∃ e after v events v',
      cmd_owner_id command = Some owner_id
      ∧ st_entities s !! (cmd_entity_type command, cmd_entity_id command) = Some e
      ∧ send self command e w = (Ok after, v)
      ∧ recorded self e after command (w_pending v) = Ok events
      ∧ signals self (w_pending v) (v <| w_pending := [] |>) = (Ok tt, v')
      ∧ same_frame w v' ∧ w_pending v' = []
      ∧ w' = set_state (executed self after events (w_scenarios v') s) v'
      ∧ (attested self = true →
           w_pending w = [] ∧ ∃ event receipt, events = [event; receipt]
             ∧ match eng_transition_authority self with
               | Some authority => seal authority e after event command = Ok receipt
               | None => False
               end)
  end.
Proof.
  intros Hwh Hm Hrun s. unfold dispatch in Hrun.
  destruct (eqb_of (cmd_owner_id command) (Some owner_id)) eqn:Ho; cbn [negb] in Hrun; autorewrite with run in Hrun.
  2:{ injection Hrun as <- <-. done. }
  apply (proj1 (eqb_of_true _ _)) in Ho.
  apply bind_inv in Hrun as [(r1 & w0 & Ha & Hrun)|(?&(?&?&_)%attempt_inv&_)]; [|done].
  apply attempt_inv in Ha as (r0 & [= ->] & Hin).
  apply within_inv in Hin as [(a & [u' v'] & s' & -> & Hbody & Hc & -> & _)|(e & -> & Hw)].
  - apply ret_inv in Hrun as [-> ->]. apply commit_inv in Hc. cbn [fst snd] in *. subst s'.
    pose proof (execute_frame self w command (begin_uow s, w) (reflexivity _)) as Hf.
    unfold s in Hf. rewrite Hbody in Hf. destruct a.
    apply execute_inv in Hbody as (e & after & v & events & [X1 X2 X3 X4 X5 X6]); [|done]. cbn [fst snd] in *.
    exists e, after, v, events, v'. split_and!; try done.
    + destruct (signals_only self (w_pending v) (v <| w_pending := [] |>)) as [m Hs]. rewrite X4 in Hs. cbn in Hs. by subst v'.
    + by rewrite X5.
    + intros Hat. destruct (X6 Hat) as (Hp & x & Hx & Hn). split; [done|]. rewrite Hx in X3. cbn in X3.
      unfold receipts, attested in *. destruct (eng_transition_authority self) as [authority|]; [|done].
      rewrite Hn in X3. rewrite (proj2 (eqb_of_true _ _) eq_refl) in X3.
      destruct (seal authority e after x command) as [receipt|] eqn:Hs; [|done]. injection X3 as <-. eauto.
  - apply bind_inv in Hrun as [([] & w2 & [_ ->]%modify_inv & [-> ->]%raise_inv)|(?&[? _]%modify_inv&_)]; [|done].
    assert (same_frame w w0) as Hf.
    { destruct Hw as [-> | ->]; [done|]. apply (execute_frame self w command (begin_uow s, w)). done. }
    split; [done|]. by apply snapshot_restored.
Qed.



(** A failed [dispatch] does not take back what its chart emitted before it
    raised: the events stay pending, and the next execution, whose record begins
    with all that is pending, commits them.  ([dispatch_scheduled] and
    [advance_tick] do restore the pending events.) *)
Theorem failed_dispatch_keeps_events command e w x v :
  eng_domain_warehouse self = None → attested self = false → wf_memory (w_scenarios w) →
  mp_read_only (w_store w) = false → is_empty owner_id = false → cmd_owner_id command = Some owner_id →
  st_entities (durable_state w) !! (cmd_entity_type command, cmd_entity_id command) = Some e →
  send self command e w = (Err x, v) →
  dispatch self command w = (Err x, v).
Proof.
  intros Hwh Hat Hm Hro Ho Hc He Hs. unfold dispatch. rewrite Hc, (proj2 (eqb_of_true _ _) eq_refl). run.
  rewrite (run_attempt _ _ w (Err x) v).
  - destruct (send_quiet self command e w) as (_ & _ & F & _). unfold id in F. rewrite Hs in F. cbn in F.
    unfold restore_state. run. rewrite snapshot_restored, <-F by done. by destruct v.
  - unfold within. rewrite Hro, Ho. unfold execute, _load_entity. rewrite Hwh.
    erewrite run_bind by (unfold on_uow, focus; reflexivity). cbn [fst snd uow_working begin_uow]. unfold fork_state.
    rewrite He. run. erewrite run_bind by (unfold on_ctx, focus; reflexivity). rewrite Hat. cbn [andb]. run.
    unfold mbind at 1, prog_bind at 1, on_ctx at 1, focus at 1. cbn [snd]. by rewrite Hs.
Qed.
End properties.

(** *** A door *)

#[local] Existing Instance plain_uuid5.
#[local] Instance plain_blake : Blake2b := λ s, s.
#[local] Instance zero_random : MersenneTwister := λ _, float_of_Z 0.
#[local] Instance empty_json : Json := λ m, Ok "{}".
#[local] Instance plain_sha256 : Sha256 := λ s, s.
#[local] Instance constant_hmac : Hmac := λ _ _, "".

(** A closed door opens; slamming it records the transition and then raises. *)
Definition door_send (listener : string → string → string → prog (Entity * world queue_backend) unit)
    (name : string) (payload : mapping) : prog (Entity * world queue_backend) unit :=
  ew ← gets (λ ew, ew) ;
  raise_if (negb (eqb_of (ent_state ew.1) "closed")) (RuntimeError "TransitionNotAllowed") ;;
  modify (λ ew, (ew.1 <| ent_state := "open" |>, ew.2)) ;;
  listener name "closed" "open" ;;
  raise_if (eqb_of name "slam") (RuntimeError "hinges").

Definition door_class : chart_class queue_backend :=
  mkChartClass "Door" [] None (λ e, mkChartView None (Some (ent_state e)) None) door_send.

Definition doors : registry queue_backend := {[ "door" := door_class ]}.

#[local] Instance doors_quiet : QuietCharts doors.
Proof.
  intros t c listener name payload Hc Hl.
  change (({["door" := door_class]} : gmap string (chart_class queue_backend)) !! t = Some c) in Hc.
  apply lookup_singleton_Some in Hc as [_ <-]. cbn. unfold door_send.
  apply quiet_bind; [done|]. intros ew. apply quiet_bind; [done|]. intros _. apply quiet_bind; [done|].
  intros _. apply quiet_bind; [apply Hl|]. intros _. done.
Qed.

Definition porter : engine queue_backend memory_warehouse :=
  mkEngine "sim" doors (λ _, []) ∅ 7 None None.

Definition closed_state : state := empty_state <| st_entities := {[ ("door", "d1") := closed_door ]} |>.
Definition hallway : world queue_backend :=
  fresh_world (mkPersistence closed_state false) (new_queue_backend 0) (mkClock 0 30 0).
Definition door_command (id name : string) (at_ : datetime) : Command :=
  mkCommand id name "door" "d1" at_ None None ∅ None None (Some "sim").

Lemma hallway_inv : schedule_inv (durable_state hallway).
Proof. destruct empty_schedule_inv as [[[[] [] [] [] []] ??] Hc Hu]. repeat constructor; assumption. Qed.

Lemma dispatch_atomic_witness :
  let w' := (dispatch porter (door_command "c1" "open" 0) hallway).2 in
  w_pending w' = [] ∧ ∃ e after v events,
    send porter (door_command "c1" "open" 0) e hallway = (Ok after, v)
    ∧ durable_state w' = executed porter after events (w_scenarios w') (durable_state hallway).
Proof.
  assert (dispatch porter (door_command "c1" "open" 0) hallway
          = (Ok tt, (dispatch porter (door_command "c1" "open" 0) hallway).2)) as E.
  { apply pair_fst. vm_compute. reflexivity. }
  destruct (dispatch_atomic porter (door_command "c1" "open" 0) hallway (Ok tt) _ eq_refl fresh_memory E)
    as (e & after & v & events & v' & _ & _ & Hs & _ & _ & _ & Hp & Ew & _).
  cbv zeta. rewrite Ew. split; [exact Hp|]. exists e, after, v, events. split; [exact Hs|reflexivity].
Defined.

(** The work "c2" is due in the first tick, "c3" in the second. *)
Definition agenda_of_doors : list (schedule_action (B:=queue_backend)) :=
  [Schedule "sim" (door_command "c2" "open" 20) 100; Schedule "sim" (door_command "c3" "slam" 40) 100].
Definition waiting_hallway : world queue_backend := run_actions agenda_of_doors hallway.
Definition opening : DurableScheduledItem :=
  mkDurableScheduledItem (work_of "sim" (door_command "c2" "open" 20) 100 (durable_state hallway))
    (door_command "c2" "open" 20).

Lemma waiting_inv : schedulable_store waiting_hallway.
Proof. apply run_actions_keeps. split; [exact hallway_inv|reflexivity]. Qed.



(** The slammed door stays closed in the store, but its transition is committed
    by the command that opens it later. *)
Definition slammed : world queue_backend := (dispatch porter (door_command "c4" "slam" 0) hallway).2.

Lemma failed_dispatch_keeps_events_witness :
  dispatch porter (door_command "c4" "slam" 0) hallway
  = (Err (RuntimeError "hinges"), (send porter (door_command "c4" "slam" 0) closed_door hallway).2)
  ∧ durable_state slammed = closed_state
  ∧ (dispatch porter (door_command "c5" "open" 0) slammed).1 = Ok tt
  ∧ (λ e, (ev_causation_id e, ev_payload e !! "trigger"))
      <$> st_events (durable_state (dispatch porter (door_command "c5" "open" 0) slammed).2)
    = [(Some "c4", Some (PStr "slam")); (Some "c5", Some (PStr "open"))].
Proof.
  split; [|split; [|split]].
  - apply (failed_dispatch_keeps_events porter (door_command "c4" "slam" 0) closed_door hallway);
      [reflexivity|reflexivity|exact fresh_memory|reflexivity..|apply pair_fst; vm_compute; reflexivity].
  - vm_compute. reflexivity.
  - vm_compute. reflexivity.
  - vm_compute. reflexivity.
Defined.
