(* ===== verification/Boundary.v ===== *)
(** * The boundary between simulations

    [src/src/sose/composition/]: messages published by one domain are leased by
    workers of another, consumed with a fencing epoch and acknowledged in the
    transaction that applies their effect ([boundary.py], [model.py]); an effect
    that reaches its terminal state is certified ([effects.py]).  A handler is
    the consuming domain's code: a program on the unit of work of the
    acknowledgement.  [json.dumps], [json.loads] and SHA-256 are parameters. *)
From S2P Require Import Prelude Encoding Records Memory MemoryFacts World QueueBackend.
From stdpp Require Import pretty.
Open Scope string_scope.
Open Scope Z_scope.

(** ** [composition/model.py] *)

(** [json.dumps(dict(payload), sort_keys=True, separators=(",", ":"),
    ensure_ascii=False, allow_nan=False)], [json.loads] and
    [sha256(encoded.encode("utf-8")).hexdigest()]. *)
Class JsonText := {
  json_dumps : mapping → res string;
  json_loads : string → res pyobj;
  payload_digest : string → string }.

(** The text and the payload it came from, as a [Mapping]; [None] for a value
    that is not one. *)
Definition as_mapping (v : pyobj) : option mapping :=
  match v with
  | PMap items =>
    foldr (λ kv m, match kv.1, m with PStr k, Some m => Some (<[k := kv.2]> m) | _, _ => None end)
      (Some ∅) (reverse items)
  | _ => None
  end.

(** [str(v)] of a decoded value; [repr] of a number with a fraction, of a list
    and of an object is a parameter. *)
Class PyRepr := py_repr : pyobj → string.
Definition py_str `{!PyRepr} (v : pyobj) : string :=
  match v with
  | PStr s => s
  | PInt z => pretty z
  | PBool true => "True"
  | PBool false => "False"
  | PNone => "None"
  | v => py_repr v
  end.

Section model.
Context `{!Uuid5, !JsonText}.

Definition _canonical_payload (payload : mapping) : res (string * string) :=
  match json_dumps payload with
  | Ok encoded => Ok (encoded, payload_digest encoded)
  | Err _ => Err (TypeError "boundary payload must be canonical JSON")
  end.

(** [BoundaryMessage.__post_init__]. *)
Definition BoundaryMessage_new (m : BoundaryMessage) : res BoundaryMessage :=
  fail_if (existsb is_empty [bmsg_message_id m; bmsg_contract_name m; bmsg_source_domain m;
             bmsg_source_identity m; bmsg_destination_domain m; bmsg_occurrence_key m;
             bmsg_correlation_id m; bmsg_payload_json m; bmsg_payload_hash m])
    (ValueError "boundary message field cannot be empty") ;;
  fail_if (bmsg_contract_version m <=? 0) (ValueError "contract_version must be positive") ;;
  fail_if (negb (existsb (eqb_of (bmsg_causation_kind m)) [None; Some "boundary"; Some "event"]))
    (ValueError "unsupported causal reference kind") ;;
  fail_if (match bmsg_causation_kind m, bmsg_causation_id m with
           | Some _, Some c => is_empty c
           | Some _, None => true
           | None, _ => false
           end)
    (ValueError "typed causation requires a nonempty causation_id") ;;
  decoded ← match json_loads (bmsg_payload_json m) with
            | Ok v => Ok v
            | Err _ => Err (ValueError "payload_json must contain valid JSON")
            end ;
  payload ← match as_mapping decoded with
            | Some d => Ok d
            | None => Err (TypeError "boundary payload must be a mapping")
            end ;
  canonical ← _canonical_payload payload ;
  fail_if (negb (eqb_of canonical.1 (bmsg_payload_json m)))
    (ValueError "payload_json must use canonical encoding") ;;
  fail_if (negb (eqb_of canonical.2 (bmsg_payload_hash m)))
    (ValueError "payload_hash does not match payload_json") ;;
  mret m.

Definition BoundaryMessage_create (contract_name : string) (contract_version : Z)
    (source_domain source_identity destination_domain occurrence_key correlation_id : string)
    (causation_id : option string) (produced_at : datetime) (causation_kind : option string)
    (payload : mapping) : res BoundaryMessage :=
  canonical ← _canonical_payload payload ;
  BoundaryMessage_new
    (mkBoundaryMessage
       (deterministic_id "boundary-message"
          [PStr source_domain; PStr source_identity; PStr contract_name; PInt contract_version;
           PStr destination_domain; PStr occurrence_key])
       contract_name contract_version source_domain source_identity destination_domain occurrence_key
       correlation_id causation_id produced_at canonical.1 canonical.2 causation_kind).

Definition contract_key (m : BoundaryMessage) : string :=
  bmsg_contract_name m +:+ ".v" +:+ pretty (bmsg_contract_version m).

Definition payload (m : BoundaryMessage) : res mapping :=
  decoded ← json_loads (bmsg_payload_json m) ;
  match as_mapping decoded with
  | Some d => Ok d
  | None => Err (TypeError "boundary payload must decode to an object")
  end.

(** [BoundaryDelivery.__post_init__]. *)
Definition BoundaryDelivery_new (d : BoundaryDelivery) : res BoundaryDelivery :=
  fail_if (is_empty (bdel_delivery_id d) || is_empty (bdel_message_id d))
    (ValueError "boundary delivery identity cannot be empty") ;;
  fail_if (is_empty (bdel_destination_domain d) || is_empty (bdel_contract_name d))
    (ValueError "boundary delivery contract cannot be empty") ;;
  fail_if (bdel_contract_version d <=? 0) (ValueError "contract_version must be positive") ;;
  fail_if ((bdel_attempts d <? 0) || (bdel_claim_epoch d <? 0))
    (ValueError "delivery counters must be non-negative") ;;
  match bdel_status d with
  | PENDING =>
    fail_if (negb (bool_decide (bdel_claim_owner_id d = None ∧ bdel_claimed_at d = None
                                ∧ bdel_lease_expires_at d = None ∧ bdel_consumed_at d = None
                                ∧ bdel_consumer_effect_id d = None)))
      (ValueError "pending delivery cannot carry claim/consumption state")
  | CLAIMED =>
    fail_if (match bdel_claim_owner_id d with Some o => is_empty o | None => true end
             || bool_decide (bdel_claimed_at d = None) || bool_decide (bdel_lease_expires_at d = None))
      (ValueError "claimed delivery requires owner and lease") ;;
    fail_if (bdel_claim_epoch d <=? 0) (ValueError "claimed delivery requires positive fencing epoch") ;;
    fail_if (negb (bool_decide (bdel_consumed_at d = None ∧ bdel_consumer_effect_id d = None)))
      (ValueError "claimed delivery cannot be consumed")
  | CONSUMED =>
    fail_if (bool_decide (bdel_consumed_at d = None)
             || match bdel_consumer_effect_id d with Some e => is_empty e | None => true end)
      (ValueError "consumed delivery requires effect and timestamp")
  end ;;
  mret d.

Definition delivery_id_of (m : BoundaryMessage) : string :=
  deterministic_id "boundary-delivery"
    [PStr (bmsg_message_id m); PStr (bmsg_destination_domain m); PStr (bmsg_contract_name m);
     PInt (bmsg_contract_version m)].

(** [BoundaryDelivery.pending]. *)
Definition new_delivery (m : BoundaryMessage) : BoundaryDelivery :=
  mkBoundaryDelivery (delivery_id_of m) (bmsg_message_id m) (bmsg_destination_domain m)
    (bmsg_contract_name m) (bmsg_contract_version m) PENDING 0 None 0 None None None None None.
Definition pending (m : BoundaryMessage) : res BoundaryDelivery := BoundaryDelivery_new (new_delivery m).

Record BoundaryLease := mkBoundaryLease {
  lse_delivery_id : string;
  lse_message_id : string;
  lse_owner_id : string;
  lse_epoch : Z;
  lse_lease_expires_at : datetime }.

Definition BoundaryLease_new (l : BoundaryLease) : res BoundaryLease :=
  fail_if (is_empty (lse_delivery_id l) || is_empty (lse_message_id l) || is_empty (lse_owner_id l))
    (ValueError "boundary lease identity cannot be empty") ;;
  fail_if (lse_epoch l <=? 0) (ValueError "boundary lease epoch must be positive") ;;
  mret l.

(** [BoundaryConsumption.create]. *)
Definition BoundaryConsumption_create (d : BoundaryDelivery) (effect_id : string) (at_ : datetime) :
    res BoundaryConsumption :=
  let c := mkBoundaryConsumption
    (deterministic_id "boundary-consumption"
       [PStr (bdel_delivery_id d); PStr (bdel_message_id d); PStr (bdel_destination_domain d);
        PStr (bdel_contract_name d); PInt (bdel_contract_version d)])
    (bdel_delivery_id d) (bdel_message_id d) (bdel_destination_domain d) (bdel_contract_name d)
    (bdel_contract_version d) effect_id at_ in
  fail_if (is_empty (bcon_consumption_id c) || is_empty (bcon_delivery_id c) || is_empty (bcon_message_id c))
    (ValueError "boundary consumption identity cannot be empty") ;;
  fail_if (is_empty effect_id) (ValueError "consumer_effect_id cannot be empty") ;;
  mret c.
End model.

#[export] Instance BoundaryDelivery_eta : Eta BoundaryDelivery := λ d,
  mkBoundaryDelivery (bdel_delivery_id d) (bdel_message_id d) (bdel_destination_domain d) (bdel_contract_name d)
    (bdel_contract_version d) (bdel_status d) (bdel_attempts d) (bdel_claim_owner_id d) (bdel_claim_epoch d)
    (bdel_claimed_at d) (bdel_lease_expires_at d) (bdel_consumed_at d) (bdel_consumer_effect_id d) (bdel_last_error d).

#[export] Instance SimulationJobState_eta : Eta SimulationJobState := λ j,
  mkSimulationJobState (job_job_id j) (job_domain_name j) (job_config_json j) (job_config_revision j) (job_status j)
    (job_initialized j) (job_logical_time j) (job_next_tick j) (job_run_count j) (job_bootstrap_state j)
    (job_last_triggered_at j) (job_active_trigger_id j) (job_last_completed_trigger_id j)
    (job_active_batch_trigger_id j) (job_active_batch_total_ticks j) (job_active_batch_completed_ticks j)
    (job_last_completed_batch_trigger_id j) (job_last_completed_batch_ticks j) (job_completed_batch_triggers j)
    (job_phase j) (job_last_error j) (job_active_effect_ids j) (job_active_boundary_message_ids j)
    (job_active_publication_message_ids j).

(** ** [BoundaryConsumerRegistry] *)

(** [BoundaryHandler]: it returns the identity of the effect. *)
Definition handler := BoundaryMessage → uprog string.

(** [_handlers], by source (or any), destination, contract and version. *)
Definition consumer_key : Type := option string * (string * string * Z).
Definition registry := gmap consumer_key handler.

Definition StaleBoundaryClaimError (msg : string) : exn := RuntimeError msg.
Definition UnsupportedBoundaryContractError (msg : string) : exn := KeyError msg.

Definition register (destination_domain contract_name : string) (contract_version : Z) (h : handler)
    (source_domain : option string) (r : registry) : res registry :=
  fail_if (match source_domain with Some s => blank s | None => false end)
    (ValueError "source_domain must be nonempty") ;;
  fail_if (contract_version <? 1) (ValueError "contract_version must be a positive integer") ;;
  fail_if (is_empty destination_domain || is_empty contract_name) (ValueError "invalid boundary consumer contract") ;;
  let key := (source_domain, (destination_domain, contract_name, contract_version)) in
  fail_if (present key r) (ValueError ("boundary consumer already registered: " +:+ contract_name)) ;;
  mret (<[key := h]> r).

Definition contracts_for (destination_domain : string) (r : registry) : gset (string * Z) :=
  list_to_set (omap (λ k : consumer_key, let '(_, (d, name, version)) := k in
    if eqb_of d destination_domain then Some (name, version) else None) (elements (dom r))).

Definition contracts_for_source (source_domain destination_domain : string) (r : registry) : gset (string * Z) :=
  list_to_set (omap (λ k : consumer_key, let '(s, (d, name, version)) := k in
    if eqb_of s (Some source_domain) && eqb_of d destination_domain then Some (name, version) else None)
    (elements (dom r))).

Section service.
Context `{!Uuid5, !JsonText}.

Definition resolve (r : registry) (m : BoundaryMessage) : res handler :=
  let contract := (bmsg_destination_domain m, bmsg_contract_name m, bmsg_contract_version m) in
  match r !! (Some (bmsg_source_domain m), contract) with
  | Some h => Ok h
  | None =>
    fail_if (existsb (λ k, negb (bool_decide (k.1 = None)) && eqb_of k.2 contract) (elements (dom r)))
      (UnsupportedBoundaryContractError ("unsupported producer boundary contract: " +:+ contract_key m)) ;;
    match r !! (None, contract) with
    | Some h => Ok h
    | None => Err (UnsupportedBoundaryContractError ("unsupported boundary contract: " +:+ contract_key m))
    end
  end.

(** ** [BoundaryService] *)

(** The loop of [_validate_causation]: [visited] grows until the ancestry ends,
    at an unknown message or an event, or closes a cycle. *)
Fixpoint follow_causes (fuel : nat) (m : BoundaryMessage) (visited : list string) (cursor kind : option string) :
    uprog unit :=
  match cursor, fuel with
  | None, _ => mret tt
  | Some _, O => raise (RuntimeError "out of fuel")
  | Some c, S fuel =>
    if eqb_of kind (Some "event") then
      event ← get_event c ;
      match event with
      | None => raise (ValueError ("missing durable domain event cause: " +:+ c))
      | Some event =>
        raise_if (negb (eqb_of (ev_correlation_id event) (Some (bmsg_correlation_id m))))
          (ValueError "domain event causation correlation mismatch") ;;
        raise_if (bmsg_produced_at m <? ev_occurred_at event)
          (ValueError "boundary causal logical time precedes domain event")
      end
    else
      raise_if (bool_decide (c ∈ visited)) (ValueError "boundary causal cycle detected") ;;
      predecessor ← get_boundary_message c ;
      match predecessor with
      | None => mret tt
      | Some p =>
        raise_if (negb (eqb_of (bmsg_correlation_id p) (bmsg_correlation_id m)))
          (ValueError "boundary causation correlation mismatch") ;;
        raise_if (bmsg_produced_at m <? bmsg_produced_at p)
          (ValueError "boundary causal logical time precedes predecessor") ;;
        follow_causes fuel m (c :: visited) (bmsg_causation_id p) (bmsg_causation_kind p)
      end
  end.

(** Every turn but the last visits a message of the store. *)
Definition causation_fuel (s : state) : nat := S (size (st_boundary_messages s)).

Definition _validate_causation (m : BoundaryMessage) : uprog unit :=
  s ← working ;
  follow_causes (causation_fuel s) m [bmsg_message_id m] (bmsg_causation_id m) (bmsg_causation_kind m).

Definition _validate_existing_descendants (m : BoundaryMessage) : uprog unit :=
  deliveries ← uow_boundary_deliveries ;
  for_each deliveries (λ delivery,
    child ← get_boundary_message (bdel_message_id delivery) ;
    match child with
    | None => mret tt
    | Some child =>
      if eqb_of (bmsg_causation_kind child) (Some "event")
         || negb (eqb_of (bmsg_causation_id child) (Some (bmsg_message_id m)))
      then mret tt else
      raise_if (negb (eqb_of (bmsg_correlation_id child) (bmsg_correlation_id m)))
        (ValueError "boundary causation correlation mismatch") ;;
      raise_if (bmsg_produced_at child <? bmsg_produced_at m)
        (ValueError "boundary causal logical time precedes predecessor") ;;
      raise_if (eqb_of (bdel_status delivery) CONSUMED)
        (ValueError "causal descendant already consumed before predecessor")
    end).

(** The contracts whose effects are certified ([_CERTIFIED_TERMINALS] of
    [effects.py]): command, target type, terminal state, contract, source,
    destination, identity field of the payload. *)
Record terminal := mkTerminal {
  trm_command : string;
  trm_type : string;
  trm_state : string;
  trm_contract : string;
  trm_source : string;
  trm_destination : string;
  trm_field : string }.

Definition _CERTIFIED_TERMINALS : list terminal :=
  [mkTerminal "composition.deliver_shipment" "shipment" "delivered" "warehouse.dispatch_ready.v1"
     "warehouse_fulfillment" "logistics" "shipment_id";
   mkTerminal "composition.complete_external_fulfillment" "sales_order" "invoiced"
     "logistics.delivery_completed.v1" "logistics" "order_to_cash" "order_id";
   mkTerminal "composition.settle_customer_payment" "card_payment" "settled" "o2c.payment_requested.v1"
     "order_to_cash" "cards_payments" "payment_id";
   mkTerminal "composition.post_customer_journal" "journal_entry" "posted" "accounting.entry_requested.v1"
     "cards_payments" "record_to_report" "journal_id";
   mkTerminal "composition.post_replenishment_journal" "journal_entry" "posted" "accounting.entry_requested.v1"
     "procure_to_pay" "record_to_report" "journal_id"].

(** The certificate that a typed parent of a certified contract must have. *)
Definition predecessor_certified (predecessor : BoundaryMessage) (effect_id : string) : uprog bool :=
  proof ← get_business_effect effect_id ;
  match proof with
  | None => mret false
  | Some proof =>
    raise_if (negb (eqb_of (bea_effect_id proof) effect_id)
              || negb (eqb_of (bea_boundary_message_id proof) (bmsg_message_id predecessor))
              || negb (eqb_of (bea_correlation_id proof) (bmsg_correlation_id predecessor)))
      (RuntimeError "typed causal predecessor certificate contradicts ACK") ;;
    entity ← get_entity (bea_entity_type proof) (bea_entity_id proof) ;
    raise_if (match entity with
              | None => true
              | Some e => (ent_version e <? bea_entity_version proof)
                          || negb (eqb_of (ent_state e) (bea_terminal_state proof))
              end)
      (RuntimeError "typed causal predecessor certificate lacks durable terminal state") ;;
    mret true
  end.

Definition _causal_predecessor_applied (m : BoundaryMessage) : uprog bool :=
  _validate_causation m ;;
  if eqb_of (bmsg_causation_kind m) (Some "event") then mret true else
  predecessor ← match bmsg_causation_id m with Some p => get_boundary_message p | None => mret None end ;
  match predecessor with
  | None => mret (bool_decide (bmsg_causation_kind m = None))
  | Some predecessor =>
    expected ← lift (pending predecessor) ;
    delivery ← get_boundary_delivery (bdel_delivery_id expected) ;
    match delivery with
    | None => mret false
    | Some delivery =>
      if negb (eqb_of (bdel_status delivery) CONSUMED) then mret false else
      consumption ← get_boundary_consumption (bdel_delivery_id delivery) ;
      match consumption with
      | None => raise (RuntimeError ("consumed causal predecessor lacks consumption: " +:+ bdel_delivery_id delivery))
      | Some consumption =>
        staged ← get_command (bcon_consumer_effect_id consumption) ;
        match staged with
        | Some _ => mret false
        | None =>
          if eqb_of (bmsg_causation_kind m) (Some "boundary")
             && existsb (λ t, eqb_of (trm_contract t) (contract_key predecessor)) _CERTIFIED_TERMINALS
          then predecessor_certified predecessor (bcon_consumer_effect_id consumption)
          else mret true
        end
      end
    end
  end.

(** The enrolment of a recovery publication in its job. *)
Definition enrol_publication (m : BoundaryMessage) (recovery_job_id : option string) : uprog unit :=
  match recovery_job_id with
  | None => mret tt
  | Some id =>
    job ← get_job_state id ;
    match job with
    | None => raise (RuntimeError "recovery publication lost its active recurring trigger")
    | Some job =>
      raise_if (bool_decide (job_active_trigger_id job = None))
        (RuntimeError "recovery publication lost its active recurring trigger") ;;
      raise_if (bool_decide (bmsg_message_id m ∈ job_active_publication_message_ids job))
        (RuntimeError "enrolled recovery publication is missing its message") ;;
      save_job_state (job <| job_active_publication_message_ids ::= λ l, (l ++ [bmsg_message_id m])%list |>)
    end
  end.

Definition publish_body (m : BoundaryMessage) (recovery_job_id : option string) (delivery : BoundaryDelivery) :
    uprog BoundaryDelivery :=
  _validate_causation m ;;
  existing_message ← get_boundary_message (bmsg_message_id m) ;
  raise_if (conflicts eqb_of existing_message m)
    (ValueError ("boundary message identity conflict: " +:+ bmsg_message_id m)) ;;
  match existing_message with
  | Some _ => mret tt
  | None =>
    _validate_existing_descendants m ;;
    enrol_publication m recovery_job_id ;;
    save_boundary_message m
  end ;;
  existing_delivery ← get_boundary_delivery (bdel_delivery_id delivery) ;
  match existing_delivery with
  | Some e =>
    raise_if (negb (eqb_of (bdel_message_id e) (bmsg_message_id m))
              || negb (eqb_of (bdel_destination_domain e) (bmsg_destination_domain m))
              || negb (eqb_of (bdel_contract_name e) (bmsg_contract_name m))
              || negb (bdel_contract_version e =? bmsg_contract_version m))
      (ValueError ("boundary delivery identity conflict: " +:+ bdel_delivery_id delivery)) ;;
    mret e
  | None => save_boundary_delivery delivery ;; mret delivery
  end.

Abbreviation P := (prog persistence).

Definition publish (m : BoundaryMessage) (recovery_job_id : option string) : P BoundaryDelivery :=
  delivery ← lift (pending m) ;
  transaction None (publish_body m recovery_job_id delivery).

Definition delivery (delivery_id : string) : P (option BoundaryDelivery) :=
  transaction None (get_boundary_delivery delivery_id).
Definition consumption (delivery_id : string) : P (option BoundaryConsumption) :=
  transaction None (get_boundary_consumption delivery_id).

(** The filters of a claim. *)
Record claim_scope := mkClaimScope {
  csc_destination_domain : option string;
  csc_accepted_contracts : option (gset (string * Z));
  csc_message_id : option string;
  csc_correlation_id : option string }.

(** [x is not None and not x]. *)
Definition given_empty (x : option string) : bool := match x with Some s => is_empty s | None => false end.

Definition check_claim (owner_id : string) (lease_duration : Z) (sc : claim_scope) : res unit :=
  fail_if (blank owner_id) (ValueError "owner_id must be a nonblank string") ;;
  fail_if (given_empty (csc_destination_domain sc)) (ValueError "destination_domain must be nonempty when specified") ;;
  fail_if (given_empty (csc_message_id sc)) (ValueError "message_id must be nonempty when specified") ;;
  fail_if (given_empty (csc_correlation_id sc)) (ValueError "correlation_id must be nonempty when specified") ;;
  fail_if (lease_duration <=? 0) (ValueError "lease_duration must be positive") ;;
  fail_if (match csc_accepted_contracts sc with
           | Some l => existsb (λ nv, is_empty nv.1 || (nv.2 <=? 0)) (elements l)
           | None => false
           end)
    (ValueError "accepted_contracts requires nonempty names and positive versions").

(** [x is not None and y != x]. *)
Definition excludes (x : option string) (y : string) : bool :=
  match x with Some x => negb (eqb_of y x) | None => false end.

(** The tests of a delivery that need no other record. *)
Definition out_of_scope (sc : claim_scope) (now : datetime) (d : BoundaryDelivery) : bool :=
  excludes (csc_message_id sc) (bdel_message_id d)
  || excludes (csc_destination_domain sc) (bdel_destination_domain d)
  || match csc_accepted_contracts sc with
     | Some l => negb (bool_decide ((bdel_contract_name d, bdel_contract_version d) ∈ l))
     | None => false
     end
  || eqb_of (bdel_status d) CONSUMED
  || (eqb_of (bdel_status d) CLAIMED
      && match bdel_lease_expires_at d with Some t => now <? t | None => false end).

(** One turn of the loop: the candidate, with the time of its message. *)
Definition candidate (sc : claim_scope) (now : datetime) (d : BoundaryDelivery) :
    uprog (list (datetime * BoundaryDelivery)) :=
  if out_of_scope sc now d then mret [] else
  message ← get_boundary_message (bdel_message_id d) ;
  match message with
  | None => raise (RuntimeError ("boundary delivery missing message: " +:+ bdel_delivery_id d))
  | Some message =>
    if excludes (csc_correlation_id sc) (bmsg_correlation_id message) then mret [] else
    applied ← _causal_predecessor_applied message ;
    if negb applied then mret [] else mret [(bmsg_produced_at message, d)]
  end.

Definition candidates (sc : claim_scope) (now : datetime) : uprog (list (datetime * BoundaryDelivery)) :=
  deliveries ← uow_boundary_deliveries ;
  collect deliveries (candidate sc now).

Definition candidate_key (c : datetime * BoundaryDelivery) : Z * string := (c.1, bdel_delivery_id c.2).

(** [replace(current, ...)] of a claim and of an acknowledgement. *)
Definition claimed (d : BoundaryDelivery) (owner_id : string) (now : datetime) (lease_duration : Z) :
    BoundaryDelivery :=
  d <| bdel_status := CLAIMED |> <| bdel_attempts ::= λ n, n + 1 |> <| bdel_claim_owner_id := Some owner_id |>
    <| bdel_claim_epoch ::= λ n, n + 1 |> <| bdel_claimed_at := Some now |>
    <| bdel_lease_expires_at := Some (now + lease_duration) |> <| bdel_consumed_at := None |>
    <| bdel_consumer_effect_id := None |> <| bdel_last_error := None |>.

Definition acknowledged (d : BoundaryDelivery) (effect_id : string) (now : datetime) : BoundaryDelivery :=
  d <| bdel_status := CONSUMED |> <| bdel_consumed_at := Some now |> <| bdel_consumer_effect_id := Some effect_id |>.

Definition lease_of (d : BoundaryDelivery) (owner_id : string) (expires_at : datetime) : BoundaryLease :=
  mkBoundaryLease (bdel_delivery_id d) (bdel_message_id d) owner_id (bdel_claim_epoch d) expires_at.

(** The lease of the first candidate. *)
Definition grant (current : BoundaryDelivery) (owner_id : string) (now : datetime) (lease_duration : Z) :
    uprog BoundaryLease :=
  next ← lift (BoundaryDelivery_new (claimed current owner_id now lease_duration)) ;
  save_boundary_delivery next ;;
  lift (BoundaryLease_new (lease_of next owner_id (now + lease_duration))).

Definition claim_body (owner_id : string) (now : datetime) (lease_duration : Z) (sc : claim_scope) :
    uprog (option BoundaryLease) :=
  found ← candidates sc now ;
  match head (sort_on candidate_key found) with
  | None => mret None
  | Some (_, current) =>
    lease ← grant current owner_id now lease_duration ;
    mret (Some lease)
  end.

Definition claim_next (owner_id : string) (now : datetime) (lease_duration : Z) (sc : claim_scope) :
    P (option BoundaryLease) :=
  lift (check_claim owner_id lease_duration sc) ;;
  transaction None (claim_body owner_id now lease_duration sc).

Definition _assert_current_claim (current : BoundaryDelivery) (lease : BoundaryLease) (now : datetime) : res unit :=
  fail_if (negb (eqb_of (bdel_status current) CLAIMED))
    (StaleBoundaryClaimError ("boundary delivery is not claimed: " +:+ bdel_delivery_id current)) ;;
  fail_if (negb (eqb_of (bdel_message_id current) (lse_message_id lease))
           || negb (eqb_of (bdel_claim_owner_id current) (Some (lse_owner_id lease)))
           || negb (bdel_claim_epoch current =? lse_epoch lease))
    (StaleBoundaryClaimError ("stale boundary claim: " +:+ bdel_delivery_id current)) ;;
  fail_if (match bdel_claimed_at current with Some t => now <? t | None => true end)
    (StaleBoundaryClaimError ("boundary claim clock regressed: " +:+ bdel_delivery_id current)) ;;
  fail_if (match bdel_lease_expires_at current with Some t => t <=? now | None => true end)
    (StaleBoundaryClaimError ("expired boundary claim: " +:+ bdel_delivery_id current)).

Definition consume_body (lease : BoundaryLease) (r : registry) (now : datetime) : uprog BoundaryConsumption :=
  current ← get_boundary_delivery (lse_delivery_id lease) ;
  match current with
  | None => raise (KeyError ("unknown boundary delivery: " +:+ lse_delivery_id lease))
  | Some current =>
    existing ← get_boundary_consumption (bdel_delivery_id current) ;
    if eqb_of (bdel_status current) CONSUMED then
      match existing with
      | Some c => mret c
      | None => raise (RuntimeError ("consumed delivery lacks consumption record: " +:+ bdel_delivery_id current))
      end
    else
      lift (_assert_current_claim current lease now) ;;
      message ← get_boundary_message (bdel_message_id current) ;
      match message with
      | None => raise (RuntimeError ("boundary delivery missing message: " +:+ bdel_delivery_id current))
      | Some message =>
        applied ← _causal_predecessor_applied message ;
        raise_if (negb applied)
          (StaleBoundaryClaimError ("causal predecessor not applied: " +:+ bdel_delivery_id current)) ;;
        h ← lift (resolve r message) ;
        effect_id ← h message ;
        raise_if (blank effect_id) (ValueError "boundary consumer effect identity must be a nonblank string") ;;
        c ← lift (BoundaryConsumption_create current effect_id now) ;
        raise_if (conflicts eqb_of existing c)
          (ValueError ("boundary consumption identity conflict: " +:+ bdel_delivery_id current)) ;;
        match existing with None => save_boundary_consumption c | Some _ => mret tt end ;;
        next ← lift (BoundaryDelivery_new (acknowledged current effect_id now)) ;
        save_boundary_delivery next ;;
        mret c
      end
  end.

Definition consume (lease : BoundaryLease) (r : registry) (now : datetime) : P BoundaryConsumption :=
  transaction None (consume_body lease r now).

(** ** [BusinessEffectService] *)

(** The deliveries of the cause that were acknowledged with this effect. *)
Definition accepted_receipt (causation_id effect_id : string) (d : BoundaryDelivery) :
    uprog (list BoundaryDelivery) :=
  if negb (eqb_of (bdel_message_id d) causation_id) then mret [] else
  consumed ← get_boundary_consumption (bdel_delivery_id d) ;
  mret (match consumed with
        | Some c => if eqb_of (bcon_consumer_effect_id c) effect_id
                       && eqb_of (bdel_consumer_effect_id d) (Some effect_id)
                       && eqb_of (bdel_status d) CONSUMED
                    then [d] else []
        | None => []
        end).

(** [receivable_id] of [examples/order_to_cash/simulation.py]. *)
Definition receivable_id (order_id : string) : string :=
  deterministic_id "entity" [PStr "receivable"; PStr "o2c-reference"; PStr order_id; PStr "receivable"].

(** The open receivable behind an invoiced order. *)
Definition receivable_inconsistent (receivable : option Entity) (order : Entity) (order_id : string) : bool :=
  let get e k := default PNone (ent_attributes e !! k) in
  match receivable with
  | None => true
  | Some r => negb (eqb_of (ent_state r) "open")
              || negb (eqb_of (get r "order_id") (PStr order_id))
              || negb (eqb_of (get r "amount") (get order "amount"))
              || negb (eqb_of (get r "currency") (get order "currency"))
  end.

Definition certificate (effect_id : string) (message : BoundaryMessage) (e : Entity) (at_ : datetime) :
    BusinessEffectApplied :=
  mkBusinessEffectApplied (deterministic_id "business-effect-applied" [PStr effect_id]) effect_id
    (bmsg_message_id message) (bmsg_correlation_id message) (ent_entity_type e) (ent_id e) (ent_state e)
    (ent_version e) at_.

Definition BusinessEffectApplied_new (b : BusinessEffectApplied) : res BusinessEffectApplied :=
  fail_if (existsb is_empty [bea_receipt_id b; bea_effect_id b; bea_boundary_message_id b; bea_correlation_id b;
             bea_entity_type b; bea_entity_id b; bea_terminal_state b])
    (ValueError "business-effect certificate requires all identities") ;;
  fail_if (bea_entity_version b <? 0) (ValueError "business-effect certificate version must be non-negative") ;;
  mret b.

(** [not x] of an optional identity. *)
Definition missing (x : option string) : bool := match x with Some s => is_empty s | None => true end.

(** The certificate of the pending command, and the command's retirement. *)
Definition certify `{!PyRepr} (effect_id : string) (completed_at : datetime) (pending : Command) (expected : terminal) :
    uprog BusinessEffectApplied :=
  raise_if (negb (eqb_of (cmd_entity_type pending) (trm_type expected)))
    (ValueError "business effect target entity type conflicts with command") ;;
  raise_if (missing (cmd_causation_id pending) || missing (cmd_correlation_id pending))
    (ValueError "business effect lacks causal Command identity") ;;
  let cause := default "" (cmd_causation_id pending) in
  deliveries ← uow_boundary_deliveries ;
  matching ← collect deliveries (accepted_receipt cause effect_id) ;
  raise_if (match matching with [_] => false | _ => true end)
    (ValueError "business effect lacks unique accepted boundary receipt") ;;
  message ← get_boundary_message cause ;
  match message with
  | None => raise (ValueError "business effect causation contradicts durable source message")
  | Some message =>
    raise_if (negb (eqb_of (Some (bmsg_correlation_id message)) (cmd_correlation_id pending)))
      (ValueError "business effect causation contradicts durable source message") ;;
    let contradiction := ValueError "business effect target/contract contradicts causal boundary payload" in
    raise_if (negb (eqb_of (contract_key message) (trm_contract expected))
              || negb (eqb_of (bmsg_source_domain message) (trm_source expected))
              || negb (eqb_of (bmsg_destination_domain message) (trm_destination expected))) contradiction ;;
    data ← lift (payload message) ;
    raise_if (negb (eqb_of (py_str (default (PStr "") (data !! trm_field expected))) (cmd_entity_id pending)))
      contradiction ;;
    entity ← get_entity (cmd_entity_type pending) (cmd_entity_id pending) ;
    match entity with
    | None => raise (ValueError ("business effect lacks terminal state " +:+ trm_state expected))
    | Some e =>
      raise_if (negb (eqb_of (ent_state e) (trm_state expected)))
        (ValueError ("business effect lacks terminal state " +:+ trm_state expected)) ;;
      (if eqb_of (cmd_name pending) "composition.complete_external_fulfillment" then
         receivable ← get_entity "receivable" (receivable_id (cmd_entity_id pending)) ;
         raise_if (receivable_inconsistent receivable e (cmd_entity_id pending))
           (ValueError "invoiced effect lacks consistent open receivable")
       else mret tt) ;;
      cert ← lift (BusinessEffectApplied_new (certificate effect_id message e completed_at)) ;
      save_business_effect cert ;;
      delete_command effect_id ;;
      mret cert
    end
  end.

Definition complete_body `{!PyRepr} (effect_id : string) (completed_at : datetime) : uprog BusinessEffectApplied :=
  prior ← get_business_effect effect_id ;
  pending ← get_command effect_id ;
  match prior with
  | Some prior =>
    raise_if (match pending with Some _ => true | None => false end)
      (ValueError "certified effect conflicts with a pending Command") ;;
    mret prior
  | None =>
    match pending with
    | None => raise (ValueError "business effect lacks pending Command and certificate")
    | Some pending =>
      match find_first (λ t, eqb_of (trm_command t) (cmd_name pending)) _CERTIFIED_TERMINALS with
      | None => raise (ValueError ("business effect has no certified terminal: " +:+ cmd_name pending))
      | Some expected => certify effect_id completed_at pending expected
      end
    end
  end.

Definition complete `{!PyRepr} (effect_id : string) (completed_at : datetime) : P BusinessEffectApplied :=
  transaction None (complete_body effect_id completed_at).
End service.
