(* ===== verification/BoundaryFacts.v ===== *)
(** * The boundary protocol delivers once, in causal order

    [composition/boundary.py]: what the actions of the protocol do to the
    records, the invariant of every reachable store, and what the workers of
    the domains may rely on: a consumption is final, a lease excludes the
    other workers until it expires, a newer lease fences the older ones, the
    ancestry of a message is finite and ordered, and claims follow the time of
    the messages. *)
From S2P Require Import Prelude Encoding Records Memory MemoryFacts World QueueBackend Boundary.
From stdpp Require Import pretty.
Open Scope string_scope.
Open Scope Z_scope.

(** Programs that only read the unit of work. *)
Definition reader {A} (m : uprog A) : Prop := ∀ u, (m u).2 = u.

Lemma reader_inv {A} (m : uprog A) u r u' : reader m → m u = (r, u') → u' = u.
Proof. intros Hm E. specialize (Hm u). by rewrite E in Hm. Qed.

Lemma reader_bind {A C} (m : uprog A) (f : A → uprog C) :
  reader m → (∀ a, reader (f a)) → reader (m ≫= f).
Proof.
  intros Hm Hf u. specialize (Hm u). unfold mbind, prog_bind. destruct (m u) as [[a|e] u1]; cbn in *; subst u1; [|done].
  apply Hf.
Qed.

Lemma reader_for_each {A} (l : list A) (f : A → uprog unit) : (∀ x, reader (f x)) → reader (for_each l f).
Proof. intros Hf. induction l as [|x l IH]; [by intros u|]. apply reader_bind; [apply Hf|intros _; apply IH]. Qed.

Lemma reader_collect {A C} (l : list A) (f : A → uprog (list C)) : (∀ x, reader (f x)) → reader (collect l f).
Proof.
  intros Hf. induction l as [|x l IH]; [by intros u|]. apply reader_bind; [apply Hf|]. intros ys.
  apply reader_bind; [apply IH|]. by intros zs u.
Qed.

Lemma for_each_reader_inv {A} (l : list A) (f : A → uprog unit) u r x :
  (∀ x, reader (f x)) → x ∈ l → for_each l f u = (Ok tt, r) → f x u = (Ok tt, u).
Proof.
  intros Hf Hx Hr. apply for_each_pass_inv in Hr as [_ Hr]; [by apply Hr|]. intros y v ->. apply Hf.
Qed.

Lemma collect_reader_inv {A C} (l : list A) (f : A → uprog (list C)) u ys u' :
  (∀ x, reader (f x)) → collect l f u = (Ok ys, u') →
  u' = u ∧ (∀ x, x ∈ l → ∃ zs, f x u = (Ok zs, u)) ∧ (∀ y, y ∈ ys ↔ ∃ x zs, x ∈ l ∧ f x u = (Ok zs, u) ∧ y ∈ zs).
Proof.
  intros Hf. revert ys u'. induction l as [|x l IH]; intros ys u' Hr; cbn in Hr.
  - apply ret_inv in Hr as [[= ->] ->]. split; [done|]. split; [|intros y]; set_solver.
  - apply bind_inv in Hr as [(y1 & u1 & E1 & Hr)|(?&_&?)]; [|done].
    pose proof (reader_inv _ _ _ _ (Hf x) E1) as ->.
    apply bind_inv in Hr as [(y2 & u2 & E2 & Hr)|(?&_&?)]; [|done].
    apply ret_inv in Hr as [[= ->] ->]. destruct (IH _ _ E2) as (-> & Hl & Hy). split; [done|]. split.
    + intros z [->|Hz]%elem_of_cons; eauto.
    + intros z. rewrite elem_of_app, Hy. split.
      * intros [Hz|(w & zs & ? & ? & ?)]; [exists x, y1|exists w, zs]; split_and!; try done; by constructor.
      * intros (w & zs & [->|Hw]%elem_of_cons & Ew & Hz); [left; congruence|right; eauto].
Qed.

Lemma collect_reader_ok {A C} (l : list A) (f : A → uprog (list C)) u :
  (∀ x, x ∈ l → ∃ zs, f x u = (Ok zs, u)) → ∃ ys, collect l f u = (Ok ys, u).
Proof.
  induction l as [|x l IH]; intros Hf; [by exists []|]. cbn.
  destruct (Hf x) as (y1 & E1); [by constructor|]. destruct IH as (y2 & E2); [intros y Hy; apply Hf; by constructor|].
  exists (y1 ++ y2)%list. by rewrite (run_bind _ _ _ _ _ E1), (run_bind _ _ _ _ _ E2).
Qed.

Create HintDb readers discriminated.
#[export] Hint Resolve reader_for_each reader_collect : readers.

Ltac solve_reader :=
  repeat match goal with
  | |- ∀ _, _ => intros
  | |- reader (match ?x with _ => _ end) => destruct x
  | |- reader (_ ≫= _) => apply reader_bind
  | |- reader (for_each _ _) => apply reader_for_each
  | |- reader (collect _ _) => apply reader_collect
  | |- reader (let _ := _ in _) => cbv zeta
  | |- _ => solve [auto with readers]
  | |- reader _ => by intros ?
  end.

Section facts.
Context `{!Uuid5, !JsonText}.
Implicit Types (s : state) (u : uow) (m : BoundaryMessage) (d : BoundaryDelivery).
Abbreviation messages s := (st_boundary_messages s).
Abbreviation deliveries s := (st_boundary_deliveries s).
Abbreviation consumptions s := (st_boundary_consumptions s).

Lemma get_event_reader id : reader (get_event id).
Proof. unfold get_event, working. solve_reader. Qed.
#[local] Hint Resolve get_event_reader : readers.

Lemma follow_reader fuel m visited cursor kind : reader (follow_causes fuel m visited cursor kind).
Proof.
  revert visited cursor kind. induction fuel as [|fuel IH]; intros visited [c|] kind; cbn [follow_causes];
    unfold get_boundary_message; solve_reader; apply IH.
Qed.

Lemma causation_reader m : reader (_validate_causation m).
Proof. unfold _validate_causation, working. apply reader_bind; [by intros u|]. intros s. apply follow_reader. Qed.
#[local] Hint Resolve causation_reader : readers.

Lemma descendants_reader m : reader (_validate_existing_descendants m).
Proof. unfold _validate_existing_descendants, uow_boundary_deliveries, get_boundary_message. solve_reader. Qed.

Lemma certified_reader p id : reader (predecessor_certified p id).
Proof. unfold predecessor_certified, get_business_effect, get_entity. solve_reader. Qed.
#[local] Hint Resolve certified_reader : readers.

Lemma applied_reader m : reader (_causal_predecessor_applied m).
Proof.
  unfold _causal_predecessor_applied, get_boundary_message, get_boundary_delivery, get_boundary_consumption, get_command.
  solve_reader.
Qed.
#[local] Hint Resolve applied_reader : readers.

Lemma candidate_reader sc now d : reader (candidate sc now d).
Proof. unfold candidate, get_boundary_message. solve_reader. Qed.
#[local] Hint Resolve candidate_reader : readers.

Lemma candidates_reader sc now : reader (candidates sc now).
Proof. unfold candidates, uow_boundary_deliveries. solve_reader. Qed.

(** *** The ancestry of a message *)

(** The identities that the chain of causes goes through: known messages, and
    the unknown one where it may end. *)
Inductive reaches s : option string → option string → string → Prop :=
  | reaches_cause c kind : kind ≠ Some "event" → reaches s (Some c) kind c
  | reaches_trans c kind p x :
      kind ≠ Some "event" → messages s !! c = Some p →
      reaches s (bmsg_causation_id p) (bmsg_causation_kind p) x → reaches s (Some c) kind x.
Abbreviation ancestry s m := (reaches s (bmsg_causation_id m) (bmsg_causation_kind m)).

(** A cause of [m], if known, is of its correlation and not after it. *)
Definition in_order s m (x : string) : Prop :=
  ∀ p, messages s !! x = Some p → bmsg_correlation_id p = bmsg_correlation_id m ∧ bmsg_produced_at p ≤ bmsg_produced_at m.

(** The messages not visited yet. *)
Definition unvisited s (visited : list string) : nat := size (dom (messages s) ∖ list_to_set visited).

Lemma unvisited_step s visited c p :
  messages s !! c = Some p → c ∉ visited → (unvisited s (c :: visited) < unvisited s visited)%nat.
Proof.
  intros Hc Hv. apply subset_size. apply elem_of_dom_2 in Hc. cbn. set_solver.
Qed.

Definition out_of_fuel : exn := RuntimeError "out of fuel".

Lemma get_event_fueled id u : (get_event id u).1 ≠ Err out_of_fuel.
Proof. unfold get_event, working. run. destruct (filter _ _); run; [done|]. by destruct (existsb _ _). Qed.

(** With more fuel than messages to visit, the loop ends by itself. *)
Lemma follow_fueled fuel m visited cursor kind u :
  (unvisited (uow_working u) visited < fuel)%nat → (follow_causes fuel m visited cursor kind u).1 ≠ Err out_of_fuel.
Proof.
  revert visited cursor kind. induction fuel as [|fuel IH]; intros visited [c|] kind Hf; try lia; try done.
  cbn [follow_causes]. destruct (eqb_of kind (Some "event")).
  - pose proof (get_event_fueled c u) as He. unfold mbind, prog_bind. destruct (get_event c u) as [[[e|]|x] u1]; cbn in *;
      [|done|naive_solver]. unfold raise_if, fail_if, lift. repeat case_match; naive_solver.
  - run. destruct (bool_decide _) eqn:Hv; [done|]. apply bool_decide_eq_false in Hv.
    unfold get_boundary_message. run. destruct (messages (uow_working u) !! c) as [p|] eqn:Hp; [|done].
    run. repeat case_match; try done. apply IH. pose proof (unvisited_step _ _ _ _ Hp Hv). lia.
Qed.

Lemma follow_more_fuel n fuel m visited cursor kind u :
  (unvisited (uow_working u) visited < fuel)%nat → (fuel ≤ n)%nat →
  follow_causes n m visited cursor kind u = follow_causes fuel m visited cursor kind u.
Proof.
  revert n visited cursor kind. induction fuel as [|fuel IH]; intros [|n] visited [c|] kind Hf Hn; try lia; try done.
  cbn [follow_causes]. destruct (eqb_of kind (Some "event")); [done|].
  run. destruct (bool_decide _) eqn:Hv; [done|]. apply bool_decide_eq_false in Hv.
  unfold get_boundary_message. run. destruct (messages (uow_working u) !! c) as [p|] eqn:Hp; [|done].
  run. repeat case_match; try done. apply IH; [|lia]. pose proof (unvisited_step _ _ _ _ Hp Hv). lia.
Qed.

Lemma follow_sound fuel m visited cursor kind u a u' x :
  follow_causes fuel m visited cursor kind u = (Ok a, u') → reaches (uow_working u) cursor kind x →
  x ∉ visited ∧ in_order (uow_working u) m x.
Proof.
  intros Hr Ha. revert visited cursor kind Hr Ha.
  induction fuel as [|fuel IH]; intros visited cursor kind Hr Ha; [by destruct Ha|].
  assert (∃ c, cursor = Some c ∧ kind ≠ Some "event" ∧ (x = c ∨ ∃ p0, messages (uow_working u) !! c = Some p0
          ∧ reaches (uow_working u) (bmsg_causation_id p0) (bmsg_causation_kind p0) x))
    as (c & -> & Hkind & Hx) by (destruct Ha; naive_solver).
  cbn [follow_causes] in Hr. rewrite (proj2 (eqb_of_false _ _) Hkind) in Hr. autorewrite with run in Hr.
  destruct (bool_decide _) eqn:Hv; [done|]. apply bool_decide_eq_false in Hv.
  unfold get_boundary_message in Hr. autorewrite with run in Hr.
  destruct (messages (uow_working u) !! c) as [p0|] eqn:Hc.
  - autorewrite with run in Hr. destruct (negb _) eqn:Hcorr; [done|]. guard_facts. destruct (_ <? _) eqn:Ht; [done|].
    apply Z.ltb_ge in Ht. destruct Hx as [->|(? & [= <-] & Hx)].
    + split; [done|]. intros p. rewrite Hc. by intros [= <-].
    + destruct (IH _ _ _ Hr Hx) as [Hn ?]. split; [|done]. set_solver.
  - destruct Hx as [->|(? & ? & _)]; [|done]. split; [done|]. intros p. by rewrite Hc.
Qed.

Lemma causation_sound m u a u' x :
  _validate_causation m u = (Ok a, u') → ancestry (uow_working u) m x →
  x ≠ bmsg_message_id m ∧ in_order (uow_working u) m x.
Proof.
  intros Hv Ha. unfold _validate_causation, working in Hv. autorewrite with run in Hv.
  destruct (follow_sound _ _ _ _ _ _ _ _ _ Hv Ha). set_solver.
Qed.

(** *** What the protocol changes *)

(** The records of the protocol. *)
Definition transport s := (messages s, deliveries s, consumptions s).

(** A handler applies the effect; the protocol's records are the service's. *)
Class QuietHandlers (r : registry) : Prop :=
  quiet_handler k h m u : r !! k = Some h → transport (uow_working (h m u).2) = transport (uow_working u).

Lemma resolve_inv r m h : resolve r m = Ok h → ∃ k, r !! k = Some h.
Proof.
  unfold resolve. destruct (r !! _) as [h1|] eqn:E1; [intros [= ->]; eauto|].
  intros E. symmetry in E. inv_prog. destruct (r !! (None, _)) as [h2|] eqn:E2; [injection E as ->; eauto|done].
Qed.

(** A message may join the store: its known ancestors, and the messages that
    named it as their cause before it came, are of its correlation and in the
    order of time; the latter are not consumed. *)
Record joins s m : Prop := {
  joins_ancestors x : ancestry s m x → x ≠ bmsg_message_id m ∧ in_order s m x;
  joins_descendants k d c :
    messages s !! bmsg_message_id m = None →
    deliveries s !! k = Some d → messages s !! bdel_message_id d = Some c →
    bmsg_causation_kind c ≠ Some "event" → bmsg_causation_id c = Some (bmsg_message_id m) →
    bmsg_correlation_id c = bmsg_correlation_id m ∧ bmsg_produced_at m ≤ bmsg_produced_at c ∧ bdel_status d ≠ CONSUMED }.

(** A publication adds the message and, unless it has one, its delivery. *)
Record published m s s' : Prop := {
  published_joins : joins s m;
  published_same : messages s !! bmsg_message_id m = None ∨ messages s !! bmsg_message_id m = Some m;
  published_valid : BoundaryDelivery_new (new_delivery m) = Ok (new_delivery m);
  published_messages : messages s' = <[bmsg_message_id m := m]> (messages s);
  published_consumptions : consumptions s' = consumptions s;
  published_deliveries :
    deliveries s' = deliveries s
    ∧ (∃ d, deliveries s !! delivery_id_of m = Some d ∧ bdel_message_id d = bmsg_message_id m)
    ∨ deliveries s !! delivery_id_of m = None
      ∧ deliveries s' = <[delivery_id_of m := new_delivery m]> (deliveries s) }.

Lemma delivery_new_inv d r : BoundaryDelivery_new d = Ok r → r = d.
Proof.
  unfold BoundaryDelivery_new. intros E. symmetry in E. repeat (apply res_bind_inv in E as (?&?&E)). by injection E.
Qed.

Lemma consumption_create_inv d effect at_ c :
  BoundaryConsumption_create d effect at_ = Ok c →
  bcon_delivery_id c = bdel_delivery_id d ∧ bcon_consumer_effect_id c = effect ∧ bcon_message_id c = bdel_message_id d.
Proof.
  unfold BoundaryConsumption_create. intros E. symmetry in E. repeat (apply res_bind_inv in E as (?&?&E)). by injection E as ->.
Qed.

Lemma save_delivery_inv d u a u' :
  save_boundary_delivery d u = (Ok a, u') →
  uow_working u' = uow_working u <| st_boundary_deliveries ::= <[bdel_delivery_id d := d]> |>.
Proof. unfold save_boundary_delivery, working, write. intros Hr. by inv_prog. Qed.

Lemma save_message_inv m u a u' :
  save_boundary_message m u = (Ok a, u') →
  uow_working u' = uow_working u <| st_boundary_messages ::= <[bmsg_message_id m := m]> |>.
Proof. unfold save_boundary_message, working, write. intros Hr. by inv_prog. Qed.

Lemma save_consumption_inv c u a u' :
  save_boundary_consumption c u = (Ok a, u') →
  uow_working u' = uow_working u <| st_boundary_consumptions ::= <[bcon_delivery_id c := c]> |>.
Proof. unfold save_boundary_consumption, working, write. intros Hr. by inv_prog. Qed.

Lemma enrol_transport m job u a u' :
  enrol_publication m job u = (Ok a, u') → transport (uow_working u') = transport (uow_working u).
Proof.
  unfold enrol_publication, get_job_state, save_job_state, working, write. intros Hr. by inv_prog.
Qed.

(** The walk over the deliveries: none of a consumed descendant. *)
Lemma descendants_inv m u a u' :
  _validate_existing_descendants m u = (Ok a, u') →
  ∀ k d c, deliveries (uow_working u) !! k = Some d → messages (uow_working u) !! bdel_message_id d = Some c →
    bmsg_causation_kind c ≠ Some "event" → bmsg_causation_id c = Some (bmsg_message_id m) →
    bmsg_correlation_id c = bmsg_correlation_id m ∧ bmsg_produced_at m ≤ bmsg_produced_at c ∧ bdel_status d ≠ CONSUMED.
Proof.
  intros Hr k d c Hd Hc Hkind Hcause.
  unfold _validate_existing_descendants, uow_boundary_deliveries in Hr. autorewrite with run in Hr.
  assert (d ∈ sorted_values (deliveries (uow_working u))) as Hin by (apply elem_of_sorted_values; eauto).
  destruct a. apply (for_each_reader_inv _ _ _ _ d) in Hr as Hx; [|unfold get_boundary_message; solve_reader|done].
  unfold get_boundary_message in Hx. autorewrite with run in Hx. rewrite Hc in Hx.
  rewrite (proj2 (eqb_of_false _ _) Hkind), Hcause, (proj2 (eqb_of_true _ _) eq_refl) in Hx. cbn [orb negb] in Hx.
  inv_prog. guard_facts. split_and!; [done|lia|done].
Qed.

Lemma publish_body_step m job u d u' :
  BoundaryDelivery_new (new_delivery m) = Ok (new_delivery m) →
  publish_body m job (new_delivery m) u = (Ok d, u') →
  published m (uow_working u) (uow_working u')
  ∧ messages (uow_working u') !! bmsg_message_id m = Some m
  ∧ deliveries (uow_working u') !! delivery_id_of m = Some d ∧ bdel_message_id d = bmsg_message_id m.
Proof.
  intros Hnew Hr. unfold publish_body in Hr.
  apply bind_inv in Hr as [([] & u1 & Hv & Hr)|(?&_&?)]; [|done].
  pose proof (reader_inv _ _ _ _ (causation_reader m) Hv) as ->.
  pose proof (λ x, causation_sound m u tt u x Hv) as Hanc.
  unfold get_boundary_message at 1 in Hr. autorewrite with run in Hr.
  destruct (conflicts _ _ _) eqn:Hc; [done|]. apply conflicts_false in Hc.
  apply bind_inv in Hr as [([] & u1 & Hm & Hr)|(?&_&?)]; [|done].
  assert (consumptions (uow_working u1) = consumptions (uow_working u)
          ∧ deliveries (uow_working u1) = deliveries (uow_working u)
          ∧ messages (uow_working u1) = <[bmsg_message_id m := m]> (messages (uow_working u))
          ∧ joins (uow_working u) m) as (Ec & Ed & Em & Hjoin).
  { destruct (messages (uow_working u) !! bmsg_message_id m) as [x|] eqn:Hx.
    - destruct Hc as [?|[= ->]]; [done|]. apply ret_inv in Hm as [_ ->]. rewrite insert_id by done.
      split_and!; try done. split; [exact Hanc|congruence].
    - apply bind_inv in Hm as [([] & u2 & Hd & Hm)|(?&_&?)]; [|done].
      pose proof Hd as Hd'. apply (reader_inv _ _ _ _ (descendants_reader m)) in Hd' as ->.
      apply bind_inv in Hm as [([] & u2 & He & Hm)|(?&_&?)]; [|done]. apply enrol_transport in He.
      injection He as E1 E2 E3. apply save_message_inv in Hm. rewrite Hm. cbn. rewrite E1. split_and!; try done.
      split; [exact Hanc|]. intros k d' c _. by eapply descendants_inv. }
  clear Hm. unfold get_boundary_delivery in Hr. autorewrite with run in Hr. rewrite Ed in Hr. cbn [bdel_delivery_id new_delivery] in Hr.
  destruct (deliveries (uow_working u) !! delivery_id_of m) as [e|] eqn:He.
  - inv_prog. guard_facts. rewrite Em, lookup_insert_eq, Ed. split_and!; try done.
    split; try done. left. eauto.
  - inv_prog. match goal with H' : save_boundary_delivery _ _ = _ |- _ => apply save_delivery_inv in H' as E end.
    cbn [bdel_delivery_id new_delivery] in E. rewrite E. cbn. rewrite Em, !lookup_insert_eq. split_and!; try done.
    split; cbn; try done. right. by rewrite Ed.
Qed.

(** *** Claims *)

(** What a claim may lease: a delivery in its scope, whose message is of its
    correlation and whose cause has been applied. *)
Record eligible sc now u d m : Prop := {
  eligible_known : deliveries (uow_working u) !! bdel_delivery_id d = Some d;
  eligible_scope : out_of_scope sc now d = false;
  eligible_message : messages (uow_working u) !! bdel_message_id d = Some m;
  eligible_correlation : excludes (csc_correlation_id sc) (bmsg_correlation_id m) = false;
  eligible_cause : (_causal_predecessor_applied m u).1 = Ok true }.

Lemma lease_new_inv l r : BoundaryLease_new l = Ok r → r = l.
Proof.
  unfold BoundaryLease_new. intros E. symmetry in E. repeat (apply res_bind_inv in E as (?&?&E)). by injection E.
Qed.

Lemma candidate_elem sc now u d l u' c :
  deliveries (uow_working u) !! bdel_delivery_id d = Some d → candidate sc now d u = (Ok l, u') →
  c ∈ l ↔ ∃ m, c = (bmsg_produced_at m, d) ∧ eligible sc now u d m.
Proof.
  intros Hd Hr. unfold candidate in Hr. destruct (out_of_scope sc now d) eqn:Hs.
  { apply ret_inv in Hr as [[= ->] _]. split; [intros []%not_elem_of_nil|]. intros (m & _ & He). destruct He. congruence. }
  unfold get_boundary_message in Hr. autorewrite with run in Hr.
  destruct (messages (uow_working u) !! bdel_message_id d) as [m|] eqn:Hm; [|done].
  destruct (excludes _ _) eqn:Hx.
  { apply ret_inv in Hr as [[= ->] _]. split; [intros []%not_elem_of_nil|]. intros (m' & _ & He). destruct He. congruence. }
  apply bind_inv in Hr as [(b & u1 & Ha & Hr)|(?&_&?)]; [|done].
  destruct b; cbn [negb] in Hr; apply ret_inv in Hr as [[= ->] _].
  - rewrite list_elem_of_singleton. split.
    + intros ->. exists m. split; [done|]. split; try done. by rewrite Ha.
    + intros (m' & -> & He). destruct He. congruence.
  - split; [intros []%not_elem_of_nil|]. intros (m' & _ & He0). destruct He0 as [???? He].
    replace m' with m in He by congruence. by rewrite Ha in He.
Qed.

Lemma candidates_elem sc now u l u' c :
  keyed bdel_delivery_id (deliveries (uow_working u)) → candidates sc now u = (Ok l, u') →
  c ∈ l ↔ ∃ d m, c = (bmsg_produced_at m, d) ∧ eligible sc now u d m.
Proof.
  intros Hk Hr. unfold candidates, uow_boundary_deliveries in Hr. autorewrite with run in Hr.
  apply collect_reader_inv in Hr as (-> & Hall & Hin); [|intros; apply candidate_reader].
  assert (∀ d, d ∈ sorted_values (deliveries (uow_working u)) ↔ deliveries (uow_working u) !! bdel_delivery_id d = Some d) as Hd.
  { intros d. rewrite elem_of_sorted_values. split; [|eauto]. intros (k & E). by rewrite (Hk _ _ E). }
  rewrite Hin. split.
  - intros (d & zs & Hd'%Hd & Hz & Hc). eapply candidate_elem in Hz as Hc'; [|done]. apply Hc' in Hc as (m & ? & ?). eauto.
  - intros (d & m & -> & He). pose proof (eligible_known _ _ _ _ _ He) as Hkn.
    destruct (Hall d) as (zs & Hz); [by apply Hd|]. exists d, zs. split_and!; [by apply Hd|done|].
    eapply candidate_elem; eauto.
Qed.

(** The lease of a claim: of the first eligible delivery, by the time of its
    message and then its identity. *)
Definition picked owner now duration sc u s' (l : BoundaryLease) : Prop :=
  ∃ d m, eligible sc now u d m
    ∧ (∀ d' m', eligible sc now u d' m' →
         py_leb (bmsg_produced_at m, bdel_delivery_id d) (bmsg_produced_at m', bdel_delivery_id d') = true)
    ∧ BoundaryDelivery_new (claimed d owner now duration) = Ok (claimed d owner now duration)
    ∧ s' = uow_working u <| st_boundary_deliveries ::= <[bdel_delivery_id d := claimed d owner now duration]> |>
    ∧ l = lease_of (claimed d owner now duration) owner (now + duration).

Lemma grant_inv d owner now duration u l u' :
  grant d owner now duration u = (Ok l, u') →
  BoundaryDelivery_new (claimed d owner now duration) = Ok (claimed d owner now duration)
  ∧ uow_working u' = uow_working u <| st_boundary_deliveries ::= <[bdel_delivery_id d := claimed d owner now duration]> |>
  ∧ l = lease_of (claimed d owner now duration) owner (now + duration).
Proof.
  unfold grant. generalize (eq_refl : bdel_delivery_id (claimed d owner now duration) = bdel_delivery_id d).
  generalize (claimed d owner now duration) as c. intros c Hc Hr.
  apply bind_inv in Hr as [(next & u1 & Hn & Hr)|(?&_&?)]; [|done]. apply lift_inv in Hn as [Hn ->].
  pose proof (delivery_new_inv _ _ (eq_sym Hn)) as ->.
  apply bind_inv in Hr as [([] & u1 & Hsave & Hr)|(?&_&?)]; [|done]. apply save_delivery_inv in Hsave.
  apply lift_inv in Hr as [Hx ->]. pose proof (lease_new_inv _ _ (eq_sym Hx)) as ->.
  rewrite Hsave, Hc. done.
Qed.

Lemma claim_body_inv owner now duration sc u r u' :
  keyed bdel_delivery_id (deliveries (uow_working u)) → claim_body owner now duration sc u = (Ok r, u') →
  match r with
  | None => u' = u ∧ ∀ d m, ¬ eligible sc now u d m
  | Some l => picked owner now duration sc u (uow_working u') l
  end.
Proof.
  intros Hk Hr. unfold claim_body in Hr. apply bind_inv in Hr as [(l & u1 & Hl & Hr)|(?&_&?)]; [|done].
  pose proof (λ c, candidates_elem _ _ _ _ _ c Hk Hl) as Hc.
  apply (reader_inv _ _ _ _ (candidates_reader sc now)) in Hl as ->.
  destruct (head (sort_on candidate_key l)) as [[t d]|] eqn:Hs.
  - apply head_Some in Hs as (l' & Hs).
    assert ((t, d) ∈ l) as Hin by (apply (elem_of_sort_on candidate_key); rewrite Hs; constructor).
    apply Hc in Hin as (d0 & m & [= -> <-] & He).
    apply bind_inv in Hr as [(x & u2 & Hx & Hr)|(?&_&?)]; [|done]. apply ret_inv in Hr as [[= ->] ->].
    apply grant_inv in Hx as (Hn & Hsave & ->). exists d, m. split; [exact He|]. split; [|done].
    intros d' m' He'. assert ((bmsg_produced_at m', d') ∈ l) as Hin by (apply Hc; eauto).
    exact (sort_on_head candidate_key _ l _ _ Hs Hin).
  - apply ret_inv in Hr as [[= ->] ->]. split; [done|]. intros d m He. apply head_None in Hs.
    assert ((bmsg_produced_at m, d) ∈ l) as Hin by (apply Hc; eauto).
    apply (elem_of_sort_on candidate_key) in Hin. rewrite Hs in Hin. by apply not_elem_of_nil in Hin.
Qed.

(** *** Acknowledgements *)

(** A message whose cause is applied: the delivery of a known cause is consumed. *)
Lemma applied_inv m u u' :
  _causal_predecessor_applied m u = (Ok true, u') → bmsg_causation_kind m ≠ Some "event" →
  ∀ p q, bmsg_causation_id m = Some p → messages (uow_working u) !! p = Some q →
    ∃ e, deliveries (uow_working u) !! delivery_id_of q = Some e ∧ bdel_status e = CONSUMED.
Proof.
  intros Hr Hkind p q Hp Hq. unfold _causal_predecessor_applied in Hr.
  apply bind_inv in Hr as [([] & u1 & Hv & Hr)|(?&_&?)]; [|done].
  apply (reader_inv _ _ _ _ (causation_reader m)) in Hv as ->.
  rewrite (proj2 (eqb_of_false _ _) Hkind), Hp in Hr. unfold get_boundary_message in Hr. autorewrite with run in Hr.
  rewrite Hq in Hr. autorewrite with run in Hr.
  apply bind_inv in Hr as [(e & u1 & He & Hr)|(?&_&?)]; [|done]. apply lift_inv in He as [He ->].
  pose proof (delivery_new_inv _ _ (eq_sym He)) as ->.
  unfold get_boundary_delivery in Hr. autorewrite with run in Hr. cbn [bdel_delivery_id new_delivery] in Hr.
  destruct (deliveries _ !! _) as [d|] eqn:Hd; [|done]. exists d. split; [done|].
  destruct (negb _) eqn:Hs in Hr; [done|]. by guard_facts.
Qed.

(** The delivery, lease and message of an acknowledgement. *)
Record acknowledges (lease : BoundaryLease) now s d m (c : BoundaryConsumption) : Prop := {
  ack_delivery : deliveries s !! lse_delivery_id lease = Some d;
  ack_current : _assert_current_claim d lease now = Ok tt;
  ack_message : messages s !! bdel_message_id d = Some m;
  ack_cause : bmsg_causation_kind m ≠ Some "event" → ∀ p q, bmsg_causation_id m = Some p → messages s !! p = Some q →
    ∃ e, deliveries s !! delivery_id_of q = Some e ∧ bdel_status e = CONSUMED;
  ack_consumption : BoundaryConsumption_create d (bcon_consumer_effect_id c) now = Ok c;
  ack_existing : consumptions s !! bdel_delivery_id d = None ∨ consumptions s !! bdel_delivery_id d = Some c;
  ack_valid : BoundaryDelivery_new (acknowledged d (bcon_consumer_effect_id c) now)
              = Ok (acknowledged d (bcon_consumer_effect_id c) now) }.

(** What the transaction writes after the handler. *)
Definition acknowledge d (c : BoundaryConsumption) now s s' : Prop :=
  messages s' = messages s
  ∧ consumptions s' = <[bdel_delivery_id d := c]> (consumptions s)
  ∧ deliveries s' = <[bdel_delivery_id d := acknowledged d (bcon_consumer_effect_id c) now]> (deliveries s).

Lemma settle_inv (existing : option BoundaryConsumption) d effect now u c u' :
  (existing = consumptions (uow_working u) !! bdel_delivery_id d) →
  (c ← lift (BoundaryConsumption_create d effect now) ;
   raise_if (conflicts eqb_of existing c)
     (ValueError ("boundary consumption identity conflict: " +:+ bdel_delivery_id d)) ;;
   match existing with None => save_boundary_consumption c | Some _ => mret tt end ;;
   next ← lift (BoundaryDelivery_new (acknowledged d effect now)) ;
   save_boundary_delivery next ;;
   mret c) u = (Ok c, u') →
  bcon_consumer_effect_id c = effect ∧ BoundaryConsumption_create d effect now = Ok c
  ∧ (existing = None ∨ existing = Some c)
  ∧ BoundaryDelivery_new (acknowledged d effect now) = Ok (acknowledged d effect now)
  ∧ acknowledge d c now (uow_working u) (uow_working u').
Proof.
  generalize (eq_refl : bdel_delivery_id (acknowledged d effect now) = bdel_delivery_id d).
  intros Hid He Hr. apply bind_inv in Hr as [(x & u1 & Hc & Hr)|(?&_&?)]; [|done]. apply lift_inv in Hc as [Hc ->].
  autorewrite with run in Hr. destruct (conflicts _ _ _) eqn:Hconf; [done|]. apply conflicts_false in Hconf.
  apply bind_inv in Hr as [([] & u1 & Hsave & Hr)|(?&_&?)]; [|done].
  apply bind_inv in Hr as [(next & u2 & Hn & Hr)|(?&_&?)]; [|done]. apply lift_inv in Hn as [Hn ->].
  apply bind_inv in Hr as [([] & u2 & Hd & Hr)|(?&_&?)]; [|done]. apply ret_inv in Hr as [[= ->] ->].
  pose proof (consumption_create_inv _ _ _ _ (eq_sym Hc)) as (Hi & Heff & _). pose proof (delivery_new_inv _ _ (eq_sym Hn)) as ->.
  apply save_delivery_inv in Hd. rewrite Hid in Hd.
  split_and!; [done|done|done|done|]. unfold acknowledge. rewrite Heff, Hd.
  destruct Hconf as [->| ->].
  - apply save_consumption_inv in Hsave. rewrite Hsave, Hi. done.
  - apply ret_inv in Hsave as [_ ->]. cbn. rewrite insert_id by done. done.
Qed.

Lemma current_claim_inv d lease now :
  _assert_current_claim d lease now = Ok tt →
  bdel_status d = CLAIMED ∧ bdel_message_id d = lse_message_id lease ∧ bdel_claim_owner_id d = Some (lse_owner_id lease)
  ∧ bdel_claim_epoch d = lse_epoch lease
  ∧ ∃ t e, bdel_claimed_at d = Some t ∧ bdel_lease_expires_at d = Some e ∧ t ≤ now < e.
Proof.
  unfold _assert_current_claim. intros E. symmetry in E.
  destruct (bdel_claimed_at d) as [t|]; [|by inv_prog]. destruct (bdel_lease_expires_at d) as [e|]; [|by inv_prog].
  inv_prog. guard_facts. destruct (e <=? now) eqn:He; [done|].
  repeat match goal with
  | H' : (_ =? _) = true |- _ => apply Z.eqb_eq in H'
  | H' : (_ <? _) = false |- _ => apply Z.ltb_ge in H'
  | H' : (_ <=? _) = false |- _ => apply Z.leb_gt in H'
  end.
  split_and!; try done. exists t, e. done.
Qed.

(** A consumption: of a delivery consumed before, or by the handler of the
    message under the current claim. *)
Lemma boundary_consume_body_inv lease r now u c u' :
  QuietHandlers r → keyed bdel_delivery_id (deliveries (uow_working u)) →
  consume_body lease r now u = (Ok c, u') →
  (∃ d, deliveries (uow_working u) !! lse_delivery_id lease = Some d ∧ bdel_status d = CONSUMED
        ∧ consumptions (uow_working u) !! lse_delivery_id lease = Some c ∧ u' = u)
  ∨ (∃ d m, acknowledges lease now (uow_working u) d m c
            ∧ acknowledge d c now (uow_working u) (uow_working u')).
Proof.
  intros Hq Hk Hr. unfold consume_body, get_boundary_delivery, get_boundary_consumption in Hr.
  autorewrite with run in Hr. destruct (deliveries (uow_working u) !! lse_delivery_id lease) as [d|] eqn:Hd; [|done].
  pose proof (Hk _ _ Hd) as Hid. cbn in Hid. autorewrite with run in Hr.
  destruct (eqb_of (bdel_status d) CONSUMED) eqn:Hs.
  { left. exists d. guard_facts. rewrite <-Hid.
    destruct (consumptions (uow_working u) !! bdel_delivery_id d) eqn:Hc; [|done].
    apply ret_inv in Hr as [[= ->] ->]. done. }
  right. exists d.
  apply bind_inv in Hr as [([] & u1 & Ha & Hr)|(?&_&?)]; [|done]. apply lift_inv in Ha as [Ha ->].
  unfold get_boundary_message in Hr. autorewrite with run in Hr.
  destruct (messages (uow_working u) !! bdel_message_id d) as [m|] eqn:Hm; [|done]. exists m.
  apply bind_inv in Hr as [(b & u1 & Hb & Hr)|(?&_&?)]; [|done].
  pose proof (reader_inv _ _ _ _ (applied_reader m) Hb) as ->. autorewrite with run in Hr.
  destruct b; [|done]. cbn [negb] in Hr.
  apply bind_inv in Hr as [(h & u1 & Hh & Hr)|(?&_&?)]; [|done]. apply lift_inv in Hh as [Hh ->].
  symmetry in Hh. apply resolve_inv in Hh as (k & Hh).
  apply bind_inv in Hr as [(effect & u1 & He & Hr)|(?&_&?)]; [|done].
  pose proof (quiet_handler k h m u Hh) as Hsame. rewrite He in Hsame. cbn in Hsame. injection Hsame as E1 E2 E3.
  autorewrite with run in Hr. destruct (blank effect); [done|].
  destruct (settle_inv _ _ _ _ u1 c u' ltac:(by rewrite E3) Hr) as (<- & Hc & Hex & Hv & A1 & A2 & A3).
  split; [split; try done; exact (applied_inv _ _ _ Hb)|].
  unfold acknowledge. by rewrite A1, A2, A3, E1, E2, E3.
Qed.

(** *** The steps and the invariant *)

(** What an action does to the records of the protocol. *)
Inductive step s s' : Prop :=
  | step_same : transport s' = transport s → step s s'
  | step_published m : published m s s' → step s s'
  | step_claimed owner now duration sc u l :
      uow_working u = s → picked owner now duration sc u s' l → 0 < duration → step s s'
  | step_consumed lease now d m c : acknowledges lease now s d m c → acknowledge d c now s s' → step s s'.

Record boundary_inv s : Prop := {
  inv_messages : keyed bmsg_message_id (messages s);
  inv_deliveries : keyed bdel_delivery_id (deliveries s);
  inv_valid k d : deliveries s !! k = Some d → BoundaryDelivery_new d = Ok d;
  inv_delivered k m : messages s !! k = Some m →
    ∃ d, deliveries s !! delivery_id_of m = Some d ∧ bdel_message_id d = k;
  inv_known k d : deliveries s !! k = Some d →
    ∃ m, messages s !! bdel_message_id d = Some m ∧ delivery_id_of m = k;
  inv_consumed k d : deliveries s !! k = Some d → bdel_status d = CONSUMED →
    ∃ c, consumptions s !! k = Some c ∧ bdel_consumer_effect_id d = Some (bcon_consumer_effect_id c);
  inv_consumptions k c : consumptions s !! k = Some c →
    bcon_delivery_id c = k ∧ ∃ d, deliveries s !! k = Some d ∧ bdel_status d = CONSUMED;
  inv_ancestry k m x : messages s !! k = Some m → ancestry s m x → x ≠ k ∧ in_order s m x;
  inv_order k m p q d : messages s !! k = Some m → bmsg_causation_kind m ≠ Some "event" →
    bmsg_causation_id m = Some p → messages s !! p = Some q →
    deliveries s !! delivery_id_of m = Some d → bdel_status d = CONSUMED →
    ∃ e, deliveries s !! delivery_id_of q = Some e ∧ bdel_status e = CONSUMED }.

(** What a delivery keeps: its message, its past leases, its consumption; an
    expiry is only moved forward. *)
Record advances d d' : Prop := {
  advances_id : bdel_delivery_id d' = bdel_delivery_id d;
  advances_message : bdel_message_id d' = bdel_message_id d;
  advances_epoch : bdel_claim_epoch d ≤ bdel_claim_epoch d';
  advances_consumed : bdel_status d = CONSUMED → d' = d;
  advances_expiry t : bdel_status d = CLAIMED → bdel_lease_expires_at d = Some t →
    bdel_status d' = CONSUMED
    ∨ bdel_status d' = CLAIMED ∧ ∃ t', bdel_lease_expires_at d' = Some t' ∧ t ≤ t' }.

#[export] Instance advances_preorder : PreOrder advances.
Proof.
  split.
  - intros d. split; try done. intros t ??. right. eauto with lia.
  - intros d1 d2 d3 [I1 M1 E1 C1 X1] [I2 M2 E2 C2 X2]. split; [congruence|congruence|lia| |].
    + intros Hc. rewrite <-(C1 Hc). apply C2. by rewrite (C1 Hc).
    + intros t Hs Ht. destruct (X1 t Hs Ht) as [Hc|(Hs2 & t' & Ht' & ?)]; [left; by rewrite (C2 Hc)|].
      destruct (X2 t' Hs2 Ht') as [?|(? & t3 & ? & ?)]; [by left|]. right. split; [done|]. exists t3. split; [done|lia].
Qed.

(** What the protocol never takes back. *)
Record later s s' : Prop := {
  later_messages : messages s ⊆ messages s';
  later_consumptions : consumptions s ⊆ consumptions s';
  later_deliveries k d : deliveries s !! k = Some d → ∃ d', deliveries s' !! k = Some d' ∧ advances d d' }.

#[export] Instance later_preorder : PreOrder later.
Proof.
  split.
  - intros s. split; [done|done|]. intros k d Hd. by exists d.
  - intros s1 s2 s3 [M1 C1 D1] [M2 C2 D2]. split; [by etrans|by etrans|].
    intros k d (d2 & H2' & A2)%D1. apply D2 in H2' as (d3 & ? & ?). exists d3. split; [done|by etrans].
Qed.

Lemma later_update s s' k d d' :
  messages s ⊆ messages s' → consumptions s ⊆ consumptions s' →
  deliveries s !! k = Some d → deliveries s' = <[k := d']> (deliveries s) → advances d d' → later s s'.
Proof.
  intros Hm Hc Hd E Ha. split; [done|done|]. intros j x Hx. rewrite E.
  destruct (decide (k = j)) as [<-|Hne]; [|rewrite lookup_insert_ne by done; by exists x].
  rewrite lookup_insert_eq. exists d'. split; [done|]. by replace x with d by congruence.
Qed.

Lemma claimed_advances d owner now duration :
  bdel_status d ≠ CONSUMED → 0 < duration →
  (bdel_status d = CLAIMED → ∀ t, bdel_lease_expires_at d = Some t → t ≤ now) →
  advances d (claimed d owner now duration).
Proof.
  intros Hs Hd Hx. split; [done|done| |done|].
  - change (bdel_claim_epoch d ≤ bdel_claim_epoch d + 1). lia.
  - intros t Hc Ht. right. split; [done|]. exists (now + duration). split; [done|]. specialize (Hx Hc t Ht). lia.
Qed.

Lemma acknowledged_advances d effect now : bdel_status d ≠ CONSUMED → advances d (acknowledged d effect now).
Proof. intros Hs. split; [done|done|reflexivity|done|]. by left. Qed.

(** An eligible delivery is free: not consumed, and not under a lease that has
    not expired. *)
Lemma eligible_free sc now u d m :
  eligible sc now u d m →
  bdel_status d ≠ CONSUMED ∧ (bdel_status d = CLAIMED → ∀ t, bdel_lease_expires_at d = Some t → t ≤ now).
Proof.
  intros [_ Hs _ _ _]. unfold out_of_scope in Hs. repeat apply orb_false_iff in Hs as [Hs ?]. guard_facts.
  split; [done|]. intros Hc t Ht. rewrite Hc, Ht in *.
  match goal with H' : _ && _ = false |- _ => rewrite (proj2 (eqb_of_true _ _) eq_refl) in H'; cbn in H' end. lia.
Qed.

Lemma step_later s s' : boundary_inv s → step s s' → later s s'.
Proof.
  intros Hi [E|m [Hj Hsame Hv Em Ec Ed]|owner now duration sc u l <- (d & m & He & _ & _ & -> & _) Hdur|
             lease now d m c [Hd Hcur Hm _ _ Hex _] (Em & Ec & Ed)].
  - injection E as E1 E2 E3. split; [by rewrite E1|by rewrite E3|]. intros k d Hd. rewrite E2. by exists d.
  - split; [rewrite Em|by rewrite Ec|].
    + destruct Hsame as [Hn|Hs]; [by apply insert_subseteq|by rewrite insert_id].
    + intros k d Hd. destruct Ed as [[-> _]|[Hn ->]]; exists d; [done|]. split; [|done].
      rewrite lookup_insert_ne; [done|]. congruence.
  - destruct (eligible_free _ _ _ _ _ He) as [Hs Hx]. pose proof (eligible_known _ _ _ _ _ He) as Hk.
    eapply later_update; [..|by apply claimed_advances]; [done|done|exact Hk|done].
  - apply current_claim_inv in Hcur as (Hs & _). pose proof (inv_deliveries _ Hi _ _ Hd) as Hid. cbn in Hid.
    apply (later_update _ _ (bdel_delivery_id d) d (acknowledged d (bcon_consumer_effect_id c) now));
      [by rewrite Em| |by rewrite Hid|exact Ed|apply acknowledged_advances; by rewrite Hs].
    rewrite Ec. destruct Hex as [Hn|Hs']; [by apply insert_subseteq|by rewrite insert_id].
Qed.

(** *** The ancestry of a message in a growing store *)

Lemma reaches_ext s s' c kind x : messages s' = messages s → reaches s' c kind x → reaches s c kind x.
Proof. intros E. induction 1; [by constructor|]. eapply reaches_trans; [done|by rewrite <-E|done]. Qed.

Lemma reaches_join s c kind m x :
  reaches s c kind (bmsg_message_id m) → messages s !! bmsg_message_id m = Some m → ancestry s m x → reaches s c kind x.
Proof.
  intros H1 Hm H2. remember (bmsg_message_id m) as k eqn:Hk. revert Hk.
  induction H1; intros ->; [by eapply reaches_trans|]. eapply reaches_trans; [done..|by apply IHreaches].
Qed.

(** The last link of the chain. *)
Lemma reaches_last s c kind x :
  reaches s c kind x →
  (c = Some x ∧ kind ≠ Some "event")
  ∨ ∃ k p, reaches s c kind k ∧ messages s !! k = Some p ∧ bmsg_causation_id p = Some x ∧ bmsg_causation_kind p ≠ Some "event".
Proof.
  induction 1 as [|c kind p x Hk Hc Hx [[E Hp]|(k & q & Hr & Hq & ?)]]; [by left| |]; right.
  - exists c, p. split; [by constructor|done].
  - exists k, q. split; [by eapply reaches_trans|done].
Qed.

(** The ancestry once a message has joined. *)
Lemma reaches_joined s s' m c kind x :
  messages s' = <[bmsg_message_id m := m]> (messages s) → messages s !! bmsg_message_id m = None →
  reaches s' c kind x → reaches s c kind x ∨ (reaches s c kind (bmsg_message_id m) ∧ ancestry s' m x).
Proof.
  intros E Hn. induction 1 as [|c kind p x Hk Hc Hx IH]; [left; by constructor|].
  rewrite E in Hc. apply lookup_insert_Some in Hc as [[<- <-]|[Hne Hc]].
  - right. split; [by constructor|done].
  - destruct IH as [IH|[IH ?]]; [left|right; split; [|done]]; by eapply reaches_trans.
Qed.

Lemma in_order_trans s m p x k :
  messages s !! k = Some p → in_order s m k → in_order s p x → in_order s m x.
Proof. intros Hp Hm Hx q Hq. destruct (Hm p Hp), (Hx q Hq). split; [congruence|lia]. Qed.

Lemma in_order_joined s s' m y x :
  messages s' = <[bmsg_message_id m := m]> (messages s) → x ≠ bmsg_message_id m → in_order s y x → in_order s' y x.
Proof. intros E Hne Hx p. rewrite E, lookup_insert_ne by done. apply Hx. Qed.

(** The messages that named a late cause are in its order. *)
Lemma joined_descendants s m k y :
  boundary_inv s → joins s m → messages s !! bmsg_message_id m = None → messages s !! k = Some y →
  ancestry s y (bmsg_message_id m) →
  bmsg_correlation_id m = bmsg_correlation_id y ∧ bmsg_produced_at m ≤ bmsg_produced_at y.
Proof.
  intros Hi Hj Hn Hy Hr.
  assert (∀ j c, messages s !! j = Some c → bmsg_causation_kind c ≠ Some "event" →
            bmsg_causation_id c = Some (bmsg_message_id m) →
            bmsg_correlation_id c = bmsg_correlation_id m ∧ bmsg_produced_at m ≤ bmsg_produced_at c) as Hc.
  { intros j c Hc Hk He. destruct (inv_delivered _ Hi _ _ Hc) as (d & Hd & <-).
    by destruct (joins_descendants _ _ Hj _ _ _ Hn Hd Hc Hk He) as (? & ? & _). }
  apply reaches_last in Hr as [[E Hk]|(j & c & Hr & Hj' & E & Hk)].
  - destruct (Hc _ _ Hy Hk E). done.
  - destruct (Hc _ _ Hj' Hk E), (inv_ancestry _ Hi _ _ _ Hy Hr) as [_ Ho]. destruct (Ho _ Hj'). split; [congruence|lia].
Qed.

Lemma published_ancestry m s s' k y x :
  boundary_inv s → published m s s' → messages s' !! k = Some y → ancestry s' y x → x ≠ k ∧ in_order s' y x.
Proof.
  intros Hi [Hj [Hn|Hs] _ Em _ _] Hy Hr.
  2: { rewrite insert_id in Em by done. rewrite Em in Hy. apply (reaches_ext s) in Hr; [|done].
    unfold in_order. rewrite Em. by eapply (inv_ancestry s). }
  assert (∀ z, ancestry s' m z → ancestry s m z) as Hm.
  { intros z Hz. apply (reaches_joined s _ m) in Hz as [?|[Hz _]]; [done| |done|done].
    by destruct (joins_ancestors _ _ Hj _ Hz). }
  assert (∀ z, ancestry s' m z → z ≠ bmsg_message_id m ∧ in_order s' m z) as Hmo.
  { intros z [Hz Ho]%Hm%(joins_ancestors _ _ Hj). split; [done|by eapply in_order_joined]. }
  rewrite Em in Hy. apply lookup_insert_Some in Hy as [[<- <-]|[Hne Hy]]; [by apply Hmo|].
  pose proof (inv_messages _ Hi _ _ Hy) as Hk. cbn in Hk.
  assert (∀ z, ancestry s y z → z ≠ k ∧ in_order s' y z) as Hold.
  { intros z Hz. pose proof (inv_ancestry _ Hi _ _ _ Hy Hz) as [? Ho]. split; [done|].
    destruct (decide (z = bmsg_message_id m)) as [->|]; [|by eapply in_order_joined].
    intros p. rewrite Em, lookup_insert_eq. intros [= <-]. by eapply joined_descendants. }
  apply (reaches_joined s _ m) in Hr as [Hr|[Hr Hx]]; [by apply Hold| |done|done].
  destruct (Hmo x Hx) as [_ Hox]. split.
  - intros ->. enough (bmsg_message_id m ≠ bmsg_message_id m) by done. apply (joins_ancestors _ _ Hj).
    apply (reaches_join s _ _ y); rewrite ?Hk; [by apply Hm|done..].
  - eapply in_order_trans; [|by apply Hold|exact Hox]. by rewrite Em, lookup_insert_eq.
Qed.

(** *** The steps keep the invariant *)

Lemma inv_same s s' : transport s' = transport s → boundary_inv s → boundary_inv s'.
Proof.
  intros E Hi. injection E as Em Ed Ec. destruct Hi.
  split; unfold in_order; rewrite ?Em, ?Ed, ?Ec; try done.
  intros k m x Hm Hr. apply (reaches_ext s) in Hr; [|done]. by eapply inv_ancestry0.
Qed.

Lemma consumed_stays s s' k e :
  later s s' → deliveries s !! k = Some e → bdel_status e = CONSUMED → deliveries s' !! k = Some e.
Proof. intros Hl (e' & He' & Ha)%(later_deliveries _ _ Hl) Hs. by rewrite <-(advances_consumed _ _ Ha Hs). Qed.

Lemma inv_published m s s' : boundary_inv s → published m s s' → boundary_inv s'.
Proof.
  intros Hi Hp. pose proof (step_later _ _ Hi (step_published _ _ _ Hp)) as Hl.
  pose proof (λ k y x, published_ancestry m s s' k y x Hi Hp) as Hanc.
  destruct Hp as [Hj Hsame Hv Em Ec Ed].
  assert (∀ k d, deliveries s' !! k = Some d → deliveries s !! k = Some d ∨ k = delivery_id_of m ∧ d = new_delivery m) as Hd.
  { intros k d. destruct Ed as [[-> _]|[_ ->]]; [by left|]. intros [[<- <-]|[_ ?]]%lookup_insert_Some; [by right|by left]. }
  assert (∀ k y, messages s' !! k = Some y → k = bmsg_message_id m ∧ y = m ∨ messages s !! k = Some y) as Hm.
  { intros k y. rewrite Em. intros [[<- <-]|[_ ?]]%lookup_insert_Some; [by left|by right]. }
  split; [| | | | | | |exact Hanc|].
  - rewrite Em. apply (keyed_insert bmsg_message_id), Hi.
  - intros k d [Hk|[-> ->]]%Hd; [by apply (inv_deliveries _ Hi)|done].
  - intros k d [Hk|[-> ->]]%Hd; [by eapply (inv_valid _ Hi)|done].
  - intros k y [[-> ->]|Hy]%Hm.
    + destruct Ed as [[-> ?]|[_ ->]]; [done|]. rewrite lookup_insert_eq. eauto.
    + destruct (inv_delivered _ Hi _ _ Hy) as (d & Hd' & <-).
      destruct (later_deliveries _ _ Hl _ _ Hd') as (d' & ? & []). eauto.
  - intros k d [Hk|[-> ->]]%Hd.
    + destruct (inv_known _ Hi _ _ Hk) as (y & Hy & <-). exists y. split; [|done].
      by apply (lookup_weaken _ _ _ _ Hy), later_messages.
    + exists m. by rewrite Em, lookup_insert_eq.
  - intros k d [Hk|[-> ->]]%Hd; [|done]. rewrite Ec. by eapply (inv_consumed _ Hi).
  - intros k c Hc. rewrite Ec in Hc. destruct (inv_consumptions _ Hi _ _ Hc) as (? & d & Hd' & ?). split; [done|].
    exists d. split; [|done]. by apply (consumed_stays s).
  - intros k y p q d Hy Hkind Hcause Hq [Hk|[_ ->]]%Hd Hs; [|done].
    apply Hm in Hy as [[-> ->]|Hy].
    + (* a consumed delivery of the message was there before *)
      destruct (inv_known _ Hi _ _ Hk) as (y & Hy & _).
      assert (bdel_message_id d = bmsg_message_id m) as E.
      { destruct Ed as [[_ (d0 & Hd0 & <-)]|[Hn _]]; congruence. }
      destruct Hsame as [Hn|Hold]; [congruence|]. rewrite insert_id in Em by done. rewrite Em in Hq.
      destruct (inv_order _ Hi _ _ _ _ _ Hold Hkind Hcause Hq Hk Hs) as (e & ? & ?). exists e. split; [|done].
      by apply (consumed_stays s).
    + apply Hm in Hq as [[-> ->]|Hq].
      * destruct Hsame as [Hn|Hold].
        -- exfalso. destruct (inv_delivered _ Hi _ _ Hy) as (d' & Hd' & E). assert (d' = d) as -> by congruence.
           rewrite <-E in Hy. by destruct (joins_descendants _ _ Hj _ _ _ Hn Hk Hy Hkind Hcause) as (_ & _ & ?).
        -- destruct (inv_order _ Hi _ _ _ _ _ Hy Hkind Hcause Hold Hk Hs) as (e & ? & ?). exists e. split; [|done].
           by apply (consumed_stays s).
      * destruct (inv_order _ Hi _ _ _ _ _ Hy Hkind Hcause Hq Hk Hs) as (e & ? & ?). exists e. split; [|done].
        by apply (consumed_stays s).
Qed.

(** A step that updates one delivery. *)
Lemma inv_updated s s' k d d' :
  boundary_inv s → messages s' = messages s → consumptions s ⊆ consumptions s' → deliveries s !! k = Some d →
  deliveries s' = <[k := d']> (deliveries s) → advances d d' → BoundaryDelivery_new d' = Ok d' →
  (bdel_status d' = CONSUMED →
     ∃ c, consumptions s' !! k = Some c ∧ bdel_consumer_effect_id d' = Some (bcon_consumer_effect_id c)) →
  (∀ j c, consumptions s' !! j = Some c →
     consumptions s !! j = Some c ∨ j = k ∧ bcon_delivery_id c = k ∧ bdel_status d' = CONSUMED) →
  (bdel_status d' = CONSUMED → ∀ m p q, messages s !! bdel_message_id d = Some m → bmsg_causation_kind m ≠ Some "event" →
     bmsg_causation_id m = Some p → messages s !! p = Some q →
     ∃ e, deliveries s !! delivery_id_of q = Some e ∧ bdel_status e = CONSUMED) →
  boundary_inv s'.
Proof.
  intros Hi Em Hc Hd Ed Ha Hv Hcons Hcs Hord.
  assert (later s s') as Hl by (eapply later_update; [by rewrite Em|done|exact Hd|exact Ed|done]).
  assert (∀ j x, deliveries s' !! j = Some x → j = k ∧ x = d' ∨ deliveries s !! j = Some x) as Hin.
  { intros j x. rewrite Ed. intros [[<- <-]|[_ ?]]%lookup_insert_Some; [by left|by right]. }
  pose proof (inv_deliveries _ Hi _ _ Hd) as Hid. cbn in Hid.
  split; unfold in_order; rewrite ?Em; [apply Hi| | | | | | | |].
  - rewrite Ed, <-Hid, <-(advances_id _ _ Ha). apply keyed_insert, Hi.
  - intros j x [[-> ->]|Hx]%Hin; [done|]. by eapply (inv_valid _ Hi).
  - intros j m Hm. destruct (inv_delivered _ Hi _ _ Hm) as (x & Hx & <-).
    destruct (later_deliveries _ _ Hl _ _ Hx) as (x' & ? & []). eauto.
  - intros j x [[-> ->]|Hx]%Hin; [|by apply Hi]. rewrite (advances_message _ _ Ha). by apply Hi.
  - intros j x [[-> ->]|Hx]%Hin Hs; [by apply Hcons|]. destruct (inv_consumed _ Hi _ _ Hx Hs) as (c & Hc' & ?).
    exists c. split; [|done]. by apply (lookup_weaken _ _ _ _ Hc').
  - intros j c [Hj|(-> & ? & ?)]%Hcs.
    + destruct (inv_consumptions _ Hi _ _ Hj) as (? & x & Hx & ?). split; [done|]. exists x. split; [|done].
      by apply (consumed_stays s).
    + split; [done|]. exists d'. by rewrite Ed, lookup_insert_eq.
  - intros j m x Hm Hr. apply (reaches_ext s) in Hr; [|done]. by eapply (inv_ancestry _ Hi).
  - intros j m p q x Hm Hkind Hcause Hq Hx Hs.
    assert (∃ e, deliveries s !! delivery_id_of q = Some e ∧ bdel_status e = CONSUMED) as (e & ? & ?).
    { apply Hin in Hx as [[Hj ->]|Hx]; [|exact (inv_order _ Hi _ _ _ _ _ Hm Hkind Hcause Hq Hx Hs)].
      destruct (inv_delivered _ Hi _ _ Hm) as (d0 & Hd0 & <-). rewrite Hj in Hd0. assert (d0 = d) as -> by congruence.
      by eapply Hord. }
    exists e. split; [|done]. by apply (consumed_stays s).
Qed.

Lemma step_inv s s' : boundary_inv s → step s s' → boundary_inv s'.
Proof.
  intros Hi [E|m Hp|owner now duration sc u l <- (d & m & He & _ & Hv & -> & _) Hdur|
             lease now d m c [Hd Hcur Hm Hcause Hc Hex Hv] (Em & Ec & Ed)].
  - by eapply inv_same.
  - by eapply inv_published.
  - destruct (eligible_free _ _ _ _ _ He) as [Hs Hx]. pose proof (eligible_known _ _ _ _ _ He) as Hk.
    apply (inv_updated (uow_working u) _ (bdel_delivery_id d) d (claimed d owner now duration)); try done; [by apply claimed_advances|].
    intros j c Hc. by left.
  - apply current_claim_inv in Hcur as (Hs & _). pose proof (inv_deliveries _ Hi _ _ Hd) as Hid. cbn in Hid.
    pose proof (consumption_create_inv _ _ _ _ Hc) as (Hci & _).
    apply (inv_updated s s' (bdel_delivery_id d) d (acknowledged d (bcon_consumer_effect_id c) now)); try done.
    + rewrite Ec. destruct Hex as [Hn|Hs']; [by apply insert_subseteq|by rewrite insert_id].
    + by rewrite Hid.
    + apply acknowledged_advances. by rewrite Hs.
    + intros _. exists c. by rewrite Ec, lookup_insert_eq.
    + intros j x. rewrite Ec. intros [[<- <-]|[_ ?]]%lookup_insert_Some; [by right|by left].
    + intros _ m' p q Hm' Hkind Hp Hq. replace m' with m in * by congruence. by eapply Hcause.
Qed.
End facts.
