(* ===== verification/BoundaryProtocol.v ===== *)
(** * What the workers of a boundary may rely on

    [composition/boundary.py] and [effects.py]: sequences of publications,
    claims, acknowledgements and transactions of the rest of the program, and
    the theorems of the protocol over them. *)
From S2P Require Import Prelude Encoding Records Memory MemoryFacts World QueueBackend Boundary BoundaryFacts.
From stdpp Require Import pretty.
Open Scope string_scope.
Open Scope Z_scope.

Section protocol.
Context `{!Uuid5, !JsonText}.
Abbreviation messages s := (st_boundary_messages s).
Abbreviation deliveries s := (st_boundary_deliveries s).
Abbreviation consumptions s := (st_boundary_consumptions s).
Abbreviation ancestry s m := (reaches s (bmsg_causation_id m) (bmsg_causation_kind m)).
Implicit Types (s : state) (p : persistence).

(** ** The actions on a store *)

Inductive action : Type :=
  | Publish (m : BoundaryMessage) (recovery_job_id : option string)
  | Claim (owner_id : string) (now : datetime) (lease_duration : Z) (sc : claim_scope)
  | Consume (lease : BoundaryLease) (r : registry) (now : datetime)
  | Elsewhere (owner_id : option string) (body : uprog unit).

(** An exception of an action leaves what it leaves; the next one follows. *)
Definition act (a : action) p : persistence :=
  match a with
  | Publish m job => (publish m job p).2
  | Claim owner now duration sc => (claim_next owner now duration sc p).2
  | Consume lease r now => (consume lease r now p).2
  | Elsewhere owner body => (transaction owner body p).2
  end.

Definition perform (l : list action) p : persistence := foldl (λ p a, act a p) p l.

(** The records of the protocol are written by the service only. *)
Definition polite (a : action) : Prop :=
  match a with
  | Publish _ _ | Claim _ _ _ _ => True
  | Consume _ r _ => QuietHandlers r
  | Elsewhere _ body => ∀ u, transport (uow_working (body u).2) = transport (uow_working u)
  end.

(** A store that accepts transactions: what is published passes [commit]. *)
Definition open_store p : Prop :=
  mp_read_only p = false ∧ commit (begin_uow (mp_state p)) = Ok (mp_state p).

Definition boundary_store p : Prop := boundary_inv (mp_state p) ∧ open_store p.

Lemma transaction_open {A} owner (body : uprog A) p : open_store p → open_store (transaction owner body p).2.
Proof.
  intros Hp. destruct (transaction owner body p) as [[a|e] p'] eqn:E; cbn.
  - apply transaction_ok in E as (u & _ & Hc & ->). split; [by apply Hp|exact Hc].
  - by apply transaction_err in E as ->.
Qed.

Lemma transaction_step {A} owner (body : uprog A) p :
  (∀ a u, body (begin_uow (mp_state p)) = (Ok a, u) → step (mp_state p) (uow_working u)) →
  step (mp_state p) (mp_state (transaction owner body p).2).
Proof.
  intros Hb. destruct (transaction owner body p) as [[a|e] p'] eqn:E; cbn.
  - apply transaction_ok in E as (u & Hu & _ & ->). by eapply Hb.
  - apply transaction_err in E as ->. by apply step_same.
Qed.

(** A transaction that only reads. *)
Lemma transaction_reads {A} (body : uprog A) p r :
  open_store p → body (begin_uow (mp_state p)) = (r, begin_uow (mp_state p)) → transaction None body p = (r, p).
Proof.
  intros [Hr Hc] E. unfold transaction. rewrite Hr, E. destruct r as [a|e]; [|done]. rewrite Hc. by destruct p.
Qed.

Lemma publish_step m job p : boundary_inv (mp_state p) → step (mp_state p) (mp_state (publish m job p).2).
Proof.
  intros Hi. unfold publish, mbind, prog_bind, lift. destruct (pending m) as [d|e] eqn:Hd; [|by apply step_same].
  pose proof (delivery_new_inv _ _ Hd) as ->. apply transaction_step. intros a u Hu.
  apply publish_body_step in Hu as [Hp _]; [|done]. by eapply step_published.
Qed.

Lemma claim_step owner now duration sc p :
  boundary_inv (mp_state p) → step (mp_state p) (mp_state (claim_next owner now duration sc p).2).
Proof.
  intros Hi. unfold claim_next, mbind, prog_bind, lift.
  destruct (check_claim owner duration sc) as [[]|e] eqn:Hc; [|by apply step_same].
  assert (0 < duration) as Hdur.
  { unfold check_claim in Hc. symmetry in Hc. inv_prog. lia. }
  apply transaction_step. intros [l|] u Hu; (apply claim_body_inv in Hu; [|apply Hi]).
  - by eapply (step_claimed _ _ _ _ _ _ (begin_uow (mp_state p))).
  - destruct Hu as [-> _]. by apply step_same.
Qed.

Lemma consume_step lease r now p :
  QuietHandlers r → boundary_inv (mp_state p) → step (mp_state p) (mp_state (consume lease r now p).2).
Proof.
  intros Hq Hi. apply transaction_step. intros c u Hu.
  apply boundary_consume_body_inv in Hu as [(d & _ & _ & _ & ->)|(d & m & Ha & Hu)]; [by apply step_same|by eapply step_consumed|done|apply Hi].
Qed.

Lemma act_step a p : polite a → boundary_inv (mp_state p) → step (mp_state p) (mp_state (act a p)).
Proof.
  intros Ha Hi. destruct a; cbn in *; [by apply publish_step|by apply claim_step|by apply consume_step|].
  apply transaction_step. intros b u Hu. apply step_same. specialize (Ha (begin_uow (mp_state p))). by rewrite Hu in Ha.
Qed.

Lemma act_open a p : open_store p → open_store (act a p).
Proof.
  intros Hp. destruct a; cbn; unfold publish, claim_next, mbind, prog_bind, lift; try (case_match; [|done]); by apply transaction_open.
Qed.

Lemma act_store a p : polite a → boundary_store p → boundary_store (act a p) ∧ later (mp_state p) (mp_state (act a p)).
Proof.
  intros Ha [Hi Ho]. pose proof (act_step a p Ha Hi) as Hs. split; [split|].
  - by eapply step_inv.
  - by apply act_open.
  - by apply step_later.
Qed.

Lemma run_store l p : Forall polite l → boundary_store p → boundary_store (perform l p) ∧ later (mp_state p) (mp_state (perform l p)).
Proof.
  intros Hl. revert p. induction Hl as [|a l Ha Hl IH]; intros p Hp; [by split|]. cbn.
  destruct (act_store a p Ha Hp) as [Hp1 Hl1]. destruct (IH _ Hp1). split; [done|by etrans].
Qed.

Lemma claim_store owner now duration sc p r p' :
  boundary_store p → claim_next owner now duration sc p = (r, p') → boundary_store p' ∧ later (mp_state p) (mp_state p').
Proof. intros Hp E. pose proof (act_store (Claim owner now duration sc) p I Hp) as Hs. cbn in Hs. by rewrite E in Hs. Qed.

(** What a lease says of its delivery. *)
Lemma claim_next_inv owner now duration sc p l p' :
  boundary_store p → claim_next owner now duration sc p = (Ok (Some l), p') →
  picked owner now duration sc (begin_uow (mp_state p)) (mp_state p') l ∧ 0 < duration
  ∧ p' = p <| mp_state := mp_state p' |>.
Proof.
  intros [Hi _] E. unfold claim_next in E. apply bind_inv in E as [([] & p1 & Hc & E)|(?&_&?)]; [|done].
  apply lift_inv in Hc as [Hc ->]. unfold check_claim in Hc. inv_prog.
  apply transaction_ok in E as (u & Hu & _ & ->). apply claim_body_inv in Hu; [|apply Hi]. split_and!; [done|lia|done].
Qed.

(** ** Consumptions are final *)

Lemma consume_known lease r now p d c :
  boundary_store p → deliveries (mp_state p) !! lse_delivery_id lease = Some d → bdel_status d = CONSUMED →
  consumptions (mp_state p) !! lse_delivery_id lease = Some c → consume lease r now p = (Ok c, p).
Proof.
  intros [Hi Ho] Hd Hs Hc. apply (transaction_reads _ _ _ Ho). unfold consume_body, get_boundary_delivery, get_boundary_consumption.
  autorewrite with run. change (uow_working (begin_uow (mp_state p))) with (mp_state p). rewrite Hd. autorewrite with run.
  change (uow_working (begin_uow (mp_state p))) with (mp_state p).
  pose proof (inv_deliveries _ Hi _ _ Hd) as Hid. cbn in Hid. rewrite Hs, Hid, Hc. done.
Qed.

(** C3. An acknowledgement is final.  Once a delivery has its consumption, then
    after any publications, claims, acknowledgements and transactions of the
    rest of the program, whoever consumes it again, under whatever lease and
    handlers, gets that very consumption, and the store does not change: the
    handler is not run a second time. *)
Theorem consumed_once p lease c l r now :
  boundary_store p → consumptions (mp_state p) !! lse_delivery_id lease = Some c → Forall polite l →
  consume lease r now (perform l p) = (Ok c, perform l p).
Proof.
  intros Hp Hc Hl. destruct (run_store l p Hl Hp) as [[Hi Ho] Hlt].
  pose proof (lookup_weaken _ _ _ _ Hc (later_consumptions _ _ Hlt)) as Hc'.
  destruct (inv_consumptions _ Hi _ _ Hc') as (_ & d & Hd & Hs). by eapply consume_known.
Qed.

(** ** Leases *)

Lemma claimed_lease d owner now duration :
  lse_delivery_id (lease_of (claimed d owner now duration) owner (now + duration)) = bdel_delivery_id d
  ∧ lse_epoch (lease_of (claimed d owner now duration) owner (now + duration)) = bdel_claim_epoch d + 1
  ∧ lse_lease_expires_at (lease_of (claimed d owner now duration) owner (now + duration)) = now + duration.
Proof. done. Qed.

(** The delivery of a lease, in the store of its claim. *)
Lemma leased owner now duration sc p l p' :
  boundary_store p → claim_next owner now duration sc p = (Ok (Some l), p') →
  ∃ d0 d, deliveries (mp_state p) !! lse_delivery_id l = Some d0
    ∧ deliveries (mp_state p') !! lse_delivery_id l = Some d
    ∧ bdel_claim_epoch d0 < bdel_claim_epoch d ∧ lse_epoch l = bdel_claim_epoch d ∧ bdel_status d = CLAIMED
    ∧ bdel_lease_expires_at d = Some (lse_lease_expires_at l)
    ∧ bdel_status d0 ≠ CONSUMED ∧ (bdel_status d0 = CLAIMED → ∀ t, bdel_lease_expires_at d0 = Some t → t ≤ now).
Proof.
  intros Hp E. destruct (claim_next_inv _ _ _ _ _ _ _ Hp E) as ((d & m & He & _ & _ & Es & ->) & Hdur & _).
  destruct (claimed_lease d owner now duration) as (-> & -> & ->).
  destruct (eligible_free _ _ _ _ _ He) as [Hs Hx]. pose proof (eligible_known _ _ _ _ _ He) as Hk.
  exists d, (claimed d owner now duration). rewrite Es. split_and!; try done.
  - apply lookup_insert_eq.
  - change (bdel_claim_epoch d < bdel_claim_epoch d + 1). lia.
Qed.

(** C23. A lease is exclusive.  From the moment a worker leases a delivery until
    the lease expires, no claim of any worker returns a lease of that delivery,
    whatever happened in between (renewals of expired leases under a later
    clock, acknowledgements, publications). *)
Theorem lease_exclusive owner now duration sc p l p1 actions owner' now' duration' sc' l' p2 :
  boundary_store p → claim_next owner now duration sc p = (Ok (Some l), p1) → Forall polite actions →
  now' < lse_lease_expires_at l →
  claim_next owner' now' duration' sc' (perform actions p1) = (Ok (Some l'), p2) →
  lse_delivery_id l' ≠ lse_delivery_id l.
Proof.
  intros Hp E1 Hl Hnow E2 Heq. destruct (claim_store _ _ _ _ _ _ _ Hp E1) as [Hp1 _].
  destruct (run_store _ _ Hl Hp1) as [Hp2 Hlt].
  destruct (leased _ _ _ _ _ _ _ Hp E1) as (_ & d & _ & Hd & _ & _ & Hs & Hx & _).
  destruct (later_deliveries _ _ Hlt _ _ Hd) as (d' & Hd' & Ha).
  destruct (leased _ _ _ _ _ _ _ Hp2 E2) as (d0 & _ & Hd0 & _ & _ & _ & _ & _ & Hs0 & Hx0).
  rewrite Heq in Hd0. assert (d0 = d') as -> by congruence.
  destruct (advances_expiry _ _ Ha _ Hs Hx) as [?|(Hs' & t & Ht & ?)]; [done|].
  specialize (Hx0 Hs' t Ht). lia.
Qed.

(** C4. A newer lease fences the older ones.  When a delivery has been leased
    again, a worker that still acts with the earlier lease changes nothing,
    then and ever after: it is given the consumption that the delivery may
    have by then, or a stale-claim error; its handler has no effect. *)
Theorem stale_claim_fenced owner now duration sc p l p1 actions owner' now' duration' sc' l' p2 actions' r now'' :
  boundary_store p → claim_next owner now duration sc p = (Ok (Some l), p1) → Forall polite actions →
  claim_next owner' now' duration' sc' (perform actions p1) = (Ok (Some l'), p2) →
  lse_delivery_id l' = lse_delivery_id l → Forall polite actions' →
  let p3 := perform actions' p2 in
  consume l r now'' p3 =
    (match consumptions (mp_state p3) !! lse_delivery_id l with
     | Some c => Ok c
     | None => Err (StaleBoundaryClaimError ("stale boundary claim: " +:+ lse_delivery_id l))
     end, p3).
Proof.
  intros Hp E1 Hl E2 Heq Hl' p3. destruct (claim_store _ _ _ _ _ _ _ Hp E1) as [Hp1 _].
  destruct (run_store _ _ Hl Hp1) as [Hq1 Hlt1]. destruct (claim_store _ _ _ _ _ _ _ Hq1 E2) as [Hp2 _].
  destruct (run_store _ _ Hl' Hp2) as [Hp3 Hlt3]. fold p3 in Hp3, Hlt3.
  destruct (leased _ _ _ _ _ _ _ Hp E1) as (_ & d1 & _ & Hd1 & _ & He1 & _).
  destruct (later_deliveries _ _ Hlt1 _ _ Hd1) as (d2 & Hd2 & A12).
  destruct (leased _ _ _ _ _ _ _ Hq1 E2) as (d2' & d3 & Hd2' & Hd3 & He23 & _ & Hs3 & Hx3 & _).
  rewrite Heq in Hd2', Hd3. assert (d2' = d2) as -> by congruence.
  destruct (later_deliveries _ _ Hlt3 _ _ Hd3) as (d & Hd & A3). destruct Hp3 as [Hi Ho].
  destruct (decide (bdel_status d = CONSUMED)) as [Hs|Hs].
  { destruct (inv_consumed _ Hi _ _ Hd Hs) as (c & Hc & _). rewrite Hc. by eapply consume_known. }
  destruct (advances_expiry _ _ A3 _ Hs3 Hx3) as [?|(Hsd & _)]; [done|].
  destruct (consumptions (mp_state p3) !! lse_delivery_id l) as [c|] eqn:Hc.
  { destruct (inv_consumptions _ Hi _ _ Hc) as (_ & x & Hx & ?). congruence. }
  apply (transaction_reads _ _ _ Ho). unfold consume_body, get_boundary_delivery, get_boundary_consumption.
  autorewrite with run. change (uow_working (begin_uow (mp_state p3))) with (mp_state p3). rewrite Hd. autorewrite with run.
  pose proof (inv_deliveries _ Hi _ _ Hd) as Hid. cbn in Hid. rewrite Hsd, Hid.
  assert (bdel_claim_epoch d =? lse_epoch l = false) as He.
  { pose proof (advances_epoch _ _ A12). pose proof (advances_epoch _ _ A3). apply Z.eqb_neq. lia. }
  unfold _assert_current_claim. rewrite Hsd, He, Hid.
  cbn [negb orb]. rewrite !orb_true_r. done.
Qed.

(** ** Causes *)

(** C24. The walk along the causes of a message ends.  The loop of
    [_validate_causation] never runs out of the turns it is given, one more
    than the messages of the store, and with any larger number of turns it
    does the same; it reads the unit of work and changes nothing. *)
Theorem causation_terminates m u n :
  (causation_fuel (uow_working u) ≤ n)%nat →
  follow_causes n m [bmsg_message_id m] (bmsg_causation_id m) (bmsg_causation_kind m) u = _validate_causation m u
  ∧ (_validate_causation m u).1 ≠ Err out_of_fuel ∧ (_validate_causation m u).2 = u.
Proof.
  intros Hn. assert (unvisited (uow_working u) [bmsg_message_id m] < causation_fuel (uow_working u))%nat as Hf.
  { unfold unvisited, causation_fuel. rewrite <-size_dom. apply Nat.lt_succ_r, subseteq_size. set_solver. }
  unfold _validate_causation, working. autorewrite with run. split_and!.
  - by apply follow_more_fuel.
  - by apply follow_fueled.
  - apply follow_reader.
Qed.

Lemma consumed_along s c kind x q :
  boundary_inv s → reaches s c kind x → messages s !! x = Some q →
  (∀ k y, c = Some k → kind ≠ Some "event" → messages s !! k = Some y →
     ∃ e, deliveries s !! delivery_id_of y = Some e ∧ bdel_status e = CONSUMED) →
  ∃ e, deliveries s !! delivery_id_of q = Some e ∧ bdel_status e = CONSUMED.
Proof.
  intros Hi Hr Hq. induction Hr as [c kind Hk|c kind y x Hk Hy Hr IH]; intros Hc; [by eapply Hc|].
  apply (IH Hq). intros k z Hcause Hkind Hz. destruct (Hc c y eq_refl Hk Hy) as (e & He & Hs).
  exact (inv_order _ Hi _ _ _ _ _ Hy Hkind Hcause Hz He Hs).
Qed.

(** C22. Causes come before effects.  After any run of the protocol, the known
    ancestors of a published message carry its correlation, are not produced
    after it, and never include the message itself; and when the message is
    consumed, so is every one of them: effects are applied in causal order,
    even when a cause is published after the message that names it. *)
Theorem causal_order p l k m x q :
  boundary_store p → Forall polite l →
  let s := mp_state (perform l p) in
  messages s !! k = Some m → ancestry s m x → messages s !! x = Some q →
  x ≠ k ∧ bmsg_correlation_id q = bmsg_correlation_id m ∧ bmsg_produced_at q ≤ bmsg_produced_at m
  ∧ (is_Some (consumptions s !! delivery_id_of m) → is_Some (consumptions s !! delivery_id_of q)).
Proof.
  intros Hp Hl s Hm Hr Hq. destruct (run_store l p Hl Hp) as [[Hi _] _]. fold s in Hi.
  destruct (inv_ancestry _ Hi _ _ _ Hm Hr) as [Hne Ho]. destruct (Ho q Hq). split_and!; [done|done|done|].
  intros [c Hc]. destruct (inv_consumptions _ Hi _ _ Hc) as (_ & d & Hd & Hs).
  destruct (consumed_along _ _ _ _ _ Hi Hr Hq) as (e & He & Hse).
  { intros j y Hj Hkind Hy. exact (inv_order _ Hi _ _ _ _ _ Hm Hkind Hj Hy Hd Hs). }
  destruct (inv_consumed _ Hi _ _ He Hse) as (c' & Hc' & _). eauto.
Qed.

(** ** What a claim leases *)

(** A claim leases the first eligible delivery, by the time of its message
    and then by its identity: the lease names it, under the next fencing
    epoch, and the claim writes nothing else.  [None] means that no delivery
    was eligible, and then the store is unchanged. *)
Theorem claim_order owner now duration sc p r p' :
  boundary_store p → claim_next owner now duration sc p = (Ok r, p') →
  match r with
  | None => p' = p ∧ ∀ d m, ¬ eligible sc now (begin_uow (mp_state p)) d m
  | Some l => picked owner now duration sc (begin_uow (mp_state p)) (mp_state p') l
  end.
Proof.
  intros Hp E. destruct r as [l|]; [by eapply claim_next_inv|]. destruct Hp as [Hi _].
  unfold claim_next in E. apply bind_inv in E as [([] & p1 & Hc & E)|(?&_&?)]; [|done]. apply lift_inv in Hc as [_ ->].
  apply transaction_ok in E as (u & Hu & _ & ->). apply claim_body_inv in Hu as [-> ?]; [|apply Hi]. by destruct p.
Qed.

Lemma blank_empty x : blank x = false → is_empty x = false.
Proof. by destruct x. Qed.

Lemma claimed_valid d owner now duration :
  BoundaryDelivery_new d = Ok d → blank owner = false →
  BoundaryDelivery_new (claimed d owner now duration) = Ok (claimed d owner now duration)
  ∧ BoundaryLease_new (lease_of (claimed d owner now duration) owner (now + duration))
    = Ok (lease_of (claimed d owner now duration) owner (now + duration)).
Proof.
  intros Hv Ho%blank_empty. symmetry in Hv. destruct d as [i m dom c v st n o ep t1 t2 t3 eff err].
  unfold BoundaryDelivery_new in Hv. do 4 (apply res_bind_inv in Hv as ([] & ? & Hv)). clear Hv.
  repeat match goal with H' : fail_if _ _ = Ok _ |- _ => apply fail_if_inv in H'; cbn in H' end.
  change (claimed _ _ _ _) with (mkBoundaryDelivery i m dom c v CLAIMED (n + 1) (Some owner) (ep + 1) (Some now) (Some (now + duration)) None None None).
  repeat match goal with H' : _ || _ = false |- _ => apply orb_false_iff in H' as [? ?] end.
  assert (n + 1 <? 0 = false) by lia. assert (ep + 1 <? 0 = false) by lia. assert (ep + 1 <=? 0 = false) by lia.
  unfold BoundaryDelivery_new, BoundaryLease_new, lease_of. cbn -[Z.add Z.ltb Z.leb is_empty].
  repeat match goal with H' : _ = false |- _ => rewrite H'; clear H' end. done.
Qed.

Lemma grant_ok d owner now duration u :
  deliveries (uow_working u) !! bdel_delivery_id d = Some d → BoundaryDelivery_new d = Ok d → blank owner = false →
  ∃ l u', grant d owner now duration u = (Ok l, u').
Proof.
  intros Hd Hv Ho. destruct (claimed_valid d owner now duration Hv Ho) as [Hn Hl]. unfold grant. rewrite Hn. autorewrite with run.
  unfold save_boundary_delivery, working, write. autorewrite with run. rewrite Hl.
  change (bdel_delivery_id (claimed d owner now duration)) with (bdel_delivery_id d). rewrite Hd.
  unfold conflicts. change (bdel_message_id (claimed d owner now duration)) with (bdel_message_id d).
  rewrite (proj2 (eqb_of_true _ _) eq_refl). eexists _, _. reflexivity.
Qed.

Lemma candidate_ok sc now s d :
  boundary_inv s → (∀ k m, messages s !! k = Some m → is_ok (_causal_predecessor_applied m (begin_uow s)).1) →
  d ∈ sorted_values (deliveries s) → ∃ l, candidate sc now d (begin_uow s) = (Ok l, begin_uow s).
Proof.
  intros Hi Hok (k & Hd)%elem_of_sorted_values. unfold candidate. destruct (out_of_scope sc now d); [by exists []|].
  destruct (inv_known _ Hi _ _ Hd) as (m & Hm & _). unfold get_boundary_message. autorewrite with run.
  change (uow_working (begin_uow s)) with s. rewrite Hm. destruct (excludes _ _); [by exists []|].
  specialize (Hok _ _ Hm). pose proof (applied_reader m (begin_uow s)) as Hr.
  destruct (_causal_predecessor_applied m (begin_uow s)) as [[b|e] u] eqn:E; [|done]. cbn in Hr. subst u.
  rewrite (run_bind _ _ _ _ _ E). destruct b; cbn [negb]; eauto.
Qed.


(** ** Certificates of applied effects *)

Lemma receipt_reader cause effect d : reader (accepted_receipt cause effect d).
Proof. unfold accepted_receipt, get_boundary_consumption. solve_reader. Qed.

(** The evidence of a certificate: the pending command of a certified intent,
    the delivery that was acknowledged with it, its message, and its target in
    the terminal state. *)
Record evidence s effect_id at_ (b : BusinessEffectApplied) c t d m e : Prop := {
  evidence_command : st_commands s !! effect_id = Some c;
  evidence_terminal : t ∈ _CERTIFIED_TERMINALS ∧ trm_command t = cmd_name c ∧ trm_type t = cmd_entity_type c;
  evidence_delivery : deliveries s !! bdel_delivery_id d = Some d ∧ bdel_status d = CONSUMED
    ∧ bdel_consumer_effect_id d = Some effect_id;
  evidence_consumption : ∃ a, consumptions s !! bdel_delivery_id d = Some a ∧ bcon_consumer_effect_id a = effect_id;
  evidence_message : messages s !! bdel_message_id d = Some m ∧ cmd_causation_id c = Some (bdel_message_id d)
    ∧ cmd_correlation_id c = Some (bmsg_correlation_id m) ∧ contract_key m = trm_contract t;
  evidence_target : st_entities s !! (cmd_entity_type c, cmd_entity_id c) = Some e ∧ ent_state e = trm_state t;
  evidence_certificate : b = certificate effect_id m e at_ }.

Lemma effect_new_inv b r : Ok r = BusinessEffectApplied_new b → r = b.
Proof. unfold BusinessEffectApplied_new. intros E. repeat (apply res_bind_inv in E as (?&?&E)). by injection E. Qed.

Lemma save_effect_inv b u a u' :
  save_business_effect b u = (Ok a, u') →
  uow_working u' = uow_working u <| st_business_effects ::= <[bea_effect_id b := b]> |>.
Proof. unfold save_business_effect, working, write. intros Hr. by inv_prog. Qed.

Lemma receipt_inv cause effect x u zs d :
  accepted_receipt cause effect x u = (Ok zs, u) → d ∈ zs →
  d = x ∧ bdel_message_id x = cause ∧ bdel_status x = CONSUMED ∧ bdel_consumer_effect_id x = Some effect
  ∧ ∃ a, consumptions (uow_working u) !! bdel_delivery_id x = Some a ∧ bcon_consumer_effect_id a = effect.
Proof.
  unfold accepted_receipt, get_boundary_consumption. intros Hr Hd.
  destruct (negb _) eqn:Hm; [apply ret_inv in Hr as [[= ->] _]; by apply not_elem_of_nil in Hd|].
  autorewrite with run in Hr. apply ret_inv in Hr as [[= ->] _].
  destruct (consumptions _ !! _) as [a|] eqn:Ha; [|by apply not_elem_of_nil in Hd].
  destruct (_ && _) eqn:Hc; [|by apply not_elem_of_nil in Hd]. apply list_elem_of_singleton in Hd as ->.
  apply andb_true_iff in Hc as [[He1 He2]%andb_true_iff Hs].
  apply (proj1 (eqb_of_true _ _)) in He1, He2, Hs. guard_facts. split_and!; try done. by exists a.
Qed.

Lemma certify_inv `{!PyRepr} effect_id at_ c t u b u' :
  keyed bdel_delivery_id (deliveries (uow_working u)) → st_commands (uow_working u) !! effect_id = Some c →
  find_first (λ t, eqb_of (trm_command t) (cmd_name c)) _CERTIFIED_TERMINALS = Some t →
  certify effect_id at_ c t u = (Ok b, u') →
  (∃ d m e, evidence (uow_working u) effect_id at_ b c t d m e)
  ∧ uow_working u' = uow_working u <| st_business_effects ::= <[effect_id := b]> |> <| st_commands ::= delete effect_id |>.
Proof.
  intros Hk Hc Ht Hr. apply find_first_Some in Ht as [Ht Hname]. apply (proj1 (eqb_of_true _ _)) in Hname.
  unfold certify in Hr. autorewrite with run in Hr.
  destruct (negb (eqb_of (cmd_entity_type c) _)) eqn:Htype; [done|].
  destruct (missing (cmd_causation_id c) || _) eqn:Hmiss; [done|]. cbv zeta in Hr.
  unfold uow_boundary_deliveries in Hr. autorewrite with run in Hr.
  apply bind_inv in Hr as [(matching & u1 & Hm & Hr)|(?&_&?)]; [|done].
  apply collect_reader_inv in Hm as (-> & _ & Hin); [|intros; apply receipt_reader].
  autorewrite with run in Hr. destruct matching as [|d [|]]; try done.
  unfold get_boundary_message in Hr. autorewrite with run in Hr.
  destruct (messages (uow_working u) !! _) as [m|] eqn:Hm; [|done]. autorewrite with run in Hr.
  destruct (negb _) eqn:Hcorr in Hr; [done|]. cbv zeta in Hr. autorewrite with run in Hr.
  destruct (negb _ || _ || _) eqn:Hcontract in Hr; [done|].
  apply bind_inv in Hr as [(data & u1 & Hdata & Hr)|(?&_&?)]; [|done]. apply lift_inv in Hdata as [_ ->].
  autorewrite with run in Hr. destruct (negb _) eqn:Hid in Hr; [done|].
  unfold get_entity in Hr. autorewrite with run in Hr.
  destruct (st_entities (uow_working u) !! (cmd_entity_type c, _)) as [e|] eqn:He; [|done]. autorewrite with run in Hr.
  destruct (negb _) eqn:Hstate in Hr; [done|].
  apply bind_inv in Hr as [([] & u1 & Hrec & Hr)|(?&_&?)]; [|done].
  assert (u1 = u) as -> by (eapply reader_inv; [|exact Hrec]; solve_reader).
  apply bind_inv in Hr as [(b0 & u1 & Hb & Hr)|(?&_&?)]; [|done]. apply lift_inv in Hb as [Hb ->].
  apply effect_new_inv in Hb as ->.
  apply bind_inv in Hr as [([] & u1 & Hsave & Hr)|(?&_&?)]; [|done]. apply save_effect_inv in Hsave.
  unfold delete_command, write in Hr. autorewrite with run in Hr. apply ret_inv in Hr as [[= ->] ->]. split.
  - guard_facts. destruct (proj1 (Hin d) ltac:(constructor)) as (x & zs & Hx & Hz & Hd).
    apply elem_of_sorted_values in Hx as (k & Hx). pose proof (Hk _ _ Hx) as Hkx. cbn in Hkx. subst k.
    destruct (receipt_inv _ _ _ _ _ _ Hz Hd) as (-> & Hcause & Hs & Heff & a & Ha & Hae).
    destruct (cmd_causation_id c) as [cause|] eqn:Ecause; [|done]. cbn in Hcause, Hm. subst cause.
    exists x, m, e. split; try done; by exists a.
  - cbn. rewrite Hsave. done.
Qed.

Lemma complete_body_inv `{!PyRepr} effect_id at_ u b u' :
  keyed bdel_delivery_id (deliveries (uow_working u)) →
  complete_body effect_id at_ u = (Ok b, u') →
  st_business_effects (uow_working u') !! effect_id = Some b ∧ st_commands (uow_working u') !! effect_id = None
  ∧ (st_business_effects (uow_working u) !! effect_id = Some b ∧ u' = u
     ∨ st_business_effects (uow_working u) !! effect_id = None
       ∧ (∃ c t d m e, evidence (uow_working u) effect_id at_ b c t d m e)
       ∧ uow_working u' = uow_working u <| st_business_effects ::= <[effect_id := b]> |> <| st_commands ::= delete effect_id |>).
Proof.
  intros Hk Hr. unfold complete_body, get_business_effect, get_command in Hr. autorewrite with run in Hr.
  destruct (st_business_effects (uow_working u) !! effect_id) as [b0|] eqn:Hb.
  - destruct (st_commands (uow_working u) !! effect_id) as [c|] eqn:Hc; autorewrite with run in Hr; [done|].
    apply ret_inv in Hr as [[= ->] ->]. split_and!; [done|done|by left].
  - destruct (st_commands (uow_working u) !! effect_id) as [c|] eqn:Hc; [|done].
    destruct (find_first _ _) as [t|] eqn:Ht; [|done].
    apply certify_inv in Hr as ((d & m & e & He) & ->); [|done..]. split_and!.
    + apply lookup_insert_eq.
    + apply lookup_delete_eq.
    + right. split_and!; [done|by exists c, t, d, m, e|done].
Qed.

(** C26. A certificate is durable evidence, given once.  When [complete] returns,
    the certificate is stored and the staged command is gone, so completing
    the effect again returns the same certificate and changes nothing; and a
    new certificate is only written, together with the retirement of the
    command and nothing else, for a pending command of a certified intent
    whose boundary delivery was acknowledged with that very effect and whose
    target entity is in the terminal state of the intent. *)
Theorem effect_certified_once `{!PyRepr} effect_id at_ p b p' at_' :
  boundary_store p → complete effect_id at_ p = (Ok b, p') →
  complete effect_id at_' p' = (Ok b, p')
  ∧ (p' = p ∨ (∃ c t d m e, evidence (mp_state p) effect_id at_ b c t d m e)
              ∧ p' = p <| mp_state ::= λ s, s <| st_business_effects ::= <[effect_id := b]> |> <| st_commands ::= delete effect_id |> |>).
Proof.
  intros [Hi Ho] E. pose proof (transaction_open None (complete_body effect_id at_) p Ho) as Ho'.
  fold (complete effect_id at_) in Ho'. rewrite E in Ho'. unfold complete in E. apply transaction_ok in E as (u & Hu & _ & ->).
  apply complete_body_inv in Hu as (Hb & Hc & Hu); [|apply Hi]. split.
  - apply (transaction_reads _ _ _ Ho'). unfold complete_body, get_business_effect, get_command. autorewrite with run.
    cbn [uow_working begin_uow]. change (mp_state _) with (uow_working u). unfold fork_state. rewrite Hb, Hc. done.
  - destruct Hu as [[_ ->]|(_ & He & Hu)]; [left; by destruct p|]. right. split; [done|]. by rewrite Hu.
Qed.
End protocol.

(** ** A depot

    A depot announces an order, then its dispatch, caused by the order; two
    workers compete for the announcements. *)

#[local] Existing Instance plain_uuid5.
#[local] Instance shipment_text : JsonText := {|
  json_dumps := λ _, Ok "{}"; json_loads := λ _, Ok (PMap [(PStr "shipment_id", PStr "s1")]); payload_digest := λ s, "sha256:" +:+ s |}.
#[local] Instance plain_repr : PyRepr := λ _, "".

Definition empty_persistence : persistence := mkPersistence empty_state false.

Lemma empty_boundary : boundary_store empty_persistence.
Proof. split; [|by split]. split; try done; by apply map_Forall_empty. Qed.

Definition text : string * string := ("{}", "sha256:{}").
Definition announcement (id : string) (cause : option string) (at_ : datetime) : BoundaryMessage :=
  mkBoundaryMessage id "depot.announced" 1 "depot" "depot-1" "carrier" id "order-7" cause at_ text.1 text.2
    (match cause with Some _ => Some "boundary" | None => None end).
Definition order_message := announcement "order" None 10.
Definition dispatch_message := announcement "dispatch" (Some "order") 15.
Definition notice_message := announcement "notice" None 30.

(** The effect of a message is to take note of it. *)
Definition take_note : handler := λ m,
  save_command (mkCommand (bmsg_message_id m) "carrier.note" "note" "n1" 0 None None ∅ None None (Some "sim")) ;;
  mret ("noted:" +:+ bmsg_message_id m).
Definition carrier : registry := {[ (None, ("carrier", "depot.announced", 1)) := take_note ]}.

#[local] Instance carrier_quiet : QuietHandlers carrier.
Proof.
  intros k h m u Hk. unfold carrier in Hk. apply lookup_singleton_Some in Hk as [_ <-].
  unfold take_note, save_command, working, write. autorewrite with run. by repeat case_match.
Qed.

Definition anything : claim_scope := mkClaimScope (Some "carrier") None None None.
Definition depot : persistence := 
  perform [Publish notice_message None; Publish dispatch_message None; Publish order_message None] empty_persistence.

Lemma depot_store : boundary_store depot.
Proof. apply run_store; [by repeat constructor|exact empty_boundary]. Qed.

(** The order is leased first, although it was published last. *)
Definition order_lease (owner : string) (epoch expires : Z) : BoundaryLease :=
  mkBoundaryLease (delivery_id_of order_message) "order" owner epoch expires.
Definition slow_claim := claim_next "slow" 20 10 anything depot.
Lemma slow_claims : slow_claim = (Ok (Some (order_lease "slow" 1 30)), slow_claim.2).
Proof. apply pair_fst. vm_compute. reflexivity. Qed.

(** Published again, the order keeps its delivery. *)
Definition again : list action := [Publish order_message None].
Definition after_again : persistence := perform again slow_claim.2.
Definition quick_claim := claim_next "quick" 40 10 anything after_again.
Lemma quick_claims : quick_claim = (Ok (Some (order_lease "quick" 2 50)), quick_claim.2).
Proof. apply pair_fst. vm_compute. reflexivity. Qed.

Definition order_consumption : BoundaryConsumption :=
  mkBoundaryConsumption (deterministic_id "boundary-consumption"
     [PStr (delivery_id_of order_message); PStr "order"; PStr "carrier"; PStr "depot.announced"; PInt 1])
    (delivery_id_of order_message) "order" "carrier" "depot.announced" 1 "noted:order" 41.
Definition acknowledgement : list action := [Consume (order_lease "quick" 2 50) carrier 41].
Definition delivered : persistence := perform acknowledgement quick_claim.2.

Lemma slow_store : boundary_store slow_claim.2.
Proof. exact (proj1 (claim_store _ _ _ _ _ _ _ depot_store slow_claims)). Qed.
Lemma polite_again : Forall polite again.
Proof. by repeat constructor. Qed.
Lemma again_store : boundary_store after_again.
Proof. exact (proj1 (run_store again slow_claim.2 polite_again slow_store)). Qed.
Lemma quick_store : boundary_store quick_claim.2.
Proof. exact (proj1 (claim_store _ _ _ _ _ _ _ again_store quick_claims)). Qed.
Lemma polite_acknowledgement : Forall polite acknowledgement.
Proof. apply Forall_singleton. exact carrier_quiet. Qed.
Lemma delivered_store : boundary_store delivered.
Proof. exact (proj1 (run_store acknowledgement quick_claim.2 polite_acknowledgement quick_store)). Qed.

Lemma consumed_once_witness :
  consume (order_lease "slow" 1 30) ∅ 99 (perform again delivered) = (Ok order_consumption, perform again delivered).
Proof.
  refine (consumed_once delivered (order_lease "slow" 1 30) order_consumption again ∅ 99 delivered_store _ polite_again).
  vm_compute. reflexivity.
Defined.

(** While the order is leased, the next announcement that may be leased is the
    notice: the dispatch waits for its cause. *)
Definition notice_lease : BoundaryLease := mkBoundaryLease (delivery_id_of notice_message) "notice" "quick" 1 35.
Definition notice_claim := claim_next "quick" 25 10 anything after_again.
Lemma notice_claims : notice_claim = (Ok (Some notice_lease), notice_claim.2).
Proof. apply pair_fst. vm_compute. reflexivity. Qed.

Lemma lease_exclusive_witness : delivery_id_of notice_message ≠ delivery_id_of order_message.
Proof.
  exact (lease_exclusive "slow" 20 10 anything depot (order_lease "slow" 1 30) slow_claim.2 again "quick" 25 10 anything
    notice_lease notice_claim.2 depot_store slow_claims polite_again eq_refl notice_claims).
Defined.

Lemma stale_claim_fenced_witness :
  consume (order_lease "slow" 1 30) carrier 25 delivered
  = (match st_boundary_consumptions (mp_state delivered) !! delivery_id_of order_message with
     | Some c => Ok c
     | None => Err (StaleBoundaryClaimError ("stale boundary claim: " +:+ delivery_id_of order_message))
     end, delivered)
  ∧ (consume (order_lease "slow" 1 30) carrier 25 quick_claim.2).1
    = Err (StaleBoundaryClaimError ("stale boundary claim: " +:+ delivery_id_of order_message)).
Proof.
  split.
  - exact (stale_claim_fenced "slow" 20 10 anything depot (order_lease "slow" 1 30) slow_claim.2 again
      "quick" 40 10 anything (order_lease "quick" 2 50) quick_claim.2 acknowledgement carrier 25 depot_store slow_claims
      polite_again quick_claims eq_refl polite_acknowledgement).
  - vm_compute. reflexivity.
Defined.

Lemma causation_terminates_witness :
  follow_causes 7 dispatch_message ["dispatch"] (Some "order") (Some "boundary") (begin_uow (mp_state depot))
  = _validate_causation dispatch_message (begin_uow (mp_state depot)).
Proof. apply (causation_terminates dispatch_message (begin_uow (mp_state depot)) 7). vm_compute. lia. Defined.

(** Once the order is consumed, the dispatch is leased and consumed. *)
Definition dispatch_lease : BoundaryLease := mkBoundaryLease (delivery_id_of dispatch_message) "dispatch" "quick" 1 70.
Definition dispatching : list action :=
  [Elsewhere None (delete_command "order"); Claim "quick" 60 10 anything; Consume dispatch_lease carrier 61].
Definition all_delivered : persistence := perform dispatching delivered.
Lemma polite_dispatching : Forall polite dispatching.
Proof. apply Forall_cons; split; [done|]. apply Forall_cons; split; [done|]. apply Forall_singleton. exact carrier_quiet. Qed.

Lemma causal_order_witness :
  bmsg_produced_at order_message ≤ bmsg_produced_at dispatch_message
  ∧ is_Some (st_boundary_consumptions (mp_state all_delivered) !! delivery_id_of order_message).
Proof.
  destruct (causal_order delivered dispatching "dispatch" dispatch_message "order" order_message delivered_store
              polite_dispatching) as (_ & _ & Ht & Hc).
  - vm_compute. reflexivity.
  - by apply reaches_cause.
  - vm_compute. reflexivity.
  - split; [exact Ht|]. apply Hc. apply (bool_decide_unpack _). vm_compute. exact I.
Defined.

Lemma claim_order_witness :
  picked "slow" 20 10 anything (begin_uow (mp_state depot)) (mp_state slow_claim.2) (order_lease "slow" 1 30).
Proof. exact (claim_order "slow" 20 10 anything depot (Some (order_lease "slow" 1 30)) slow_claim.2 depot_store slow_claims). Defined.

Lemma order_eligible : eligible anything 20 (begin_uow (mp_state depot)) (new_delivery order_message) order_message.
Proof. split; vm_compute; reflexivity. Qed.


(** A shipment is announced to the logistics, whose acknowledgement stages the
    command that delivers it; once it is delivered, the effect is certified. *)
Definition ready_message : BoundaryMessage :=
  mkBoundaryMessage "ready" "warehouse.dispatch_ready" 1 "warehouse_fulfillment" "w1" "logistics" "ready" "order-7"
    None 10 text.1 text.2 None.
Definition deliver_command : Command :=
  mkCommand "deliver-s1" "composition.deliver_shipment" "shipment" "s1" 0 None None ∅ (Some "ready") (Some "order-7") (Some "sim").
Definition logistics : registry :=
  {[ (Some "warehouse_fulfillment", ("logistics", "warehouse.dispatch_ready", 1)) :=
       λ _, save_command deliver_command ;; mret "deliver-s1" ]}.
#[local] Instance logistics_quiet : QuietHandlers logistics.
Proof.
  intros k h m u Hk. unfold logistics in Hk. apply lookup_singleton_Some in Hk as [_ <-].
  unfold save_command, working, write. autorewrite with run. by repeat case_match.
Qed.

Definition shipment : Entity := mkEntity "s1" "shipment" "delivered" ∅ None None 3.
Definition shipping : list action :=
  [Publish ready_message None; Claim "lg" 20 10 (mkClaimScope (Some "logistics") None None None);
   Consume (mkBoundaryLease (delivery_id_of ready_message) "ready" "lg" 1 30) logistics 21;
   Elsewhere None (save_entity shipment)].
Definition shipped : persistence := perform shipping empty_persistence.
Lemma polite_shipping : Forall polite shipping.
Proof.
  apply Forall_cons; split; [done|]. apply Forall_cons; split; [done|]. apply Forall_cons; split; [exact logistics_quiet|].
  apply Forall_singleton. intros u. unfold save_entity, write. by autorewrite with run.
Qed.
Lemma shipped_store : boundary_store shipped.
Proof. exact (proj1 (run_store shipping empty_persistence polite_shipping empty_boundary)). Qed.

Definition shipment_certificate : BusinessEffectApplied := certificate "deliver-s1" ready_message shipment 40.

Lemma effect_certified_once_witness :
  complete "deliver-s1" 99 (complete "deliver-s1" 40 shipped).2
  = (Ok shipment_certificate, (complete "deliver-s1" 40 shipped).2).
Proof.
  assert (complete "deliver-s1" 40 shipped = (Ok shipment_certificate, (complete "deliver-s1" 40 shipped).2)) as E.
  { apply pair_fst. vm_compute. reflexivity. }
  destruct (effect_certified_once "deliver-s1" 40 shipped shipment_certificate _ 99 shipped_store E) as [Hagain _].
  exact Hagain.
Defined.
