(* ===== verification/Jobs.v ===== *)
(** * Simulation jobs

    [src/src/sose/jobs/model.py] and [jobs/runner.py]: the durable state of a
    job and [SimulationJob], which runs its ticks one by one and its triggers as
    durable batches, and takes up what a failure or the end of the process left.
    Of [domain/config.py], the part of a domain's definition a job uses.  The
    callbacks of a domain, its engine and the backend are parameters. *)
From S2P Require Import Prelude Encoding Records Memory MemoryFacts Warehouse Sinks Boundary.
From stdpp Require Import pretty.
Open Scope string_scope.
Open Scope Z_scope.

(** ** [jobs/model.py] *)

Definition CompletedJobTrigger_new (t : CompletedJobTrigger) : res CompletedJobTrigger :=
  fail_if (is_empty (cjt_trigger_id t)) (ValueError "trigger_id cannot be empty") ;;
  fail_if (cjt_requested_ticks t <? 1) (ValueError "requested_ticks must be >= 1") ;;
  fail_if ((cjt_start_tick t <? 0) || (cjt_end_tick t <? cjt_start_tick t)) (ValueError "invalid completed trigger tick range") ;;
  mret t.

Definition _require_non_negative (value : Z) (label : string) : res unit :=
  fail_if (value <? 0) (ValueError (label +:+ " must be >= 0")).

Definition unique_nonempty (ids : list string) : bool :=
  forallb (λ i, negb (is_empty i)) ids && bool_decide (NoDup ids).

Definition SimulationJobState_new (s : SimulationJobState) : res SimulationJobState :=
  fail_if (is_empty (job_job_id s)) (ValueError "job_id cannot be empty") ;;
  fail_if (is_empty (job_domain_name s)) (ValueError "domain_name cannot be empty") ;;
  fail_if (job_config_revision s <? 1) (ValueError "config_revision must be >= 1") ;;
  _require_non_negative (job_next_tick s) "next_tick" ;;
  _require_non_negative (job_run_count s) "run_count" ;;
  _require_non_negative (job_active_batch_total_ticks s) "active_batch_total_ticks" ;;
  _require_non_negative (job_active_batch_completed_ticks s) "active_batch_completed_ticks" ;;
  fail_if (job_active_batch_total_ticks s <? job_active_batch_completed_ticks s)
    (ValueError "active_batch_completed_ticks cannot exceed active_batch_total_ticks") ;;
  _require_non_negative (job_last_completed_batch_ticks s) "last_completed_batch_ticks" ;;
  fail_if (negb (unique_nonempty (job_active_effect_ids s)))
    (ValueError "active recovery effects require unique nonempty identities") ;;
  fail_if (negb (unique_nonempty (job_active_boundary_message_ids s)))
    (ValueError "active recovery boundary messages require unique nonempty identities") ;;
  fail_if (negb (unique_nonempty (job_active_publication_message_ids s)))
    (ValueError "active recovery publications require unique nonempty identities") ;;
  fail_if (negb (bool_decide (job_status s ∈ ["ready"; "running"; "paused"; "failed"])))
    (ValueError ("unsupported job status: " +:+ job_status s)) ;;
  fail_if (negb (bool_decide (job_phase s ∈ ["idle"; "advance"; "reconcile"])))
    (ValueError ("unsupported job phase: " +:+ job_phase s)) ;;
  mret s.

(** ** [domain/config.py] *)

(** A pydantic model of a configuration. *)
Class ConfigModel (Cfg : Type) := {
  config_default : res Cfg;
  model_validate : mapping → res Cfg;
  model_validate_json : string → res Cfg;
  model_dump : Cfg → mapping;
  model_dump_json : Cfg → string;
  model_fields : list string;
  config_field : Cfg → string → pyobj;
  config_eqb : Cfg → Cfg → bool;
  start_at : Cfg → datetime }.

(** [ConfigT | dict]. *)
Inductive config_arg (Cfg : Type) : Type :=
  | ConfigValue (config : Cfg)
  | ConfigDict (d : mapping).
Arguments ConfigValue {Cfg} config.
Arguments ConfigDict {Cfg} d.

Section config.
Context {Cfg : Type} `{!ConfigModel Cfg}.

Definition parse_config (value : option (config_arg Cfg)) : res Cfg :=
  match value with
  | None => config_default
  | Some (ConfigValue c) => mret c
  | Some (ConfigDict d) => model_validate d
  end.

Definition changed_config_fields (before after : Cfg) : list string :=
  filter (λ name, config_field before name ≠ config_field after name) model_fields.

Definition validate_runtime_config_change (mutable : list string) (before after : Cfg) : res (list string) :=
  let changed := changed_config_fields before after in
  let blocked := filter (λ name, name ∉ mutable) changed in
  fail_if (match blocked with [] => false | _ => true end)
    (ValueError ("configuration fields are bootstrap-only after initialization: " +:+ String.concat ", " (sort_on (λ name : string, name) blocked))) ;;
  mret changed.
End config.

(** ** [jobs/runner.py] *)

(** [s.replace(old, new)] of a nonempty [old]: the occurrences from the left. *)
Fixpoint replace_all (skip : nat) (old new s : string) : string :=
  match s, skip with
  | "", _ => ""
  | String _ s', S n => replace_all n old new s'
  | String c s', O =>
    if String.prefix old s then new +:+ replace_all (pred (String.length old)) old new s'
    else String c (replace_all 0 old new s')
  end.

Definition scheduled_trigger_id (job_id : string) (scheduled_for : datetime) : res string :=
  fail_if (blank job_id) (ValueError "job_id cannot be empty") ;;
  mret (job_id +:+ ":scheduled:" +:+ replace_all 0 "+00:00" "Z" (datetime_isoformat scheduled_for)).

Record JobTickResult := mkJobTickResult {
  tick_job_id : string;
  tick_domain_name : string;
  tick_config_revision : Z;
  tick_logical_time : datetime;
  tick_logical_tick : Z;
  tick_run_count : Z;
  tick_trigger_id : option string }.

Record JobTriggerResult := mkJobTriggerResult {
  trig_job_id : string;
  trig_domain_name : string;
  trig_trigger_id : string;
  trig_requested_ticks : Z;
  trig_completed_ticks : Z;
  trig_start_tick : Z;
  trig_end_tick : Z;
  trig_config_revision : Z;
  trig_logical_time : datetime;
  trig_run_count : Z }.

(** The objects a job works on: its store, the warehouse of its domain, its
    sinks, and whatever else its domain and backend keep. *)
Record objects (Wh Sk X : Type) := mkObjects { ob_warehouse : Wh; ob_sinks : Sk; ob_rest : X }.
Arguments mkObjects {Wh Sk X} _ _ _.
Arguments ob_warehouse {Wh Sk X} _.
Arguments ob_sinks {Wh Sk X} _.
Arguments ob_rest {Wh Sk X} _.
Notation job_world Wh Sk X := (persistence * objects Wh Sk X)%type.

(** [DomainDefinition]: the callbacks of a domain; [R] is what [build_runtime]
    builds, a context with its engine, and [B] a backend. *)
Record DomainDefinition (W Cfg R B : Type) := mkDomainDefinition {
  def_name : string;
  def_seed : Cfg → prog W (option pyobj);
  def_build_runtime : Cfg → datetime → Z → prog W R;
  def_reconcile_tick : option (R → B → Cfg → option pyobj → prog W unit);
  def_runtime_mutable_fields : list string }.
Arguments def_name {W Cfg R B} _.
Arguments def_seed {W Cfg R B} _ _.
Arguments def_build_runtime {W Cfg R B} _ _ _ _.
Arguments def_reconcile_tick {W Cfg R B} _.
Arguments def_runtime_mutable_fields {W Cfg R B} _.

(** The engine and the backend as a job uses them. *)
Class Runtime (W R B : Type) := {
  engine_owner_id : R → string;
  attach_warehouse : R → prog W unit;
  rebuild_backend : R → B → prog W unit;
  engine_advance_tick : R → prog W unit;
  clock_now : R → prog W datetime;
  run_until : B → option (datetime → prog W unit) }.

Record SimulationJob (W Cfg R B : Type) := mkSimulationJob {
  sj_job_id : string;
  sj_definition : DomainDefinition W Cfg R B;
  sj_backend_factory : datetime → prog W B;
  sj_ticks_per_trigger : Z;
  sj_max_ticks_per_trigger : Z;
  sj_sink_bindings : list string;
  sj_has_warehouse : bool }.
Arguments sj_job_id {W Cfg R B} _.
Arguments sj_definition {W Cfg R B} _.
Arguments sj_backend_factory {W Cfg R B} _ _.
Arguments sj_ticks_per_trigger {W Cfg R B} _.
Arguments sj_max_ticks_per_trigger {W Cfg R B} _.
Arguments sj_sink_bindings {W Cfg R B} _.
Arguments sj_has_warehouse {W Cfg R B} _.

Definition SimulationJob_new {W Cfg R B} (j : SimulationJob W Cfg R B) : res (SimulationJob W Cfg R B) :=
  fail_if (blank (sj_job_id j)) (ValueError "job_id cannot be empty") ;;
  fail_if (sj_ticks_per_trigger j <? 1) (ValueError "ticks_per_trigger must be >= 1") ;;
  fail_if (sj_max_ticks_per_trigger j <? 1) (ValueError "max_ticks_per_trigger must be >= 1") ;;
  fail_if (sj_max_ticks_per_trigger j <? sj_ticks_per_trigger j) (ValueError "ticks_per_trigger cannot exceed max_ticks_per_trigger") ;;
  mret j.

Section job.
Context {Cfg R B Wh Sk X : Type} `{!ConfigModel Cfg, !DomainWarehouse Wh, !Uuid5}.
Abbreviation W := (job_world Wh Sk X).
Abbreviation P := (prog W).
Context `{!Runtime W R B} (sink_of : string → AnalyticalSink Sk).
(** Where the process ends: in these worlds the next transaction is not reached. *)
Context (ends : W → bool).
Context (self : SimulationJob W Cfg R B).
Let job_id := sj_job_id self.
Let definition := sj_definition self.

(** [with self.persistence.transaction() as uow: body]. *)
Definition tx {A} (body : uprog A) : P A := λ w,
  if ends w then (Err (SystemExit ""), w) else focus fst (λ p w, (p, w.2)) (transaction None body) w.
Definition reads {A} (f : state → A) : P A := gets (λ w, f (mp_state w.1)).

(** The warehouse's outbox, and the outbox of the sinks. *)
Definition with_warehouse {A} (m : prog (persistence * Wh) A) : P A :=
  focus (λ w, (w.1, ob_warehouse w.2)) (λ pw w, (pw.1, mkObjects pw.2 (ob_sinks w.2) (ob_rest w.2))) m.
Definition with_sinks {A} (m : prog (persistence * Sk) A) : P A :=
  focus (λ w, (w.1, ob_sinks w.2)) (λ pk w, (pk.1, mkObjects (ob_warehouse w.2) pk.2 (ob_rest w.2))) m.

Definition state_of : P (option SimulationJobState) := reads (λ s, job_state s job_id).

Definition flush_domain_warehouse : P Z :=
  if sj_has_warehouse self then with_warehouse flush else mret 0.

Definition pending_sink_deliveries : P (list SinkDelivery) :=
  reads (λ s, filter (λ d, sdel_status d = "pending") (sink_deliveries s (Some job_id) None)).

(** The results of the sinks: the delivery, or the error. *)
Fixpoint flush_bindings (bindings : list string) (state : SimulationJobState) : P (list (string * option string)) :=
  match bindings with
  | [] => mret []
  | name :: bindings =>
    r ← except (d ← with_sinks (@flush_sink Sk (sink_of name) _ name state) ; mret (name, sdel_delivery_id <$> d))
               (λ e, mret (name, Some (exn_text e))) ;
    rs ← flush_bindings bindings state ;
    mret (r :: rs)
  end.
Definition flush_sinks : P (list (string * option string)) :=
  match sj_sink_bindings self with
  | [] => mret []
  | bindings =>
    state ← state_of ;
    match state with
    | Some state => if job_initialized state then flush_bindings bindings state else mret []
    | None => mret []
    end
  end.

(** *** Initialization and configuration *)

Definition other_domain (existing : SimulationJobState) : bool :=
  negb (eqb_of (job_domain_name existing) (def_name definition)).
Definition belongs_to_other (existing : SimulationJobState) : exn :=
  ValueError ("job " +:+ job_id +:+ " already belongs to " +:+ job_domain_name existing).

Definition finish_body (initialized : SimulationJobState) : uprog SimulationJobState :=
  current ← get_job_state job_id ;
  match current with
  | None => raise (RuntimeError ("job disappeared during initialization: " +:+ job_id))
  | Some current =>
    if job_initialized current then mret current else
    save_job_state initialized ;; mret initialized
  end.

Definition _finish_initialization (pending : SimulationJobState) : P SimulationJobState :=
  config ← lift (model_validate_json (job_config_json pending)) ;
  bootstrap_state ← def_seed definition config ;
  flush_domain_warehouse ;;
  initialized ← lift (SimulationJobState_new
    (pending <| job_initialized := true |> <| job_bootstrap_state := bootstrap_state |>
       <| job_status := "ready" |> <| job_last_error := None |>)) ;
  tx (finish_body initialized).

Definition claim_identity (pending : SimulationJobState) : uprog SimulationJobState :=
  concurrent ← get_job_state job_id ;
  match concurrent with
  | Some concurrent =>
    raise_if (other_domain concurrent) (belongs_to_other concurrent) ;; mret concurrent
  | None => save_job_state pending ;; mret pending
  end.

(** The registration guard is a lock of the operating system or the database. *)
Definition initialize (config : option (config_arg Cfg)) : P SimulationJobState :=
  raise_if (is_empty job_id) (ValueError "job registration requires a nonempty identity") ;;
  existing ← state_of ;
  match existing with
  | Some existing =>
    raise_if (other_domain existing) (belongs_to_other existing) ;;
    if job_initialized existing then mret existing else _finish_initialization existing
  | None =>
    resolved ← lift (parse_config config) ;
    pending ← lift (SimulationJobState_new
      (mkSimulationJobState job_id (def_name definition) (model_dump_json resolved) 1 "ready" false (start_at resolved) 0
         0 None None None None None 0 0 None 0 [] "idle" None [] [] [])) ;
    pending ← tx (claim_identity pending) ;
    if job_initialized pending then mret pending else _finish_initialization pending
  end.

Definition update_body (current updated : SimulationJobState) : uprog unit :=
  latest ← get_job_state job_id ;
  match latest with
  | None => raise (RuntimeError ("job disappeared while updating config: " +:+ job_id))
  | Some latest =>
    raise_if (negb (job_config_revision latest =? job_config_revision current))
      (RuntimeError ("job config changed concurrently: " +:+ job_id)) ;;
    save_job_state updated
  end.

Definition update_config (config : config_arg Cfg) : P SimulationJobState :=
  current ← state_of ;
  match current with
  | None => raise (RuntimeError ("job is not initialized: " +:+ job_id))
  | Some current =>
    raise_if (bool_decide (job_active_trigger_id current ≠ None ∨ job_active_batch_trigger_id current ≠ None))
      (RuntimeError ("cannot change config while trigger is unresolved: " +:+ job_id)) ;;
    previous ← lift (model_validate_json (job_config_json current)) ;
    resolved ← lift (parse_config (Some (match config with
                                         | ConfigDict d => ConfigDict (d ∪ model_dump previous)
                                         | ConfigValue c => ConfigValue c
                                         end))) ;
    (if job_initialized current
     then lift (validate_runtime_config_change (def_runtime_mutable_fields definition) previous resolved) ;; mret tt
     else mret tt) ;;
    updated ← lift (SimulationJobState_new
      (current <| job_config_json := model_dump_json resolved |> <| job_config_revision := job_config_revision current + 1 |>
         <| job_last_error := None |>)) ;
    tx (update_body current updated) ;;
    mret updated
  end.

Definition apply_config (config : config_arg Cfg) : P SimulationJobState :=
  current ← state_of ;
  match current with
  | None => initialize (Some config)
  | Some current =>
    resolved ← lift (parse_config (Some config)) ;
    persisted ← lift (model_validate_json (job_config_json current)) ;
    if config_eqb resolved persisted then mret current else update_config (ConfigValue resolved)
  end.

Definition _set_status (status : string) : P SimulationJobState :=
  current ← state_of ;
  match current with
  | None => raise (RuntimeError ("job is not initialized: " +:+ job_id))
  | Some current =>
    raise_if (bool_decide (job_status current = "running" ∨ job_active_batch_trigger_id current ≠ None))
      (RuntimeError ("cannot change status while job trigger is active: " +:+ job_id)) ;;
    raise_if (bool_decide (status = "ready" ∧ job_status current = "failed" ∧ job_active_trigger_id current ≠ None))
      (RuntimeError ("failed trigger must be recovered before resume: " +:+ job_id)) ;;
    updated ← lift (SimulationJobState_new (current <| job_status := status |>)) ;
    tx (save_job_state updated) ;;
    mret updated
  end.
Definition pause : P SimulationJobState := _set_status "paused".
Definition resume : P SimulationJobState := _set_status "ready".

Definition _initialized_state : P SimulationJobState :=
  state ← state_of ;
  match state with
  | None => initialize None
  | Some state => if job_initialized state then mret state else _finish_initialization state
  end.

(** *** Batches *)

Definition _batch_record (state : SimulationJobState) (trigger_id : string) : option CompletedJobTrigger :=
  List.find (λ item, eqb_of (cjt_trigger_id item) trigger_id) (job_completed_batch_triggers state).

Definition _batch_result (record : CompletedJobTrigger) : JobTriggerResult :=
  mkJobTriggerResult job_id (def_name definition) (cjt_trigger_id record) (cjt_requested_ticks record) (cjt_requested_ticks record)
    (cjt_start_tick record) (cjt_end_tick record) (cjt_config_revision record) (cjt_logical_time record) (cjt_run_count record).

Definition different_ticks (ticks : option Z) (requested : Z) : bool :=
  match ticks with Some t => negb (t =? requested) | None => false end.
Definition different_tick_count : exn := RuntimeError "cannot recover batch trigger with a different tick count".

Definition _requested_ticks (state : SimulationJobState) (trigger_id : string) (ticks : option Z) : res Z :=
  if eqb_of (job_active_batch_trigger_id state) (Some trigger_id) then
    let requested := job_active_batch_total_ticks state in
    fail_if (different_ticks ticks requested) different_tick_count ;; mret requested
  else
    let requested := default (sj_ticks_per_trigger self) ticks in
    fail_if (requested <? 1) (ValueError "ticks must be >= 1") ;;
    fail_if (sj_max_ticks_per_trigger self <? requested)
      (ValueError ("ticks exceeds max_ticks_per_trigger=" +:+ pretty (sj_max_ticks_per_trigger self))) ;;
    mret requested.

Definition unresolved_batch (trigger : string) : exn :=
  RuntimeError ("job has unresolved batch trigger: " +:+ job_id +:+ " (trigger=" +:+ trigger +:+ ")").

Definition _claim_existing_batch (latest : SimulationJobState) (trigger_id : string) (ticks : option Z) (recover : bool) :
    res (option (SimulationJobState * Z)) :=
  match job_active_batch_trigger_id latest with
  | None => mret None
  | Some active =>
    fail_if (negb (eqb_of active trigger_id)) (unresolved_batch active) ;;
    let requested_ticks := job_active_batch_total_ticks latest in
    fail_if (different_ticks ticks requested_ticks) different_tick_count ;;
    fail_if (negb recover && (job_active_batch_completed_ticks latest <? requested_ticks))
      (RuntimeError ("batch trigger requires explicit recovery: " +:+ trigger_id)) ;;
    mret (Some (latest, requested_ticks))
  end.

Definition _validate_idle_for_batch_trigger (latest : SimulationJobState) : res unit :=
  fail_if (negb (bool_decide (job_status latest = "ready" ∧ job_phase latest = "idle" ∧ job_active_trigger_id latest = None)))
    (RuntimeError ("job is not idle for batch trigger: " +:+ job_id)).

(** A claim: the claimed state and the number of its ticks, or the record of the completed trigger. *)
Definition claim_batch_body (trigger_id : string) (requested_ticks : Z) (ticks : option Z) (recover : bool) :
    uprog ((SimulationJobState * Z) + CompletedJobTrigger) :=
  latest ← get_job_state job_id ;
  match latest with
  | None => raise (RuntimeError ("job disappeared before batch trigger claim: " +:+ job_id))
  | Some latest =>
    match _batch_record latest trigger_id with
    | Some completed => mret (inr completed)
    | None =>
      active_claim ← lift (_claim_existing_batch latest trigger_id ticks recover) ;
      match active_claim with
      | Some claim => mret (inl claim)
      | None =>
        lift (_validate_idle_for_batch_trigger latest) ;;
        claimed ← lift (SimulationJobState_new
          (latest <| job_active_batch_trigger_id := Some trigger_id |> <| job_active_batch_total_ticks := requested_ticks |>
             <| job_active_batch_completed_ticks := 0 |>)) ;
        save_job_state claimed ;;
        mret (inl (claimed, requested_ticks))
      end
    end
  end.
Definition _claim_batch_trigger (trigger_id : string) (requested_ticks : Z) (ticks : option Z) (recover : bool) :
    P ((SimulationJobState * Z) + CompletedJobTrigger) :=
  tx (claim_batch_body trigger_id requested_ticks ticks recover).

Definition ownership_lost : exn := RuntimeError ("batch trigger ownership was lost: " +:+ job_id).

Definition progress_body (trigger_id : string) (completed : Z) : uprog unit :=
  latest ← get_job_state job_id ;
  match latest with
  | None => raise (RuntimeError ("job disappeared during batch trigger: " +:+ job_id))
  | Some latest =>
    raise_if (negb (eqb_of (job_active_batch_trigger_id latest) (Some trigger_id))) ownership_lost ;;
    progressed ← lift (SimulationJobState_new (latest <| job_active_batch_completed_ticks := completed |>)) ;
    save_job_state progressed
  end.
Definition _save_batch_progress (trigger_id : string) (completed : Z) : P unit := tx (progress_body trigger_id completed).

Definition finalize_body (trigger_id : string) (requested_ticks start_tick : Z) : uprog SimulationJobState :=
  latest ← get_job_state job_id ;
  match latest with
  | None => raise (RuntimeError ("job disappeared while completing batch trigger: " +:+ job_id))
  | Some latest =>
    raise_if (negb (eqb_of (job_active_batch_trigger_id latest) (Some trigger_id))) ownership_lost ;;
    completed_record ← lift (CompletedJobTrigger_new
      (mkCompletedJobTrigger trigger_id requested_ticks start_tick (job_next_tick latest) (job_config_revision latest)
         (job_logical_time latest) (job_run_count latest))) ;
    finished ← lift (SimulationJobState_new
      (latest <| job_active_batch_trigger_id := None |> <| job_active_batch_total_ticks := 0 |>
         <| job_active_batch_completed_ticks := 0 |> <| job_last_completed_batch_trigger_id := Some trigger_id |>
         <| job_last_completed_batch_ticks := requested_ticks |>
         <| job_completed_batch_triggers := (job_completed_batch_triggers latest ++ [completed_record])%list |>)) ;
    save_job_state finished ;;
    mret finished
  end.
Definition _finalize_batch_trigger (trigger_id : string) (requested_ticks start_tick : Z) : P SimulationJobState :=
  tx (finalize_body trigger_id requested_ticks start_tick).

(** *** Ticks *)

Definition _result_from_state (state : SimulationJobState) : JobTickResult :=
  mkJobTickResult job_id (def_name definition) (job_config_revision state) (job_logical_time state) (job_next_tick state)
    (job_run_count state) (job_last_completed_trigger_id state).

Definition _tick_trigger_id (state : SimulationJobState) (trigger_id : option string) : string :=
  let generated := job_id +:+ ":tick:" +:+ pretty (job_next_tick state) +:+ ":run:" +:+ pretty (job_run_count state + 1) in
  match trigger_id with
  | Some t => if is_empty t then generated else t
  | None => generated
  end.

Definition _expected_batch_child (batch_trigger_id : string) (completed_ticks : Z) : string :=
  batch_trigger_id +:+ ":tick:" +:+ pretty (completed_ticks + 1).

(** [_ensure_tick_matches_batch] and [_validate_batch_ownership_for_tick] test the same of a state. *)
Definition _ensure_tick_matches_batch (state : SimulationJobState) (effective_trigger_id : string) : res unit :=
  match job_active_batch_trigger_id state with
  | None => mret tt
  | Some batch =>
    fail_if (negb (eqb_of effective_trigger_id (_expected_batch_child batch (job_active_batch_completed_ticks state))))
      (unresolved_batch batch)
  end.

(** [d1 or d2] of instants, which are truthy. *)
Definition or_else (d : option datetime) (d' : option datetime) : option datetime :=
  match d with Some d => Some d | None => d' end.

Definition _claim_tick_state (latest : SimulationJobState) (effective_trigger_id : string) (triggered_at : option datetime)
    (recover : bool) : res SimulationJobState :=
  let unresolved := bool_decide (job_active_trigger_id latest ≠ None ∧ job_status latest ∈ ["running"; "failed"]) in
  if negb unresolved then
    SimulationJobState_new
      (latest <| job_status := "running" |> <| job_phase := "advance" |> <| job_active_trigger_id := Some effective_trigger_id |>
         <| job_last_triggered_at := or_else triggered_at (Some (job_logical_time latest)) |> <| job_last_error := None |>)
  else
    fail_if (negb (recover && eqb_of (job_active_trigger_id latest) (Some effective_trigger_id)))
      (RuntimeError ("job has unresolved trigger: " +:+ job_id)) ;;
    SimulationJobState_new
      (latest <| job_status := "running" |> <| job_last_triggered_at := or_else triggered_at (job_last_triggered_at latest) |>
         <| job_last_error := None |>).

Definition claim_tick_body (state : SimulationJobState) (effective_trigger_id : string) (triggered_at : option datetime)
    (recover : bool) : uprog (SimulationJobState + JobTickResult) :=
  latest ← get_job_state job_id ;
  match latest with
  | None => raise (RuntimeError ("job disappeared before trigger claim: " +:+ job_id))
  | Some latest =>
    if eqb_of (job_last_completed_trigger_id latest) (Some effective_trigger_id) then mret (inr (_result_from_state latest)) else
    lift (_ensure_tick_matches_batch latest effective_trigger_id) ;;
    raise_if (bool_decide (job_active_batch_trigger_id latest = None ∧ job_active_batch_trigger_id state ≠ None))
      (RuntimeError ("batch trigger ownership changed before tick claim: " +:+ job_id)) ;;
    raise_if (eqb_of (job_status latest) "paused") (RuntimeError ("job is paused: " +:+ job_id)) ;;
    claimed ← lift (_claim_tick_state latest effective_trigger_id triggered_at recover) ;
    save_job_state claimed ;;
    mret (inl claimed)
  end.
Definition _claim_tick (state : SimulationJobState) (effective_trigger_id : string) (triggered_at : option datetime)
    (recover : bool) : P (SimulationJobState + JobTickResult) :=
  tx (claim_tick_body state effective_trigger_id triggered_at recover).

Definition owned_body (effective_trigger_id : string) (state : SimulationJobState) : uprog unit :=
  latest ← get_job_state job_id ;
  raise_if (match latest with
            | None => true
            | Some latest => negb (eqb_of (job_active_trigger_id latest) (Some effective_trigger_id))
            end) (RuntimeError ("job trigger ownership was lost: " +:+ job_id)) ;;
  save_job_state state.
Definition _save_tick_if_owned (effective_trigger_id : string) (state : SimulationJobState) : P unit :=
  tx (owned_body effective_trigger_id state).

Definition position_of : P (option SimulationPosition) :=
  position ← reads (λ s, simulation_position s job_id) ; lift position.

Definition _recover_reconcile_state (claimed : SimulationJobState) (effective_trigger_id : string)
    (position : option SimulationPosition) : P SimulationJobState :=
  match position with
  | None => mret claimed
  | Some position =>
    if negb (eqb_of (job_phase claimed) "advance") || (pos_logical_tick position <=? job_next_tick claimed) then mret claimed else
    running ← lift (SimulationJobState_new
      (claimed <| job_phase := "reconcile" |> <| job_logical_time := pos_logical_time position |>
         <| job_next_tick := pos_logical_tick position |>)) ;
    _save_tick_if_owned effective_trigger_id running ;;
    mret running
  end.

Definition _build_runtime_for_tick (config : Cfg) (logical_time : datetime) (logical_tick : Z) : P (R * B) :=
  engine ← def_build_runtime definition config logical_time logical_tick ;
  raise_if (negb (eqb_of (engine_owner_id engine) job_id)) (RuntimeError "domain runtime owner does not match configured job_id") ;;
  (if sj_has_warehouse self then attach_warehouse engine else mret tt) ;;
  backend ← sj_backend_factory self logical_time ;
  rebuild_backend engine backend ;;
  mret (engine, backend).

(** [if callable(run_until): run_until(context.clock.now)]. *)
Definition run_until_now (engine : R) (backend : B) : P unit :=
  match run_until backend with
  | Some run => now ← clock_now engine ; run now
  | None => mret tt
  end.

Definition no_position (msg : string) : P SimulationPosition :=
  committed ← position_of ;
  match committed with None => raise (RuntimeError msg) | Some p => mret p end.

Definition _advance_tick_runtime (config : Cfg) (running : SimulationJobState) (effective_trigger_id : string)
    (position : option SimulationPosition) : P (SimulationJobState * (R * B)) :=
  let logical_time := match position with None => start_at config | Some p => pos_logical_time p end in
  let logical_tick := match position with None => 0 | Some p => pos_logical_tick p end in
  running ← lift (SimulationJobState_new (running <| job_logical_time := logical_time |> <| job_next_tick := logical_tick |>)) ;
  _save_tick_if_owned effective_trigger_id running ;;
  runtime ← _build_runtime_for_tick config logical_time logical_tick ;
  engine_advance_tick runtime.1 ;;
  run_until_now runtime.1 runtime.2 ;;
  committed ← no_position "tick advance completed without durable simulation position" ;
  running ← lift (SimulationJobState_new
    (running <| job_phase := "reconcile" |> <| job_logical_time := pos_logical_time committed |>
       <| job_next_tick := pos_logical_tick committed |>)) ;
  _save_tick_if_owned effective_trigger_id running ;;
  mret (running, runtime).

Definition _build_reconcile_runtime (config : Cfg) (running : SimulationJobState) : P (SimulationJobState * (R * B)) :=
  committed ← no_position "reconcile phase requires durable simulation position" ;
  runtime ← _build_runtime_for_tick config (pos_logical_time committed) (pos_logical_tick committed) ;
  run_until_now runtime.1 runtime.2 ;;
  mret (running, runtime).

Definition _execute_tick_phase (config : Cfg) (claimed : SimulationJobState) (effective_trigger_id : string) :
    P (SimulationJobState * (R * B)) :=
  position ← position_of ;
  running ← _recover_reconcile_state claimed effective_trigger_id position ;
  if negb (eqb_of (job_phase running) "advance") then _build_reconcile_runtime config running
  else _advance_tick_runtime config running effective_trigger_id position.

Definition _run_reconcile_tick (running : SimulationJobState) (runtime : R * B) (config : Cfg) : P unit :=
  match def_reconcile_tick definition with
  | None => mret tt
  | Some reconcile =>
    reconcile runtime.1 runtime.2 config (job_bootstrap_state running) ;;
    run_until_now runtime.1 runtime.2
  end.

Definition _persist_completed_tick (running : SimulationJobState) (effective_trigger_id : string) : P SimulationJobState :=
  committed ← no_position "tick completed without a durable simulation position" ;
  completed ← lift (SimulationJobState_new
    (running <| job_status := "ready" |> <| job_phase := "idle" |> <| job_logical_time := pos_logical_time committed |>
       <| job_next_tick := pos_logical_tick committed |>
       <| job_run_count := Z.max (job_run_count running + 1) (pos_logical_tick committed) |> <| job_active_trigger_id := None |>
       <| job_last_completed_trigger_id := Some effective_trigger_id |> <| job_last_error := None |>)) ;
  _save_tick_if_owned effective_trigger_id completed ;;
  mret completed.

Definition _persist_failed_tick (claimed : SimulationJobState) (e : exn) : P unit :=
  latest ← state_of ;
  failed ← lift (SimulationJobState_new (default claimed latest <| job_status := "failed" |> <| job_last_error := Some (exn_text e) |>)) ;
  tx (save_job_state failed).

Definition tick_try (config : Cfg) (claimed : SimulationJobState) (effective_trigger_id : string) : P JobTickResult :=
  '(running, runtime) ← _execute_tick_phase config claimed effective_trigger_id ;
  _run_reconcile_tick running runtime config ;;
  completed ← _persist_completed_tick running effective_trigger_id ;
  flush_domain_warehouse ;;
  flush_sinks ;;
  mret (_result_from_state completed).

Definition run_tick (triggered_at : option datetime) (trigger_id : option string) (recover : bool) : P JobTickResult :=
  state ← _initialized_state ;
  flush_domain_warehouse ;;
  flush_sinks ;;
  let effective_trigger_id := _tick_trigger_id state trigger_id in
  lift (_ensure_tick_matches_batch state effective_trigger_id) ;;
  claimed_or_result ← _claim_tick state effective_trigger_id triggered_at recover ;
  match claimed_or_result with
  | inr result => mret result
  | inl claimed =>
    config ← lift (model_validate_json (job_config_json claimed)) ;
    except (tick_try config claimed effective_trigger_id) (λ e, _persist_failed_tick claimed e ;; raise e)
  end.

(** [while completed < requested_ticks: ...]: [n] ticks are left. *)
Fixpoint run_ticks (n : nat) (trigger_id : string) (completed : Z) (triggered_at : option datetime) (recover : bool) : P unit :=
  match n with
  | O => mret tt
  | S n =>
    run_tick triggered_at (Some (_expected_batch_child trigger_id completed)) recover ;;
    _save_batch_progress trigger_id (completed + 1) ;;
    run_ticks n trigger_id (completed + 1) triggered_at recover
  end.

Definition run_trigger (trigger_id : string) (ticks : option Z) (triggered_at : option datetime) (recover : bool) : P JobTriggerResult :=
  raise_if (is_empty trigger_id) (ValueError "trigger_id cannot be empty") ;;
  state ← _initialized_state ;
  requested_ticks ← lift (_requested_ticks state trigger_id ticks) ;
  match _batch_record state trigger_id with
  | Some completed_record => mret (_batch_result completed_record)
  | None =>
    claim ← _claim_batch_trigger trigger_id requested_ticks ticks recover ;
    match claim with
    | inr completed_record => mret (_batch_result completed_record)
    | inl (claimed, requested_ticks) =>
      let start_tick := job_next_tick claimed - job_active_batch_completed_ticks claimed in
      let completed := job_active_batch_completed_ticks claimed in
      run_ticks (Z.to_nat (requested_ticks - completed)) trigger_id completed triggered_at recover ;;
      finished ← _finalize_batch_trigger trigger_id requested_ticks start_tick ;
      mret (mkJobTriggerResult job_id (def_name definition) trigger_id requested_ticks requested_ticks start_tick
              (job_next_tick finished) (job_config_revision finished) (job_logical_time finished) (job_run_count finished))
    end
  end.

Definition run_scheduled_trigger (scheduled_for : datetime) (ticks : option Z) (recover : bool) : P JobTriggerResult :=
  trigger_id ← lift (scheduled_trigger_id job_id scheduled_for) ;
  run_trigger trigger_id ticks (Some scheduled_for) recover.
End job.
