(* ===== verification/JobsFacts.v ===== *)
(** * Runs of a job

    What the operations of [Jobs.v] do to the state of the job and to the logical
    tick of its simulation, whatever the domain, the sinks and the store do. *)
From S2P Require Import Prelude Encoding EncodingFacts Records Memory MemoryFacts Warehouse Sinks SinksFacts Boundary Jobs.
From Stdlib Require Import Ascii.
From stdpp Require Import pretty.
Open Scope string_scope.
Open Scope Z_scope.

(** ** Deliveries leave the jobs alone *)

Definition jobs_and_positions (s : state) := (st_job_states s, st_simulation_positions s).

Section deliveries.
Context {V : Type}.
Implicit Types (v : gmap string SimulationJobState * gmap string SimulationPosition).

Definition frame_body v {A} (body : uprog A) : Prop := keeps (λ u, jobs_and_positions (uow_working u) = v) body.
Definition frame v {A} (m : prog (persistence * V) A) : Prop := keeps (λ pw, jobs_and_positions (mp_state pw.1) = v) m.

Lemma frame_ptx v {A} (body : uprog A) : frame_body v body → frame v (ptx body).
Proof.
  intros Hb pw Hv. destruct (ptx body pw) as [r pw'] eqn:E. apply ptx_inv in E as [(e & _ & ->)|(a & u & Eb & _ & ->)]; [done|].
  specialize (Hb (begin_uow (mp_state pw.1)) Hv). by rewrite Eb in Hb.
Qed.

Lemma frame_attempt v {A} (m : prog V A) : frame v (attempt (on_warehouse m)).
Proof. intros pw Hv. unfold attempt, on_warehouse, focus. by destruct (m pw.2). Qed.

Lemma frame_write v (f : state → state) table k :
  (∀ s, jobs_and_positions (f s) = jobs_and_positions s) → frame_body v (write f table k).
Proof. intros Hf u Hv. cbn. by rewrite Hf. Qed.
End deliveries.

#[export] Hint Resolve frame_ptx frame_attempt frame_write : keeps.

Ltac frame_step := first
  [ apply keeps_bind; [|intros ?] | apply keeps_ret | apply keeps_raise | apply keeps_lift | apply keeps_raise_if | apply keeps_gets
  | apply keeps_if | apply keeps_option; [intros ?|] | apply frame_ptx; unfold frame_body | apply frame_attempt
  | apply frame_write; done | apply keeps_sum_each; intros ? | case_match ].

Lemma frame_flush {Wh} `{!DomainWarehouse Wh} v : frame (V:=Wh) v flush.
Proof.
  unfold flush, outbox_pending, preads, deliver, record_failure, delete_domain_delivery, save_domain_delivery, get_domain_delivery.
  unfold frame. repeat frame_step.
Qed.

Lemma frame_flush_sink {Sk} `{!AnalyticalSink Sk, !Uuid5} nm st v : frame (V:=Sk) v (flush_sink nm st).
Proof.
  unfold flush_sink, prepare, deliver_batch, pending, preads, prepare_body, _record_failed_delivery, failed_body, complete_body,
    settle_checkpoint, get_sink_delivery, get_sink_checkpoint, save_sink_delivery, save_sink_checkpoint, delete_sink_delivery.
  unfold frame. repeat frame_step.
Qed.

(** ** Guards *)

Lemma eqb_of_eq {A} `{EqDecision A} (x y : A) : eqb_of x y = true → x = y.
Proof. apply eqb_of_true. Qed.
Lemma eqb_of_ne {A} `{EqDecision A} (x y : A) : eqb_of x y = false → x ≠ y.
Proof. apply eqb_of_false. Qed.

Lemma state_new st st' : SimulationJobState_new st = Ok st' → st' = st.
Proof. unfold SimulationJobState_new, _require_non_negative. intros E. symmetry in E. repeat (apply res_bind_inv in E as (?&?&E)). by injection E. Qed.
Lemma record_new t t' : CompletedJobTrigger_new t = Ok t' → t' = t.
Proof. unfold CompletedJobTrigger_new. intros E. symmetry in E. repeat (apply res_bind_inv in E as (?&?&E)). by injection E. Qed.

(** The guards of a body, as they were tested. *)
Ltac guards := repeat match goal with
  | H : negb _ = false |- _ => apply negb_false_iff in H
  | H : negb _ = true |- _ => apply negb_true_iff in H
  | H : eqb_of _ _ = true |- _ => apply eqb_of_eq in H
  | H : eqb_of _ _ = false |- _ => apply eqb_of_ne in H
  | H : bool_decide _ = true |- _ => apply bool_decide_eq_true_1 in H
  | H : bool_decide _ = false |- _ => apply bool_decide_eq_false_1 in H
  | H : _ && _ = true |- _ => apply andb_true_iff in H as [? ?]
  | H : _ || _ = false |- _ => apply orb_false_iff in H as [? ?]
  | H : (_ <? _) = true |- _ => apply Z.ltb_lt in H
  | H : (_ <? _) = false |- _ => apply Z.ltb_ge in H
  | H : (_ <=? _) = true |- _ => apply Z.leb_le in H
  | H : (_ <=? _) = false |- _ => apply Z.leb_gt in H
  | H : SimulationJobState_new _ = Ok _ |- _ => apply state_new in H
  | H : CompletedJobTrigger_new _ = Ok _ |- _ => apply record_new in H
  | H : Ok _ = SimulationJobState_new _ |- _ => symmetry in H; apply state_new in H
  | H : Ok _ = CompletedJobTrigger_new _ |- _ => symmetry in H; apply record_new in H
  end; subst.

(** ** Identities *)

Lemma child_inj t k k' : _expected_batch_child t k = _expected_batch_child t k' → k = k'.
Proof.
  unfold _expected_batch_child. intros E. apply (inj (String.append t)), (inj (String.append ":tick:")), (inj pretty) in E. lia.
Qed.

Lemma child_nonempty t k : is_empty (_expected_batch_child t k) = false.
Proof. unfold _expected_batch_child, is_empty. by destruct t. Qed.

(** *** Occurrences of a schedule *)

Fixpoint no_plus (s : string) : bool :=
  match s with "" => true | String c s => negb (Ascii.eqb c "+"%char) && no_plus s end.

Lemma no_plus_app a b : no_plus (a +:+ b) = no_plus a && no_plus b.
Proof. induction a as [|c a IH]; [done|]. change (String c a +:+ b) with (String c (a +:+ b)). cbn. by rewrite IH, andb_assoc. Qed.

Lemma no_plus_dec w z : no_plus (dec w z) = true.
Proof.
  unfold dec. generalize (Z.to_N z). induction w as [|w IH]; intros m; [done|]. cbn [digits]. rewrite no_plus_app, IH.
  assert (m mod 10 < 10)%N as Hm by by apply N.mod_lt. cbn. rewrite andb_true_r. remember (m mod 10)%N as d.
  assert (d = 0 ∨ d = 1 ∨ d = 2 ∨ d = 3 ∨ d = 4 ∨ d = 5 ∨ d = 6 ∨ d = 7 ∨ d = 8 ∨ d = 9)%N as Hd by lia.
  clear - Hd. naive_solver.
Qed.

Lemma replace_offset p : no_plus p = true → replace_all 0 "+00:00" "Z" (p +:+ "+00:00") = p +:+ "Z".
Proof.
  induction p as [|c p IH]; [done|]. cbn [no_plus]. intros [Hc Hp]%andb_true_iff.
  change (String c p +:+ "+00:00") with (String c (p +:+ "+00:00")). cbn [replace_all].
  assert (String.prefix "+00:00" (String c (p +:+ "+00:00")) = false) as ->.
  { clear - Hc. by destruct c as [[] [] [] [] [] [] [] []]. }
  by rewrite IH.
Qed.

Lemma offset_last (d t1 h t2 m t3 s f z : string) :
  d +:+ t1 +:+ h +:+ t2 +:+ m +:+ t3 +:+ s +:+ f +:+ z = (d +:+ t1 +:+ h +:+ t2 +:+ m +:+ t3 +:+ s +:+ f) +:+ z.
Proof. by rewrite !string_app_assoc. Qed.

Lemma scheduled_text job_id a i :
  scheduled_trigger_id job_id a = Ok i → i = job_id +:+ ":scheduled:" +:+ replace_all 0 "+00:00" "Z" (datetime_isoformat a).
Proof.
  unfold scheduled_trigger_id. intros E. symmetry in E. apply res_bind_inv in E as ([] & _ & E).
  exact (f_equal (λ r, match r with Ok x => x | Err _ => i end) E).
Qed.

(** Two occurrences of a schedule have two triggers. *)
Lemma scheduled_trigger_id_inj job_id a b i :
  date_range (a / 86400000000) → date_range (b / 86400000000) →
  scheduled_trigger_id job_id a = Ok i → scheduled_trigger_id job_id b = Ok i → a = b.
Proof.
  intros Ha Hb ->%scheduled_text E%scheduled_text. symmetry in E.
  apply (inj (String.append job_id)), (inj (String.append ":scheduled:")) in E.
  assert (∀ us, ∃ p, no_plus p = true ∧ datetime_isoformat us = p +:+ "+00:00") as Hform.
  { intros us. unfold datetime_isoformat, date_isoformat. destruct (civil_from_days _) as [[y m] d].
    eexists. split; [|apply offset_last]. rewrite !no_plus_app, !no_plus_dec. case_bool_decide; [done|].
    by rewrite no_plus_app, no_plus_dec. }
  destruct (Hform a) as (p & Hp & Ep), (Hform b) as (q & Hq & Eq). rewrite Ep, Eq, !replace_offset in E by done.
  apply string_app_cancel in E as ->. apply datetime_isoformat_inj; [done..|congruence].
Qed.

(** ** Well-behaved domains

    The callbacks of a domain and its engine leave the state of the job alone; the
    logical tick is moved by [advance_tick] only, by one when it returns, and by one
    or not at all when it raises. *)
Section job.
Context {Cfg R B Wh Sk X : Type} `{!ConfigModel Cfg, !DomainWarehouse Wh, !Uuid5}.
Abbreviation W := (job_world Wh Sk X).
Abbreviation P := (prog W).
Context `{!Runtime W R B} (sink_of : string → AnalyticalSink Sk) (ends : W → bool) (self : SimulationJob W Cfg R B).
Implicit Types (w : W) (st : SimulationJobState).

Definition job_of w : option SimulationJobState := job_state (mp_state w.1) (sj_job_id self).
Definition tick_of w : Z := default 0 (pos_logical_tick <$> st_simulation_positions (mp_state w.1) !! sj_job_id self).

Definition at_job (o : option SimulationJobState) (k : Z) w : Prop := job_of w = o ∧ tick_of w = k.
Definition calm {A} (m : P A) : Prop := ∀ o k, keeps (at_job o k) m.

Class QuietDomain (runtime_tick : R → Z) : Prop := {
  quiet_seed config : calm (def_seed (sj_definition self) config);
  quiet_build config t k : calm (def_build_runtime (sj_definition self) config t k);
  built_tick config t k w r w' : def_build_runtime (sj_definition self) config t k w = (Ok r, w') → runtime_tick r = k;
  quiet_attach r : calm (attach_warehouse r);
  quiet_backend t : calm (sj_backend_factory self t);
  quiet_rebuild (r : R) (b : B) : calm (rebuild_backend r b);
  quiet_now (r : R) : calm (clock_now r);
  quiet_run_until (b : B) run t : run_until b = Some run → calm (run t);
  quiet_reconcile reconcile r b config bootstrap :
    def_reconcile_tick (sj_definition self) = Some reconcile → calm (reconcile r b config bootstrap);
  advance_ok r w w' : engine_advance_tick r w = (Ok tt, w') → runtime_tick r = tick_of w →
    job_of w' = job_of w ∧ tick_of w' = tick_of w + 1;
  advance_err r w e w' : engine_advance_tick r w = (Err e, w') → runtime_tick r = tick_of w →
    job_of w' = job_of w ∧ (tick_of w' = tick_of w ∨ tick_of w' = tick_of w + 1) }.

Lemma calm_pure {A} (m : P A) : (∀ w, (m w).2 = w) → calm m.
Proof. intros Hm o k w Hw. by rewrite Hm. Qed.
Lemma calm_bind {A C} (m : P A) (f : A → P C) : calm m → (∀ a, calm (f a)) → calm (m ≫= f).
Proof. intros Hm Hf o k. apply keeps_bind; [apply Hm|]. intros a. apply Hf. Qed.
Lemma calm_except {A} (m : P A) h : calm m → (∀ e, calm (h e)) → calm (except m h).
Proof.
  intros Hm Hh o k w Hw. specialize (Hm o k w Hw). unfold except. destruct (m w) as [[a|e] w'] eqn:E; cbn in *; [done|].
  destruct e; try (by apply Hh). done.
Qed.

Lemma calm_frame {V A} (get : W → persistence * V) put (m : prog (persistence * V) A) :
  (∀ w, (get w).1 = w.1) → (∀ pv w, (put pv w).1 = pv.1) → (∀ v, frame v m) → calm (focus get put m).
Proof.
  intros Hg Hp Hm o k w [Ho Hk]. pose proof (Hm _ (get w) eq_refl) as Hv. clear Hm. rename Hv into Hm. cbn in Hm. rewrite Hg in Hm.
  unfold focus. destruct (m (get w)) as [r pv]. cbn in *. injection Hm as Ej Eq. unfold at_job, job_of, tick_of, job_state in *.
  by rewrite Hp, Ej, Eq.
Qed.

Lemma calm_flush : calm (flush_domain_warehouse self).
Proof. unfold flush_domain_warehouse. case_match; [|by apply calm_pure]. apply calm_frame; [done..|]. intros v. apply frame_flush. Qed.

Lemma calm_sinks : calm (flush_sinks sink_of self).
Proof.
  unfold flush_sinks. case_match; [by apply calm_pure|]. apply calm_bind; [by apply calm_pure|]. intros o. case_match; [|by apply calm_pure].
  case_match; [|by apply calm_pure]. generalize (s :: l). intros bs. induction bs as [|nm bs IH]; cbn; [by apply calm_pure|].
  apply calm_bind; [|intros x; apply calm_bind; [done|intros y; by apply calm_pure]].
  apply calm_except; [|intros e; by apply calm_pure]. apply calm_bind; [|intros d; by apply calm_pure].
  apply calm_frame; [done..|]. intros v. apply frame_flush_sink.
Qed.

(** ** Transactions of a job *)

Definition saved w st : W := (w.1 <| mp_state ::= λ s, s <| st_job_states ::= <[job_job_id st := st]> |> |>, w.2).

(** A transaction of [Jobs.v] saves one state of the job, or none, or fails. *)
Definition saves {A} (body : uprog A) (Q : option SimulationJobState → A → option SimulationJobState → Prop) : Prop :=
  ∀ s a u, body (begin_uow s) = (Ok a, u) →
    (uow_working u = s ∧ Q (job_state s (sj_job_id self)) a None)
    ∨ ∃ st, uow_working u = s <| st_job_states ::= <[job_job_id st := st]> |> ∧ Q (job_state s (sj_job_id self)) a (Some st).

Lemma tx_saves {A} (body : uprog A) Q w r w' :
  saves body Q → tx ends body w = (r, w') →
  (w' = w ∧ ∃ e, r = Err e)
  ∨ ∃ a, r = Ok a ∧ ((w' = w ∧ Q (job_of w) a None) ∨ ∃ st, w' = saved w st ∧ Q (job_of w) a (Some st)).
Proof.
  intros Hb E. unfold tx in E. destruct (ends w); [injection E as <- <-; left; eauto|].
  change (ptx body w = (r, w')) in E. apply ptx_inv in E as [(e & -> & ->)|(a & u & Eb & -> & ->)]; [left; eauto|].
  right. exists a. split; [done|]. destruct (Hb _ _ _ Eb) as [[Eu HQ]|(st & Eu & HQ)].
  - left. split; [|done]. rewrite Eu. destruct w as [[] ?]. done.
  - right. exists st. split; [|done]. unfold saved. rewrite Eu. destruct w as [[] ?]. done.
Qed.

Lemma job_of_saved w st : job_job_id st = sj_job_id self → job_of (saved w st) = Some st.
Proof. intros E. unfold job_of, job_state, saved. cbn. rewrite E. apply lookup_insert_eq. Qed.
Lemma tick_of_saved w st : tick_of (saved w st) = tick_of w.
Proof. done. Qed.

Ltac saves_body := intros ? ? ? E; unfold get_job_state, save_job_state, working, write in E; inv_prog.

Lemma owned_saves child st :
  saves (owned_body self child st) (λ o _ saved_st, saved_st = Some st ∧ ∃ latest, o = Some latest ∧ job_active_trigger_id latest = Some child).
Proof.
  unfold owned_body. saves_body. right. eexists. split; [done|]. split; [done|].
  destruct (st_job_states (fork_state s) !! sj_job_id self) as [latest|] eqn:Eo; [|done]. guards. exists latest. by split.
Qed.

Lemma save_saves st : saves (save_job_state st) (λ _ _ saved_st, saved_st = Some st).
Proof. saves_body. right. by eexists. Qed.

Lemma progress_saves t k :
  saves (progress_body self t k) (λ o _ saved_st, ∃ latest, o = Some latest ∧ job_active_batch_trigger_id latest = Some t
    ∧ saved_st = Some (latest <| job_active_batch_completed_ticks := k |>)).
Proof. unfold progress_body. saves_body. guards. right. eexists. split; [done|]. eexists. split; [eassumption|done]. Qed.

Lemma finalize_saves t n start :
  saves (finalize_body self t n start) (λ o finished saved_st, ∃ latest, o = Some latest ∧ job_active_batch_trigger_id latest = Some t
    ∧ saved_st = Some finished
    ∧ finished = latest <| job_active_batch_trigger_id := None |> <| job_active_batch_total_ticks := 0 |>
         <| job_active_batch_completed_ticks := 0 |> <| job_last_completed_batch_trigger_id := Some t |>
         <| job_last_completed_batch_ticks := n |>
         <| job_completed_batch_triggers := (job_completed_batch_triggers latest ++
              [mkCompletedJobTrigger t n start (job_next_tick latest) (job_config_revision latest) (job_logical_time latest) (job_run_count latest)])%list |>).
Proof. unfold finalize_body. saves_body. guards. right. eexists. split; [done|]. eexists. split; [eassumption|done]. Qed.

Lemma claim_none latest t ticks recover :
  Ok None = _claim_existing_batch self latest t ticks recover → job_active_batch_trigger_id latest = None.
Proof.
  unfold _claim_existing_batch. case_match; [|done]. intros E.
  repeat (apply res_bind_inv in E as (?&?&E)). done.
Qed.

Lemma claim_batch_saves t n ticks recover :
  saves (claim_batch_body self t n ticks recover) (λ o claim saved_st, ∃ latest, o = Some latest ∧
    match claim with
    | inr record => _batch_record latest t = Some record ∧ saved_st = None
    | inl (claimed, requested) => _batch_record latest t = None ∧
        (saved_st = None ∧ _claim_existing_batch self latest t ticks recover = Ok (Some (claimed, requested))
         ∨ saved_st = Some claimed ∧ requested = n ∧ job_active_batch_trigger_id latest = None
           ∧ _validate_idle_for_batch_trigger self latest = Ok tt
           ∧ claimed = latest <| job_active_batch_trigger_id := Some t |> <| job_active_batch_total_ticks := n |>
                              <| job_active_batch_completed_ticks := 0 |>)
    end).
Proof.
  unfold claim_batch_body. saves_body; guards; [left; split; [done|]; eexists; (split; [eassumption|]); done| |].
  - left. split; [done|]. eexists. split; [eassumption|]. destruct p as [claimed requested]. split; [done|]. by left.
  - right. eexists. split; [done|]. eexists. split; [eassumption|]. split; [done|]. right.
    match goal with H : Ok x = _ |- _ => destruct x; symmetry in H end. split_and!; try done. by eapply claim_none.
Qed.

Lemma claim_tick_saves st child ta recover :
  saves (claim_tick_body self st child ta recover) (λ o claim saved_st, ∃ latest, o = Some latest ∧
    match claim with
    | inr result => job_last_completed_trigger_id latest = Some child ∧ result = _result_from_state self latest ∧ saved_st = None
    | inl claimed => job_last_completed_trigger_id latest ≠ Some child ∧ saved_st = Some claimed
        ∧ _ensure_tick_matches_batch self latest child = Ok tt ∧ job_status latest ≠ "paused"
        ∧ _claim_tick_state self latest child ta recover = Ok claimed
    end).
Proof.
  unfold claim_tick_body. saves_body; guards; [left; split; [done|]; eexists; (split; [eassumption|]); done|].
  right. eexists. split; [done|]. eexists. split; [eassumption|].
  match goal with H : Ok x = _ |- _ => destruct x; symmetry in H end. by split_and!.
Qed.

(** ** The stages of a batch *)

(** A batch [t] of [n] ticks that began at tick [first], of which [k] are counted. *)
Record in_batch (t : string) (n first k : Z) st : Prop := {
  ib_id : job_job_id st = sj_job_id self;
  ib_initialized : job_initialized st = true;
  ib_batch : job_active_batch_trigger_id st = Some t;
  ib_total : job_active_batch_total_ticks st = n;
  ib_completed : job_active_batch_completed_ticks st = k;
  ib_count : 0 ≤ k ≤ n ∧ 1 ≤ n;
  ib_first : 0 ≤ first;
  ib_record : _batch_record st t = None }.

(** Where its next tick stands. *)
Inductive tick_stage : Type := Waiting | Claimed | Advanced | Completed.
Definition at_stage (t : string) (n first k : Z) (stage : tick_stage) st (tick : Z) : Prop :=
  let child := _expected_batch_child t k in
  in_batch t n first k st ∧ (stage ≠ Waiting → k < n) ∧
  match stage with
  | Waiting => job_active_trigger_id st = None ∧ job_last_completed_trigger_id st ≠ Some child
      ∧ job_next_tick st = first + k ∧ tick = first + k
  | Claimed => job_active_trigger_id st = Some child ∧ job_last_completed_trigger_id st ≠ Some child
      ∧ job_status st ∈ ["running"; "failed"] ∧ job_phase st = "advance"
      ∧ job_next_tick st = first + k ∧ (tick = first + k ∨ tick = first + k + 1)
  | Advanced => job_active_trigger_id st = Some child ∧ job_last_completed_trigger_id st ≠ Some child
      ∧ job_status st ∈ ["running"; "failed"] ∧ job_phase st = "reconcile"
      ∧ job_next_tick st = first + k + 1 ∧ tick = first + k + 1
  | Completed => job_active_trigger_id st = None ∧ job_last_completed_trigger_id st = Some child
      ∧ job_next_tick st = first + k + 1 ∧ tick = first + k + 1
  end.

Definition holds (Q : SimulationJobState → Z → Prop) w : Prop := ∃ st, job_of w = Some st ∧ Q st (tick_of w).

Lemma calm_keeps {A} (m : P A) w r w' : calm m → m w = (r, w') → job_of w' = job_of w ∧ tick_of w' = tick_of w.
Proof. intros Hm E. specialize (Hm (job_of w) (tick_of w) w (conj eq_refl eq_refl)). by rewrite E in Hm. Qed.

Lemma holds_saved Q w st : job_job_id st = sj_job_id self → Q st (tick_of w) → holds Q (saved w st).
Proof. intros Hid HQ. exists st. by rewrite job_of_saved. Qed.

Lemma position_inv w r w' :
  position_of self w = (r, w') → w' = w ∧ ((∃ e, r = Err e) ∨ r = Ok (st_simulation_positions (mp_state w.1) !! sj_job_id self)).
Proof.
  unfold position_of, reads. intros E. rewrite run_gets in E. apply lift_inv in E as [-> ->]. split; [done|].
  unfold simulation_position, owned, fail_if. case_match; [left; by eexists|by right].
Qed.
Lemma no_position_inv msg w r w' :
  no_position self msg w = (r, w') → w' = w ∧ ((∃ e, r = Err e) ∨ ∃ p, r = Ok p ∧ pos_logical_tick p = tick_of w).
Proof.
  unfold no_position. intros E. apply bind_inv in E as [(o & w1 & E1 & E)|(e & E1 & ->)]; apply position_inv in E1 as [-> Ho].
  - destruct Ho as [[? ?]|[= ->]]; [done|]. unfold tick_of. destruct (_ !! _) as [p|] eqn:Ep; inv_prog; eauto 6.
  - split; [done|]. left. eauto.
Qed.

Lemma initialized_state w st r w' : job_of w = Some st → job_initialized st = true → _initialized_state ends self w = (r, w') → r = Ok st ∧ w' = w.
Proof. intros Hj Hi E. unfold _initialized_state, state_of, reads in E. rewrite run_gets in E. fold (job_of w) in E. rewrite Hj, Hi in E. by injection E as <- <-. Qed.

Lemma trigger_parts t ticks ta recover w r w' st :
  job_of w = Some st → job_initialized st = true → run_trigger sink_of ends self t ticks ta recover w = (r, w') →
  (w' = w ∧ ∃ e, r = Err e)
  ∨ (∃ record, _batch_record st t = Some record ∧ r = Ok (_batch_result self record) ∧ w' = w)
  ∨ (∃ requested, _batch_record st t = None ∧ _requested_ticks self st t ticks = Ok requested ∧
     (claim ← _claim_batch_trigger ends self t requested ticks recover ;
      match claim with
      | inr completed_record => mret (_batch_result self completed_record)
      | inl (claimed, requested_ticks) =>
        let start_tick := job_next_tick claimed - job_active_batch_completed_ticks claimed in
        let completed := job_active_batch_completed_ticks claimed in
        run_ticks sink_of ends self (Z.to_nat (requested_ticks - completed)) t completed ta recover ;;
        finished ← _finalize_batch_trigger ends self t requested_ticks start_tick ;
        mret (mkJobTriggerResult (sj_job_id self) (def_name (sj_definition self)) t requested_ticks requested_ticks start_tick
                (job_next_tick finished) (job_config_revision finished) (job_logical_time finished) (job_run_count finished))
      end) w = (r, w')).
Proof.
  intros Hj Hi E. unfold run_trigger in E.
  apply bind_inv in E as [([] & w1 & E1 & E)|(e & E1 & ->)]; apply raise_if_inv in E1 as [_ ->]; [|left; eauto].
  apply bind_inv in E as [(st' & w1 & E1 & E)|(e & E1 & ->)]; apply (initialized_state _ st) in E1 as [E1 ->]; try done. injection E1 as ->.
  apply bind_inv in E as [(requested & w1 & E1 & E)|(e & E1 & ->)]; apply lift_inv in E1 as [E1 ->]; [|left; eauto].
  destruct (_batch_record st t) as [record|] eqn:Er; [injection E as <- <-; right; left; eauto|]. right; right. eauto.
Qed.

(** ** An unresolved batch *)

(** C20. A job with an unresolved batch lets nothing else in.  Another trigger, the
    same trigger without recovery, a tick that is not the batch's next one, a change
    of status and a change of configuration are all refused; the job keeps its state
    and the simulation its tick. *)
Theorem unresolved_batch_exclusive w st b :
  job_of w = Some st → job_initialized st = true → job_active_batch_trigger_id st = Some b →
  (∀ t ticks ta recover r w', _batch_record st t = None → t ≠ b ∨ (recover = false ∧ job_active_batch_completed_ticks st < job_active_batch_total_ticks st) →
     run_trigger sink_of ends self t ticks ta recover w = (r, w') → w' = w ∧ ∃ e, r = Err e)
  ∧ (∀ id ta recover r w', is_empty id = false → id ≠ _expected_batch_child b (job_active_batch_completed_ticks st) →
     run_tick sink_of ends self ta (Some id) recover w = (r, w') → job_of w' = job_of w ∧ tick_of w' = tick_of w ∧ ∃ e, r = Err e)
  ∧ (∀ status r w', _set_status ends self status w = (r, w') → w' = w ∧ ∃ e, r = Err e)
  ∧ (∀ config r w', update_config ends self config w = (r, w') → w' = w ∧ ∃ e, r = Err e).
Proof.
  intros Hj Hi Hb. split_and!.
  - intros t ticks ta recover r w' Hrec Hor E.
    destruct (trigger_parts _ _ _ _ _ _ _ _ Hj Hi E) as [?|[(record & Hr & _)|(requested & _ & Hreq & E')]]; [done|congruence|clear E].
    apply bind_inv in E' as [(claim & w1 & E1 & E)|(e & E1 & ->)]; unfold _claim_batch_trigger in E1;
      (eapply tx_saves in E1; [|apply claim_batch_saves]); (destruct E1 as [[-> [? [=]]]|(c & [=] & Hc)]; [..|]); eauto; try done. subst c.
    exfalso. assert (∀ o, _claim_existing_batch self st t ticks recover = Ok o → False) as Hno.
    { intros o Ho. unfold _claim_existing_batch in Ho. rewrite Hb in Ho. symmetry in Ho.
      apply res_bind_inv in Ho as ([] & Ht%fail_if_inv & Ho). apply res_bind_inv in Ho as ([] & _ & Ho).
      apply res_bind_inv in Ho as ([] & Hf%fail_if_inv & _). guards. destruct Hor as [?|[-> Hlt]]; [done|].
      cbn in Hf. guards. lia. }
    destruct Hc as [(_ & latest & Hl & Hc)|(saved_st & _ & latest & Hl & Hc)]; rewrite Hj in Hl; injection Hl as <-;
      destruct claim as [[claimed n]|record].
    + destruct Hc as [_ [[_ Hc]|([=] & _)]]. by eapply Hno.
    + destruct Hc. congruence.
    + destruct Hc as [_ [[[=] _]|(_ & _ & Hn & _)]]. congruence.
    + destruct Hc. congruence.
  - intros id ta recover r w' Hne Hid E. unfold run_tick in E.
    apply bind_inv in E as [(st' & w1 & E1 & E)|(e & E1 & ->)]; apply (initialized_state _ st) in E1 as [E1 ->]; try done. injection E1 as ->.
    assert (_tick_trigger_id self st (Some id) = id) as Heff by (unfold _tick_trigger_id; by rewrite Hne). rewrite Heff in E.
    apply bind_inv in E as [(z & w1 & E1 & E)|(e & E1 & ->)]; destruct (calm_keeps _ _ _ _ calm_flush E1) as [Hj1 Ht1]; [|eauto].
    apply bind_inv in E as [(z' & w2 & E2 & E)|(e & E2 & ->)]; destruct (calm_keeps _ _ _ _ calm_sinks E2) as [Hj2 Ht2];
      [|split_and!; [congruence..|eauto]].
    apply bind_inv in E as [([] & w3 & E3 & E)|(e & E3 & ->)]; apply lift_inv in E3 as [E3 ->]; [|split_and!; [congruence..|eauto]].
    exfalso. unfold _ensure_tick_matches_batch in E3. rewrite Hb in E3. symmetry in E3. apply fail_if_inv in E3. guards. done.
  - intros status r w' E. unfold _set_status, state_of, reads in E. rewrite run_gets in E. fold (job_of w) in E. rewrite Hj in E.
    apply bind_inv in E as [([] & w1 & E1 & E)|(e & E1 & ->)]; apply raise_if_inv in E1 as [E1 ->]; [|eauto].
    rewrite bool_decide_true in E1; [done|]. right. congruence.
  - intros config r w' E. unfold update_config, state_of, reads in E. rewrite run_gets in E. fold (job_of w) in E. rewrite Hj in E.
    apply bind_inv in E as [([] & w1 & E1 & E)|(e & E1 & ->)]; apply raise_if_inv in E1 as [E1 ->]; [|eauto].
    rewrite bool_decide_true in E1; [done|]. right. congruence.
Qed.

(** ** A tick *)

Section quiet.
Context (runtime_tick : R → Z) `{!QuietDomain runtime_tick}.

Lemma calm_run_until r b : calm (run_until_now r b).
Proof.
  unfold run_until_now. destruct (run_until b) as [run|] eqn:E; [|by apply calm_pure].
  apply calm_bind; [apply (quiet_now (runtime_tick:=runtime_tick))|]. intros now. by apply (quiet_run_until (runtime_tick:=runtime_tick) b).
Qed.

Lemma build_runtime config t k : calm (_build_runtime_for_tick self config t k).
Proof.
  unfold _build_runtime_for_tick. apply calm_bind; [apply (quiet_build (runtime_tick:=runtime_tick))|]. intros r.
  apply calm_bind; [by apply calm_pure|]. intros _. apply calm_bind.
  { case_match; [apply (quiet_attach (runtime_tick:=runtime_tick))|by apply calm_pure]. }
  intros _. apply calm_bind; [apply (quiet_backend (runtime_tick:=runtime_tick))|]. intros b.
  apply calm_bind; [apply (quiet_rebuild (runtime_tick:=runtime_tick))|]. intros _. by apply calm_pure.
Qed.

Lemma build_tick config t k w rt w' : _build_runtime_for_tick self config t k w = (Ok rt, w') → runtime_tick rt.1 = k.
Proof.
  unfold _build_runtime_for_tick. intros E. apply bind_inv in E as [(r & w1 & E1 & E)|(e & _ & [=])]. apply built_tick in E1.
  repeat (apply bind_inv in E as [(? & ? & _ & E)|(? & _ & [=])]). by injection E as <-.
Qed.

Lemma calm_reconcile running rt config : calm (_run_reconcile_tick self running rt config).
Proof.
  unfold _run_reconcile_tick. destruct (def_reconcile_tick _) eqn:E; [|by apply calm_pure].
  apply calm_bind; [by apply (quiet_reconcile (runtime_tick:=runtime_tick))|]. intros _. apply calm_run_until.
Qed.

Lemma save_owned child st w r w' :
  _save_tick_if_owned ends self child st w = (r, w') → (w' = w ∧ ∃ e, r = Err e) ∨ (r = Ok tt ∧ w' = saved w st).
Proof.
  unfold _save_tick_if_owned. intros E. eapply tx_saves in E; [|apply owned_saves].
  destruct E as [?|([] & -> & [(_ & [=] & _)|(st' & -> & [= <-] & _)])]; [by left|by right].
Qed.

Section batch.
Context (t : string) (n first k : Z).
Let child := _expected_batch_child t k.

(** A tick that is claimed and not yet completed. *)
Definition open_tick st (tick : Z) : Prop := at_stage t n first k Claimed st tick ∨ at_stage t n first k Advanced st tick.

Lemma in_batch_id st : in_batch t n first k st → job_job_id st = sj_job_id self.
Proof. apply ib_id. Qed.
Lemma open_id st tick : open_tick st tick → job_job_id st = sj_job_id self.
Proof. intros [[Hb _]|[Hb _]]; apply Hb. Qed.

(** Updates of a job's state that do not concern the batch. *)
Lemma in_batch_same st st' :
  in_batch t n first k st → job_job_id st' = job_job_id st → job_initialized st' = job_initialized st →
  job_active_batch_trigger_id st' = job_active_batch_trigger_id st →
  job_active_batch_total_ticks st' = job_active_batch_total_ticks st →
  job_active_batch_completed_ticks st' = job_active_batch_completed_ticks st →
  job_completed_batch_triggers st' = job_completed_batch_triggers st → in_batch t n first k st'.
Proof. intros [] ? ? ? ? ? Hc. split; try congruence. unfold _batch_record in *. by rewrite Hc. Qed.

(** Bringing the state of the job up to the position. *)
Lemma advanced_stage st p :
  open_tick st (first + k + 1) → job_status st = "running" → pos_logical_tick p = first + k + 1 →
  at_stage t n first k Advanced
    (st <| job_phase := "reconcile" |> <| job_logical_time := pos_logical_time p |> <| job_next_tick := pos_logical_tick p |>) (first + k + 1).
Proof.
  intros Hst Hr Hp. assert (in_batch t n first k st ∧ k < n ∧ job_active_trigger_id st = Some child ∧ job_last_completed_trigger_id st ≠ Some child) as (Hb & Hk & Ha & Hl).
  { destruct Hst as [(? & Hk & ? & ? & _)|(? & Hk & ? & ? & _)]; split_and!; try done; by apply Hk. }
  split; [by eapply in_batch_same|]. split; [done|]. cbn. rewrite Hr, Hp. split_and!; try done. set_solver.
Qed.

Lemma recover_stage claimed p w r w' :
  job_of w = Some claimed → open_tick claimed (tick_of w) → job_status claimed = "running" →
  p = st_simulation_positions (mp_state w.1) !! sj_job_id self →
  _recover_reconcile_state ends self claimed child p w = (r, w') →
  tick_of w' = tick_of w ∧ holds open_tick w' ∧
  ∀ running, r = Ok running → job_of w' = Some running ∧ job_status running = "running"
    ∧ open_tick running (tick_of w')
    ∧ (job_phase running = "advance" → tick_of w' = first + k) ∧ (job_phase running ≠ "advance" → at_stage t n first k Advanced running (tick_of w')).
Proof.
  intros Hj Hst Hr Hp E. unfold _recover_reconcile_state in E.
  assert (holds open_tick w) as Hw by (exists claimed; split; done).
  assert (w' = w → r = Ok claimed → (job_phase claimed = "advance" → tick_of w = first + k) → tick_of w' = tick_of w ∧ holds open_tick w' ∧
    ∀ running, r = Ok running → job_of w' = Some running ∧ job_status running = "running" ∧ open_tick running (tick_of w')
    ∧ (job_phase running = "advance" → tick_of w' = first + k) ∧ (job_phase running ≠ "advance" → at_stage t n first k Advanced running (tick_of w'))) as Hsame.
  { intros -> -> Hph. split_and!; [done..|]. intros running [= <-]. split_and!; try done.
    intros Hne. destruct Hst as [(_ & _ & _ & _ & _ & ? & _)|Hst]; done. }
  destruct p as [p|].
  - destruct (negb _ || _) eqn:Eg.
    + injection E as <- <-. apply Hsame; [done..|]. intros Hph. rewrite Hph in Eg. apply Z.leb_le in Eg.
      assert (tick_of w = pos_logical_tick p) as Ht by (unfold tick_of; by rewrite <- Hp).
      destruct Hst as [(_ & _ & _ & _ & _ & _ & Hn & [?|?])|(_ & _ & _ & _ & _ & Hph' & _)]; [done|lia|congruence].
    + guards. apply bind_inv in E as [(running & w1 & E1 & E)|(e & E1 & ->)]; apply lift_inv in E1 as [E1 ->]; [|by split_and!; auto].
      guards. apply bind_inv in E as [([] & w1 & E1 & E)|(e & E1 & ->)]; apply save_owned in E1 as [[-> [? ?]]|[? ->]]; try done.
      injection E as <- <-. assert (tick_of w = pos_logical_tick p) as Ht by (unfold tick_of; by rewrite <- Hp).
      assert (tick_of w = first + k + 1) as Htick.
      { destruct Hst as [(_ & _ & _ & _ & _ & _ & Hn & [?|?])|(_ & _ & _ & _ & _ & Hph' & _)]; [lia|done|congruence]. }
      assert (at_stage t n first k Advanced (claimed <| job_phase := "reconcile" |> <| job_logical_time := pos_logical_time p |>
        <| job_next_tick := pos_logical_tick p |>) (tick_of w)) as Hadv.
      { rewrite Htick. apply advanced_stage; [by rewrite <- Htick|done|congruence]. }
      assert (job_job_id claimed = sj_job_id self) as Hid by by eapply open_id.
      split_and!; [done| |].
      * apply holds_saved; [done|]. by right.
      * intros running [= <-]. rewrite job_of_saved by done. split_and!; try done. by right.
  - injection E as <- <-. apply Hsame; [done..|]. intros Hph.
    assert (tick_of w = 0) as Ht by (unfold tick_of; by rewrite <- Hp).
    destruct Hst as [(Hb & _ & _ & _ & _ & _ & Hn & [?|?])|(_ & _ & _ & _ & _ & Hph' & _)]; [done| |congruence].
    destruct Hb. lia.
Qed.

Lemma advance_stage config running position w r w' :
  job_of w = Some running → open_tick running (tick_of w) → job_status running = "running" → tick_of w = first + k →
  match position with None => 0 | Some p => pos_logical_tick p end = tick_of w →
  _advance_tick_runtime ends self config running child position w = (r, w') →
  holds open_tick w' ∧ ∀ st rt, r = Ok (st, rt) → job_of w' = Some st ∧ job_status st = "running" ∧ at_stage t n first k Advanced st (tick_of w').
Proof.
  intros Hj Hst Hr Ht Hp E. unfold _advance_tick_runtime in E. rewrite Hp in E.
  assert (∀ w1, job_of w1 = job_of w → tick_of w1 = tick_of w → holds open_tick w1) as Hsame.
  { intros w1 Hj1 Ht1. exists running. by rewrite Hj1, Ht1. }
  apply bind_inv in E as [(st1 & w1 & E1 & E)|(e & E1 & ->)]; apply lift_inv in E1 as [E1 ->]; [|split; [by apply Hsame|done]]. guards.
  set (st1 := running <| job_logical_time := _ |> <| job_next_tick := _ |>) in *.
  assert (open_tick st1 (first + k) ∧ job_status st1 = "running" ∧ job_job_id st1 = sj_job_id self) as (Hst1 & Hr1 & Hid1).
  { split_and!; [|done|by eapply (open_id running)]. left. rewrite Ht in Hst.
    destruct Hst as [(Hb & Hk & Ha & Hl & Hs & Hph & _)|(_ & _ & _ & _ & _ & _ & _ & ?)]; [|lia].
    split; [by eapply in_batch_same|]. split; [done|]. cbn. rewrite Ht. split_and!; try done. by left. }
  assert (open_tick st1 (first + k + 1)) as Hst1'.
  { left. destruct Hst1 as [(Hb & Hk & Ha & Hl & Hs & Hph & Hn & _)|(_ & _ & _ & _ & _ & _ & _ & ?)]; [|lia].
    split; [done|]. split; [done|]. split_and!; try done. by right. }
  apply bind_inv in E as [([] & w1 & E1 & E)|(e & E1 & ->)]; apply save_owned in E1 as [[-> [? [=]]]|[? ->]]; try done;
    [|split; [by apply Hsame|done]].
  assert (∀ w1, job_of w1 = Some st1 → (tick_of w1 = first + k ∨ tick_of w1 = first + k + 1) → holds open_tick w1) as Hopen.
  { intros w1 Hj1 [Ht1|Ht1]; exists st1; by rewrite Hj1, Ht1. }
  apply bind_inv in E as [(rt & w1 & E1 & E)|(e & E1 & ->)]; destruct (calm_keeps _ _ _ _ (build_runtime _ _ _) E1) as [Hj1 Ht1];
    rewrite job_of_saved in Hj1 by done; rewrite tick_of_saved, Ht in Ht1; [|split; [by apply Hopen; auto|done]].
  apply build_tick in E1.
  apply bind_inv in E as [([] & w2 & E2 & E)|(e & E2 & ->)]; [apply advance_ok in E2 as [Hj2 Ht2]|apply advance_err in E2 as [Hj2 Ht2]]; try congruence.
  2: { split; [|done]. apply Hopen; [congruence|]. rewrite <- Ht1. exact Ht2. }
  assert (tick_of w2 = first + k + 1) as Ht2' by lia.
  apply bind_inv in E as [([] & w3 & E3 & E)|(e & E3 & ->)]; destruct (calm_keeps _ _ _ _ (calm_run_until _ _) E3) as [Hj3 Ht3];
    [|split; [apply Hopen; [congruence|right; congruence]|done]].
  assert (holds open_tick w3) as H3 by (apply Hopen; [congruence|right; congruence]).
  apply bind_inv in E as [(p & w4 & E4 & E)|(e & E4 & ->)]; apply no_position_inv in E4 as [-> E4]; [|by split].
  destruct E4 as [[? [=]]|(? & [= <-] & Hp4)].
  apply bind_inv in E as [(st2 & w4 & E4 & E)|(e & E4 & ->)]; apply lift_inv in E4 as [E4 ->]; [|by split]. guards.
  assert (at_stage t n first k Advanced (st1 <| job_phase := "reconcile" |> <| job_logical_time := pos_logical_time p |>
    <| job_next_tick := pos_logical_tick p |>) (first + k + 1)) as Hadv by (apply advanced_stage; [done|done|congruence]).
  apply bind_inv in E as [([] & w5 & E5 & E)|(e & E5 & ->)]; apply save_owned in E5 as [[-> [? [=]]]|[? ->]]; try done.
  injection E as <- <-. assert (tick_of w3 = first + k + 1) as Ht3' by congruence. split.
  - apply holds_saved; [done|]. right. by rewrite Ht3'.
  - intros st rt' [= <- <-]. rewrite job_of_saved by done. rewrite tick_of_saved, Ht3'. by split_and!.
Qed.

Lemma calm_holds {A} (m : P A) Q w r w' : calm m → m w = (r, w') → holds Q w → holds Q w'.
Proof. intros Hm E (st & Hj & HQ). destruct (calm_keeps _ _ _ _ Hm E) as [Hj' Ht']. exists st. by rewrite Hj', Ht'. Qed.

Lemma execute_stage config claimed w r w' :
  job_of w = Some claimed → open_tick claimed (tick_of w) → job_status claimed = "running" →
  _execute_tick_phase ends self config claimed child w = (r, w') →
  holds open_tick w' ∧ ∀ st rt, r = Ok (st, rt) → job_of w' = Some st ∧ at_stage t n first k Advanced st (tick_of w').
Proof.
  intros Hj Hst Hr E. unfold _execute_tick_phase in E. assert (holds open_tick w) as Hw by by exists claimed.
  apply bind_inv in E as [(p & w1 & E1 & E)|(e & E1 & ->)]; apply position_inv in E1 as [-> Hp]; [|done].
  destruct Hp as [[? [=]]|[= ->]].
  apply bind_inv in E as [(running & w1 & E1 & E)|(e & E1 & ->)];
    destruct (recover_stage _ _ _ _ _ Hj Hst Hr eq_refl E1) as (Ht1 & Hw1 & Hrun); [|done].
  destruct (Hrun running eq_refl) as (Hj1 & Hr1 & Hopen & Hph & Hadv). destruct (negb _) eqn:Eph; guards.
  - specialize (Hadv Eph). unfold _build_reconcile_runtime in E.
    apply bind_inv in E as [(p & w2 & E2 & E)|(e & E2 & ->)]; apply no_position_inv in E2 as [-> _]; [|done].
    assert (∀ w2, job_of w2 = job_of w1 → tick_of w2 = tick_of w1 → holds open_tick w2) as Hsame.
    { intros w2 Hj2 Ht2. exists running. by rewrite Hj2, Ht2. }
    apply bind_inv in E as [(rt & w2 & E2 & E)|(e & E2 & ->)]; destruct (calm_keeps _ _ _ _ (build_runtime _ _ _) E2) as [Hj2 Ht2];
      [|split; [by apply Hsame|done]].
    apply bind_inv in E as [([] & w3 & E3 & E)|(e & E3 & ->)]; destruct (calm_keeps _ _ _ _ (calm_run_until _ _) E3) as [Hj3 Ht3];
      [|split; [apply Hsame; congruence|done]].
    injection E as <- <-. split; [apply Hsame; congruence|]. intros st rt' [= <- <-]. split; [congruence|].
    by rewrite Ht3, Ht2.
  - eapply advance_stage in E as [? Hok]; [..|apply Hph; done|]; try done.
    + split; [done|]. intros st rt ->. destruct (Hok st rt eq_refl) as (? & _ & ?). done.
    + rewrite Ht1. unfold tick_of. by destruct (_ !! _).
Qed.

Lemma complete_stage running w r w' :
  job_of w = Some running → at_stage t n first k Advanced running (tick_of w) →
  _persist_completed_tick ends self running child w = (r, w') →
  (w' = w ∧ ∃ e, r = Err e) ∨ (∃ completed, r = Ok completed ∧ job_of w' = Some completed ∧ at_stage t n first k Completed completed (tick_of w')).
Proof.
  intros Hj Hst E. unfold _persist_completed_tick in E.
  apply bind_inv in E as [(p & w1 & E1 & E)|(e & E1 & ->)]; apply no_position_inv in E1 as [-> Hp]; [|left; eauto].
  destruct Hp as [[? [=]]|(? & [= <-] & Hp)].
  apply bind_inv in E as [(st & w1 & E1 & E)|(e & E1 & ->)]; apply lift_inv in E1 as [E1 ->]; [|left; eauto]. guards.
  apply bind_inv in E as [([] & w1 & E1 & E)|(e & E1 & ->)]; apply save_owned in E1 as [[-> [? [=]]]|[? ->]]; try done; [|left; eauto].
  injection E as <- <-. right. eexists. split; [done|]. destruct Hst as (Hb & Hk & Ha & Hl & Hs & Hph & Hn & Htick).
  rewrite job_of_saved by apply Hb. split; [done|]. split; [by eapply in_batch_same|]. split; [by intros; apply Hk|].
  cbn. rewrite tick_of_saved, Hp. by split_and!.
Qed.

(** A tick of the batch is somewhere. *)
Definition underway w : Prop := ∃ stage, holds (at_stage t n first k stage) w.
Definition tick_done w : Prop := holds (at_stage t n first k Completed) w.

Lemma open_underway w : holds open_tick w → underway w.
Proof. intros (st & Hj & [Hs|Hs]); [exists Claimed|exists Advanced]; by exists st. Qed.

Lemma calm_underway {A} (m : P A) w r w' : calm m → m w = (r, w') → underway w → underway w'.
Proof. intros Hm E [stage Hs]. exists stage. by eapply calm_holds. Qed.

Lemma try_stage config claimed w r w' :
  job_of w = Some claimed → open_tick claimed (tick_of w) → job_status claimed = "running" →
  tick_try sink_of ends self config claimed child w = (r, w') → underway w' ∧ (is_ok r = true → tick_done w').
Proof.
  intros Hj Hst Hr E. unfold tick_try in E.
  apply bind_inv in E as [([st rt] & w1 & E1 & E)|(e & E1 & ->)]; destruct (execute_stage _ _ _ _ _ Hj Hst Hr E1) as [Hw1 Hok];
    [|split; [by apply open_underway|done]].
  destruct (Hok st rt eq_refl) as [Hj1 Hst1]. clear Hok E1.
  assert (∀ w2, job_of w2 = job_of w1 → tick_of w2 = tick_of w1 → underway w2) as Hsame.
  { intros w2 Hj2 Ht2. exists Advanced, st. by rewrite Hj2, Ht2. }
  apply bind_inv in E as [([] & w2 & E2 & E)|(e & E2 & ->)]; destruct (calm_keeps _ _ _ _ (calm_reconcile _ _ _) E2) as [Hj2 Ht2];
    [|split; [by apply Hsame|done]].
  apply bind_inv in E as [(c & w3 & E3 & E)|(e & E3 & ->)];
    (destruct (complete_stage st w2 _ _ ltac:(congruence) ltac:(by rewrite Ht2) E3) as [[-> [? ?]]|(c' & [=] & Hj3 & Hst3)]; try done);
    [|split; [by apply Hsame|done]].
  assert (tick_done w3) as H3 by by exists c'.
  apply bind_inv in E as [(z & w4 & E4 & E)|(e & E4 & ->)]; apply (calm_holds _ _ _ _ _ calm_flush E4) in H3; [|split; [by exists Completed|done]].
  apply bind_inv in E as [(l & w5 & E5 & E)|(e & E5 & ->)]; apply (calm_holds _ _ _ _ _ calm_sinks E5) in H3; [|split; [by exists Completed|done]].
  injection E as <- <-. split; [by exists Completed|done].
Qed.

Lemma failed_stage stage st tick error :
  at_stage t n first k stage st tick → at_stage t n first k stage (st <| job_status := "failed" |> <| job_last_error := error |>) tick.
Proof.
  intros (Hb & Hk & Hs). split; [by eapply in_batch_same|]. split; [done|].
  destruct stage; cbn; [done|..|done]; destruct Hs as (? & ? & _ & ?); split_and!; try done; set_solver.
Qed.

Lemma persist_failed claimed e w r w' : underway w → _persist_failed_tick ends self claimed e w = (r, w') → underway w'.
Proof.
  intros (stage & st & Hj & Hs) E. unfold _persist_failed_tick, state_of, reads in E. rewrite run_gets in E. fold (job_of w) in E.
  rewrite Hj in E. cbn [default] in E.
  apply bind_inv in E as [(f & w1 & E1 & E)|(x & E1 & ->)]; apply lift_inv in E1 as [E1 ->]; [|by exists stage, st]. guards.
  eapply tx_saves in E; [|apply save_saves]. destruct E as [[-> _]|([] & _ & [(_ & [=])|(f & -> & [= ->])])]; [by exists stage, st|].
  exists stage. apply holds_saved; [apply Hs|]. by apply failed_stage.
Qed.

Lemma claimed_tick stage st tick ta recover claimed :
  at_stage t n first k stage st tick → stage ≠ Completed → k < n → _claim_tick_state self st child ta recover = Ok claimed →
  open_tick claimed tick ∧ job_status claimed = "running" ∧ job_job_id claimed = sj_job_id self.
Proof.
  intros (Hb & _ & Hs) Hne Hk E. unfold _claim_tick_state in E. destruct (negb (bool_decide _)) eqn:Eu; guards.
  - assert (stage = Waiting) as ->.
    { destruct stage; try done; destruct Hs as (Ha & _ & Hst & _); exfalso; apply Eu; by rewrite Ha. }
    destruct Hs as (Ha & Hl & Hn & Ht). split_and!; [|done|apply Hb]. left. split; [by eapply in_batch_same|]. split; [done|]. cbn.
    split_and!; try done; [set_solver|by left].
  - symmetry in E. apply res_bind_inv in E as ([] & _ & E). guards. destruct Eu as [Ha _].
    split_and!; [|done|apply Hb]. destruct stage; [by destruct Hs as [? _]| | |done]; [left|right];
      (split; [by eapply in_batch_same|]; split; [done|]); destruct Hs as (? & ? & _ & ? & ? & ?); split_and!; try done; set_solver.
Qed.


(** A tick of the batch: it is done when [run_tick] returns, and wherever
    [run_tick] breaks off the batch is underway. *)
Lemma run_tick_stage ta recover w r w' :
  underway w → k < n → run_tick sink_of ends self ta (Some child) recover w = (r, w') → underway w' ∧ (is_ok r = true → tick_done w').
Proof.
  intros Hw Hk E. destruct Hw as (stage & st & Hj & Hs). pose proof Hs as (Hb & _ & _).
  assert (underway w) as Hw by by exists stage, st. unfold run_tick in E.
  apply bind_inv in E as [(st' & w1 & E1 & E)|(e & E1 & ->)]; apply (initialized_state _ st) in E1 as [E1 ->]; try apply Hb; try done.
  injection E1 as ->. assert (_tick_trigger_id self st (Some child) = child) as Hid by (unfold _tick_trigger_id, child; by rewrite child_nonempty).
  rewrite Hid in E. clear Hid.
  apply bind_inv in E as [(z & w1 & E1 & E)|(e & E1 & ->)]; pose proof (calm_underway _ _ _ _ calm_flush E1 Hw) as Hw1; [|done]. clear E1.
  apply bind_inv in E as [(z' & w2 & E2 & E)|(e & E2 & ->)]; pose proof (calm_underway _ _ _ _ calm_sinks E2 Hw1) as Hw2; [|done]. clear E2.
  apply bind_inv in E as [([] & w3 & E3 & E)|(e & E3 & ->)]; apply lift_inv in E3 as [_ ->]; [|done].
  apply bind_inv in E as [(claim & w3 & E3 & E)|(e & E3 & ->)]; unfold _claim_tick in E3;
    (eapply tx_saves in E3; [|apply claim_tick_saves]); destruct E3 as [[-> [? [=]]]|(c & [=] & Hc)]; try done. subst c.
  clear Hj Hs Hb Hw Hw1. destruct Hw2 as (stage2 & st2 & Hj2 & Hs2). pose proof Hs2 as (Hb2 & _ & _).
  destruct claim as [claimed|result].
  - destruct Hc as [(_ & latest & Hl & _ & [=] & _)|(saved_st & -> & latest & Hl & Hlast & [= ->] & _ & _ & Hclaim)].
    rewrite Hl in Hj2. injection Hj2 as ->. assert (stage2 ≠ Completed) as Hne by (intros ->; by destruct Hs2 as (_ & _ & _ & ? & _)).
    destruct (claimed_tick _ _ _ _ _ _ Hs2 Hne Hk Hclaim) as (Hopen & Hr & Hid).
    assert (job_of (saved w2 claimed) = Some claimed) as Hj3 by by apply job_of_saved.
    assert (underway (saved w2 claimed)) as Hw3 by by apply open_underway, holds_saved.
    apply bind_inv in E as [(config & w3 & E3 & E)|(e & E3 & ->)]; apply lift_inv in E3 as [_ ->]; [|done].
    unfold except in E. destruct (tick_try _ _ _ _ _ _ _) as [[a|e] w3] eqn:Et; destruct (try_stage _ _ _ _ _ Hj3 Hopen Hr Et) as [Hu Hd].
    + injection E as <- <-. by split.
    + destruct e; try (apply bind_inv in E as [([] & w4 & E4 & E)|(e & E4 & ->)]; pose proof (persist_failed _ _ _ _ _ Hu E4) as Hw4;
        [injection E as <- <-|]; by split).
      injection E as <- <-. by split.
  - destruct Hc as [(-> & latest & Hl & Hlast & _)|(saved_st & _ & latest & _ & _ & _ & [=])]. injection E as <- <-.
    rewrite Hl in Hj2. injection Hj2 as ->. split; [by exists stage2, st2|]. intros _. exists st2. split; [done|].
    destruct stage2; [..|done]; by destruct Hs2 as (_ & _ & _ & Hne & _).
Qed.
End batch.

(** ** A batch *)

Section trigger.
Context (t : string) (first : Z).

Lemma progress_stage n k w r w' :
  tick_done t n first k w → _save_batch_progress ends self t (k + 1) w = (r, w') →
  (w' = w ∧ ∃ e, r = Err e) ∨ (r = Ok tt ∧ holds (at_stage t n first (k + 1) Waiting) w').
Proof.
  intros (st & Hj & Hb & Hk & Ha & Hl & Hn & Ht) E. unfold _save_batch_progress in E. eapply tx_saves in E; [|apply progress_saves].
  destruct E as [?|([] & -> & [(_ & ? & _ & _ & [=])|(st' & -> & latest & Hlat & _ & [= ->])])]; [by left|right]. split; [done|].
  rewrite Hlat in Hj. injection Hj as ->. destruct Hb as [Hid Hi Hbt Htot Hc Hcount Hf Hrec]. apply holds_saved; [done|].
  assert (k < n) by by apply Hk. split; [by split; try done; cbn; lia|]. split; [done|]. cbn. rewrite Hl.
  split_and!; [done|by intros [= E%child_inj]; lia|lia|rewrite Ht; lia].
Qed.

Lemma run_ticks_stage n ta recover m k w r w' :
  m = Z.to_nat (n - k) → underway t n first k w → run_ticks sink_of ends self m t k ta recover w = (r, w') →
  (∃ k', underway t n first k' w') ∧ (is_ok r = true → holds (at_stage t n first n Waiting) w').
Proof.
  revert k w. induction m as [|m IH]; intros k w Hm Hw E; cbn [run_ticks] in E.
  - injection E as <- <-. split; [by exists k|]. intros _. destruct Hw as (stage & st & Hj & Hs). exists st. split; [done|].
    pose proof Hs as (Hb & Hk & _). assert (k = n) as -> by (destruct Hb; lia). destruct stage; [done|..]; exfalso; by apply (Z.lt_irrefl n), Hk.
  - assert (k < n) as Hk by lia.
    apply bind_inv in E as [(a & w1 & E1 & E)|(e & E1 & ->)]; destruct (run_tick_stage _ _ _ _ _ _ _ _ _ Hw Hk E1) as [Hw1 Hd];
      [|split; [by exists k|done]]. specialize (Hd eq_refl).
    apply bind_inv in E as [([] & w2 & E2 & E)|(e & E2 & ->)]; apply (progress_stage n) in E2; try done;
      destruct E2 as [[-> [? [=]]]|[[=] Hw2]]; try done; [|split; [by exists k|done]].
    eapply (IH (k + 1)); [lia|by exists Waiting|exact E].
Qed.

(** The trigger is on record. *)
Definition finished n w : Prop := ∃ st record, job_of w = Some st ∧ job_job_id st = sj_job_id self ∧ job_initialized st = true
  ∧ job_active_batch_trigger_id st = None ∧ _batch_record st t = Some record ∧ cjt_requested_ticks record = n ∧ cjt_end_tick record = first + n ∧ tick_of w = first + n.

Lemma find_app {A} (f : A → bool) l x : List.find f l = None → f x = true → List.find f (l ++ [x])%list = Some x.
Proof. intros Hl Hx. induction l as [|y l IH]; cbn in *; [by rewrite Hx|]. destruct (f y); [done|]. by apply IH. Qed.

Lemma finalize_stage n start w r w' :
  holds (at_stage t n first n Waiting) w → _finalize_batch_trigger ends self t n start w = (r, w') →
  (w' = w ∧ ∃ e, r = Err e) ∨ (∃ fin, r = Ok fin ∧ job_next_tick fin = first + n ∧ finished n w'
    ∧ _batch_record fin t = Some (mkCompletedJobTrigger t n start (first + n) (job_config_revision fin) (job_logical_time fin) (job_run_count fin))
    ∧ job_of w' = Some fin).
Proof.
  intros (st & Hj & Hb & _ & Ha & Hl & Hn & Ht) E. unfold _finalize_batch_trigger in E. eapply tx_saves in E; [|apply finalize_saves].
  destruct E as [?|(fin & -> & [(_ & ? & _ & _ & [=] & _)|(st' & -> & latest & Hlat & _ & [= ->] & Hfin)])]; [by left|right].
  rewrite Hlat in Hj. injection Hj as ->. destruct Hb as [Hid Hi Hbt Htot Hc Hcount Hf Hrec].
  exists fin. subst fin. split; [done|]. split; [done|].
  set (fin := st <| job_active_batch_trigger_id := None |> <| job_active_batch_total_ticks := 0 |> <| job_active_batch_completed_ticks := 0 |>
    <| job_last_completed_batch_trigger_id := Some t |> <| job_last_completed_batch_ticks := n |> <| job_completed_batch_triggers := _ |>).
  assert (_batch_record fin t = Some (mkCompletedJobTrigger t n start (first + n) (job_config_revision fin) (job_logical_time fin) (job_run_count fin))) as Hr.
  { unfold _batch_record, fin. cbn. rewrite <- Hn. apply find_app; [exact Hrec|]. by apply eqb_of_true. }
  split_and!; [|done|by rewrite job_of_saved].
  eexists fin, _. rewrite job_of_saved by done. split_and!; try done.
Qed.

(** The job is free for the trigger. *)
Definition free_for_trigger w : Prop := ∃ st, job_of w = Some st ∧ job_job_id st = sj_job_id self ∧ job_initialized st = true
  ∧ job_active_batch_trigger_id st = None ∧ _batch_record st t = None ∧ job_active_trigger_id st = None
  ∧ job_last_completed_trigger_id st ≠ Some (_expected_batch_child t 0) ∧ job_next_tick st = first ∧ tick_of w = first ∧ 0 ≤ first.

Lemma claim_stage st n ticks recover w r w' requested :
  job_of w = Some st → _requested_ticks self st t ticks = Ok requested → _batch_record st t = None →
  free_for_trigger w ∨ (∃ k, underway t n first k w) →
  _claim_batch_trigger ends self t requested ticks recover w = (r, w') →
  (w' = w ∧ ∃ e, r = Err e) ∨ ∃ claimed n' k, r = Ok (inl (claimed, n')) ∧ job_active_batch_completed_ticks claimed = k
     ∧ underway t n' first k w' ∧ job_of w' = Some claimed ∧ ((∃ k, underway t n first k w) → n' = n ∧ w' = w).
Proof.
  intros Hj Hreq Hrec Hw E. unfold _claim_batch_trigger in E. eapply tx_saves in E; [|apply claim_batch_saves].
  destruct E as [?|(claim & -> & Hc)]; [by left|right].
  assert (∀ record, _batch_record st t ≠ Some record) as Hno by (intros ?; congruence).
  destruct Hw as [(st' & Hj' & Hid & Hi & Hbt & _ & Ha & Hl & Hn & Ht & Hf)|[k (stage & st' & Hj' & Hs)]];
    rewrite Hj in Hj'; injection Hj' as <-.
  - destruct Hc as [(-> & latest & Hlat & Hc)|(saved_st & -> & latest & Hlat & Hc)]; rewrite Hj in Hlat; injection Hlat as <-.
    + destruct claim as [[claimed requested']|record]; [|by destruct Hc as [Hc _]; apply Hno in Hc].
      destruct Hc as [_ [[_ Hc]|([=] & _)]]. unfold _claim_existing_batch in Hc. by rewrite Hbt in Hc.
    + destruct claim as [[claimed requested']|record]; [|by destruct Hc as [Hc _]; apply Hno in Hc].
      destruct Hc as [_ [[[=] _]|([= ->] & -> & _ & _ & ->)]]. eexists _, requested, 0. split; [done|]. split; [done|].
      assert (1 ≤ requested) as H1.
      { unfold _requested_ticks in Hreq. rewrite Hbt in Hreq. cbn in Hreq. symmetry in Hreq. apply res_bind_inv in Hreq as ([] & Hlt%fail_if_inv & Hreq).
        apply res_bind_inv in Hreq as ([] & _ & [= ->]). guards. done. }
      split; [|split; [by rewrite job_of_saved|]].
      * exists Waiting. apply holds_saved; [done|]. split; [by split; try done; lia|]. split; [done|]. cbn.
        split_and!; try done; lia.
      * intros [k (stage & st' & Hj' & (Hb & _))]. rewrite Hj in Hj'. injection Hj' as <-. destruct Hb as [_ _ Hbt' _ _ _ _ _]. congruence.
  - pose proof Hs as (Hb & _ & _). destruct Hc as [(-> & latest & Hlat & Hc)|(saved_st & -> & latest & Hlat & Hc)];
      rewrite Hj in Hlat; injection Hlat as <-; (destruct claim as [[claimed requested']|record]; [|by destruct Hc as [Hc _]; apply Hno in Hc]).
    + destruct Hc as [_ [[_ Hc]|([=] & _)]]. unfold _claim_existing_batch in Hc. rewrite (ib_batch _ _ _ _ _ Hb) in Hc.
      symmetry in Hc. repeat (apply res_bind_inv in Hc as (?&?&Hc)). injection Hc as -> ->.
      exists st, n, k. rewrite (ib_total _ _ _ _ _ Hb). split_and!; try done; [by apply Hb|by exists stage, st].
    + destruct Hc as [_ [[[=] _]|(_ & _ & Hnone & _)]]. rewrite (ib_batch _ _ _ _ _ Hb) in Hnone. done.
Qed.


Definition trigger_state w : Prop := free_for_trigger w ∨ (∃ n k, underway t n first k w) ∨ ∃ n, finished n w.

Lemma trigger_state_job w : trigger_state w → ∃ st, job_of w = Some st ∧ job_initialized st = true.
Proof.
  intros [(st & Hj & _ & Hi & _)|[(n & k & stage & st & Hj & (Hb & _))|(n & st & record & Hj & _ & Hi & _)]]; exists st; split; try done. apply Hb.
Qed.

(** Finished batches stay as they are. *)
Lemma finished_again w st record ticks ta recover r w' :
  job_of w = Some st → job_initialized st = true → _batch_record st t = Some record →
  run_trigger sink_of ends self t ticks ta recover w = (r, w') → w' = w ∧ (r = Ok (_batch_result self record) ∨ ∃ e, r = Err e).
Proof.
  intros Hj Hi Hr E. destruct (trigger_parts _ _ _ _ _ _ _ _ Hj Hi E) as [[-> ?]|[(record' & Hr' & -> & ->)|(requested & Hr' & _)]].
  - auto.
  - rewrite Hr in Hr'. injection Hr' as <-. auto.
  - congruence.
Qed.

Lemma trigger_stage ticks ta recover w r w' :
  trigger_state w → run_trigger sink_of ends self t ticks ta recover w = (r, w') →
  trigger_state w' ∧ ∀ res, r = Ok res → finished (trig_requested_ticks res) w' ∧
    ∃ st record, job_of w' = Some st ∧ job_initialized st = true ∧ _batch_record st t = Some record ∧ res = _batch_result self record.
Proof.
  intros Hw E. destruct (trigger_state_job w Hw) as (st & Hj & Hi).
  destruct (trigger_parts _ _ _ _ _ _ _ _ Hj Hi E) as [[-> [e ->]]|[(record & Hr & -> & ->)|(requested & Hr & Hreq & E')]]; [done| |clear E].
  - split; [done|]. intros res [= <-].
    assert (∃ n, finished n w) as (n & Hf).
    { destruct Hw as [(st' & Hj' & _ & _ & _ & Hn & _)|[(n & k & stage & st' & Hj' & (Hb & _))|?]]; [..|done];
        rewrite Hj in Hj'; injection Hj' as <-; [|destruct Hb]; congruence. }
    destruct Hf as (st' & record' & Hj' & Hid & _ & Hnone & Hr' & Hn & He & Ht). rewrite Hj in Hj'. injection Hj' as <-.
    rewrite Hr in Hr'. injection Hr' as <-. cbn. split; [|by exists st, record].
    rewrite Hn. exists st, record. split_and!; done.
  - assert (∃ n, free_for_trigger w ∨ ∃ k, underway t n first k w) as [n Hfu].
    { destruct Hw as [?|[(n & k & ?)|(n & st' & record & Hj' & _ & _ & _ & Hr' & _)]]; [exists 0; by left|exists n; right; by exists k|congruence]. }
    apply bind_inv in E' as [(claim & w1 & E1 & E)|(e & E1 & ->)]; (eapply (claim_stage st n) in E1; [|done..]);
      destruct E1 as [[-> [? [=]]]|(claimed & n' & k & [=] & Hk & Hw1 & Hj1 & _)]; try done. subst claim.
    rewrite Hk in E.
    apply bind_inv in E as [([] & w2 & E2 & E)|(e & E2 & ->)]; destruct (run_ticks_stage _ _ _ _ _ _ _ _ eq_refl Hw1 E2) as [[k' Hu] Hd];
      [|split; [right; left; by exists n', k'|done]]. specialize (Hd eq_refl).
    apply bind_inv in E as [(fin & w3 & E3 & E)|(e & E3 & ->)]; destruct (finalize_stage _ _ _ _ _ Hd E3) as [[-> [? [=]]]|(fin' & [=] & Hn & Hf & Hrec & Hj3)];
      try done; [|split; [right; left; by exists n', k'|done]].
    subst fin'. injection E as <- <-. split; [right; right; by exists n'|]. intros res [= <-]. split; [done|].
    exists fin. eexists. split; [done|]. split; [|split; [exact Hrec|]]; [|unfold _batch_result; cbn; by rewrite Hn].
    destruct Hf as (fin' & ? & Hj3' & _ & Hi' & _). rewrite Hj3 in Hj3'. by injection Hj3' as <-.
Qed.
End trigger.

(** Any call for a trigger, with any arguments, whatever comes of it. *)
Definition attempted (t : string) : relation W := λ w w', ∃ ticks ta recover r, run_trigger sink_of ends self t ticks ta recover w = (r, w').

Lemma attempts_state t first w w' : trigger_state t first w → rtc (attempted t) w w' → trigger_state t first w'.
Proof.
  intros Hw Hs. induction Hs as [|w w1 w2 (ticks & ta & recover & r & E) _ IH]; [done|]. apply IH. by eapply trigger_stage.
Qed.

(** C12. A trigger runs exactly the ticks it asked for.  From a job that is free for
    the trigger, it is called any number of times, broken off anywhere: callbacks,
    the backend, the engine, the sinks and the store fail and the process ends at
    any transaction.  The simulation never runs further than the ticks of the batch,
    and when a call returns, the tick of the simulation has moved by exactly the
    requested ticks; from then on the trigger changes nothing and returns that
    result. *)
Theorem trigger_exactly_once t w0 w :
  free_for_trigger t (tick_of w0) w0 → rtc (attempted t) w0 w →
  (∀ st, job_of w = Some st → job_active_batch_trigger_id st = Some t →
     tick_of w0 + job_active_batch_completed_ticks st ≤ tick_of w ≤ tick_of w0 + job_active_batch_completed_ticks st + 1
     ∧ tick_of w ≤ tick_of w0 + job_active_batch_total_ticks st)
  ∧ ∀ ticks ta recover res w', run_trigger sink_of ends self t ticks ta recover w = (Ok res, w') →
    tick_of w' = tick_of w0 + trig_requested_ticks res ∧ trig_end_tick res = tick_of w' ∧ trig_completed_ticks res = trig_requested_ticks res
    ∧ ∀ ticks' ta' recover' r w'', run_trigger sink_of ends self t ticks' ta' recover' w' = (r, w'') →
        w'' = w' ∧ (r = Ok res ∨ ∃ e, r = Err e).
Proof.
  intros Hfree Hs. assert (trigger_state t (tick_of w0) w) as Hw by (eapply attempts_state; [by left|done]). split.
  - intros st Hj Hb. destruct Hw as [(st' & Hj' & _ & _ & Hn & _)|[(n & k & stage & st' & Hj' & Hst)|(n & st' & record & Hj' & _ & _ & Hnone & _)]];
      rewrite Hj in Hj'; injection Hj' as <-; [congruence| |].
    + destruct Hst as ([] & Hk & Hstage). subst. destruct stage; [destruct Hstage as (_ & _ & _ & ?); lia|..];
        (assert (job_active_batch_completed_ticks st < job_active_batch_total_ticks st) by by apply Hk);
        repeat match type of Hstage with _ ∧ _ => destruct Hstage as [? Hstage] end; lia.
    + congruence.
  - intros ticks ta recover res w' E. destruct (trigger_stage _ _ _ _ _ _ _ _ Hw E) as [Hw' Hok].
    destruct (Hok res eq_refl) as [Hf (st & record & Hj & Hi & Hr & ->)].
    destruct Hf as (st' & record' & Hj' & _ & _ & _ & Hr' & Hn & He & Ht). rewrite Hj in Hj'. injection Hj' as <-.
    rewrite Hr in Hr'. injection Hr' as <-. cbn. rewrite He, Ht. split_and!; try done.
    intros ticks' ta' recover' r w'' E'. by eapply finished_again in E' as [-> ?].
Qed.


End quiet.
End job.

(** ** A job that fails in the middle of a batch

    A domain whose reconciliation fails as often as its world says. *)
#[local] Instance job_uuid : Uuid5 := λ name, name.
#[local] Instance no_config : ConfigModel unit := {
  config_default := Ok tt; model_validate _ := Ok tt; model_validate_json _ := Ok tt; model_dump _ := ∅; model_dump_json _ := "{}";
  model_fields := []; config_field _ _ := PNone; config_eqb _ _ := true; start_at _ := 0 }.
#[local] Instance no_warehouse : DomainWarehouse unit := { wh_entity _ _ _ := None; wh_apply _ := mret APPLIED }.
#[local] Instance no_sink : AnalyticalSink unit := λ _, mret tt.

Abbreviation demo_world := (job_world unit unit nat).

(** The runtime is its tick. *)
Definition demo_advance (r : Z) : prog demo_world unit :=
  modify (λ w, (w.1 <| mp_state ::= λ s, s <| st_simulation_positions ::= <["shop" := mkSimulationPosition (r + 1) 0 0 (r + 1)]> |> |>, w.2)).
#[local] Instance demo_runtime : Runtime demo_world Z unit := {
  engine_owner_id _ := "shop"; attach_warehouse _ := mret tt; rebuild_backend _ _ := mret tt;
  engine_advance_tick := demo_advance; clock_now _ := mret 0; run_until _ := None }.

Definition demo_reconcile : prog demo_world unit := λ w,
  match ob_rest w.2 with
  | O => (Ok tt, w)
  | S n => (Err (RuntimeError "the order desk is closed"), (w.1, mkObjects (ob_warehouse w.2) (ob_sinks w.2) n))
  end.
Definition demo_definition : DomainDefinition demo_world unit Z unit :=
  mkDomainDefinition _ _ _ _ "orders" (λ _, mret None) (λ _ _ tick, mret tick) (Some (λ _ _ _ _, demo_reconcile)) [].
Definition demo_job : SimulationJob demo_world unit Z unit :=
  mkSimulationJob _ _ _ _ "shop" demo_definition (λ _, mret tt) 2 10 [] true.

#[local] Instance demo_quiet : QuietDomain demo_job (λ r, r).
Proof.
  split; try (intros; by apply calm_pure).
  - intros config t k w r w' E. by injection E as <- <-.
  - intros reconcile r b config bootstrap E. cbn in E. injection E as <-. intros o k w Hw. unfold demo_reconcile. by destruct (ob_rest w.2).
  - intros r w w' E Hr. injection E as <-. split; [done|]. unfold tick_of at 1. cbn. rewrite lookup_insert_eq. cbn. by rewrite Hr.
  - intros r w e w' E. discriminate.
Qed.

Abbreviation demo_run recover := (run_trigger (λ _, no_sink) (λ _, false) demo_job "monday" None None recover).
Definition demo_start : demo_world :=
  ((initialize (λ _, false) demo_job None) (mkPersistence empty_state false, mkObjects tt tt 1%nat)).2.
Definition demo_broken : demo_world := (demo_run false demo_start).2.
Definition demo_end : demo_world := (demo_run true demo_broken).2.

Example demo_result :
  (demo_run true demo_broken).1 = Ok (mkJobTriggerResult "shop" "orders" "monday" 2 2 1 2 1 2 2).
Proof. vm_compute. reflexivity. Qed.

(** The states of the job, evaluated. *)
Definition some_state (o : option SimulationJobState) : SimulationJobState :=
  default (mkSimulationJobState "" "" "" 0 "" false 0 0 0 None None None None None 0 0 None 0 [] "" None [] [] []) o.
Definition start_state : SimulationJobState := Eval vm_compute in some_state (job_of demo_job demo_start).
Definition broken_state : SimulationJobState := Eval vm_compute in some_state (job_of demo_job demo_broken).

Lemma start_job : job_of demo_job demo_start = Some start_state.
Proof. vm_compute. reflexivity. Qed.
Lemma broken_job : job_of demo_job demo_broken = Some broken_state.
Proof. vm_compute. reflexivity. Qed.
Lemma start_tick : tick_of demo_job demo_start = 0.
Proof. vm_compute. reflexivity. Qed.
Lemma broken_tick : tick_of demo_job demo_broken = 1.
Proof. vm_compute. reflexivity. Qed.

Lemma recovered_run : demo_run true demo_broken = (Ok (mkJobTriggerResult "shop" "orders" "monday" 2 2 1 2 1 2 2), demo_end).
Proof. rewrite (surjective_pairing (demo_run true demo_broken)). rewrite demo_result. reflexivity. Qed.

Lemma demo_free : free_for_trigger demo_job "monday" (tick_of demo_job demo_start) demo_start.
Proof. exists start_state. rewrite start_job, start_tick. by vm_compute. Qed.

Lemma broken_stage : at_stage demo_job "monday" 2 0 0 Advanced broken_state (tick_of demo_job demo_broken).
Proof.
  rewrite broken_tick. split; [by split|]. split; [done|]. split_and!; try done. set_solver.
Qed.

Lemma trigger_exactly_once_witness : tick_of demo_job demo_end = 2.
Proof.
  destruct (trigger_exactly_once (λ _, no_sink) (λ _, false) demo_job (λ r, r) "monday" demo_start demo_broken demo_free) as [_ H].
  - apply rtc_once. exists None, None, false, (demo_run false demo_start).1. apply surjective_pairing.
  - destruct (H _ _ _ _ _ recovered_run) as (E & _). rewrite E, start_tick. reflexivity.
Defined.


Lemma unresolved_batch_exclusive_witness : ∃ e, (pause (λ _, false) demo_job demo_broken).1 = Err e.
Proof.
  destruct (unresolved_batch_exclusive (λ _, no_sink) (λ _, false) demo_job demo_broken broken_state "monday" broken_job) as (_ & _ & H & _).
  - reflexivity.
  - reflexivity.
  - destruct (H "paused" _ _ (surjective_pairing _)) as [_ He]. exact He.
Defined.
