(* ===== verification/JobsProgress.v ===== *)
(** * A job always gets on

    In an obliging environment, where every callback, the engine, the backend, the
    warehouse and the store do what they are asked and no sink ends the process, a
    recovered trigger of [Jobs.v] completes from wherever it was broken off. *)
From S2P Require Import Prelude Encoding EncodingFacts Records Memory MemoryFacts Warehouse Sinks SinksFacts Boundary Jobs JobsFacts.
From stdpp Require Import pretty.
Open Scope string_scope.
Open Scope Z_scope.

(** ** Programs that return, and programs that do not end the process *)

Definition sane {A} (r : res A) : Prop := match r with Err (SystemExit _) => False | _ => True end.

Section combinators.
Context {W : Type} (I : W → Prop).

Definition obliges {A} (m : prog W A) : Prop := ∀ w, I w → ∃ a w', m w = (Ok a, w') ∧ I w'.
Definition tame {A} (m : prog W A) : Prop := ∀ w, I w → sane (m w).1 ∧ I (m w).2.

Lemma obliges_ret {A} (a : A) : obliges (mret a).
Proof. intros w Hw. by exists a, w. Qed.
Lemma obliges_gets {A} (f : W → A) : obliges (gets f).
Proof. intros w Hw. by exists (f w), w. Qed.
Lemma obliges_bind {A B} (m : prog W A) (f : A → prog W B) : obliges m → (∀ a, obliges (f a)) → obliges (m ≫= f).
Proof. intros Hm Hf w Hw. destruct (Hm w Hw) as (a & w1 & E & Hw1). rewrite (run_bind _ _ _ _ _ E). by apply Hf. Qed.
Lemma obliges_sum_each {A} (l : list A) body : (∀ x, obliges (body x)) → obliges (sum_each l body).
Proof.
  intros Hb. induction l as [|x l IH]; [apply obliges_ret|]. cbn. apply obliges_bind; [done|]. intros a.
  apply obliges_bind; [done|]. intros b. apply obliges_ret.
Qed.
Lemma obliges_except {A} (m : prog W A) h : tame m → (∀ e, obliges (h e)) → obliges (except m h).
Proof.
  intros Hm Hh w Hw. specialize (Hm w Hw). unfold except. destruct (m w) as [[a|e] w']; cbn in *; [exists a, w'; tauto|].
  destruct Hm as [Hs Hw']. destruct e; try (by apply Hh). done.
Qed.

Lemma tame_obliges {A} (m : prog W A) : obliges m → tame m.
Proof. intros Hm w Hw. by destruct (Hm w Hw) as (a & w' & -> & ?). Qed.
Lemma tame_ret {A} (a : A) : tame (mret a).
Proof. by intros w Hw. Qed.
Lemma tame_gets {A} (f : W → A) : tame (gets f).
Proof. by intros w Hw. Qed.
Lemma tame_lift {A} (r : res A) : sane r → tame (lift r).
Proof. by intros Hr w Hw. Qed.
Lemma tame_raise {A} e : sane (Err e : res A) → tame (raise (A:=A) e).
Proof. by intros He w Hw. Qed.
Lemma tame_bind {A B} (m : prog W A) (f : A → prog W B) : tame m → (∀ a, tame (f a)) → tame (m ≫= f).
Proof.
  intros Hm Hf w Hw. specialize (Hm w Hw). unfold mbind, prog_bind. destruct (m w) as [[a|e] w']; cbn in *; [apply Hf, Hm|done].
Qed.
End combinators.

Lemma sane_bind {A B} (r : res A) (f : A → res B) : sane r → (∀ a, sane (f a)) → sane (r ≫= f).
Proof. destruct r as [a|e]; [intros _ Hf; apply Hf|intros He _; exact He]. Qed.
Lemma sane_fail_if b e : sane (Err e : res unit) → sane (fail_if b e).
Proof. by destruct b. Qed.

(** ** The store accepts transactions *)

Definition writable (p : persistence) : Prop :=
  mp_read_only p = false
  ∧ exclusive (st_store_get_requests (mp_state p)) (st_store_get_results (mp_state p))
  ∧ exclusive (st_container_operation_intents (mp_state p)) (st_container_operation_results (mp_state p)).

Definition undecided (s : state) :=
  (st_store_get_requests s, st_store_get_results s, st_container_operation_intents s, st_container_operation_results s).

Lemma writable_same p s : undecided s = undecided (mp_state p) → writable p → writable (p <| mp_state := s |>).
Proof. intros [= E1 E2 E3 E4] (? & ? & ?). unfold writable. cbn. by rewrite E1, E2, E3, E4. Qed.

(** The store is open and the objects beside it are as [G] says. *)
Section store.
Context {V : Type} (G : V → Prop).
Implicit Types (pv : persistence * V).
Definition open_store pv : Prop := writable pv.1 ∧ G pv.2.

Lemma ptx_ok {A} (body : uprog A) pv a u :
  open_store pv → body (begin_uow (mp_state pv.1)) = (Ok a, u) → undecided (uow_working u) = undecided (mp_state pv.1) →
  ptx body pv = (Ok a, (pv.1 <| mp_state := uow_working u |>, pv.2)) ∧ open_store (pv.1 <| mp_state := uow_working u |>, pv.2).
Proof.
  intros [Hw HG] Eb Eu. split; [|by split; [apply writable_same|]]. pose proof Hw as (Hro & Hs & Hc). pose proof Eu as [= E1 E2 E3 E4].
  unfold ptx, focus, transaction. rewrite Hro, Eb, commit_ok; [done|by rewrite E1, E2|by rewrite E3, E4].
Qed.

(** Bodies that raise exceptions only and leave the requests alone. *)
Definition mild {A} (body : uprog A) : Prop := ∀ v, tame (λ u, undecided (uow_working u) = v) body.

Lemma tame_ptx {A} (body : uprog A) : mild body → tame open_store (ptx body).
Proof.
  intros Hb pv Hw. specialize (Hb (undecided (mp_state pv.1)) (begin_uow (mp_state pv.1)) eq_refl).
  destruct (body (begin_uow (mp_state pv.1))) as [[a|e] u] eqn:Eb; cbn in Hb.
  - destruct (ptx_ok body pv a u Hw Eb (proj2 Hb)) as [-> ?]. done.
  - unfold ptx, focus, transaction. destruct Hw as ((Hro & Hs) & HG). rewrite Hro, Eb. cbn. split; [apply Hb|]. by destruct pv.
Qed.

Lemma tame_attempt {A C} (m : prog V A) (f : res A → prog (persistence * V) C) :
  (∀ k, G k → sane (m k).1 ∧ G (m k).2) → (∀ a, tame open_store (f (Ok a))) →
  (∀ e, sane (Err e : res A) → tame open_store (f (Err e))) →
  tame open_store (r ← attempt (on_warehouse m) ; f r).
Proof.
  intros Hm Hok Herr pv [Hw HG]. destruct (Hm pv.2 HG) as [Hs HG']. unfold attempt, on_warehouse, focus, mbind, prog_bind.
  destruct (m pv.2) as [[a|e] k]; [by apply Hok|by apply Herr].
Qed.

Lemma mild_write (f : state → state) table k : (∀ s, undecided (f s) = undecided s) → ∀ v, tame (λ u, undecided (uow_working u) = v) (write f table k).
Proof. intros Hf v u Hu. split; [done|]. cbn. by rewrite Hf. Qed.
End store.

Ltac sane_step := first [apply sane_bind; [|intros ?] | apply sane_fail_if; exact I | exact I].
Ltac tame_step := first
  [ apply tame_bind; [|intros ?] | apply tame_ret | apply tame_gets | apply tame_raise; exact I
  | apply tame_lift; unfold SinkDelivery_new, SinkCheckpoint_new, AnalyticalBatch_new, next_delivery; repeat sane_step
  | apply tame_ptx; intros ? | apply mild_write; done | case_match ].

Lemma tame_flush_sink {Sk} `{!AnalyticalSink Sk, !Uuid5} (G : Sk → Prop) nm st :
  (∀ b k, G k → sane (Sinks.publish b k).1 ∧ G (Sinks.publish b k).2) → tame (open_store G) (flush_sink nm st).
Proof.
  intros Hp. assert (∀ d, tame (open_store G) (deliver_batch nm d)) as Hd.
  { intros d. unfold deliver_batch. apply tame_bind.
    { apply tame_lift. by apply sane_fail_if. }
    intros []. case_match; [apply tame_ret|]. apply tame_attempt; [apply Hp|intros []|intros e He].
    - unfold _completed_delivery, _delivery_checkpoint, complete_body, settle_checkpoint, get_sink_delivery, get_sink_checkpoint,
        save_sink_checkpoint, delete_sink_delivery. repeat tame_step.
    - apply tame_bind; [|intros []; by apply tame_raise].
      unfold _record_failed_delivery, failed_body, get_sink_delivery, save_sink_delivery. repeat tame_step. }
  unfold flush_sink, prepare, pending, preads, prepare_body, get_sink_checkpoint, get_sink_delivery, save_sink_delivery.
  repeat first [apply Hd|tame_step].
Qed.

(** The warehouse's outbox drains. *)
Lemma obliges_flush {Wh} `{!DomainWarehouse Wh} (G : Wh → Prop) :
  (∀ m wh, G wh → ∃ r wh', wh_apply m wh = (Ok r, wh') ∧ G wh') → obliges (open_store G) flush.
Proof.
  intros Ha. unfold flush, outbox_pending, preads. apply obliges_bind; [apply obliges_gets|]. intros l. apply obliges_sum_each. intros d.
  apply obliges_bind; [|intros x; apply obliges_ret]. unfold deliver, preads. apply obliges_bind; [apply obliges_gets|]. intros [c|]; [|apply obliges_ret].
  intros pv [Hw HG]. destruct (Ha (ddel_mutation c) pv.2 HG) as (r & wh' & E & HG').
  assert (attempt (on_warehouse (wh_apply (ddel_mutation c))) pv = (Ok (Ok r), (pv.1, wh'))) as Et by (unfold attempt, on_warehouse, focus; by rewrite E).
  rewrite (run_bind _ _ _ _ _ Et). assert (open_store G (pv.1, wh')) as Hw' by done. revert Hw'. generalize (pv.1, wh'). clear. intros pv Hw.
  eapply (ptx_ok G (delete_domain_delivery (ddel_mutation_id c))) in Hw as [E Hw]; [|reflexivity|reflexivity].
  rewrite (run_bind _ _ _ _ _ E). eexists _, _. split; [reflexivity|exact Hw].
Qed.

(** ** The states of a job *)

Record valid_state (st : SimulationJobState) : Prop := {
  vs_id : is_empty (job_job_id st) = false;
  vs_domain : is_empty (job_domain_name st) = false;
  vs_revision : 1 ≤ job_config_revision st;
  vs_next : 0 ≤ job_next_tick st;
  vs_runs : 0 ≤ job_run_count st;
  vs_total : 0 ≤ job_active_batch_total_ticks st;
  vs_count : 0 ≤ job_active_batch_completed_ticks st ≤ job_active_batch_total_ticks st;
  vs_last : 0 ≤ job_last_completed_batch_ticks st;
  vs_effects : unique_nonempty (job_active_effect_ids st) = true;
  vs_messages : unique_nonempty (job_active_boundary_message_ids st) = true;
  vs_publications : unique_nonempty (job_active_publication_message_ids st) = true;
  vs_status : job_status st ∈ ["ready"; "running"; "paused"; "failed"];
  vs_phase : job_phase st ∈ ["idle"; "advance"; "reconcile"] }.

Lemma valid_new st : valid_state st → SimulationJobState_new st = Ok st.
Proof.
  intros []. unfold SimulationJobState_new, _require_non_negative.
  assert (∀ b e (f : unit → res SimulationJobState), b = false → (fail_if b e ≫= f) = f tt) as Hstep by (by intros ? ? ? ->).
  rewrite !Hstep; [done|..]; try (by apply Z.ltb_ge; lia); try (apply negb_false_iff; by try apply bool_decide_eq_true); done.
Qed.

Lemma new_valid st st' : SimulationJobState_new st = Ok st' → valid_state st.
Proof.
  unfold SimulationJobState_new, _require_non_negative. intros E. symmetry in E.
  repeat match type of E with Ok _ = (fail_if _ _ ≫= _) => let Hg := fresh "Hg" in apply res_bind_inv in E as ([] & Hg%fail_if_inv & E) end.
  guards. by split.
Qed.

(** ** Obliging domains *)

Section job.
Context {Cfg R B Wh Sk X : Type} `{!ConfigModel Cfg, !DomainWarehouse Wh, !Uuid5}.
Abbreviation W := (job_world Wh Sk X).
Abbreviation P := (prog W).
Context `{!Runtime W R B} (sink_of : string → AnalyticalSink Sk) (ends : W → bool) (self : SimulationJob W Cfg R B).
Context (runtime_tick : R → Z) `{!QuietDomain self runtime_tick}.
Implicit Types (w : W) (st : SimulationJobState).

(** From the worlds whose objects are as [G] says, calls return and leave such worlds. *)
Class ObligingDomain (G : objects Wh Sk X → Prop) : Prop := {
  can_build config t k : obliges (open_store G) (def_build_runtime (sj_definition self) config t k);
  built_owner config t k w r w' : def_build_runtime (sj_definition self) config t k w = (Ok r, w') → engine_owner_id r = sj_job_id self;
  can_attach (r : R) : obliges (open_store G) (attach_warehouse r);
  can_back t : obliges (open_store G) (sj_backend_factory self t);
  can_rebuild (r : R) (b : B) : obliges (open_store G) (rebuild_backend r b);
  can_read_clock (r : R) : obliges (open_store G) (clock_now r);
  can_run_until (b : B) run t : run_until b = Some run → obliges (open_store G) (run t);
  can_advance (r : R) : obliges (open_store G) (engine_advance_tick r);
  can_reconcile reconcile r b config bootstrap :
    def_reconcile_tick (sj_definition self) = Some reconcile → obliges (open_store G) (reconcile r b config bootstrap);
  can_apply m o : G o → ∃ r wh, wh_apply m (ob_warehouse o) = (Ok r, wh) ∧ G (mkObjects wh (ob_sinks o) (ob_rest o));
  can_publish nm b o : G o → let r := @Sinks.publish Sk (sink_of nm) b (ob_sinks o) in
    sane r.1 ∧ G (mkObjects (ob_warehouse o) r.2 (ob_rest o));
  goes_on w : open_store G w → ends w = false;
  named : blank (sj_job_id self) = false }.

Context (G : objects Wh Sk X → Prop) `{!ObligingDomain G}.
Abbreviation I := (open_store G).

Lemma obliges_warehouse : obliges I (flush_domain_warehouse self).
Proof.
  unfold flush_domain_warehouse. case_match; [|apply obliges_ret]. intros w [Hw HG]. unfold with_warehouse, focus.
  destruct (obliges_flush (λ wh, G (mkObjects wh (ob_sinks w.2) (ob_rest w.2))) ) with (w := (w.1, ob_warehouse w.2)) as (a & pw & -> & Hw' & HG').
  - intros m wh Hwh. by destruct (can_apply m _ Hwh) as (r & wh' & ? & ?); exists r, wh'.
  - split; [done|]. by destruct (w.2).
  - by eexists _, _.
Qed.

Lemma obliges_sinks : obliges I (flush_sinks sink_of self).
Proof.
  unfold flush_sinks. case_match; [apply obliges_ret|]. apply obliges_bind; [apply obliges_gets|]. intros o. case_match; [|apply obliges_ret].
  case_match; [|apply obliges_ret]. generalize (s :: l). intros bs. induction bs as [|nm bs IH]; cbn; [apply obliges_ret|].
  apply obliges_bind; [|intros x; apply obliges_bind; [done|intros y; apply obliges_ret]].
  apply obliges_except; [|intros e; apply obliges_ret]. apply tame_bind; [|intros d; apply tame_ret].
  intros w [Hw HG]. unfold with_sinks, focus.
  pose proof (@tame_flush_sink Sk (sink_of nm) _ (λ k, G (mkObjects (ob_warehouse w.2) k (ob_rest w.2))) nm s0) as Ht.
  specialize (Ht (λ b k Hk, can_publish nm b _ Hk) (w.1, ob_sinks w.2)).
  destruct (flush_sink _ _ _) as [r pk]. cbn in *. destruct Ht as [? [? ?]]; [split; [done|by destruct (w.2)]|]. done.
Qed.

Lemma obliges_run_until r b : obliges I (run_until_now r b).
Proof.
  unfold run_until_now. destruct (run_until b) as [run|] eqn:E; [|apply obliges_ret].
  apply obliges_bind; [apply can_read_clock|]. intros now. by apply can_run_until with b.
Qed.

Lemma obliges_build config t k : obliges I (_build_runtime_for_tick self config t k).
Proof.
  unfold _build_runtime_for_tick. intros w Hw. destruct (can_build config t k w Hw) as (r & w1 & E & Hw1).
  rewrite (run_bind _ _ _ _ _ E), (proj2 (eqb_of_true _ _) (built_owner _ _ _ _ _ _ E)). cbn [negb]. rewrite run_raise_if.
  revert w1 Hw1 E. intros w1 Hw1 _. revert w1 Hw1.
  change (obliges I ((if sj_has_warehouse self then attach_warehouse r else mret tt) ;;
    backend ← sj_backend_factory self t ; rebuild_backend r backend ;; mret (r, backend))).
  apply obliges_bind; [case_match; [apply can_attach|apply obliges_ret]|]. intros _.
  apply obliges_bind; [apply can_back|]. intros b. apply obliges_bind; [apply can_rebuild|]. intros _. apply obliges_ret.
Qed.

Lemma obliges_reconcile running rt config : obliges I (_run_reconcile_tick self running rt config).
Proof.
  unfold _run_reconcile_tick. destruct (def_reconcile_tick _) eqn:E; [|apply obliges_ret].
  apply obliges_bind; [by apply can_reconcile|]. intros _. apply obliges_run_until.
Qed.

(** *** Transactions *)

Lemma tx_ok {A} (body : uprog A) w a u :
  I w → body (begin_uow (mp_state w.1)) = (Ok a, u) → undecided (uow_working u) = undecided (mp_state w.1) →
  tx ends body w = (Ok a, (w.1 <| mp_state := uow_working u |>, w.2)) ∧ I (w.1 <| mp_state := uow_working u |>, w.2).
Proof. intros Hw Eb Eu. unfold tx. rewrite goes_on by done. by apply (ptx_ok G body w a u). Qed.

Lemma saved_open w st : I w → I (saved w st).
Proof. intros [Hw HG]. split; [|done]. destruct Hw as (? & ? & ?). by split_and!. Qed.

Lemma tx_saves_ok {A} (body : uprog A) w a st :
  I w → (∃ u, body (begin_uow (mp_state w.1)) = (Ok a, u) ∧ uow_working u = mp_state w.1 <| st_job_states ::= <[job_job_id st := st]> |>) →
  tx ends body w = (Ok a, saved w st) ∧ I (saved w st).
Proof.
  intros Hw (u & Eb & Eu). destruct (tx_ok body w a u Hw Eb) as [-> _]; [by rewrite Eu|]. rewrite Eu. split; [|by apply saved_open].
  by destruct w as [[] ?].
Qed.

Lemma save_ok w latest st :
  job_of self w = Some latest → job_job_id st = sj_job_id self → job_domain_name st = job_domain_name latest →
  ∃ u, save_job_state st (begin_uow (mp_state w.1)) = (Ok tt, u) ∧ uow_working u = mp_state w.1 <| st_job_states ::= <[job_job_id st := st]> |>.
Proof.
  intros Hj Hid Hd. unfold save_job_state, working, write. rewrite run_gets. cbv beta.
  change (st_job_states (uow_working (begin_uow (mp_state w.1)))) with (st_job_states (mp_state w.1)).
  unfold job_of, job_state in Hj. rewrite Hid, Hj. cbn [conflicts]. rewrite Hd, (proj2 (eqb_of_true _ _) eq_refl). cbn [negb].
  rewrite run_raise_if. eexists. split; [reflexivity|]. done.
Qed.

(** The job can go on: the world obliges, and its state is a valid one. *)
Record fit w st : Prop := {
  fit_open : I w;
  fit_job : job_of self w = Some st;
  fit_id : job_job_id st = sj_job_id self;
  fit_valid : valid_state st;
  fit_config : ∃ config, model_validate_json (job_config_json st) = Ok config;
  fit_status : job_status st ≠ "paused" }.

Lemma fit_calm {A} (m : P A) w st a w' : calm self m → m w = (Ok a, w') → I w' → fit w st → fit w' st.
Proof. intros Hm E Hw' []. destruct (calm_keeps self _ _ _ _ Hm E) as [Hj _]. split; try done. congruence. Qed.

(** A call that obliges and leaves the job alone. *)
Lemma call_ok {A} (m : P A) w st :
  calm self m → obliges I m → fit w st → ∃ a w', m w = (Ok a, w') ∧ fit w' st ∧ tick_of self w' = tick_of self w.
Proof.
  intros Hc Ho Hf. destruct (Ho w (fit_open _ _ Hf)) as (a & w' & E & Hw'). exists a, w'. split_and!; [done|by eapply fit_calm|].
  by destruct (calm_keeps self _ _ _ _ Hc E).
Qed.

Lemma fit_saved w latest st :
  fit w latest → job_job_id st = job_job_id latest → valid_state st → job_config_json st = job_config_json latest → job_status st ≠ "paused" →
  fit (saved w st) st.
Proof.
  intros [Hw Hj Hid Hv Hc Hs] Hid' Hv' Hc' Hs'. split; [by apply saved_open|apply job_of_saved; congruence|congruence|done|by rewrite Hc'|done].
Qed.

Lemma owned_ok w latest child st :
  fit w latest → job_active_trigger_id latest = Some child → job_job_id st = job_job_id latest →
  job_domain_name st = job_domain_name latest → _save_tick_if_owned ends self child st w = (Ok tt, saved w st).
Proof.
  intros [Hw Hj Hid _ _ _] Ha Hid' Hd. apply tx_saves_ok; [done|].
  destruct (save_ok w latest st Hj ltac:(congruence) Hd) as (u & E & Eu). exists u. split; [|done].
  unfold owned_body, get_job_state. rewrite run_gets. cbv beta.
  change (st_job_states (uow_working (begin_uow (mp_state w.1))) !! sj_job_id self) with (job_of self w). rewrite Hj, Ha.
  rewrite (proj2 (eqb_of_true _ _) eq_refl). cbn [negb]. by rewrite run_raise_if.
Qed.

Lemma position_ok w : position_of self w = (Ok (st_simulation_positions (mp_state w.1) !! sj_job_id self), w).
Proof. unfold position_of, reads. rewrite run_gets. unfold simulation_position, owned. by rewrite named. Qed.

Lemma no_position_ok w : tick_of self w ≠ 0 → ∃ p, pos_logical_tick p = tick_of self w ∧ ∀ msg, no_position self msg w = (Ok p, w).
Proof.
  intros Ht. destruct (st_simulation_positions (mp_state w.1) !! sj_job_id self) as [p|] eqn:Ep.
  - exists p. unfold tick_of. rewrite Ep. split; [done|]. intros msg. unfold no_position. rewrite (run_bind _ _ _ _ _ (position_ok w)). by rewrite Ep.
  - unfold tick_of in Ht. by rewrite Ep in Ht.
Qed.

(** *** A tick *)

Lemma at_position_valid st p phase :
  valid_state st → 0 ≤ pos_logical_tick p → phase ∈ ["idle"; "advance"; "reconcile"] →
  valid_state (st <| job_phase := phase |> <| job_logical_time := pos_logical_time p |> <| job_next_tick := pos_logical_tick p |>).
Proof. intros [] Hp Hph. by split. Qed.

Section tick.
Context (child : string).

Lemma recover_ok w claimed position :
  fit w claimed → job_active_trigger_id claimed = Some child →
  ∃ running w', _recover_reconcile_state ends self claimed child position w = (Ok running, w') ∧ fit w' running
    ∧ job_active_trigger_id running = Some child.
Proof.
  intros Hf Ha. unfold _recover_reconcile_state. destruct position as [p|]; [|by exists claimed, w]. destruct (_ || _) eqn:Eg; [by exists claimed, w|].
  guards. pose proof (fit_valid _ _ Hf) as Hv. assert (valid_state (claimed <| job_phase := "reconcile" |>
    <| job_logical_time := pos_logical_time p |> <| job_next_tick := pos_logical_tick p |>)) as Hv'.
  { apply at_position_valid; [done| |set_solver]. destruct Hv. lia. }
  rewrite (valid_new _ Hv'), run_lift. erewrite run_bind; [|by eapply owned_ok].
  eexists _, _. split; [reflexivity|]. split; [|done]. apply fit_saved with claimed; try done. apply Hf.
Qed.

Lemma advance_ok' config w running position :
  fit w running → job_active_trigger_id running = Some child → 0 ≤ tick_of self w →
  match position with None => 0 | Some p => pos_logical_tick p end = tick_of self w →
  ∃ st rt w', _advance_tick_runtime ends self config running child position w = (Ok (st, rt), w') ∧ fit w' st
    ∧ job_active_trigger_id st = Some child ∧ tick_of self w' = tick_of self w + 1.
Proof.
  intros Hf Ha Ht Hp. unfold _advance_tick_runtime. rewrite Hp.
  set (time := match position with None => start_at config | Some p => pos_logical_time p end).
  set (st1 := running <| job_logical_time := time |> <| job_next_tick := tick_of self w |>).
  assert (valid_state st1) as Hv1 by (destruct (fit_valid _ _ Hf); by split).
  rewrite (valid_new _ Hv1), run_lift. erewrite run_bind; [|by eapply owned_ok].
  assert (fit (saved w st1) st1) as Hf1 by (apply fit_saved with running; try done; apply Hf).
  destruct (call_ok _ _ _ (build_runtime self runtime_tick config time (tick_of self w)) (obliges_build _ _ _) Hf1) as (rt & w2 & E2 & Hf2 & Ht2).
  rewrite (run_bind _ _ _ _ _ E2). apply (build_tick self runtime_tick) in E2.
  destruct (can_advance rt.1 w2 (fit_open _ _ Hf2)) as ([] & w3 & E3 & Hw3). rewrite (run_bind _ _ _ _ _ E3).
  destruct (advance_ok self _ _ _ E3) as [Hj3 Ht3]; [by rewrite E2, Ht2|].
  assert (fit w3 st1) as Hf3 by (destruct Hf2; split; try done; congruence).
  destruct (call_ok _ _ _ (calm_run_until self runtime_tick rt.1 rt.2) (obliges_run_until _ _) Hf3) as ([] & w4 & E4 & Hf4 & Ht4).
  rewrite (run_bind _ _ _ _ _ E4). assert (tick_of self w4 = tick_of self w + 1) as Ht5 by (rewrite Ht4, Ht3, Ht2; done).
  destruct (no_position_ok w4) as (p & Hp5 & E5); [lia|]. rewrite (run_bind _ _ _ _ _ (E5 _)).
  assert (valid_state (st1 <| job_phase := "reconcile" |> <| job_logical_time := pos_logical_time p |> <| job_next_tick := pos_logical_tick p |>)) as Hv6
    by (apply at_position_valid; [done|lia|set_solver]).
  rewrite (valid_new _ Hv6), run_lift. erewrite run_bind; [|by eapply owned_ok].
  eexists _, rt, _. split; [reflexivity|]. split_and!; [|done|by rewrite tick_of_saved].
  apply fit_saved with st1; try done. apply Hf4.
Qed.

Lemma complete_ok w running :
  fit w running → job_active_trigger_id running = Some child → 0 < tick_of self w →
  ∃ completed w', _persist_completed_tick ends self running child w = (Ok completed, w') ∧ fit w' completed.
Proof.
  intros Hf Ha Ht. unfold _persist_completed_tick. destruct (no_position_ok w) as (p & Hp & E); [lia|]. rewrite (run_bind _ _ _ _ _ (E _)).
  match goal with |- context [SimulationJobState_new ?st] => set (st1 := st) end.
  assert (valid_state st1) as Hv by (destruct (fit_valid _ _ Hf); split; try done; cbn; try lia; set_solver).
  rewrite (valid_new _ Hv), run_lift. erewrite run_bind; [|by eapply owned_ok].
  eexists _, _. split; [reflexivity|]. apply fit_saved with running; done.
Qed.
End tick.

Section batch.
Context (t : string) (n first k : Z).
Let child := _expected_batch_child t k.

Lemma open_tick_bound st tick : open_tick self t n first k st tick → 0 ≤ tick.
Proof.
  intros [(Hb & _ & Hs)|(Hb & _ & Hs)]; destruct Hb; repeat match type of Hs with _ ∧ _ => destruct Hs as [? Hs] end; lia.
Qed.

Lemma open_tick_active st tick : open_tick self t n first k st tick → job_active_trigger_id st = Some child.
Proof. by intros [(_ & _ & Ha & _)|(_ & _ & Ha & _)]. Qed.

Lemma execute_ok config w claimed :
  fit w claimed → open_tick self t n first k claimed (tick_of self w) → job_status claimed = "running" →
  ∃ st rt w', _execute_tick_phase ends self config claimed child w = (Ok (st, rt), w') ∧ fit w' st.
Proof.
  intros Hf Hst Hr. pose proof (open_tick_active _ _ Hst) as Ha. pose proof (open_tick_bound _ _ Hst) as Hpos.
  unfold _execute_tick_phase. rewrite (run_bind _ _ _ _ _ (position_ok w)).
  destruct (recover_ok child w claimed (st_simulation_positions (mp_state w.1) !! sj_job_id self) Hf Ha) as (running & w1 & E1 & Hf1 & Ha1).
  rewrite (run_bind _ _ _ _ _ E1).
  destruct (recover_stage sink_of ends self runtime_tick t n first k _ _ _ _ _ (fit_job _ _ Hf) Hst Hr eq_refl E1) as (Ht1 & _ & Hrun).
  destruct (Hrun running eq_refl) as (_ & _ & _ & _ & Hadv). destruct (negb _) eqn:Eph; guards.
  - destruct (Hadv Eph) as (Hb & Hk & _ & _ & _ & _ & _ & Htick). unfold _build_reconcile_runtime.
    destruct (no_position_ok w1) as (p & Hp & E2); [destruct Hb; lia|]. rewrite (run_bind _ _ _ _ _ (E2 _)).
    destruct (call_ok _ _ _ (build_runtime self runtime_tick config (pos_logical_time p) (pos_logical_tick p)) (obliges_build _ _ _) Hf1) as (rt & w3 & E3 & Hf3 & _).
    rewrite (run_bind _ _ _ _ _ E3).
    destruct (call_ok _ _ _ (calm_run_until self runtime_tick rt.1 rt.2) (obliges_run_until _ _) Hf3) as ([] & w4 & E4 & Hf4 & _).
    rewrite (run_bind _ _ _ _ _ E4). by eexists _, _, _.
  - destruct (advance_ok' child config w1 running (st_simulation_positions (mp_state w.1) !! sj_job_id self) Hf1 Ha1) as (st & rt & w2 & E2 & Hf2 & _).
    + by rewrite Ht1.
    + rewrite Ht1. unfold tick_of. by destruct (_ !! _).
    + by eexists _, _, _.
Qed.

Lemma try_ok config w claimed :
  fit w claimed → open_tick self t n first k claimed (tick_of self w) → job_status claimed = "running" →
  ∃ res w' st, tick_try sink_of ends self config claimed child w = (Ok res, w') ∧ fit w' st.
Proof.
  intros Hf Hst Hr. unfold tick_try. destruct (execute_ok config w claimed Hf Hst Hr) as (st & rt & w1 & E1 & Hf1).
  rewrite (run_bind _ _ _ _ _ E1).
  destruct (execute_stage sink_of ends self runtime_tick t n first k _ _ _ _ _ (fit_job _ _ Hf) Hst Hr E1) as [_ Hadv].
  destruct (Hadv st rt eq_refl) as (_ & Hst1). destruct Hst1 as (Hb & _ & Ha & _ & _ & _ & _ & Htick).
  destruct (call_ok _ _ _ (calm_reconcile self runtime_tick st rt config) (obliges_reconcile _ _ _) Hf1) as ([] & w2 & E2 & Hf2 & Ht2).
  rewrite (run_bind _ _ _ _ _ E2).
  destruct (complete_ok child w2 st Hf2 Ha) as (c & w3 & E3 & Hf3); [destruct Hb; lia|]. rewrite (run_bind _ _ _ _ _ E3).
  destruct (call_ok _ _ _ (calm_flush self) obliges_warehouse Hf3) as (z & w4 & E4 & Hf4 & _). rewrite (run_bind _ _ _ _ _ E4).
  destruct (call_ok _ _ _ (calm_sinks sink_of self) obliges_sinks Hf4) as (l & w5 & E5 & Hf5 & _). rewrite (run_bind _ _ _ _ _ E5).
  by eexists _, _, c.
Qed.

Lemma ensure_ok st : in_batch self t n first k st → _ensure_tick_matches_batch self st child = Ok tt.
Proof.
  intros []. unfold _ensure_tick_matches_batch. subst. rewrite ib_batch.
  by rewrite (proj2 (eqb_of_true _ _) eq_refl).
Qed.

Lemma claim_state_ok st tick stage ta :
  at_stage self t n first k stage st tick → stage ≠ Completed → valid_state st →
  ∃ claimed, _claim_tick_state self st child ta true = Ok claimed ∧ valid_state claimed
    ∧ job_job_id claimed = job_job_id st ∧ job_domain_name claimed = job_domain_name st ∧ job_config_json claimed = job_config_json st.
Proof.
  intros (Hb & _ & Hs) Hne Hv. unfold _claim_tick_state. destruct (negb (bool_decide _)) eqn:Eu; guards.
  - match goal with |- context [SimulationJobState_new ?c] => assert (valid_state c) as Hc by (destruct Hv; split; try done; set_solver) end.
    rewrite (valid_new _ Hc). by eexists.
  - assert (job_active_trigger_id st = Some child) as Ha by (destruct stage; [by destruct Hs as [? _]; destruct Eu|by destruct Hs..|done]).
    rewrite Ha, (proj2 (eqb_of_true _ _) eq_refl). cbn [andb negb fail_if].
    match goal with |- context [SimulationJobState_new ?c] => assert (valid_state c) as Hc by (destruct Hv; split; try done; set_solver) end.
    change (∃ claimed, SimulationJobState_new (st <| job_status := "running" |> <| job_last_triggered_at := or_else ta (job_last_triggered_at st) |>
      <| job_last_error := None |>) = Ok claimed ∧ valid_state claimed
      ∧ job_job_id claimed = job_job_id st ∧ job_domain_name claimed = job_domain_name st ∧ job_config_json claimed = job_config_json st).
    rewrite (valid_new _ Hc). by eexists.
Qed.

Lemma claim_ok w st stage ta :
  fit w st → at_stage self t n first k stage st (tick_of self w) →
  ∃ claim w', _claim_tick ends self st child ta true w = (Ok claim, w') ∧
    match claim with
    | inr _ => w' = w
    | inl claimed => fit w' claimed ∧ tick_of self w' = tick_of self w ∧ stage ≠ Completed ∧ _claim_tick_state self st child ta true = Ok claimed
    end.
Proof.
  intros Hf Hs. pose proof Hs as (Hb & _ & Hstage). pose proof (fit_job _ _ Hf) as Hj. unfold _claim_tick.
  assert (claim_tick_body self st child ta true (begin_uow (mp_state w.1))
    = (if eqb_of (job_last_completed_trigger_id st) (Some child) then mret (inr (_result_from_state self st)) else
       claimed ← lift (_claim_tick_state self st child ta true) ; save_job_state claimed ;; mret (inl claimed)) (begin_uow (mp_state w.1))) as Hbody.
  { unfold claim_tick_body, get_job_state. rewrite run_gets. cbv beta.
    change (st_job_states (uow_working (begin_uow (mp_state w.1))) !! sj_job_id self) with (job_of self w). rewrite Hj.
    destruct (eqb_of (job_last_completed_trigger_id st) (Some child)); [done|]. rewrite (ensure_ok st Hb), run_lift.
    rewrite run_raise_if, bool_decide_false by naive_solver. rewrite run_raise_if.
    by rewrite (proj2 (eqb_of_false (job_status st) "paused") (fit_status _ _ Hf)). }
  destruct (eqb_of (job_last_completed_trigger_id st) (Some child)) eqn:El; guards.
  - eexists (inr _), w. split; [|done].
    destruct (tx_ok (claim_tick_body self st child ta true) w _ _ (fit_open _ _ Hf) Hbody eq_refl) as [-> _]. by destruct w as [[] ?].
  - assert (stage ≠ Completed) as Hne by (intros ->; by destruct Hstage as (_ & ? & _)).
    destruct (claim_state_ok st _ stage ta Hs Hne (fit_valid _ _ Hf)) as (claimed & Ec & Hv & Hid & Hd & Hcfg). rewrite Ec, run_lift in Hbody.
    destruct (save_ok w st claimed Hj) as (u & Eu & Hu); [by rewrite Hid; apply Hf|done|].
    rewrite (run_bind _ _ _ _ _ Eu) in Hbody. exists (inl claimed), (saved w claimed).
    destruct (tx_saves_ok (claim_tick_body self st child ta true) w (inl claimed) claimed (fit_open _ _ Hf)) as [E _]; [by eexists|].
    split; [exact E|]. split_and!; [|done|done|done]. apply fit_saved with st; try done.
    unfold _claim_tick_state in Ec. destruct (negb (bool_decide _)); [by apply state_new in Ec as ->|].
    symmetry in Ec. apply res_bind_inv in Ec as ([] & _ & Ec). symmetry in Ec. by apply state_new in Ec as ->.
Qed.

Lemma run_tick_ok w st ta :
  fit w st → underway self t n first k w → k < n → ∃ res w' st', run_tick sink_of ends self ta (Some child) true w = (Ok res, w') ∧ fit w' st'.
Proof.
  intros Hf (stage & st' & Hj & Hs) Hk. pose proof (fit_job _ _ Hf) as Hj'. rewrite Hj in Hj'. injection Hj' as ->.
  pose proof Hs as (Hb & _ & _). unfold run_tick.
  assert (_initialized_state ends self w = (Ok st, w)) as Ei.
  { destruct (_initialized_state ends self w) as [r w1] eqn:Ei. apply (initialized_state _ _ _ st) in Ei as [-> ->]; try done. apply Hb. }
  rewrite (run_bind _ _ _ _ _ Ei).
  destruct (call_ok _ _ _ (calm_flush self) obliges_warehouse Hf) as (z & w1 & E1 & Hf1 & Ht1). rewrite (run_bind _ _ _ _ _ E1).
  destruct (call_ok _ _ _ (calm_sinks sink_of self) obliges_sinks Hf1) as (l & w2 & E2 & Hf2 & Ht2). rewrite (run_bind _ _ _ _ _ E2).
  assert (_tick_trigger_id self st (Some child) = child) as -> by (unfold _tick_trigger_id, child; by rewrite child_nonempty).
  rewrite (ensure_ok st Hb), run_lift. rewrite <- Ht1, <- Ht2 in Hs.
  destruct (claim_ok w2 st stage ta Hf2 Hs) as (claim & w3 & E3 & Hc). rewrite (run_bind _ _ _ _ _ E3).
  destruct claim as [claimed|res]; [|subst w3; by eexists _, _, st].
  destruct Hc as (Hf3 & Ht3 & Hne & Hclaim). destruct (claimed_tick sink_of self runtime_tick t n first k _ _ _ _ _ _ Hs Hne Hk Hclaim) as (Hopen & Hr & _).
  destruct (fit_config _ _ Hf3) as [config Hconfig]. rewrite Hconfig, run_lift. rewrite <- Ht3 in Hopen.
  destruct (try_ok config w3 claimed Hf3 Hopen Hr) as (res & w4 & st4 & E4 & Hf4). unfold except. rewrite E4. by eexists _, _, st4.
Qed.
End batch.

(** *** A batch *)

Section trigger.
Context (t : string) (n first : Z).

Lemma progress_ok w st k :
  fit w st → in_batch self t n first k st → k < n →
  ∃ st', _save_batch_progress ends self t (k + 1) w = (Ok tt, saved w st') ∧ fit (saved w st') st'.
Proof.
  intros Hf Hb Hk. pose proof (fit_job _ _ Hf) as Hj. set (st' := st <| job_active_batch_completed_ticks := k + 1 |>). exists st'.
  assert (valid_state st') as Hv by (destruct (fit_valid _ _ Hf), Hb; split; try done; cbn; lia).
  destruct (save_ok w st st' Hj) as (u & Eu & Hu); [apply Hb|done|]. split; [|by apply fit_saved with st; try done; apply Hf].
  apply tx_saves_ok; [apply Hf|]. exists u. split; [|done]. unfold progress_body, get_job_state. rewrite run_gets. cbv beta.
  change (st_job_states (uow_working (begin_uow (mp_state w.1))) !! sj_job_id self) with (job_of self w).
  rewrite Hj, run_raise_if, (ib_batch _ _ _ _ _ _ Hb), (proj2 (eqb_of_true _ _) eq_refl). cbn [negb].
  fold st'. by rewrite (valid_new _ Hv), run_lift.
Qed.

Lemma run_ticks_ok ta m k w st :
  m = Z.to_nat (n - k) → fit w st → underway self t n first k w →
  ∃ w' st', run_ticks sink_of ends self m t k ta true w = (Ok tt, w') ∧ fit w' st'.
Proof.
  revert k w st. induction m as [|m IH]; intros k w st Hm Hf Hu; [by eexists _, st|]. cbn [run_ticks]. assert (k < n) as Hk by lia.
  destruct (run_tick_ok t n first k w st ta Hf Hu Hk) as (res & w1 & st1 & E1 & Hf1). rewrite (run_bind _ _ _ _ _ E1).
  destruct (run_tick_stage sink_of ends self runtime_tick t n first k ta true w _ _ Hu Hk E1) as [_ Hd]. specialize (Hd eq_refl).
  pose proof Hd as (st1' & Hj1 & Hb & _). pose proof (fit_job _ _ Hf1) as Hj1'. rewrite Hj1 in Hj1'. injection Hj1' as ->.
  destruct (progress_ok w1 st1 k Hf1 Hb Hk) as (st2 & E2 & Hf2). rewrite (run_bind _ _ _ _ _ E2).
  destruct (progress_stage ends self t first n k w1 _ _ Hd E2) as [[_ [? [=]]]|[_ Hw2]].
  apply (IH (k + 1) _ st2); [lia|done|by exists Waiting].
Qed.

Lemma finalize_ok w start :
  (∃ st, fit w st) → holds self (at_stage self t n first n Waiting) w → is_empty t = false → 0 ≤ start ≤ first + n →
  ∃ fin w', _finalize_batch_trigger ends self t n start w = (Ok fin, w').
Proof.
  intros [st Hf] (st' & Hj & Hs) Ht Hstart. pose proof (fit_job _ _ Hf) as Hj'. rewrite Hj in Hj'. injection Hj' as ->.
  destruct Hs as (Hb & _ & Ha & _ & Hn & _).
  set (record := mkCompletedJobTrigger t n start (job_next_tick st) (job_config_revision st) (job_logical_time st) (job_run_count st)).
  assert (CompletedJobTrigger_new record = Ok record) as Hr.
  { unfold CompletedJobTrigger_new. cbn. rewrite Ht. assert (n <? 1 = false) as -> by (destruct Hb; lia).
    assert (start <? 0 = false) as -> by lia. assert (job_next_tick st <? start = false) as -> by lia. done. }
  set (fin := st <| job_active_batch_trigger_id := None |> <| job_active_batch_total_ticks := 0 |> <| job_active_batch_completed_ticks := 0 |>
    <| job_last_completed_batch_trigger_id := Some t |> <| job_last_completed_batch_ticks := n |>
    <| job_completed_batch_triggers := (job_completed_batch_triggers st ++ [record])%list |>).
  assert (valid_state fin) as Hv by (destruct (fit_valid _ _ Hf), Hb; split; try done; cbn; lia).
  destruct (save_ok w st fin Hj) as (u & Eu & Hu); [apply Hb|done|]. exists fin, (saved w fin).
  apply tx_saves_ok; [apply Hf|]. exists u. split; [|done]. unfold finalize_body, get_job_state. rewrite run_gets. cbv beta.
  change (st_job_states (uow_working (begin_uow (mp_state w.1))) !! sj_job_id self) with (job_of self w).
  rewrite Hj, run_raise_if, (ib_batch _ _ _ _ _ _ Hb), (proj2 (eqb_of_true _ _) eq_refl). cbn [negb].
  fold record. rewrite Hr, run_lift. fold fin. rewrite (valid_new _ Hv), run_lift. by rewrite (run_bind _ _ _ _ _ Eu).
Qed.

Lemma claim_batch_ok w st k requested :
  fit w st → in_batch self t n first k st →
  _claim_batch_trigger ends self t requested None true w = (Ok (inl (st, n)), w).
Proof.
  intros Hf Hb. pose proof (fit_job _ _ Hf) as Hj. unfold _claim_batch_trigger.
  destruct (tx_ok (claim_batch_body self t requested None true) w (inl (st, n)) (begin_uow (mp_state w.1)) (fit_open _ _ Hf)) as [-> _].
  - unfold claim_batch_body, get_job_state. rewrite run_gets. cbv beta.
    change (st_job_states (uow_working (begin_uow (mp_state w.1))) !! sj_job_id self) with (job_of self w).
    rewrite Hj, (ib_record _ _ _ _ _ _ Hb). unfold _claim_existing_batch. rewrite (ib_batch _ _ _ _ _ _ Hb), (proj2 (eqb_of_true _ _) eq_refl).
    cbn [negb fail_if different_ticks andb]. by rewrite (ib_total _ _ _ _ _ _ Hb).
  - done.
  - by destruct w as [[] ?].
Qed.
End trigger.

(** C19. A broken-off batch can always be completed.  A job was called for a trigger
    any number of times, broken off anywhere; once the environment obliges, one call
    with [recover] runs the ticks that are left and returns, provided the job is not
    paused and its configuration can be read. *)
Theorem recovery_completes t w0 w st ta :
  free_for_trigger self t (tick_of self w0) w0 → rtc (attempted sink_of ends self t) w0 w →
  job_of self w = Some st → job_active_batch_trigger_id st = Some t → is_empty t = false → I w →
  SimulationJobState_new st = Ok st → job_status st ≠ "paused" → (∃ config, model_validate_json (job_config_json st) = Ok config) →
  ∃ res w', run_trigger sink_of ends self t None ta true w = (Ok res, w').
Proof.
  intros Hfree Hs Hj Hbt Ht Hw Hv%new_valid Hp Hc.
  assert (trigger_state self t (tick_of self w0) w) as Hstate by (eapply (attempts_state sink_of ends self runtime_tick); [by left|done]).
  destruct Hstate as [(st' & Hj' & _ & _ & Hn & _)|[(n & k & Hu)|(n & st' & record & Hj' & _ & _ & Hn & _)]];
    [rewrite Hj in Hj'; congruence| |rewrite Hj in Hj'; congruence].
  pose proof Hu as (stage & st' & Hj' & Hst). rewrite Hj in Hj'. injection Hj' as <-. pose proof Hst as (Hb & _ & Hstage).
  assert (fit w st) as Hf by (split; try done; apply Hb). unfold run_trigger. rewrite Ht, run_raise_if.
  assert (_initialized_state ends self w = (Ok st, w)) as Ei.
  { destruct (_initialized_state ends self w) as [r w1] eqn:Ei. apply (initialized_state _ _ _ st) in Ei as [-> ->]; try done. apply Hb. }
  rewrite (run_bind _ _ _ _ _ Ei).
  assert (_requested_ticks self st t None = Ok n) as ->.
  { unfold _requested_ticks. rewrite Hbt, (proj2 (eqb_of_true _ _) eq_refl). cbn. by rewrite (ib_total _ _ _ _ _ _ Hb). }
  rewrite run_lift, (ib_record _ _ _ _ _ _ Hb), (run_bind _ _ _ _ _ (claim_batch_ok t n _ w st k n Hf Hb)), (ib_completed _ _ _ _ _ _ Hb).
  destruct (run_ticks_ok t n _ ta _ k w st eq_refl Hf Hu) as (w1 & st1 & E1 & Hf1). cbv zeta. rewrite (run_bind _ _ _ _ _ E1).
  destruct (run_ticks_stage sink_of ends self runtime_tick t _ n ta true _ k w _ _ eq_refl Hu E1) as [_ Hd].
  destruct (finalize_ok t n (tick_of self w0) w1 (job_next_tick st - k)) as (fin & w2 & E2); [by eexists|by apply Hd|done| |].
  { destruct Hb. destruct stage; repeat match type of Hstage with _ ∧ _ => destruct Hstage as [? Hstage] end; lia. }
  rewrite (run_bind _ _ _ _ _ E2). by eexists _, _.
Qed.
End job.

(** ** The broken job recovers *)

#[local] Existing Instances job_uuid no_config no_warehouse no_sink demo_runtime demo_quiet.

Definition desk_open (o : objects unit unit nat) : Prop := ob_rest o = 0%nat.

#[local] Instance demo_obliging : ObligingDomain (λ _, no_sink) (λ _, false) demo_job desk_open.
Proof.
  split; try (intros; by apply obliges_ret); try done.
  - intros r w [Hw HG]. eexists tt, _. split; [reflexivity|]. split; [|done]. destruct Hw as (? & ? & ?). by split_and!.
  - intros reconcile r b config bootstrap E. injection E as <-. intros w [Hw HG]. unfold demo_reconcile. rewrite HG. by eexists tt, w.
Qed.

Lemma broken_open : open_store desk_open demo_broken.
Proof. split; [split_and!|]; vm_compute; [reflexivity| | |reflexivity]; intros k [? ?]; discriminate. Qed.

Lemma recovery_completes_witness : ∃ res w', demo_run true demo_broken = (Ok res, w').
Proof.
  apply (recovery_completes (λ _, no_sink) (λ _, false) demo_job (λ r, r) desk_open "monday" demo_start demo_broken broken_state None demo_free).
  - apply rtc_once. exists None, None, false, (demo_run false demo_start).1. apply surjective_pairing.
  - exact broken_job.
  - reflexivity.
  - reflexivity.
  - exact broken_open.
  - reflexivity.
  - discriminate.
  - by exists tt.
Defined.
