(* ===== verification/Containers.v ===== *)
(** * Durable containers

    [src/src/sose/core/containers.py]: [DurableContainerManager].  The ledger
    of a container is the sequence of its committed results; its level is the
    initial level moved by every committed operation exactly once. *)
From S2P Require Import Prelude Encoding Records Memory MemoryFacts World QueueBackend.
Open Scope string_scope.
Open Scope Z_scope.

(** The level an operation leaves. *)
Definition moved (op : ContainerOperation) (level amount : spec_float) : spec_float :=
  match op with Put => fadd level amount | Get => fsub level amount end.

Definition outside (capacity level : spec_float) : bool := flt level fzero || flt capacity level.

Section containers.
Context {B : Type} `{!TemporalBackend B, !ContainerBackend B}.
Abbreviation P := (prog (world B)).

Definition _definition (name : string) : P ContainerDefinition :=
  definition ← reads (λ s, find_first (λ d, eqb_of (cdef_name d) name) (container_definitions s)) ;
  found definition (KeyError ("unknown container definition: " +:+ name)).

Definition _container_state (container_name : string) : P ContainerState :=
  st ← reads (λ s, find_first (λ c, eqb_of (cst_name c) container_name) (container_states s)) ;
  found st (KeyError ("unknown durable container state: " +:+ container_name)).

Definition _pending_intent (request_id : string) : P ContainerOperationIntent :=
  intent ← reads (λ s, find_first (λ i, eqb_of (cint_request_id i) request_id)
                         (container_operation_intents s)) ;
  found intent (KeyError ("unknown container operation intent: " +:+ request_id)).

Definition result (request_id : string) : P (option ContainerOperationResult) :=
  reads (λ s, find_first (λ r, eqb_of (cres_request_id r) request_id)
                (container_operation_results s)).

Definition _next_sequence (s : state) : Z :=
  py_max_default 0 ((cint_sequence <$> container_operation_intents s)
                      ++ (cres_sequence <$> container_operation_results s))%list + 1.

Definition define (definition : ContainerDefinition) : P unit :=
  st ← lift (ContainerState_new (cdef_name definition) (cdef_initial definition)) ;
  tx (save_container_definition definition ;;
      existing ← get_container_state (cdef_name definition) ;
      raise_if (conflicts ContainerState_eqb existing st)
        (ValueError ("container state already exists: " +:+ cdef_name definition)) ;;
      save_container_state st).

(** *** Recovery validation *)

Definition _validate_definitions_and_states (definitions : list (string * ContainerDefinition))
    (states : list (string * ContainerState)) : P unit :=
  for_each definitions (λ '(name, definition),
    match dict_get name states with
    | None => raise (RuntimeError ("container " +:+ name +:+ " is missing durable state"))
    | Some st =>
      raise_if (flt (cdef_capacity definition) (cst_level st))
        (RuntimeError ("container " +:+ name +:+ " level exceeds capacity"))
    end) ;;
  for_each states (λ '(name, _),
    raise_if (bool_decide (dict_get name definitions = None))
      (RuntimeError ("container state references unknown definition: " +:+ name))).

Definition _validate_result_record (definitions : list (string * ContainerDefinition))
    (result : ContainerOperationResult) : P unit :=
  match dict_get (cres_container_name result) definitions with
  | None => raise (RuntimeError ("container result references unknown definition: "
                                   +:+ cres_request_id result))
  | Some definition =>
    let expected := moved (cres_operation result) (cres_level_before result) (cres_amount result) in
    raise_if (negb (feq (cres_level_after result) expected))
      (RuntimeError ("container result has inconsistent level delta: "
                       +:+ cres_request_id result)) ;;
    raise_if (outside (cdef_capacity definition) (cres_level_after result))
      (RuntimeError ("container result level is outside capacity: "
                       +:+ cres_request_id result))
  end.

Definition _validate_pending_and_completed_operations
    (definitions : list (string * ContainerDefinition)) : P unit :=
  results ← reads (λ s, dict_of cres_request_id (container_operation_results s)) ;
  intents ← reads container_operation_intents ;
  for_each intents (λ intent,
    raise_if (bool_decide (dict_get (cint_container_name intent) definitions = None))
      (RuntimeError ("container operation references unknown definition: "
                       +:+ cint_request_id intent)) ;;
    raise_if (negb (bool_decide (dict_get (cint_request_id intent) results = None)))
      (RuntimeError ("container request is both pending and completed: "
                       +:+ cint_request_id intent))) ;;
  for_each results (λ '(_, result), _validate_result_record definitions result).

Definition validate_rebuild : P unit :=
  definitions ← reads (λ s, dict_of cdef_name (container_definitions s)) ;
  states ← reads (λ s, dict_of cst_name (container_states s)) ;
  _validate_definitions_and_states definitions states ;;
  _validate_pending_and_completed_operations definitions.

(** *** Completing an operation *)

(** The transaction of [commit]; [Some] is the result another commit left. *)
Definition commit_body (request_id : string) (intent : ContainerOperationIntent)
    (st next_state : ContainerState) (r : ContainerOperationResult) :
    uprog (option ContainerOperationResult) :=
  persisted_intent ← get_container_operation_intent request_id ;
  if differs ContainerOperationIntent_eqb persisted_intent intent then
    completed ← get_container_operation_result request_id ;
    match completed with
    | Some c => mret (Some c)
    | None => raise (RuntimeError ("container operation intent changed: " +:+ request_id))
    end
  else
    persisted_state ← get_container_state (cint_container_name intent) ;
    raise_if (differs ContainerState_eqb persisted_state st)
      (RuntimeError ("container state changed before operation commit: " +:+ request_id)) ;;
    save_container_state next_state ;;
    save_container_operation_result r ;;
    delete_container_operation_intent request_id ;;
    mret None.

Definition commit (request_id : string) (completed_at : datetime) : P ContainerOperationResult :=
  existing ← result request_id ;
  match existing with
  | Some r => mret r
  | None =>
    intent ← _pending_intent request_id ;
    st ← _container_state (cint_container_name intent) ;
    definition ← _definition (cint_container_name intent) ;
    let level_after := moved (cint_operation intent) (cst_level st) (cint_amount intent) in
    raise_if (outside (cdef_capacity definition) level_after)
      (RuntimeError ("backend completed infeasible container operation: " +:+ request_id)) ;;
    r ← lift (ContainerOperationResult_new (cint_request_id intent) (cint_container_name intent)
                (cint_operation intent) (cint_amount intent) completed_at (cst_level st)
                level_after (cint_sequence intent)) ;
    next_state ← lift (ContainerState_new (cint_container_name intent) level_after) ;
    won ← tx (commit_body request_id intent st next_state r) ;
    mret (default r won)
  end.

(** [completed], the closure [_submit_intent] hands to the backend. *)
Definition completed (cb : container_callback) : P unit :=
  at_ ← gets (λ w, now (w_backend w)) ;
  r ← commit (ccb_request_id cb) at_ ;
  notify (ccb_on_completed cb) (λ c, NotifiedContainer c r).

Definition _submit_intent (intent : ContainerOperationIntent) (on_completed : option string) :
    P unit :=
  let cb := mkContainerCallback (cint_request_id intent) on_completed in
  match cint_operation intent with
  | Put => on_backend (put_container (cint_container_name intent) (cint_request_id intent)
                         (cint_amount intent) cb)
  | Get => on_backend (get_container (cint_container_name intent) (cint_request_id intent)
                         (cint_amount intent) cb)
  end.

Definition rebuild_backend : P Z :=
  validate_rebuild ;;
  definitions ← reads (λ s, dict_of cdef_name (container_definitions s)) ;
  states ← reads (λ s, dict_of cst_name (container_states s)) ;
  for_each definitions (λ '(_, definition),
    st ← found (dict_get (cdef_name definition) states) (KeyError (cdef_name definition)) ;
    on_backend (create_container (cdef_name definition) (cdef_capacity definition)
                  (cst_level st))) ;;
  intents ← reads (λ s, sort_on (λ i, (cint_sequence i, cint_request_id i))
                          (container_operation_intents s)) ;
  for_each intents (λ intent, _submit_intent intent None) ;;
  mret (Z.of_nat (length definitions + length intents)).

(** *** Requesting an operation *)

Definition _request (container_name request_id operation : string) (amount : spec_float)
    (requested_at : datetime) (on_completed : option string) : P ContainerOperationIntent :=
  _definition container_name ;;
  known ← reads (λ s,
    existsb (λ i, eqb_of (cint_request_id i) request_id) (container_operation_intents s)
    || existsb (λ r, eqb_of (cres_request_id r) request_id) (container_operation_results s)) ;
  raise_if known (ValueError ("container request already exists: " +:+ request_id)) ;;
  sequence ← reads _next_sequence ;
  intent ← lift (ContainerOperationIntent_new request_id container_name operation amount
                   requested_at sequence) ;
  tx (save_container_operation_intent intent) ;;
  _submit_intent intent on_completed ;;
  mret intent.

Definition put (container_name request_id : string) (amount : spec_float)
    (requested_at : datetime) (on_completed : option string) : P ContainerOperationIntent :=
  _request container_name request_id "put" amount requested_at on_completed.

Definition get (container_name request_id : string) (amount : spec_float)
    (requested_at : datetime) (on_completed : option string) : P ContainerOperationIntent :=
  _request container_name request_id "get" amount requested_at on_completed.
End containers.

(** ** Reading the durable dictionaries *)

Section container_lookups.
Context (s : state) (Hwf : wf_containers s).

Lemma container_find_definition name :
  find_first (λ d, eqb_of (cdef_name d) name) (container_definitions s)
  = st_container_definitions s !! name.
Proof. apply find_first_key; [apply elem_of_sorted_values|apply Hwf]. Qed.

Lemma find_state name :
  find_first (λ c, eqb_of (cst_name c) name) (container_states s) = st_container_states s !! name.
Proof. apply find_first_key; [apply elem_of_sorted_values|apply Hwf]. Qed.

Lemma find_intent id :
  find_first (λ i, eqb_of (cint_request_id i) id) (container_operation_intents s)
  = st_container_operation_intents s !! id.
Proof. apply find_first_key; [apply elem_of_values_on|apply Hwf]. Qed.

Lemma find_result id :
  find_first (λ r, eqb_of (cres_request_id r) id) (container_operation_results s)
  = st_container_operation_results s !! id.
Proof. apply find_first_key; [apply elem_of_values_on|apply Hwf]. Qed.
End container_lookups.

(** *** Dataclass equality is reflexive on validated records *)

Lemma positive_finite x : not_positive_finite x = false → isfinite x = true.
Proof. unfold not_positive_finite. by destruct (isfinite x). Qed.

Lemma nonneg_finite x : not_nonneg_finite x = false → isfinite x = true.
Proof. unfold not_nonneg_finite. by destruct (isfinite x). Qed.

Lemma intent_eqb_refl i :
  not_positive_finite (cint_amount i) = false → ContainerOperationIntent_eqb i i = true.
Proof.
  intros H. unfold ContainerOperationIntent_eqb.
  rewrite !bool_decide_eq_true_2 by done. by rewrite feq_refl by by apply positive_finite.
Qed.

Lemma state_eqb_refl c : not_nonneg_finite (cst_level c) = false → ContainerState_eqb c c = true.
Proof.
  intros H. unfold ContainerState_eqb.
  rewrite !bool_decide_eq_true_2 by done. by rewrite feq_refl by by apply nonneg_finite.
Qed.

(** ** What [commit] does *)

(** The state after the commit of [r]. *)
Definition committed (r : ContainerOperationResult) (s : state) : state :=
  s <| st_container_states ::=
         <[cres_container_name r := mkContainerState (cres_container_name r) (cres_level_after r)]> |>
    <| st_container_operation_results ::= <[cres_request_id r := r]> |>
    <| st_container_operation_intents ::= delete (cres_request_id r) |>.

(** The result of committing [i] at [t] from level [l]. *)
Definition outcome (i : ContainerOperationIntent) (l : spec_float) (t : datetime) :
    ContainerOperationResult :=
  mkContainerOperationResult (cint_request_id i) (cint_container_name i) (cint_operation i)
    (cint_amount i) t l (moved (cint_operation i) l (cint_amount i)) (cint_sequence i).

(** [r] is what committing the pending intent [id] in [s] at [t] yields. *)
Record commits (s : state) (id : string) (t : datetime) (r : ContainerOperationResult) : Prop := {
  cm_fresh : st_container_operation_results s !! id = None;
  cm_id : cres_request_id r = id;
  cm_pending : ∃ i st d,
    st_container_operation_intents s !! id = Some i ∧
    st_container_states s !! cint_container_name i = Some st ∧
    st_container_definitions s !! cint_container_name i = Some d ∧
    r = outcome i (cst_level st) t ∧
    outside (cdef_capacity d) (cres_level_after r) = false ∧
    not_nonneg_finite (cres_level_after r) = false ∧ is_empty (cres_container_name r) = false }.

Section commit_facts.
Context {B : Type} `{!TemporalBackend B, !ContainerBackend B}.
Implicit Types w : world B.

Lemma container_commit_inv id t w r w' :
  wf_containers (durable_state w) → commit id t w = (r, w') →
  (w' = w ∧ match st_container_operation_results (durable_state w) !! id with
            | Some r0 => r = Ok r0
            | None => is_ok r = false
            end)
  ∨ ∃ r0, commits (durable_state w) id t r0 ∧ r = Ok r0
          ∧ w' = set_state (committed r0 (durable_state w)) w.
Proof.
  intros Hwf H. unfold commit, commit_body, result, _pending_intent, _container_state, _definition in H.
  inv_world; repeat match goal with
    | E : Some _ = find_first _ _ |- _ => symmetry in E
    | E : None = find_first _ _ |- _ => symmetry in E
    end; rewrite ?container_find_definition, ?find_state, ?find_intent, ?find_result in * by done.
  all: try (left; split; [done|]; by simplify_option_eq).
  - (* the transaction found another result *)
    unfold get_container_operation_intent, get_container_operation_result in *.
    inv_world. cbn in *. unfold fork_state in *. congruence.
  - right. unfold get_container_operation_intent, get_container_state, save_container_state,
      save_container_operation_result, delete_container_operation_intent, working, write in *.
    unfold ContainerOperationResult_new, ContainerState_new in *.
    inv_world; cbn in *; unfold fork_state in *.
    { apply (keyed_lookup _ _ _ _ (wf_cint_key _ Hwf)) in Heqo1. congruence. }
    assert (cint_request_id c1 = id) as Hid by (by eapply keyed_lookup; [apply Hwf|]).
    exists (outcome c1 (cst_level c0) t). split; [|by rewrite <-Hid].
    constructor; [done..|]. naive_solver.
Qed.

Lemma commit_body_run u i st d t :
  let s := uow_working u in
  let r := outcome i (cst_level st) t in
  st_container_operation_results s !! cint_request_id i = None →
  st_container_operation_intents s !! cint_request_id i = Some i →
  st_container_states s !! cint_container_name i = Some st →
  st_container_definitions s !! cint_container_name i = Some d →
  not_positive_finite (cint_amount i) = false → not_nonneg_finite (cst_level st) = false →
  outside (cdef_capacity d) (cres_level_after r) = false →
  ∃ u', commit_body (cint_request_id i) i st
          (mkContainerState (cint_container_name i) (cres_level_after r)) r u = (Ok None, u')
        ∧ uow_working u' = committed r s.
Proof.
  intros s r Hres Hi Hst Hd Ham Hlv Hout. subst s r.
  unfold commit_body, get_container_operation_intent, get_container_state,
    save_container_state, save_container_operation_result,
    delete_container_operation_intent, working, write.
  run. rewrite Hi. cbn [differs]. rewrite intent_eqb_refl by done. cbn [negb].
  run. rewrite Hst. cbn [differs]. rewrite state_eqb_refl by done. cbn [negb].
  run. cbn [cst_name cst_level]. rewrite Hd. apply orb_false_iff in Hout as [_ Hout].
  run. rewrite Hout. run. cbn. rewrite Hres, Hi. run.
  rewrite !(proj2 (eqb_of_true _ _)) by done. cbn. by eexists.
Qed.

(** From a writable store, a feasible pending operation commits. *)
Lemma commit_run id t w i st d :
  durable (durable_state w) → mp_read_only (w_store w) = false →
  st_container_operation_results (durable_state w) !! id = None →
  st_container_operation_intents (durable_state w) !! id = Some i →
  st_container_states (durable_state w) !! cint_container_name i = Some st →
  st_container_definitions (durable_state w) !! cint_container_name i = Some d →
  ContainerOperationResult_new id (cint_container_name i) (cint_operation i) (cint_amount i) t
    (cst_level st) (moved (cint_operation i) (cst_level st) (cint_amount i)) (cint_sequence i)
  = Ok (outcome i (cst_level st) t) →
  outside (cdef_capacity d) (moved (cint_operation i) (cst_level st) (cint_amount i)) = false →
  commit id t w = (Ok (outcome i (cst_level st) t),
                   set_state (committed (outcome i (cst_level st) t) (durable_state w)) w).
Proof.
  intros [Hwf Hget Hex] Hro Hres Hi Hst Hd Hnew Hout. destruct Hwf as [_ _ _ Hwf _].
  assert (cint_request_id i = id) as <- by (by eapply keyed_lookup; [apply Hwf|]).
  unfold commit, result, _pending_intent, _container_state, _definition.
  run. rewrite find_result by done. rewrite Hres. run.
  rewrite find_intent by done. rewrite Hi. run.
  rewrite find_state by done. rewrite Hst. run.
  rewrite container_find_definition by done. rewrite Hd. run.
  rewrite Hout, Hnew. run. symmetry in Hnew. unfold ContainerOperationResult_new in Hnew. inv_prog.
  unfold ContainerState_new. rewrite !fail_if_false by done. run.
  destruct (commit_body_run (begin_uow (durable_state w)) i st d t) as (u & Hb & Hu); try done.
  change (uow_working (begin_uow (durable_state w))) with (durable_state w) in Hu.
  rewrite <-Hu. eapply run_bind_eq; [eapply tx_run; [done|exact Hb|]|done].
  apply commit_ok; rewrite Hu; cbn; [done|by apply exclusive_complete].
Qed.
End commit_facts.

(** ** The ledger *)

(** [ledger init rs l]: starting from [init], the results [rs], in this order,
    each take the level where the previous one left it, to [l]. *)
Inductive ledger (init : spec_float) : list ContainerOperationResult → spec_float → Prop :=
  | ledger_start l : feq init l = true → ledger init [] l
  | ledger_entry rs r l :
      ledger init rs (cres_level_before r) →
      cres_level_after r = moved (cres_operation r) (cres_level_before r) (cres_amount r) →
      feq (cres_level_after r) l = true →
      ledger init (rs ++ [r]) l.

Lemma ledger_feq init rs l l' : ledger init rs l → feq l l' = true → ledger init rs l'.
Proof. intros [? H|????? H] E; econstructor; eauto using feq_trans. Qed.

Lemma ledger_feq_init init init' rs l :
  feq init' init = true → ledger init rs l → ledger init' rs l.
Proof. intros E. induction 1; econstructor; eauto using feq_trans. Qed.

(** The committed results of a container. *)
Definition results_of (name : string) (s : state) : list ContainerOperationResult :=
  filter (λ r, cres_container_name r = name) (container_operation_results s).

(** A committed result moved the level by its amount and stayed in bounds. *)
Definition sound_result (s : state) (r : ContainerOperationResult) : Prop :=
  isfinite (cres_level_after r) = true ∧
  cres_level_after r = moved (cres_operation r) (cres_level_before r) (cres_amount r) ∧
  ∃ d, st_container_definitions s !! cres_container_name r = Some d ∧
       outside (cdef_capacity d) (cres_level_after r) = false.

Definition valid_intent (i : ContainerOperationIntent) : Prop :=
  not_positive_finite (cint_amount i) = false ∧ 1 ≤ cint_sequence i ∧
  cint_request_id i ≠ "" ∧ cint_container_name i ≠ "".

(** The invariant of the containers: the durable one, and for every container
    a level accounted for by its committed results, each taken once. *)
Record container_inv (s : state) : Prop := {
  ci_durable : durable s;
  ci_state : ∀ name, is_Some (st_container_definitions s !! name) →
                     is_Some (st_container_states s !! name);
  ci_levels : map_Forall (λ _ st, not_nonneg_finite (cst_level st) = false) (st_container_states s);
  ci_intents : map_Forall (λ _ i, valid_intent i) (st_container_operation_intents s);
  ci_results : map_Forall (λ _ r, sound_result s r) (st_container_operation_results s);
  ci_ledger : ∀ name d st,
    st_container_definitions s !! name = Some d → st_container_states s !! name = Some st →
    ∃ rs, rs ≡ₚ results_of name s ∧ ledger (cdef_initial d) rs (cst_level st) }.

Lemma results_of_insert name s r :
  st_container_operation_results s !! cres_request_id r = None →
  results_of name (s <| st_container_operation_results ::= <[cres_request_id r := r]> |>)
  ≡ₚ (if bool_decide (cres_container_name r = name) then [r] else []) ++ results_of name s.
Proof.
  intros Hn. unfold results_of, container_operation_results, values_on.
  rewrite !sort_on_perm.
  replace (st_container_operation_results (_ <| st_container_operation_results ::= _ |>))
    with (<[cres_request_id r := r]> (st_container_operation_results s)) by done.
  rewrite map_to_list_insert, fmap_cons, filter_cons by done.
  case_bool_decide; by case_decide.
Qed.

Lemma results_of_same name s s' :
  st_container_operation_results s' = st_container_operation_results s →
  results_of name s' = results_of name s.
Proof. unfold results_of, container_operation_results. by intros ->. Qed.

Lemma committed_inv s id t r :
  container_inv s → commits s id t r → durable (committed r s) → container_inv (committed r s).
Proof.
  intros [Hd Hst Hlv Hin Hres Hled] [Hfresh Hid (i & st & d & Hi & Hs & Hdef & -> & Hout & Hfin & Hne)] Hd'.
  constructor; [done|..]; cbn in *.
  - intros name Hn. apply lookup_insert_is_Some'. right. by apply Hst.
  - by apply map_Forall_insert_2.
  - by apply map_Forall_delete.
  - apply map_Forall_insert_2; [|done].
    split_and!; [by apply nonneg_finite|done|]. by exists d.
  - intros name d0 st0 Hd0 Hs0.
    assert (results_of name (committed (outcome i (cst_level st) t) s)
            ≡ₚ (if bool_decide (cint_container_name i = name) then [outcome i (cst_level st) t] else [])
               ++ results_of name s) as Hperm.
    { apply (results_of_insert name s (outcome i (cst_level st) t)). cbn. congruence. }
    apply lookup_insert_Some in Hs0 as [[<- <-]|[Hne0 Hs0]].
    + rewrite bool_decide_eq_true_2 in Hperm by done.
      destruct (Hled _ _ _ Hd0 Hs) as (rs & Hrs & Hl).
      exists (rs ++ [outcome i (cst_level st) t])%list. split.
      * rewrite Hperm, Hrs. by rewrite Permutation_app_comm.
      * eapply (ledger_entry _ rs (outcome i (cst_level st) t)); [done..|].
        by apply feq_refl, nonneg_finite.
    + rewrite bool_decide_eq_false_2 in Hperm by done.
      destruct (Hled _ _ _ Hd0 Hs0) as (rs & Hrs & Hl). exists rs. by rewrite Hperm.
Qed.

Lemma requested_inv s i :
  container_inv s → valid_intent i →
  durable (s <| st_container_operation_intents ::= <[cint_request_id i := i]> |>) →
  container_inv (s <| st_container_operation_intents ::= <[cint_request_id i := i]> |>).
Proof.
  intros [Hd Hst Hlv Hin Hres Hled] Hi Hd'. constructor; try done. by apply map_Forall_insert_2.
Qed.

(** The state after defining a container. *)
Definition defined (d : ContainerDefinition) (s : state) : state :=
  s <| st_container_definitions ::= <[cdef_name d := d]> |>
    <| st_container_states ::= <[cdef_name d := mkContainerState (cdef_name d) (cdef_initial d)]> |>.

Lemma container_defined_inv s d :
  container_inv s → not_nonneg_finite (cdef_initial d) = false →
  conflicts ContainerDefinition_eqb (st_container_definitions s !! cdef_name d) d = false →
  conflicts ContainerState_eqb (st_container_states s !! cdef_name d)
    (mkContainerState (cdef_name d) (cdef_initial d)) = false →
  durable (defined d s) → container_inv (defined d s).
Proof.
  intros [Hd Hst Hlv Hin Hres Hled] Hfin Hcd Hcs Hd'. constructor; cbn; try done.
  - intros name. rewrite lookup_insert_is_Some'. intros [->|Hn]; rewrite lookup_insert_is_Some'; auto.
  - by apply map_Forall_insert_2.
  - intros id r Hr. destruct (Hres _ _ Hr) as (Hf & Hm & d0 & Hd0 & Ho).
    split_and!; [done..|]. destruct (decide (cres_container_name r = cdef_name d)) as [E|E].
    + exists d. cbn. rewrite E, lookup_insert_eq. split; [done|].
      rewrite E in Hd0. rewrite Hd0 in Hcd. cbn in Hcd. apply negb_false_iff in Hcd.
      unfold ContainerDefinition_eqb in Hcd. apply andb_prop in Hcd as [Hcd _].
      apply andb_prop in Hcd as [_ Hcd]. unfold outside in *. by rewrite (flt_feq_l _ _ _ Hcd).
    + exists d0. cbn. by rewrite lookup_insert_ne.
  - intros name d0 st0 Hd0 Hs0. rewrite (results_of_same name s) by done.
    destruct (decide (cdef_name d = name)) as [<-|Hne].
    + rewrite lookup_insert_eq in Hd0. rewrite lookup_insert_eq in Hs0. simplify_eq. cbn.
      destruct (st_container_definitions s !! cdef_name d0) as [d1|] eqn:E1.
      * destruct (Hst (cdef_name d0)) as [st1 Hs1]; [by rewrite E1|].
        rewrite Hs1 in Hcs. cbn in Hcd, Hcs. apply negb_false_iff in Hcd, Hcs.
        unfold ContainerDefinition_eqb, ContainerState_eqb in *. cbn in Hcs.
        apply andb_prop in Hcd as [_ Hcd], Hcs as [_ Hcs].
        destruct (Hled _ _ _ E1 Hs1) as (rs & Hrs & Hl). exists rs. split; [done|].
        eapply (ledger_feq _ _ (cst_level st1)); [|done].
        eapply (ledger_feq_init (cdef_initial d1)); [|done]. by apply feq_sym.
      * exists []. split; [|constructor; by apply feq_refl, nonneg_finite].
        unfold results_of. rewrite filter_none; [done|].
        intros r Hr E. apply elem_of_values_on in Hr as [k Hr].
        apply (wf_cres_def _ (wf_con _ (durable_wf _ Hd))) in Hr. cbn in Hr. rewrite E, E1 in Hr. by destruct Hr.
    + rewrite lookup_insert_ne in Hd0 by done. rewrite lookup_insert_ne in Hs0 by done. by apply Hled.
Qed.

(** ** The manager keeps the invariant *)

Section manager_invariant.
Context {B : Type} `{!TemporalBackend B, !ContainerBackend B}.
Implicit Types w : world B.

Lemma result_bt id : by_transactions (result (B:=B) id).
Proof. apply bt_reads. Qed.

Lemma definition_bt name : by_transactions (_definition (B:=B) name).
Proof. unfold _definition. auto with bt. Qed.

Lemma commit_body_body id i st st' r : uow_body (commit_body id i st st' r).
Proof.
  unfold commit_body, get_container_operation_intent, get_container_operation_result,
    get_container_state. auto 12 with bt.
Qed.
Hint Resolve commit_body_body : bt.

Lemma commit_bt id t : by_transactions (commit (B:=B) id t).
Proof.
  unfold commit, result, _pending_intent, _container_state, _definition. auto 12 with bt.
Qed.
Hint Resolve commit_bt : bt.

Lemma completed_bt cb : by_transactions (completed (B:=B) cb).
Proof. unfold completed. auto with bt. Qed.

Lemma submit_bt i c : by_transactions (_submit_intent (B:=B) i c).
Proof. unfold _submit_intent. destruct (cint_operation i); auto with bt. Qed.
Hint Resolve submit_bt : bt.

Lemma submit_stored i c I : keeps (stored I) (_submit_intent (B:=B) i c).
Proof. unfold _submit_intent. destruct (cint_operation i); apply on_backend_stored. Qed.

Lemma container_request_bt c id op a t cb : by_transactions (_request (B:=B) c id op a t cb).
Proof. unfold _request, _definition. auto 12 with bt. Qed.

Lemma define_bt d : by_transactions (define (B:=B) d).
Proof. unfold define, get_container_state. auto 12 with bt. Qed.

Lemma validate_result_bt ds r : by_transactions (_validate_result_record (B:=B) ds r).
Proof. unfold _validate_result_record. solve_bt. Qed.
Hint Resolve validate_result_bt : bt.

Lemma rebuild_bt : by_transactions (rebuild_backend (B:=B)).
Proof.
  unfold rebuild_backend, validate_rebuild, _validate_definitions_and_states,
    _validate_pending_and_completed_operations.
  solve_bt.
Qed.

(** A manager method that writes at most what the lemmas above describe. *)
Lemma commit_keeps id t : keeps (stored container_inv) (commit (B:=B) id t).
Proof.
  intros w Hw. pose proof (commit_bt id t durable durable_tx_stable w (ci_durable _ Hw)) as Hd.
  destruct (commit id t w) as [r w'] eqn:E. cbn in *.
  apply container_commit_inv in E as [[-> _]|(r0 & Hc & -> & ->)];
    [done|by eapply committed_inv|apply (wf_con _ (durable_wf _ (ci_durable _ Hw)))].
Qed.

Lemma completed_keeps cb : keeps (stored container_inv) (completed (B:=B) cb).
Proof.
  unfold completed.
  apply keeps_bind; [apply keeps_gets|intros t].
  apply keeps_bind; [apply commit_keeps|intros r]. apply notify_stored.
Qed.

(** What a successful request leaves durable before the backend sees it. *)
Lemma request_inv c id op a t cb w r w' :
  _request c id op a t cb w = (r, w') →
  (w' = w ∧ is_ok r = false)
  ∨ ∃ i, ContainerOperationIntent_new id c op a t (_next_sequence (durable_state w)) = Ok i ∧
         (∀ x, x ∈ container_operation_intents (durable_state w) → cint_request_id x ≠ id) ∧
         (∀ x, x ∈ container_operation_results (durable_state w) → cres_request_id x ≠ id) ∧
         durable_state w' = durable_state w
           <| st_container_operation_intents ::= <[cint_request_id i := i]> |> ∧
         (∀ x, r = Ok x → x = i).
Proof.
  intros H. unfold _request, _definition in H.
  inv_world; try (by left).
  all: right; exists x7.
  all: match goal with H : _submit_intent _ _ _ = _ |- _ => apply (stored_same _ _ _ _ (submit_stored _ _)) in H end.
  all: match goal with H : false = _ |- _ => symmetry in H; apply orb_false_iff in H as [Hi Hr] end.
  all: split; [done|]; split; [by apply existsb_field|]; split; [by apply existsb_field|].
  all: unfold save_container_operation_intent, working, write in *; inv_world.
  all: split; [done|congruence].
Qed.

Lemma intent_new_valid id c op a t n i :
  ContainerOperationIntent_new id c op a t n = Ok i →
  valid_intent i ∧ cint_request_id i = id ∧ cint_container_name i = c ∧
  cint_sequence i = n ∧ cint_amount i = a ∧ container_operation op = Some (cint_operation i).
Proof.
  unfold ContainerOperationIntent_new. intros H. symmetry in H. inv_prog.
  destruct (container_operation op) eqn:E; [|done]. inv_prog. cbn. split_and!; try done.
  unfold valid_intent, is_empty in *. cbn.
  repeat match goal with H : bool_decide _ = false |- _ => apply bool_decide_eq_false in H end.
  split_and!; try done. by apply Z.ltb_ge.
Qed.

Lemma container_request_keeps c id op a t cb :
  keeps (stored container_inv) (_request (B:=B) c id op a t cb).
Proof.
  intros w Hw.
  pose proof (container_request_bt c id op a t cb durable durable_tx_stable w (ci_durable _ Hw)) as Hd.
  destruct (_request c id op a t cb w) as [r w'] eqn:E. unfold stored in *. cbn in *.
  apply request_inv in E as [[-> _]|(i & Hi & _ & _ & Hs & _)]; [done|].
  rewrite Hs in *. apply requested_inv; try done. by eapply intent_new_valid.
Qed.

Lemma container_define_keeps d : keeps (stored container_inv) (define (B:=B) d).
Proof.
  intros w Hw. pose proof (define_bt d durable durable_tx_stable w (ci_durable _ Hw)) as Hd.
  destruct (define d w) as [r w'] eqn:E. unfold stored in *. cbn in *.
  unfold define, ContainerState_new in E. inv_world; try done.
  unfold save_container_definition, get_container_state, save_container_state, working, write in *.
  inv_world. apply container_defined_inv; done.
Qed.

Lemma container_rebuild_stored I : keeps (stored I) (rebuild_backend (B:=B)).
Proof.
  unfold rebuild_backend, validate_rebuild, _validate_definitions_and_states,
    _validate_pending_and_completed_operations, _validate_result_record.
  solve_keeps; apply submit_stored.
Qed.
End manager_invariant.

(** ** Recovery *)

(** A pending operation, handed to a new backend without its caller's callback. *)
Definition resubmit {B} `{ContainerBackend B} (i : ContainerOperationIntent) : prog B unit :=
  let cb := mkContainerCallback (cint_request_id i) None in
  match cint_operation i with
  | Put => put_container (cint_container_name i) (cint_request_id i) (cint_amount i) cb
  | Get => get_container (cint_container_name i) (cint_request_id i) (cint_amount i) cb
  end.

(** What recovery must tell the backend: every container at its durable level,
    then every pending operation, by sequence. *)
Definition restore_containers {B} `{ContainerBackend B} (s : state) : prog B unit :=
  for_each (container_definitions s) (λ d,
    match st_container_states s !! cdef_name d with
    | Some st => create_container (cdef_name d) (cdef_capacity d) (cst_level st)
    | None => mret tt
    end) ;;
  for_each (container_operation_intents s) resubmit.

Section recovery.
Context {B : Type} `{!TemporalBackend B, !ContainerBackend B}.
Implicit Types w : world B.

Section dictionaries.
Context (s : state) (Hinv : container_inv s).
Let Hwf : wf_containers s := wf_con _ (durable_wf _ (ci_durable _ Hinv)).

Lemma container_definitions_dict :
  dict_of cdef_name (container_definitions s) = (λ d, (cdef_name d, d)) <$> container_definitions s.
Proof. apply dict_of_distinct, NoDup_sorted_values, Hwf. Qed.

Lemma states_dict :
  dict_of cst_name (container_states s) = (λ c, (cst_name c, c)) <$> container_states s.
Proof. apply dict_of_distinct, NoDup_sorted_values, Hwf. Qed.

Lemma results_dict :
  dict_of cres_request_id (container_operation_results s)
  = (λ r, (cres_request_id r, r)) <$> container_operation_results s.
Proof. apply dict_of_distinct, NoDup_values_on, Hwf. Qed.

Lemma container_get_definition d name :
  st_container_definitions s !! name = Some d →
  dict_get name ((λ d, (cdef_name d, d)) <$> container_definitions s) = Some d.
Proof.
  intros Hd. rewrite <-(wf_cdef_key _ Hwf _ _ Hd). apply dict_get_distinct.
  - apply NoDup_sorted_values, Hwf.
  - apply elem_of_sorted_values. by exists name.
Qed.

Lemma get_state c name :
  st_container_states s !! name = Some c →
  dict_get name ((λ c, (cst_name c, c)) <$> container_states s) = Some c.
Proof.
  intros Hd. rewrite <-(wf_cst_key _ Hwf _ _ Hd). apply dict_get_distinct.
  - apply NoDup_sorted_values, Hwf.
  - apply elem_of_sorted_values. by exists name.
Qed.

Lemma get_result_none id :
  st_container_operation_results s !! id = None →
  dict_get id ((λ r, (cres_request_id r, r)) <$> container_operation_results s) = None.
Proof.
  intros Hn. apply dict_get_none. intros r [k Hr]%elem_of_values_on E.
  pose proof (wf_cres_key _ Hwf _ _ Hr). congruence.
Qed.

(** The state of a defined container. *)
Lemma defined_state d :
  d ∈ container_definitions s → ∃ c,
    st_container_definitions s !! cdef_name d = Some d ∧
    st_container_states s !! cdef_name d = Some c ∧ flt (cdef_capacity d) (cst_level c) = false.
Proof.
  intros [k Hk]%elem_of_sorted_values. pose proof (wf_cdef_key _ Hwf _ _ Hk) as <-.
  destruct (ci_state _ Hinv (cdef_name d)) as [c Hc]; [by eexists|].
  exists c. split_and!; [done..|]. by eapply (wf_levels _ Hwf).
Qed.
End dictionaries.

(** A state that satisfies the invariant passes the recovery validation. *)
Lemma container_validate_pass w : container_inv (durable_state w) → validate_rebuild w = (Ok tt, w).
Proof.
  intros Hinv. set (s := durable_state w) in *. unfold validate_rebuild.
  pose proof (wf_con _ (durable_wf _ (ci_durable _ Hinv))) as Hwf.
  run. fold s. rewrite container_definitions_dict, states_dict by done.
  eapply run_bind_eq.
  - unfold _validate_definitions_and_states. eapply run_bind_eq; apply for_each_pass.
    + intros ? (d & -> & Hd)%list_elem_of_fmap.
      destruct (defined_state s Hinv d Hd) as (c & Hdef & Hc & Hl).
      rewrite (get_state s Hinv c) by done. by rewrite Hl.
    + intros ? (c & -> & [k Hc]%elem_of_sorted_values)%list_elem_of_fmap.
      destruct (wf_cst_def _ Hwf _ _ Hc) as [d Hd]. by rewrite (container_get_definition s Hinv d).
  - unfold _validate_pending_and_completed_operations. run. fold s. rewrite results_dict by done.
    eapply run_bind_eq; apply for_each_pass.
    + intros i [k Hi]%elem_of_values_on. destruct (wf_cint_def _ Hwf _ _ Hi) as [d Hd].
      rewrite (container_get_definition s Hinv d) by done. rewrite get_result_none; [done..|].
      rewrite (wf_cint_key _ Hwf _ _ Hi). apply (durable_container _ (ci_durable _ Hinv)). by exists i.
    + intros ? (r & -> & [k Hr]%elem_of_values_on)%list_elem_of_fmap.
      destruct (ci_results _ Hinv _ _ Hr) as (Hfin & Hm & d & Hd & Ho).
      unfold _validate_result_record. rewrite (container_get_definition s Hinv d) by done.
      rewrite <-Hm, feq_refl, Ho by done. done.
Qed.

Lemma container_rebuild_run w :
  container_inv (durable_state w) →
  rebuild_backend w
  = (on_backend (restore_containers (durable_state w)) ≫= λ _,
       mret (Z.of_nat (length (container_definitions (durable_state w))
                       + length (container_operation_intents (durable_state w))))) w.
Proof.
  intros Hinv. set (s := durable_state w) in *. unfold rebuild_backend.
  rewrite (run_bind _ _ _ tt w) by by apply container_validate_pass.
  run. fold s. rewrite container_definitions_dict, states_dict by done.
  trans ((on_backend (for_each (container_definitions s) (λ d,
            match st_container_states s !! cdef_name d with
            | Some st => create_container (cdef_name d) (cdef_capacity d) (cst_level st)
            | None => mret tt
            end)) ≫= λ _, on_backend (for_each (container_operation_intents s) resubmit) ≫= λ _,
          mret (Z.of_nat (length (container_definitions s)
                          + length (container_operation_intents s)))) w).
  - apply run_bind_cong.
    + rewrite for_each_fmap, <-for_each_on_backend. apply for_each_ext. intros d w' Hd.
      destruct (defined_state s Hinv d Hd) as (c & _ & Hc & _).
      rewrite (get_state s Hinv c), Hc by done. by run.
    + intros [] w' (b & _ & ->)%on_backend_inv. run.
      change (durable_state (w <| w_backend := b |>)) with s.
      rewrite (sort_on_idemp (λ i, (cint_sequence i, cint_request_id i))) by apply sort_on_sorted.
      apply run_bind_cong; [|by rewrite length_fmap].
      rewrite <-for_each_on_backend. apply for_each_ext. intros i w1 _.
      unfold _submit_intent, resubmit. by destruct (cint_operation i).
  - rewrite <-run_assoc. apply run_bind_cong; [|done]. unfold restore_containers.
    by rewrite on_backend_bind.
Qed.
End recovery.

(** ** Sequences of operations *)

(** What can happen to the containers: calls of the manager's methods, the
    backend completing an operation (possibly again, possibly in any order),
    and a restart with a new backend, of which nothing in memory survives. *)
Inductive container_action (B : Type) :=
  | Define (definition : ContainerDefinition)
  | RequestPut (name id : string) (amount : spec_float) (at_ : datetime) (cb : option string)
  | RequestGet (name id : string) (amount : spec_float) (at_ : datetime) (cb : option string)
  | Complete (cb : container_callback)
  | Commit (id : string) (at_ : datetime)
  | Rebuild
  | Restart (b : B) (c : clock).
Arguments Define {B}.
Arguments RequestPut {B}.
Arguments RequestGet {B}.
Arguments Complete {B}.
Arguments Commit {B}.
Arguments Rebuild {B}.
Arguments Restart {B}.

Section actions.
Context {B : Type} `{!TemporalBackend B, !ContainerBackend B}.

(** The world an action leaves, whether it returns or raises. *)
Definition act (a : container_action B) (w : world B) : world B :=
  match a with
  | Define d => (define d w).2
  | RequestPut n id x t cb => (put n id x t cb w).2
  | RequestGet n id x t cb => (get n id x t cb w).2
  | Complete cb => (completed cb w).2
  | Commit id t => (commit id t w).2
  | Rebuild => (rebuild_backend w).2
  | Restart b c => fresh_world (w_store w) b c
  end.

Definition run_actions (l : list (container_action B)) (w : world B) : world B :=
  foldl (λ w a, act a w) w l.

Lemma container_act_inv a w : stored container_inv w → stored container_inv (act a w).
Proof.
  destruct a; cbn [act].
  - apply container_define_keeps.
  - apply container_request_keeps.
  - apply container_request_keeps.
  - apply completed_keeps.
  - apply commit_keeps.
  - apply container_rebuild_stored.
  - done.
Qed.

Lemma container_run_actions_inv l w : stored container_inv w → stored container_inv (run_actions l w).
Proof. revert w. induction l as [|a l IH]; intros w Hw; [done|]. by apply IH, container_act_inv. Qed.

Lemma commit_existing id t (w : world B) r :
  wf_containers (durable_state w) → st_container_operation_results (durable_state w) !! id = Some r →
  commit id t w = (Ok r, w).
Proof. intros Hwf Hr. unfold commit, result. run. rewrite find_result by done. by rewrite Hr. Qed.
End actions.

Lemma empty_container_inv : container_inv empty_state.
Proof.
  constructor; cbn; try apply map_Forall_empty; [apply durable_empty|..].
  - intros name [? H]. by rewrite lookup_empty in H.
  - intros name d st H. by rewrite lookup_empty in H.
Qed.

(** *** Properties *)

Section properties.
Context {B : Type} `{!TemporalBackend B, !ContainerBackend B}.

(** C5. Whatever sequence of definitions, requests, commits, backend
    completions (repeated or out of order), restarts and recoveries has run
    from an empty store, the level of every container is its initial level
    moved by exactly its committed results, each counted once and each taking
    the level where the one before left it, and it lies between zero and the
    declared capacity. *)
Theorem level_is_ledger (l : list (container_action B)) w name d st :
  durable_state w = empty_state →
  let s := durable_state (run_actions l w) in
  st_container_definitions s !! name = Some d → st_container_states s !! name = Some st →
  (∃ rs, rs ≡ₚ filter (λ r, cres_container_name r = name) (container_operation_results s)
         ∧ ledger (cdef_initial d) rs (cst_level st))
  ∧ isfinite (cst_level st) = true
  ∧ flt (cst_level st) fzero = false ∧ flt (cdef_capacity d) (cst_level st) = false.
Proof.
  intros Hw s Hd Hs.
  assert (container_inv s) as Hinv.
  { apply container_run_actions_inv. unfold stored. rewrite Hw. apply empty_container_inv. }
  split; [by apply (ci_ledger _ Hinv)|].
  pose proof (ci_levels _ Hinv _ _ Hs) as Hl. cbn in Hl.
  split; [by apply nonneg_finite|]. split.
  - unfold not_nonneg_finite in Hl. by apply orb_false_iff in Hl as [_ ?].
  - apply (wf_levels _ (wf_con _ (durable_wf _ (ci_durable _ Hinv))) name); done.
Qed.

(** Committing a pending operation that is feasible moves the level by its
    amount, records one result and removes the intent, in one transaction,
    and returns that result. *)
Theorem commit_applies (w : world B) id i st d t :
  let s := durable_state w in
  let r := outcome i (cst_level st) t in
  container_inv s → mp_read_only (w_store w) = false →
  st_container_operation_intents s !! id = Some i →
  st_container_states s !! cint_container_name i = Some st →
  st_container_definitions s !! cint_container_name i = Some d →
  isfinite (cres_level_after r) = true → outside (cdef_capacity d) (cres_level_after r) = false →
  commit id t w = (Ok r, set_state (committed r s) w).
Proof.
  intros s r Hinv Hro Hi Hs Hd Hfin Hout. pose proof (ci_durable _ Hinv) as Hdur.
  pose proof (wf_cint_key _ (wf_con _ (durable_wf _ Hdur)) _ _ Hi) as Hid.
  destruct (ci_intents _ Hinv _ _ Hi) as (Ham & Hseq & Hne & Hnc).
  eapply commit_run; try done.
  - apply (durable_container _ Hdur). by exists i.
  - pose proof (ci_levels _ Hinv _ _ Hs) as Hl. cbn in Hl, Hid. subst id.
    assert (not_nonneg_finite (cres_level_after r) = false) as Hl'.
    { apply orb_false_iff. split; [by rewrite Hfin|]. by apply orb_false_iff in Hout as [? _]. }
    cbn in Hl'. unfold ContainerOperationResult_new, is_empty.
    rewrite Ham, Hl, Hl', (proj2 (Z.ltb_ge _ _) Hseq).
    by rewrite !bool_decide_eq_false_2.
Qed.

(** [commit] is idempotent: once it has returned a result, committing
    the same request again, at any time, returns that result and changes
    nothing. *)
Theorem commit_idempotent (w : world B) id t r w' t' :
  durable (durable_state w) → commit id t w = (Ok r, w') → commit id t' w' = (Ok r, w').
Proof.
  intros Hdur E. pose proof (commit_bt id t durable durable_tx_stable w Hdur) as Hdur'.
  pose proof (wf_con _ (durable_wf _ Hdur)) as Hwf.
  rewrite E in Hdur'. apply container_commit_inv in E as [[-> Hr]|(r0 & Hc & [= <-] & ->)]; [..|done].
  - destruct (_ !! id) as [r0|] eqn:Hr0; [|done]. simplify_eq. by apply commit_existing.
  - apply commit_existing; [apply (wf_con _ (durable_wf _ Hdur'))|].
    cbn. rewrite (cm_id _ _ _ _ Hc). by rewrite lookup_insert_eq.
Qed.

(** [commit] refuses without changing anything: an unknown request is a
    [KeyError]; an operation that would take the level below zero or above
    the capacity is a [RuntimeError], and stays pending. *)
Theorem commit_refuses (w : world B) id t :
  let s := durable_state w in
  durable s → st_container_operation_results s !! id = None →
  (st_container_operation_intents s !! id = None →
   commit id t w = (Err (KeyError ("unknown container operation intent: " +:+ id)), w)) ∧
  (∀ i st d,
     st_container_operation_intents s !! id = Some i →
     st_container_states s !! cint_container_name i = Some st →
     st_container_definitions s !! cint_container_name i = Some d →
     outside (cdef_capacity d) (moved (cint_operation i) (cst_level st) (cint_amount i)) = true →
     commit id t w
     = (Err (RuntimeError ("backend completed infeasible container operation: " +:+ id)), w)).
Proof.
  intros s Hdur Hr. pose proof (wf_con _ (durable_wf _ Hdur)) as Hwf.
  unfold commit, result, _pending_intent, _container_state, _definition.
  split; [intros Hi|intros i st d Hi Hs Hd Ho]; run; rewrite find_result by done; fold s;
    rewrite Hr; run; rewrite find_intent by done; fold s; rewrite Hi; run; [done|].
  rewrite find_state by done. fold s. rewrite Hs. run.
  rewrite container_find_definition by done. fold s. rewrite Hd. run. by rewrite Ho.
Qed.

(** A request for a known container under a new identity is made durable,
    with a sequence number above every pending and completed operation, before
    the backend sees it; then the backend gets exactly that operation, and its
    refusal does not undo the durable intent. *)
Theorem request_durable_first (w : world B) c id op a t cb i d :
  let s := durable_state w in
  let s' := s <| st_container_operation_intents ::= <[id := i]> |> in
  let cb' := mkContainerCallback id cb in
  durable s → mp_read_only (w_store w) = false →
  st_container_definitions s !! c = Some d →
  st_container_operation_intents s !! id = None →
  st_container_operation_results s !! id = None →
  ContainerOperationIntent_new id c op a t (_next_sequence s) = Ok i →
  (∀ j, j ∈ container_operation_intents s → cint_sequence j < cint_sequence i) ∧
  (∀ r, r ∈ container_operation_results s → cres_sequence r < cint_sequence i) ∧
  _request c id op a t cb w
  = (on_backend (match cint_operation i with
                 | Put => put_container c id a cb'
                 | Get => get_container c id a cb'
                 end) ≫= λ _, mret i) (set_state s' w).
Proof.
  intros s s' cb' Hdur Hro Hd Hi Hr Hnew.
  pose proof (wf_con _ (durable_wf _ Hdur)) as Hwf.
  destruct (intent_new_valid _ _ _ _ _ _ _ Hnew) as (_ & Hid & Hc & Hseq & Ha & _).
  split; [|split].
  - intros j Hj. rewrite Hseq. apply Z.lt_succ_r, py_max_default_ge, elem_of_app. left.
    by apply list_elem_of_fmap_2.
  - intros j Hj. rewrite Hseq. apply Z.lt_succ_r, py_max_default_ge, elem_of_app. right.
    by apply list_elem_of_fmap_2.
  - unfold _request, _definition. run. rewrite container_find_definition by done. fold s. rewrite Hd. run.
    rewrite (proj2 (existsb_field cint_request_id id (container_operation_intents (durable_state w)))).
    2:{ intros x [k Hx]%elem_of_values_on E. pose proof (wf_cint_key _ Hwf _ _ Hx). cbn in *.
        fold s in Hx. congruence. }
    rewrite (proj2 (existsb_field cres_request_id id (container_operation_results (durable_state w)))).
    2:{ intros x [k Hx]%elem_of_values_on E. pose proof (wf_cres_key _ Hwf _ _ Hx). cbn in *.
        fold s in Hx. congruence. }
    cbn [orb]. fold s. rewrite Hnew. run.
    destruct (save_container_operation_intent i (begin_uow s)) as [r u] eqn:E.
    assert (r = Ok tt ∧ uow_working u = s') as [-> Hu].
    { revert E. unfold save_container_operation_intent, working, write. run. cbn. rewrite Hid, Hc.
      unfold present, absent, fork_state. rewrite Hd, Hr, Hi. cbn.
      intros [= <- <-]. cbn. done. }
    eapply run_bind_eq; [eapply tx_run; [done|exact E|apply commit_ok; rewrite Hu; cbn]|].
    + apply Hdur.
    + apply exclusive_insert; [apply Hdur|done].
    + rewrite Hu. unfold _submit_intent. rewrite Hid, Hc, Ha. fold cb'.
      by destruct (cint_operation i).
Qed.

(** Recovery accepts every state the manager can leave: after any
    sequence of actions from an empty store, [rebuild_backend] passes its
    validation, hands the new backend every container at its durable level
    and then every pending operation by sequence, and changes nothing
    durable. *)
Theorem rebuild_restores (l : list (container_action B)) (w0 : world B) :
  durable_state w0 = empty_state →
  let w := run_actions l w0 in
  let s := durable_state w in
  validate_rebuild w = (Ok tt, w) ∧
  rebuild_backend w
  = (on_backend (restore_containers s) ≫= λ _,
       mret (Z.of_nat (length (container_definitions s)
                       + length (container_operation_intents s)))) w ∧
  durable_state (rebuild_backend w).2 = s.
Proof.
  intros Hw0 w s.
  assert (container_inv (durable_state w)) as Hinv.
  { apply container_run_actions_inv. unfold stored. rewrite Hw0. apply empty_container_inv. }
  split; [by apply container_validate_pass|]. split; [by apply container_rebuild_run|].
  destruct (rebuild_backend w) as [r w'] eqn:E. cbn.
  apply (stored_same _ _ _ _ container_rebuild_stored E).
Qed.
End properties.

(** *** A tank of capacity 10 holding 4 *)

Definition tank : ContainerDefinition :=
  mkContainerDefinition "tank" (float_of_Z 10) (float_of_Z 4).
Definition fill (id : string) (amount : Z) : container_action queue_backend :=
  RequestPut "tank" id (float_of_Z amount) 5 (Some "done").
Definition completes (id : string) : container_action queue_backend :=
  Complete (mkContainerCallback id (Some "done")).
Definition tank_with (pending : list (container_action queue_backend)) : world queue_backend :=
  run_actions (Define tank :: pending) new_process.

Lemma tank_inv l : container_inv (durable_state (tank_with l)).
Proof. apply (container_run_actions_inv _ new_process). apply empty_container_inv. Qed.

Lemma level_is_ledger_witness :
  let l := [Define tank; fill "a" 3; fill "b" 1; completes "b"; completes "a"; completes "b"] in
  let s := durable_state (run_actions l new_process) in
  ∃ rs, rs ≡ₚ filter (λ r, cres_container_name r = "tank") (container_operation_results s)
        ∧ ledger (float_of_Z 4) rs (float_of_Z 8).
Proof.
  intros l s.
  refine (proj1 (level_is_ledger l new_process "tank" tank
                   (mkContainerState "tank" (float_of_Z 8)) eq_refl _ _)); vm_compute; reflexivity.
Defined.

Definition pending_fill : ContainerOperationIntent :=
  mkContainerOperationIntent "a" "tank" Put (float_of_Z 3) 5 1.

Lemma commit_applies_witness :
  (commit "a" 9 (tank_with [fill "a" 3])).1 = Ok (outcome pending_fill (float_of_Z 4) 9).
Proof.
  rewrite (commit_applies (tank_with [fill "a" 3]) "a" pending_fill
             (mkContainerState "tank" (float_of_Z 4)) tank 9 (tank_inv _));
    vm_compute; reflexivity.
Defined.

Lemma commit_idempotent_witness :
  let w := (commit "a" 9 (tank_with [fill "a" 3])).2 in
  commit "a" 11 w = (Ok (outcome pending_fill (float_of_Z 4) 9), w).
Proof.
  intros w. apply (commit_idempotent (tank_with [fill "a" 3]) "a" 9 _ w 11).
  - apply ci_durable, tank_inv.
  - vm_compute. reflexivity.
Defined.

Lemma commit_refuses_witness :
  let w := tank_with [fill "a" 7] in
  commit "a" 9 w
  = (Err (RuntimeError "backend completed infeasible container operation: a"), w).
Proof.
  intros w.
  refine (proj2 (commit_refuses w "a" 9 (ci_durable _ (tank_inv _)) _)
            (mkContainerOperationIntent "a" "tank" Put (float_of_Z 7) 5 1)
            (mkContainerState "tank" (float_of_Z 4)) tank _ _ _ _); vm_compute; reflexivity.
Defined.

Lemma request_durable_first_witness :
  (_request "tank" "a" "put" (float_of_Z 3) 5 None (tank_with [])).1 = Ok pending_fill.
Proof.
  refine (eq_trans (f_equal fst (proj2 (proj2 (request_durable_first (tank_with []) "tank" "a" "put"
    (float_of_Z 3) 5 None pending_fill tank (ci_durable _ (tank_inv _)) _ _ _ _ _)))) _);
    vm_compute; reflexivity.
Defined.

Lemma rebuild_restores_witness :
  let w := run_actions [Define tank; fill "a" 3; Restart (new_queue_backend 0) (mkClock 0 1 0)]
             new_process in
  validate_rebuild w = (Ok tt, w).
Proof. intros w. exact (proj1 (rebuild_restores _ new_process eq_refl)). Defined.
