(* ===== verification/Stores.v ===== *)
(** * Durable stores

    [src/src/sose/core/stores.py]: [DurableStoreManager].  An item is put,
    accepted, and consumed by at most one selection; what a request selected is
    never selected again. *)
From S2P Require Import Prelude Encoding Records Memory MemoryFacts World QueueBackend.
Open Scope string_scope.
Open Scope Z_scope.

(** The accepted item of a put intent. *)
Definition item_of (intent : StorePutIntent) : res DurableStoreItem :=
  DurableStoreItem_new (put_item_id intent) (put_store_name intent) (put_value intent)
    (put_priority intent) (put_sequence intent).

Section stores.
Context {B : Type} `{!TemporalBackend B, !StoreBackend B}.
(** [self._filters]: the names of the predicates; the predicates themselves are
    the caller's code, run by the backend. *)
Context (filters : gset string).
(** What the calls made by [run_until] do. *)
Context (handler : invocation → prog (world B) unit).
Abbreviation P := (prog (world B)).

Definition define (definition : StoreDefinition) : P unit :=
  tx (save_store_definition definition).

Definition _filter (key : string) : P string :=
  if decide (key ∈ filters) then mret key
  else raise (KeyError ("unknown durable store filter: " +:+ key)).

Definition _definition (name : string) : P StoreDefinition :=
  definition ← reads (λ s, find_first (λ d, eqb_of (sdef_name d) name) (store_definitions s)) ;
  found definition (KeyError ("unknown store definition: " +:+ name)).

Definition _item_with_id (item_id : string) : P (option DurableStoreItem) :=
  reads (λ s, find_first (λ i, eqb_of (item_item_id i) item_id) (store_items s)).

Definition _consumed_item_with_id (item_id : string) : P (option DurableStoreItem) :=
  reads (λ s, got_item <$> find_first (λ r, eqb_of (item_item_id (got_item r)) item_id)
                             (store_get_results s)).

Definition _pending_put_intent (item_id : string) : P (option StorePutIntent) :=
  reads (λ s, find_first (λ i, eqb_of (put_item_id i) item_id) (store_put_intents s)).

Definition pending_get (request_id : string) : P (option StoreGetRequest) :=
  reads (λ s, find_first (λ r, eqb_of (get_request_id r) request_id) (store_get_requests s)).

Definition selection (request_id : string) : P (option StoreGetResult) :=
  reads (λ s, find_first (λ r, eqb_of (got_request_id r) request_id) (store_get_results s)).

Definition result (request_id : string) : P (option StoreGetResult) := selection request_id.

Definition _next_sequence (s : state) : Z :=
  py_max_default 0 ((item_sequence <$> store_items s) ++ (put_sequence <$> store_put_intents s)
                      ++ (get_sequence <$> store_get_requests s)
                      ++ (got_sequence <$> store_get_results s))%list + 1.

(** *** Recovery *)

Definition _validate_store_records (definitions : list (string * StoreDefinition)) : P unit :=
  items ← reads store_items ;
  for_each items (λ item,
    raise_if (bool_decide (dict_get (item_store_name item) definitions = None))
      (RuntimeError ("store item references unknown definition: " +:+ item_item_id item))) ;;
  intents ← reads store_put_intents ;
  for_each intents (λ intent,
    raise_if (bool_decide (dict_get (put_store_name intent) definitions = None))
      (RuntimeError ("store put references unknown definition: " +:+ put_item_id intent))) ;;
  requests ← reads store_get_requests ;
  for_each requests (λ request,
    match dict_get (get_store_name request) definitions with
    | None => raise (RuntimeError ("store get references unknown definition: "
                                     +:+ get_request_id request))
    | Some definition =>
      match get_filter_key request with
      | None => mret tt
      | Some key =>
        raise_if (negb (eqb_of (sdef_kind definition) Filter))
          (RuntimeError ("filtered get targets non-filter store: " +:+ get_request_id request)) ;;
        _filter key ;; mret tt
      end
    end).

Definition _validate_store_capacities (definitions : list (string * StoreDefinition)) : P unit :=
  for_each definitions (λ '(_, definition),
    match sdef_capacity definition with
    | None => mret tt
    | Some capacity =>
      count ← reads (λ s, length (filter (λ i, item_store_name i = sdef_name definition)
                                    (store_items s))) ;
      raise_if (capacity <? Z.of_nat count)
        (RuntimeError ("durable store " +:+ sdef_name definition
                         +:+ " contains more items than capacity"))
    end).

Definition validate_rebuild : P unit :=
  definitions ← reads (λ s, dict_of sdef_name (store_definitions s)) ;
  _validate_store_records definitions ;;
  _validate_store_capacities definitions.

Definition _create_stores_on_backend (definitions : list (string * StoreDefinition)) : P unit :=
  for_each definitions (λ '(_, definition),
    on_backend (create_store (sdef_kind definition) (sdef_name definition)
                  (sdef_capacity definition))).

Definition _ordered_items (definition : StoreDefinition) (items : list DurableStoreItem) :
    list DurableStoreItem :=
  match sdef_kind definition with
  | Priority => sort_on (λ i, (item_priority i, (item_sequence i, item_item_id i))) items
  | _ => sort_on (λ i, (item_sequence i, item_item_id i)) items
  end.

(** Items already accepted are put back without a callback. *)
Definition _restore_store_items (definitions : list (string * StoreDefinition)) : P Z :=
  sum_each definitions (λ '(_, definition),
    items ← reads (λ s, filter (λ i, item_store_name i = sdef_name definition) (store_items s)) ;
    sum_each (_ordered_items definition items) (λ item,
      on_backend (put_store (sdef_name definition) (item_item_id item) (item_value item)
                    (item_priority item) None) ;;
      mret 1)).

Definition _submit_put_intent (intent : StorePutIntent) (on_stored : option string) : P unit :=
  on_backend (put_store (put_store_name intent) (put_item_id intent) (put_value intent)
                (put_priority intent) (Some (mkStoredCallback (put_item_id intent) on_stored))).

Definition _submit_get_request (request : StoreGetRequest) (on_received : option string) :
    P unit :=
  predicate ← match get_filter_key request with
              | Some key => k ← _filter key ; mret (Some k)
              | None => mret None
              end ;
  on_backend (get_store (get_store_name request) (get_request_id request) predicate
                (mkReceivedCallback (get_request_id request) on_received)).

(** A put intent or a get request. *)
Abbreviation pending := (StorePutIntent + StoreGetRequest)%type.
Definition pending_key (p : pending) : Z * Z :=
  match p with
  | inl intent => (put_sequence intent, 0)
  | inr request => (get_sequence request, 1)
  end.

Definition _restore_pending_operations : P Z :=
  pending ← reads (λ s, sort_on pending_key
                          ((inl <$> store_put_intents s) ++ (inr <$> store_get_requests s))%list) ;
  sum_each pending (λ p,
    match p with
    | inl intent => _submit_put_intent intent None
    | inr request => _submit_get_request request None
    end ;;
    mret 1).

Definition rebuild_backend : P Z :=
  validate_rebuild ;;
  definitions ← reads (λ s, dict_of sdef_name (store_definitions s)) ;
  _create_stores_on_backend definitions ;;
  restored_items ← _restore_store_items definitions ;
  restored_pending ← _restore_pending_operations ;
  mret (restored_items + restored_pending).

(** *** Putting *)

Definition put (store_name item_id : string) (value : pyobj) (requested_at : datetime)
    (priority : Z) (on_stored : option string) : P StorePutIntent :=
  _definition store_name ;;
  known ← reads (λ s, existsb (λ i, eqb_of (item_item_id i) item_id) (store_items s)
                      || existsb (λ i, eqb_of (put_item_id i) item_id) (store_put_intents s)) ;
  raise_if known (ValueError ("store item already exists: " +:+ item_id)) ;;
  sequence ← reads _next_sequence ;
  intent ← lift (StorePutIntent_new item_id store_name value priority requested_at sequence) ;
  tx (save_store_put_intent intent) ;;
  _submit_put_intent intent on_stored ;;
  mret intent.

Definition commit_put_body (item_id : string) (intent : StorePutIntent) (item : DurableStoreItem) :
    uprog unit :=
  persisted ← get_store_put_intent item_id ;
  raise_if (differs eqb_of persisted intent)
    (RuntimeError ("store put intent changed before commit: " +:+ item_id)) ;;
  delete_store_put_intent item_id ;;
  save_store_item item.

Definition commit_put (item_id : string) : P (option DurableStoreItem) :=
  existing ← _item_with_id item_id ;
  match existing with
  | Some item => mret (Some item)
  | None =>
    intent ← _pending_put_intent item_id ;
    match intent with
    | None => mret None
    | Some intent =>
      item ← lift (item_of intent) ;
      tx (commit_put_body item_id intent item) ;;
      mret (Some item)
    end
  end.

(** [stored], the closure of [_submit_put_intent]. *)
Definition stored_put (cb : stored_callback) : P unit :=
  item ← commit_put (scb_item_id cb) ;
  match item with
  | Some i => notify (scb_on_stored cb) (λ c, NotifiedItem c i)
  | None => mret tt
  end.

Definition _assert_store_item_identity (item : DurableStoreItem) (store_name : string)
    (value : pyobj) (item_id : string) : P unit :=
  raise_if (negb (eqb_of (item_store_name item) store_name && eqb_of (item_value item) value))
    (ValueError ("store item identity conflict: " +:+ item_id)).

Definition _ensure_pending_put_intent (store_name item_id : string) (value : pyobj)
    (requested_at : datetime) (priority : Z) : P unit :=
  pending ← _pending_put_intent item_id ;
  match pending with
  | None => put store_name item_id value requested_at priority None ;; mret tt
  | Some p =>
    raise_if (negb (eqb_of (put_store_name p) store_name) || negb (eqb_of (put_value p) value)
              || negb (eqb_of (put_priority p) priority))
      (ValueError ("store item identity conflict: " +:+ item_id))
  end.

Definition ensure_put (store_name item_id : string) (value : pyobj) (requested_at : datetime)
    (priority : Z) : P (option DurableStoreItem) :=
  existing ← _item_with_id item_id ;
  match existing with
  | Some item => _assert_store_item_identity item store_name value item_id ;; mret (Some item)
  | None =>
    consumed ← _consumed_item_with_id item_id ;
    match consumed with
    | Some item => _assert_store_item_identity item store_name value item_id ;; mret (Some item)
    | None =>
      _ensure_pending_put_intent store_name item_id value requested_at priority ;;
      at_ ← gets (λ w, now (w_backend w)) ;
      run_until handler at_ ;;
      _item_with_id item_id
    end
  end.

(** *** Getting *)

Definition get (store_name request_id : string) (requested_at : datetime)
    (filter_key on_received : option string) : P StoreGetRequest :=
  definition ← _definition store_name ;
  known ← reads (λ s, existsb (λ r, eqb_of (get_request_id r) request_id) (store_get_requests s)
                      || existsb (λ r, eqb_of (got_request_id r) request_id) (store_get_results s)) ;
  raise_if known (ValueError ("store get request already exists: " +:+ request_id)) ;;
  raise_if (match filter_key with Some _ => negb (eqb_of (sdef_kind definition) Filter) | None => false end)
    (ValueError "filter_key is supported only for filter stores") ;;
  match filter_key with
  | Some key => if eqb_of (sdef_kind definition) Filter then _filter key ;; mret tt else mret tt
  | None => mret tt
  end ;;
  sequence ← reads _next_sequence ;
  request ← lift (StoreGetRequest_new request_id store_name requested_at sequence filter_key) ;
  tx (save_store_get_request request) ;;
  _submit_get_request request on_received ;;
  mret request.

Definition _consume_store_item (item : option DurableStoreItem) (intent : option StorePutIntent)
    (item_id : string) : res DurableStoreItem :=
  match item, intent with
  | Some i, _ => Ok i
  | None, None => Err (KeyError ("unknown durable store item: " +:+ item_id))
  | None, Some p => item_of p
  end.

Definition _consume_persisted_store_item (item_id : string) : uprog unit :=
  persisted_item ← get_store_item item_id ;
  persisted_intent ← get_store_put_intent item_id ;
  raise_if (bool_decide (persisted_item = None) && bool_decide (persisted_intent = None))
    (RuntimeError ("store item disappeared during consume: " +:+ item_id)) ;;
  match persisted_item with Some _ => delete_store_item item_id | None => mret tt end ;;
  match persisted_intent with Some _ => delete_store_put_intent item_id | None => mret tt end.

Definition commit_get_body (request_id item_id : string) (request : StoreGetRequest)
    (r : StoreGetResult) : uprog (option StoreGetResult) :=
  persisted_request ← get_store_get_request request_id ;
  if differs eqb_of persisted_request request then
    existing ← get_store_get_result request_id ;
    match existing with
    | Some e => mret (Some e)
    | None => raise (RuntimeError ("store get request changed: " +:+ request_id))
    end
  else
    _consume_persisted_store_item item_id ;;
    save_store_get_result r ;;
    delete_store_get_request request_id ;;
    mret None.

Definition commit_get (request_id : string) (backend_item : StoreItem) (completed_at : datetime) :
    P StoreGetResult :=
  existing_result ← selection request_id ;
  match existing_result with
  | Some r => mret r
  | None =>
    request ← pending_get request_id ;
    match request with
    | None => raise (KeyError ("unknown store get request: " +:+ request_id))
    | Some request =>
      raise_if (negb (eqb_of (sitem_store_name backend_item) (get_store_name request)))
        (RuntimeError ("store get returned item from wrong store: "
                         +:+ sitem_item_id backend_item)) ;;
      item ← _item_with_id (sitem_item_id backend_item) ;
      intent ← _pending_put_intent (sitem_item_id backend_item) ;
      if bool_decide (item = None) && bool_decide (intent = None) then
        winner ← selection request_id ;
        found winner (KeyError ("unknown durable store item: " +:+ sitem_item_id backend_item))
      else
        consumed ← lift (_consume_store_item item intent (sitem_item_id backend_item)) ;
        r ← lift (StoreGetResult_new (get_request_id request) (get_store_name request) consumed
                    completed_at (get_sequence request)) ;
        won ← tx (commit_get_body request_id (sitem_item_id backend_item) request r) ;
        mret (default r won)
    end
  end.

(** [received], the closure of [_submit_get_request]. *)
Definition received (cb : received_callback) (item : StoreItem) : P unit :=
  at_ ← gets (λ w, now (w_backend w)) ;
  r ← commit_get (rcb_request_id cb) item at_ ;
  notify (rcb_on_received cb) (λ c, NotifiedItem c (got_item r)).

Definition ensure_selection (store_name request_id : string) (requested_at : datetime)
    (filter_key : option string) : P (option StoreGetResult) :=
  existing ← selection request_id ;
  match existing with
  | Some e =>
    raise_if (negb (eqb_of (got_store_name e) store_name))
      (RuntimeError ("selection " +:+ request_id +:+ " belongs to " +:+ got_store_name e
                       +:+ ", not " +:+ store_name)) ;;
    mret (Some e)
  | None =>
    pending ← pending_get request_id ;
    match pending with
    | Some p =>
      raise_if (negb (eqb_of (get_store_name p) store_name)
                || negb (eqb_of (get_filter_key p) filter_key))
        (RuntimeError ("pending selection " +:+ request_id
                         +:+ " does not match requested store/filter"))
    | None => get store_name request_id requested_at filter_key None ;; mret tt
    end ;;
    at_ ← gets (λ w, now (w_backend w)) ;
    run_until handler at_ ;;
    selection request_id
  end.
End stores.

(** ** Reading the durable dictionaries *)

Section store_lookups.
Context (s : state) (Hwf : wf_stores s).

Lemma find_store name :
  find_first (λ d, eqb_of (sdef_name d) name) (store_definitions s) = st_store_definitions s !! name.
Proof. apply find_first_key; [apply elem_of_sorted_values|apply Hwf]. Qed.

Lemma find_item id :
  find_first (λ i, eqb_of (item_item_id i) id) (store_items s) = st_store_items s !! id.
Proof. apply find_first_key; [apply elem_of_values_on|apply Hwf]. Qed.

Lemma find_put id :
  find_first (λ i, eqb_of (put_item_id i) id) (store_put_intents s) = st_store_put_intents s !! id.
Proof. apply find_first_key; [apply elem_of_values_on|apply Hwf]. Qed.

Lemma find_get id :
  find_first (λ r, eqb_of (get_request_id r) id) (store_get_requests s)
  = st_store_get_requests s !! id.
Proof. apply find_first_key; [apply elem_of_values_on|apply Hwf]. Qed.

Lemma find_selection id :
  find_first (λ r, eqb_of (got_request_id r) id) (store_get_results s)
  = st_store_get_results s !! id.
Proof. apply find_first_key; [apply elem_of_values_on|apply Hwf]. Qed.
End store_lookups.

(** ** What the commits do *)

(** The state after the acceptance of a put. *)
Definition accepted (item : DurableStoreItem) (s : state) : state :=
  s <| st_store_put_intents ::= delete (item_item_id item) |>
    <| st_store_items ::= <[item_item_id item := item]> |>.

(** The state after a selection. *)
Definition selected (r : StoreGetResult) (s : state) : state :=
  s <| st_store_items ::= delete (item_item_id (got_item r)) |>
    <| st_store_put_intents ::= delete (item_item_id (got_item r)) |>
    <| st_store_get_results ::= <[got_request_id r := r]> |>
    <| st_store_get_requests ::= delete (got_request_id r) |>.

(** The item [id] that a selection consumes: accepted, or still being put. *)
Definition consumable (s : state) (id : string) (item : DurableStoreItem) : Prop :=
  st_store_items s !! id = Some item ∨
  (st_store_items s !! id = None ∧ ∃ p, st_store_put_intents s !! id = Some p ∧ item_of p = Ok item).

Lemma item_of_inv p item :
  item_of p = Ok item →
  item = mkDurableStoreItem (put_item_id p) (put_store_name p) (put_value p) (put_priority p)
           (put_sequence p).
Proof. unfold item_of, DurableStoreItem_new. intros H. symmetry in H. by inv_prog. Qed.

Lemma consumable_id s id item : wf_stores s → consumable s id item → item_item_id item = id.
Proof.
  intros Hwf [Hi|(_ & p & Hp & ->%item_of_inv)].
  - by apply (wf_item_key _ Hwf).
  - by apply (wf_put_key _ Hwf).
Qed.

Lemma items_delete_none s id :
  st_store_items s !! id = None → s <| st_store_items ::= delete id |> = s.
Proof. destruct s; cbn; intros H. unfold update_field; cbn. by rewrite delete_id. Qed.

Lemma puts_delete_none s id :
  st_store_put_intents s !! id = None → s <| st_store_put_intents ::= delete id |> = s.
Proof. destruct s; cbn; intros H. unfold update_field; cbn. by rewrite delete_id. Qed.

Section commit_facts.
Context {B : Type} `{!TemporalBackend B, !StoreBackend B}.

Lemma store_consume_body_inv u id r u' :
  _consume_persisted_store_item id u = (r, u') →
  (r = Ok tt → uow_working u' = uow_working u <| st_store_items ::= delete id |>
                                              <| st_store_put_intents ::= delete id |>).
Proof.
  unfold _consume_persisted_store_item, get_store_item, get_store_put_intent,
    delete_store_item, delete_store_put_intent, write.
  intros H ->. inv_prog; cbn; [done|..].
  - by rewrite items_delete_none.
  - by rewrite puts_delete_none.
Qed.

Lemma commit_put_inv id (w : world B) r w' :
  wf_stores (durable_state w) → commit_put id w = (r, w') →
  (w' = w ∧ ∀ item, r = Ok (Some item) → st_store_items (durable_state w) !! id = Some item)
  ∨ ∃ p item, st_store_items (durable_state w) !! id = None ∧
              st_store_put_intents (durable_state w) !! id = Some p ∧ item_of p = Ok item ∧
              item_item_id item = id ∧ r = Ok (Some item) ∧
              w' = set_state (accepted item (durable_state w)) w.
Proof.
  intros Hwf H. unfold commit_put, _item_with_id, _pending_put_intent in H.
  inv_world; repeat match goal with
    | E : Some _ = find_first _ _ |- _ => symmetry in E
    | E : None = find_first _ _ |- _ => symmetry in E
    end; rewrite ?find_item, ?find_put in * by done; try (left; split; [done|]; by intros ? [= ->]).
  right. match goal with H : Ok ?i = item_of ?p |- _ =>
    symmetry in H; pose proof (item_of_inv _ _ H) as Hi; exists p, i end.
  assert (item_item_id x = id) as Hid.
  { eapply consumable_id; [done|]. right. eauto. }
  split_and!; try done.
  unfold commit_put_body, get_store_put_intent, delete_store_put_intent, save_store_item,
    working, write in *. inv_world. cbn. done.
Qed.

Lemma commit_get_body_inv iid q r u x u' :
  st_store_get_results (uow_working u) !! get_request_id q = None →
  st_store_get_requests (uow_working u) !! get_request_id q = Some q →
  got_request_id r = get_request_id q → item_item_id (got_item r) = iid →
  commit_get_body (get_request_id q) iid q r u = (Ok x, u') →
  x = None ∧ uow_working u' = selected r (uow_working u).
Proof.
  intros Hr Hq Hrid <-. unfold commit_get_body, get_store_get_request. run. rewrite Hq.
  cbn [differs]. rewrite (proj2 (eqb_of_true q q)) by done. cbn [negb]. intros H.
  apply bind_inv in H as [([] & u1 & H1 & H)|(e & _ & ?)]; [|done].
  pose proof (store_consume_body_inv _ _ _ _ H1 eq_refl) as Hu1.
  unfold save_store_get_result, delete_store_get_request, working, write in H.
  assert (st_store_get_results (uow_working u1) !! get_request_id q = None) as Hr1 by by rewrite Hu1.
  inv_prog; cbn; rewrite ?Hu1; split; try done; try congruence; unfold selected; by rewrite Hrid.
Qed.

Lemma commit_get_body_run u iid q r :
  let s := uow_working u in
  st_store_get_results s !! get_request_id q = None →
  st_store_get_requests s !! get_request_id q = Some q →
  got_request_id r = get_request_id q → item_item_id (got_item r) = iid →
  got_store_name r = get_store_name q →
  is_Some (st_store_items s !! iid) ∨ is_Some (st_store_put_intents s !! iid) →
  is_Some (st_store_definitions s !! get_store_name q) →
  ∃ u', commit_get_body (get_request_id q) iid q r u = (Ok None, u')
        ∧ uow_working u' = selected r s.
Proof.
  intros s Hr Hq Hrid Hri Hst Hsome [d Hdef]. subst s.
  destruct (_consume_persisted_store_item iid u) as [x u1] eqn:E1.
  assert (x = Ok tt) as ->.
  { revert E1. unfold _consume_persisted_store_item, get_store_item, get_store_put_intent,
      delete_store_item, delete_store_put_intent, write. run.
    destruct (st_store_items _ !! iid), (st_store_put_intents _ !! iid); cbn; run;
      try (by intros [= <- <-]). by destruct Hsome as [[? ?]|[? ?]]. }
  pose proof (store_consume_body_inv _ _ _ _ E1 eq_refl) as Hu1.
  unfold commit_get_body, get_store_get_request. run. rewrite Hq. cbn [differs].
  rewrite (proj2 (eqb_of_true q q)) by done. cbn [negb].
  rewrite (run_bind _ _ _ _ _ E1). unfold save_store_get_result, delete_store_get_request,
    working, write. run. rewrite Hu1. unfold absent. cbn. rewrite Hst, Hdef, Hrid, Hr, Hq. cbn. run.
  rewrite (proj2 (eqb_of_true _ _)) by done. cbn. eexists. split; [done|]. cbn.
  rewrite Hu1. unfold selected. by rewrite Hri, Hrid.
Qed.

Lemma commit_get_inv id it t (w : world B) r w' :
  wf_stores (durable_state w) → commit_get id it t w = (r, w') →
  (w' = w ∧ match st_store_get_results (durable_state w) !! id with
            | Some r0 => r = Ok r0
            | None => is_ok r = false
            end)
  ∨ ∃ q item,
      let r0 := mkStoreGetResult id (get_store_name q) item t (get_sequence q) in
      st_store_get_results (durable_state w) !! id = None ∧
      st_store_get_requests (durable_state w) !! id = Some q ∧
      sitem_store_name it = get_store_name q ∧ item_store_name item = get_store_name q ∧
      consumable (durable_state w) (sitem_item_id it) item ∧
      r = Ok r0 ∧ w' = set_state (selected r0 (durable_state w)) w.
Proof.
  intros Hwf H. unfold commit_get, selection, pending_get, _item_with_id, _pending_put_intent in H.
  inv_world; repeat match goal with
    | E : Some _ = find_first _ _ |- _ => symmetry in E
    | E : None = find_first _ _ |- _ => symmetry in E
    end; rewrite ?find_item, ?find_put, ?find_get, ?find_selection in * by done.
  all: try (left; split; [done|]; by simplify_option_eq).
  right. rename x2 into item. exists s, item.
  assert (get_request_id s = id) as <- by by eapply (wf_get_key _ Hwf).
  assert (consumable (durable_state w) (sitem_item_id it) item) as Hc.
  { unfold consumable, _consume_store_item in *.
    destruct (st_store_items _ !! _), (st_store_put_intents _ !! _); simplify_eq; eauto. }
  pose proof (consumable_id _ _ _ Hwf Hc) as Hid.
  unfold StoreGetResult_new in *. inv_prog.
  match goal with H : commit_get_body _ _ _ _ _ = _ |- _ =>
    apply commit_get_body_inv in H as [-> Hu]; cbn; try done end.
  guard_facts. rewrite Hu. split_and!; try done.
  by match goal with H : bool_decide _ = false |- _ => apply bool_decide_eq_false, dec_stable in H end.
Qed.
End commit_facts.

(** ** Every item is consumed at most once *)

(** The invariant of the stores: the durable one; no two selections hold the
    same item; a selected item is neither in a store nor being put. *)
Record store_inv (s : state) : Prop := {
  si_durable : durable s;
  si_once : unique (λ r, item_item_id (got_item r)) (st_store_get_results s);
  si_gone : ∀ k r, st_store_get_results s !! k = Some r →
              st_store_items s !! item_item_id (got_item r) = None ∧
              st_store_put_intents s !! item_item_id (got_item r) = None }.

(** [id] was selected. *)
Definition consumed (s : state) (id : string) : Prop :=
  ∃ k r, st_store_get_results s !! k = Some r ∧ item_item_id (got_item r) = id.

Lemma accepted_inv s p item :
  store_inv s → st_store_put_intents s !! item_item_id item = Some p →
  durable (accepted item s) → store_inv (accepted item s).
Proof.
  intros [Hd Ho Hg] Hp Hd'. constructor; [done..|]. intros k r Hr. cbn in *.
  destruct (Hg _ _ Hr) as [Hi Hpi].
  assert (item_item_id item ≠ item_item_id (got_item r)) by congruence.
  by rewrite lookup_insert_ne, lookup_delete_ne by done.
Qed.

Lemma selected_inv s r :
  store_inv s → ¬ consumed s (item_item_id (got_item r)) →
  st_store_get_results s !! got_request_id r = None →
  durable (selected r s) → store_inv (selected r s).
Proof.
  intros [Hd Ho Hg] Hnc Hr Hd'. constructor; [done|..].
  - apply unique_insert; [done|]. intros i y Hi E. destruct Hnc. by exists i, y.
  - intros k y Hy. cbn in *. apply lookup_insert_Some in Hy as [[<- <-]|[_ Hy]].
    + by rewrite !lookup_delete_eq.
    + destruct (Hg _ _ Hy) as [Hi Hp].
      split; apply lookup_delete_None; by right.
Qed.

Lemma putting_inv s p :
  store_inv s → ¬ consumed s (put_item_id p) →
  durable (s <| st_store_put_intents ::= <[put_item_id p := p]> |>) →
  store_inv (s <| st_store_put_intents ::= <[put_item_id p := p]> |>).
Proof.
  intros [Hd Ho Hg] Hnc Hd'. constructor; [done..|]. intros k r Hr. cbn in *.
  destruct (Hg _ _ Hr) as [Hi Hp]. split; [done|].
  rewrite lookup_insert_ne; [done|]. intros E. destruct Hnc. by exists k, r.
Qed.

(** A consumable item was not consumed before. *)
Lemma consumable_fresh s id item : store_inv s → consumable s id item → ¬ consumed s id.
Proof.
  intros [_ _ Hg] Hc (k & r & Hr & <-). destruct (Hg _ _ Hr) as [Hi Hp].
  destruct Hc as [Hc|(_ & p & Hc & _)]; congruence.
Qed.

(** The operations that change none of the dictionaries of [store_inv]. *)
Lemma store_inv_frame s s' :
  st_store_get_results s' = st_store_get_results s → st_store_items s' = st_store_items s →
  st_store_put_intents s' = st_store_put_intents s → durable s' → store_inv s → store_inv s'.
Proof. intros E1 E2 E3 Hd [_ Ho Hg]. constructor; [done|..]; by rewrite ?E1, ?E2, ?E3. Qed.

Section manager_invariant.
Context {B : Type} `{!TemporalBackend B, !TemporalBackendLaws B, !StoreBackend B}.
Context (filters : gset string) (handler : invocation → prog (world B) unit).
Context (Hbt : ∀ i, by_transactions (handler i)).
Context (Hhandler : ∀ i, keeps (stored store_inv) (handler i)).
Implicit Types w : world B.

Lemma filter_bt key : by_transactions (_filter (B:=B) filters key).
Proof. unfold _filter. solve_bt. Qed.
Hint Resolve filter_bt : bt.

Lemma commit_put_bt id : by_transactions (commit_put (B:=B) id).
Proof.
  unfold commit_put, _item_with_id, _pending_put_intent, commit_put_body, get_store_put_intent.
  solve_bt.
Qed.

Lemma consume_body id : uow_body (_consume_persisted_store_item id).
Proof. unfold _consume_persisted_store_item, get_store_item, get_store_put_intent. solve_bt. Qed.
Hint Resolve consume_body : bt.

Lemma commit_get_bt id it t : by_transactions (commit_get (B:=B) id it t).
Proof.
  unfold commit_get, selection, pending_get, _item_with_id, _pending_put_intent, commit_get_body,
    get_store_get_request, get_store_get_result.
  solve_bt.
Qed.

Lemma submit_get_bt q c : by_transactions (_submit_get_request (B:=B) filters q c).
Proof. unfold _submit_get_request. solve_bt. Qed.
Hint Resolve submit_get_bt : bt.

Lemma put_bt n id v t p c : by_transactions (put (B:=B) n id v t p c).
Proof. unfold put, _definition, _submit_put_intent. solve_bt. Qed.
Hint Resolve put_bt : bt.

Lemma get_bt n id t k c : by_transactions (get (B:=B) filters n id t k c).
Proof. unfold get, _definition. solve_bt. Qed.
Hint Resolve get_bt : bt.

Lemma ensure_put_bt n id v t p : by_transactions (ensure_put handler n id v t p).
Proof.
  unfold ensure_put, _item_with_id, _consumed_item_with_id, _assert_store_item_identity,
    _ensure_pending_put_intent, _pending_put_intent.
  solve_bt.
Qed.

Lemma ensure_selection_bt n id t k : by_transactions (ensure_selection filters handler n id t k).
Proof. unfold ensure_selection, selection, pending_get. solve_bt. Qed.

Lemma commit_put_keeps id : keeps (stored store_inv) (commit_put (B:=B) id).
Proof.
  intros w Hw. pose proof (commit_put_bt id durable durable_tx_stable w (si_durable _ Hw)) as Hd.
  destruct (commit_put id w) as [r w'] eqn:E. cbn in *.
  apply commit_put_inv in E as [[-> _]|(p & item & _ & Hp & _ & <- & _ & ->)];
    [done|by eapply accepted_inv|apply (wf_sto _ (durable_wf _ (si_durable _ Hw)))].
Qed.

Lemma commit_get_keeps id it t : keeps (stored store_inv) (commit_get (B:=B) id it t).
Proof.
  intros w Hw. pose proof (commit_get_bt id it t durable durable_tx_stable w (si_durable _ Hw)) as Hd.
  pose proof (wf_sto _ (durable_wf _ (si_durable _ Hw))) as Hwf.
  destruct (commit_get id it t w) as [r w'] eqn:E. cbn in *.
  apply commit_get_inv in E as [[-> _]|(q & item & Hr & _ & _ & _ & Hc & _ & ->)]; [done| |done].
  apply selected_inv; try done. cbn. rewrite (consumable_id _ _ _ Hwf Hc).
  by eapply consumable_fresh.
Qed.

Lemma stored_put_keeps cb : keeps (stored store_inv) (stored_put (B:=B) cb).
Proof.
  unfold stored_put. apply keeps_bind; [apply commit_put_keeps|]. intros [i|]; auto with keeps.
Qed.

Lemma received_keeps cb it : keeps (stored store_inv) (received (B:=B) cb it).
Proof.
  unfold received. apply keeps_bind; [apply keeps_gets|intros t].
  apply keeps_bind; [apply commit_get_keeps|intros r]. auto with keeps.
Qed.

Lemma store_define_keeps d : keeps (stored store_inv) (define (B:=B) d).
Proof.
  intros w Hw. assert (by_transactions (define (B:=B) d)) as Hd0 by (unfold define; solve_bt).
  pose proof (Hd0 durable durable_tx_stable w (si_durable _ Hw)) as Hd.
  destruct (define d w) as [r w'] eqn:E. unfold stored in *. cbn in *.
  unfold define in E. inv_world; [done|].
  unfold save_store_definition, working, write in *. inv_world. by apply (store_inv_frame (durable_state w)).
Qed.

Lemma submit_get_stored q c I : keeps (stored I) (_submit_get_request (B:=B) filters q c).
Proof. unfold _submit_get_request, _filter. solve_keeps. Qed.

Lemma save_get_keeps q : keeps (stored store_inv) (tx (B:=B) (save_store_get_request q)).
Proof.
  intros w Hw. pose proof (bt_tx (B:=B) _ (body_op _ (op_save_store_get_request q))
    durable durable_tx_stable w (si_durable _ Hw)) as Hd.
  destruct (tx _ w) as [r w'] eqn:E. unfold stored in *. cbn in *.
  inv_world; [done|]. unfold save_store_get_request, working, write in *. inv_world.
  by apply (store_inv_frame (durable_state w)).
Qed.

Lemma get_keeps n id t k c : keeps (stored store_inv) (get (B:=B) filters n id t k c).
Proof.
  unfold get, _definition, _filter. solve_keeps; [apply save_get_keeps|apply submit_get_stored].
Qed.

(** A put of an item that was never consumed. *)
Lemma put_keeps n id v t p c w :
  stored store_inv w → ¬ consumed (durable_state w) id →
  stored store_inv (put n id v t p c w).2.
Proof.
  intros Hw Hnc. pose proof (put_bt n id v t p c durable durable_tx_stable w (si_durable _ Hw)) as Hd.
  destruct (put n id v t p c w) as [r w'] eqn:E. cbn in *. unfold put, _definition in E.
  inv_world; try done.
  all: match goal with H : Ok ?i = StorePutIntent_new _ _ _ _ _ _ |- _ =>
    assert (put_item_id i = id) as Hid by (unfold StorePutIntent_new in H; by inv_prog) end.
  all: match goal with H : _submit_put_intent _ _ _ = _ |- _ =>
    apply (stored_same _ _ _ _ (λ I, on_backend_stored _ I)) in H as Hs end.
  all: unfold stored in *; rewrite Hs in *.
  all: unfold save_store_put_intent, working, write in *; inv_world.
  all: apply putting_inv; try done; by rewrite Hid.
Qed.

Lemma ensure_put_keeps n id v t p : keeps (stored store_inv) (ensure_put handler n id v t p).
Proof.
  intros w Hw. pose proof (wf_sto _ (durable_wf _ (si_durable _ Hw))) as Hwf.
  unfold ensure_put, _item_with_id, _consumed_item_with_id. run. rewrite find_item by done.
  assert (∀ i, stored store_inv
    ((_assert_store_item_identity i n v id ;; mret (Some i) : prog (world B) _) w).2) as Hsame.
  { intros i. unfold _assert_store_item_identity.
    apply keeps_bind_at; [exact Hw|intros _; apply keeps_ret]. }
  destruct (st_store_items (durable_state w) !! id); [apply Hsame|]. run.
  destruct (find_first _ _) as [x|] eqn:Ef; [apply Hsame|]. cbn [fmap option_fmap option_map].
  assert (¬ consumed (durable_state w) id) as Hnc.
  { rewrite find_first_None in Ef. intros (k & r & Hr & <-).
    assert (eqb_of (item_item_id (got_item r)) (item_item_id (got_item r)) = false) as He.
    { apply Ef, elem_of_values_on. by exists k. }
    by apply eqb_of_false in He. }
  clear Ef. apply keeps_bind_at.
  - unfold _ensure_pending_put_intent, _pending_put_intent. run.
    destruct (find_first _ _); [exact Hw|]. apply keeps_bind_at; [by apply put_keeps|].
    intros a. apply keeps_ret.
  - intros []. apply keeps_bind; [apply keeps_gets|intros now].
    apply keeps_bind; [|intros n0; apply keeps_gets].
    apply run_until_keeps; [done|apply Hhandler].
Qed.

Lemma ensure_selection_keeps n id t k :
  keeps (stored store_inv) (ensure_selection filters handler n id t k).
Proof.
  unfold ensure_selection, selection, pending_get.
  solve_keeps; first [apply get_keeps|apply run_until_keeps; [done|apply Hhandler]].
Qed.

Lemma store_rebuild_stored I : keeps (stored I) (rebuild_backend (B:=B) filters).
Proof.
  unfold rebuild_backend, validate_rebuild, _validate_store_records, _validate_store_capacities,
    _create_stores_on_backend, _restore_store_items, _restore_pending_operations,
    _submit_put_intent, _filter.
  solve_keeps. apply submit_get_stored.
Qed.
End manager_invariant.

(** ** Recovery *)

(** A pending operation, handed to a new backend without its caller's callback. *)
Definition resubmit {B} `{StoreBackend B} (p : StorePutIntent + StoreGetRequest) : prog B Z :=
  match p with
  | inl i => put_store (put_store_name i) (put_item_id i) (put_value i) (put_priority i)
               (Some (mkStoredCallback (put_item_id i) None))
  | inr q => get_store (get_store_name q) (get_request_id q) (get_filter_key q)
               (mkReceivedCallback (get_request_id q) None)
  end ;;
  mret 1.

(** What recovery must tell the backend: the stores; then the accepted items of
    each, a priority store by priority and the others by sequence; then the
    pending operations by sequence, a put before a get. *)
Definition restore_stores {B} `{StoreBackend B} (s : state) : prog B Z :=
  for_each (store_definitions s) (λ d, create_store (sdef_kind d) (sdef_name d) (sdef_capacity d)) ;;
  items ← sum_each (store_definitions s) (λ d,
    sum_each (_ordered_items d (filter (λ i, item_store_name i = sdef_name d) (store_items s)))
      (λ i, put_store (sdef_name d) (item_item_id i) (item_value i) (item_priority i) None ;; mret 1)) ;
  pending ← sum_each (sort_on pending_key
              ((inl <$> store_put_intents s) ++ (inr <$> store_get_requests s))%list) resubmit ;
  mret (items + pending).

Section recovery.
Context {B : Type} `{!TemporalBackend B, !StoreBackend B} (filters : gset string).
Implicit Types w : world B.

Lemma store_definitions_dict s :
  wf_stores s →
  dict_of sdef_name (store_definitions s) = (λ d, (sdef_name d, d)) <$> store_definitions s.
Proof. intros Hwf. apply dict_of_distinct, NoDup_sorted_values, Hwf. Qed.

(** Validation only looks; when it passes, every pending filter is known. *)
Lemma store_validate_pass w w' :
  validate_rebuild filters w = (Ok tt, w') →
  w' = w ∧ ∀ q key, q ∈ store_get_requests (durable_state w) → get_filter_key q = Some key →
                    key ∈ filters.
Proof.
  unfold validate_rebuild, _validate_store_records, _validate_store_capacities. intros H.
  repeat match goal with
  | H : (_ ≫= _) _ = (Ok _, _) |- _ => apply bind_inv in H as [(? & ? & ? & H)|(? & _ & ?)]; [cbv beta in H|done]
  | H : reads _ _ = _ |- _ => apply reads_inv in H as [??]; simplify_eq
  end.
  repeat match goal with
  | H : for_each _ _ _ = (Ok ?u, _) |- _ =>
    destruct u; apply for_each_pass_inv in H as [-> H];
      [|intros; unfold _filter; solve_keeps; apply keeps_gets]
  end.
  split; [done|]. intros q key Hq Hk.
  match goal with H : ∀ x, x ∈ store_get_requests _ → _ |- _ => specialize (H q Hq) end.
  destruct (dict_get _ _); [|done]. rewrite Hk in *. unfold _filter in *.
  inv_prog. by destruct (decide _).
Qed.

(** When the validation passes, recovery hands the new backend the stores,
    then the accepted items in the order of their store (a priority store by
    priority), then the pending puts and gets by sequence, and returns how
    many it restored; nothing durable changes. *)
Theorem rebuild_in_order w :
  wf_stores (durable_state w) → validate_rebuild filters w = (Ok tt, w) →
  rebuild_backend filters w = on_backend (restore_stores (durable_state w)) w
  ∧ durable_state (rebuild_backend filters w).2 = durable_state w.
Proof.
  intros Hwf Hv. split; last first.
  { destruct (rebuild_backend filters w) as [r w'] eqn:E.
    apply (stored_same _ _ _ _ (store_rebuild_stored filters) E). }
  destruct (store_validate_pass _ _ Hv) as [_ Hkeys]. set (s := durable_state w) in *.
  unfold rebuild_backend, restore_stores. rewrite (run_bind _ _ _ _ _ Hv). run. fold s.
  rewrite store_definitions_dict by done. rewrite on_backend_bind.
  apply run_bind_cong.
  { unfold _create_stores_on_backend. by rewrite for_each_fmap, <-for_each_on_backend. }
  intros [] w1 (b1 & _ & ->)%on_backend_inv. rewrite on_backend_bind. apply run_bind_cong.
  { unfold _restore_store_items. rewrite sum_each_fmap, <-sum_each_on_backend.
    apply (sum_each_ext_at (λ w, durable_state w = s)); [done|intros; apply (on_backend_stored _ (λ s0, s0 = s))|].
    intros d w2 Hd Hw2. run. rewrite Hw2, <-sum_each_on_backend. apply sum_each_ext.
    intros i w3 _. rewrite on_backend_bind. apply run_bind_cong; [done|].
    intros [] w4 _. by rewrite on_backend_ret. }
  intros n w2 (b2 & _ & ->)%on_backend_inv. rewrite on_backend_bind. apply run_bind_cong.
  { unfold _restore_pending_operations. run.
    change (durable_state (w <| w_backend := b1 |> <| w_backend := b2 |>)) with s.
    rewrite <-sum_each_on_backend. apply sum_each_ext. unfold resubmit. intros [i|q] w3 Hin.
    - rewrite on_backend_bind. apply run_bind_cong; [done|].
      intros [] w4 _. by rewrite on_backend_ret.
    - rewrite on_backend_bind. apply run_bind_cong.
      + unfold _submit_get_request. destruct (get_filter_key q) as [key|] eqn:Hk; [|by run].
        unfold _filter. rewrite decide_True; [by run|].
        apply (Hkeys q); [|done]. rewrite elem_of_sort_on, elem_of_app in Hin.
        destruct Hin as [(? & [=] & _)%list_elem_of_fmap|(? & [= <-] & ?)%list_elem_of_fmap]; done.
      + intros [] w4 _. by rewrite on_backend_ret. }
  intros m w3 _. by rewrite on_backend_ret.
Qed.
End recovery.

(** ** Sequences of operations *)

(** What can happen to the stores.  [Callback] is the backend calling a closure,
    with any item, possibly again, possibly in any order. *)
Inductive store_action (B : Type) :=
  | DefineStore (definition : StoreDefinition)
  | EnsurePut (name id : string) (value : pyobj) (at_ : datetime) (priority : Z)
  | GetItem (name id : string) (at_ : datetime) (key cb : option string)
  | EnsureSelection (name id : string) (at_ : datetime) (key : option string)
  | Callback (i : invocation)
  | RebuildStores
  | RestartStores (b : B) (c : clock).
Arguments DefineStore {B}.
Arguments EnsurePut {B}.
Arguments GetItem {B}.
Arguments EnsureSelection {B}.
Arguments Callback {B}.
Arguments RebuildStores {B}.
Arguments RestartStores {B}.

Section actions.
Context {B : Type} `{!TemporalBackend B, !TemporalBackendLaws B, !StoreBackend B}.
Context (filters : gset string).

(** The closures of the store manager; the others belong to other managers. *)
Definition store_handler (i : invocation) : prog (world B) unit :=
  match i with
  | Stored cb => stored_put cb
  | Received cb item => received cb item
  | _ => mret tt
  end.

Definition act (a : store_action B) (w : world B) : world B :=
  match a with
  | DefineStore d => (define d w).2
  | EnsurePut n id v t p => (ensure_put store_handler n id v t p w).2
  | GetItem n id t k cb => (get filters n id t k cb w).2
  | EnsureSelection n id t k => (ensure_selection filters store_handler n id t k w).2
  | Callback i => (store_handler i w).2
  | RebuildStores => (rebuild_backend filters w).2
  | RestartStores b c => fresh_world (w_store w) b c
  end.

Definition run_actions (l : list (store_action B)) (w : world B) : world B :=
  foldl (λ w a, act a w) w l.

Lemma store_handler_bt i : by_transactions (store_handler i).
Proof.
  destruct i; try apply bt_ret; cbn; unfold stored_put, received.
  - apply bt_bind; [apply commit_put_bt|intros []; auto with bt].
  - apply bt_bind; [apply bt_gets|intros ?; apply bt_bind; [apply commit_get_bt|auto with bt]].
Qed.

Lemma store_handler_keeps i : keeps (stored store_inv) (store_handler i).
Proof.
  destruct i; try apply keeps_ret; cbn; [apply stored_put_keeps|apply received_keeps].
Qed.

Lemma store_act_inv a w : stored store_inv w → stored store_inv (act a w).
Proof.
  destruct a; cbn [act].
  - apply store_define_keeps.
  - apply ensure_put_keeps, store_handler_keeps.
  - apply get_keeps.
  - apply ensure_selection_keeps, store_handler_keeps.
  - apply store_handler_keeps.
  - apply store_rebuild_stored.
  - done.
Qed.

Lemma store_run_actions_inv l w : stored store_inv w → stored store_inv (run_actions l w).
Proof. revert w. induction l as [|a l IH]; intros w Hw; [done|]. by apply IH, store_act_inv. Qed.
End actions.

Lemma empty_store_inv : store_inv empty_state.
Proof.
  constructor; [apply durable_empty|..].
  - intros ???? H. cbn in H. by rewrite lookup_empty in H.
  - intros ?? H. cbn in H. by rewrite lookup_empty in H.
Qed.

(** *** Properties *)

Section properties.
Context {B : Type} `{!TemporalBackend B, !TemporalBackendLaws B, !StoreBackend B}.
Context (filters : gset string).


(** Committing a selection consumes the item (accepted, or still being
    put), records the result and removes the request, in one transaction. *)
Theorem commit_get_selects (w : world B) id it t q item r :
  let s := durable_state w in
  durable s → mp_read_only (w_store w) = false →
  st_store_get_requests s !! id = Some q →
  sitem_store_name it = get_store_name q → consumable s (sitem_item_id it) item →
  StoreGetResult_new id (get_store_name q) item t (get_sequence q) = Ok r →
  commit_get id it t w = (Ok r, set_state (selected r s) w).
Proof.
  intros s Hd Hro Hq Hst Hc Hnew. pose proof (wf_sto _ (durable_wf _ Hd)) as Hwf.
  assert (get_request_id q = id) as <- by by eapply (wf_get_key _ Hwf).
  assert (st_store_get_results s !! get_request_id q = None) as Hr
    by (apply (durable_get _ Hd); by exists q).
  pose proof (consumable_id _ _ _ Hwf Hc) as Hid.
  assert (got_request_id r = get_request_id q ∧ got_store_name r = get_store_name q
          ∧ got_item r = item) as (Hrid & Hrst & Hri).
  { unfold StoreGetResult_new in Hnew. symmetry in Hnew. by inv_prog. }
  unfold commit_get, selection, pending_get, _item_with_id, _pending_put_intent.
  run. rewrite find_selection by done. fold s. rewrite Hr. run.
  rewrite find_get by done. fold s. rewrite Hq. run.
  rewrite (proj2 (eqb_of_true _ _) Hst). cbn [negb]. run.
  rewrite find_item, find_put by done. fold s.
  assert (bool_decide (st_store_items s !! sitem_item_id it = None)
          && bool_decide (st_store_put_intents s !! sitem_item_id it = None) = false) as ->.
  { destruct Hc as [->|(_ & p & -> & _)]; [done|]. cbn. by rewrite andb_false_r. }
  assert (_consume_store_item (st_store_items s !! sitem_item_id it)
            (st_store_put_intents s !! sitem_item_id it) (sitem_item_id it) = Ok item) as ->.
  { by destruct Hc as [->|(-> & p & -> & ?)]. }
  run. rewrite Hnew. run.
  destruct (commit_get_body_run (begin_uow s) (sitem_item_id it) q r) as (u & Hb & Hu); try done.
  { by rewrite Hri. }
  { destruct Hc as [Hc|(_ & p & Hc & _)]; [left|right]; by eexists. }
  { exact (wf_get_def _ Hwf _ _ Hq). }
  change (uow_working (begin_uow s)) with s in Hu.
  rewrite <-Hu. eapply run_bind_eq; [eapply tx_run; [done|exact Hb|]|done].
  apply commit_ok; rewrite Hu; cbn; [|apply Hd]. rewrite Hrid. by apply exclusive_complete, Hd.
Qed.

(** A selection is final: once a request holds a result, committing it
    again, with whatever item the backend offers, returns that result and
    changes nothing. *)
Theorem selection_final (w : world B) id it t r w' it' t' :
  durable (durable_state w) → commit_get id it t w = (Ok r, w') →
  commit_get id it' t' w' = (Ok r, w').
Proof.
  intros Hd E. pose proof (commit_get_bt id it t durable durable_tx_stable w Hd) as Hd'.
  pose proof (wf_sto _ (durable_wf _ Hd)) as Hwf. rewrite E in Hd'. cbn in Hd'.
  assert (st_store_get_results (durable_state w') !! id = Some r) as Hr.
  { apply commit_get_inv in E as [[-> Hr]|(q & item & _ & _ & _ & _ & _ & [= ->] & ->)]; [..|done].
    - destruct (_ !! id); [by simplify_eq|done].
    - cbn. by rewrite lookup_insert_eq. }
  unfold commit_get, selection. run. rewrite find_selection by apply (wf_sto _ (durable_wf _ Hd')).
  by rewrite Hr.
Qed.

(** [ensure_put] is safe to retry: an item that is in a store, or that was
    already consumed, is returned and nothing changes; the same identity with
    another store or value is a [ValueError] and nothing changes. *)
Theorem ensure_put_retry (w : world B) handler n id v t p item :
  let s := durable_state w in
  store_inv s →
  st_store_items s !! id = Some item
  ∨ (st_store_items s !! id = None ∧
     ∃ k r, st_store_get_results s !! k = Some r ∧ got_item r = item ∧ item_item_id item = id) →
  ensure_put handler n id v t p w
  = if bool_decide (item_store_name item = n ∧ item_value item = v) then (Ok (Some item), w)
    else (Err (ValueError ("store item identity conflict: " +:+ id)), w).
Proof.
  intros s Hinv Hi. pose proof (wf_sto _ (durable_wf _ (si_durable _ Hinv))) as Hwf.
  unfold ensure_put, _item_with_id, _consumed_item_with_id, _assert_store_item_identity.
  assert (∀ i : DurableStoreItem,
    (raise_if (negb (eqb_of (item_store_name i) n && eqb_of (item_value i) v))
       (ValueError ("store item identity conflict: " +:+ id)) ;; mret (Some i)) w
    = if bool_decide (item_store_name i = n ∧ item_value i = v) then (Ok (Some i), w)
      else (Err (ValueError ("store item identity conflict: " +:+ id)), w)) as Hcheck.
  { intros i. run. unfold eqb_of. rewrite bool_decide_and.
    by destruct (bool_decide _ && bool_decide _). }
  run. rewrite find_item by done. fold s.
  destruct Hi as [->|(-> & k & r & Hk & <- & <-)]; [apply Hcheck|]. run.
  fold s. assert (find_first (λ r0, eqb_of (item_item_id (got_item r0)) (item_item_id (got_item r)))
            (store_get_results s) = Some r) as ->; [|apply Hcheck].
  apply (find_first_unique_field (λ r, item_item_id (got_item r)) (st_store_get_results s) _ k);
    [apply elem_of_values_on|apply Hinv|done].
Qed.

(** A put is accepted exactly once: committing a pending put moves it into
    its store in one transaction; committing it again returns the item and
    changes nothing; committing an unknown item returns [None] and changes
    nothing. *)
Theorem commit_put_accepts (w : world B) id :
  let s := durable_state w in
  durable s → mp_read_only (w_store w) = false →
  (∀ item, st_store_items s !! id = Some item → commit_put id w = (Ok (Some item), w)) ∧
  (st_store_items s !! id = None → st_store_put_intents s !! id = None →
   commit_put id w = (Ok None, w)) ∧
  (∀ p item, st_store_put_intents s !! id = Some p → item_of p = Ok item →
     commit_put id w = (Ok (Some item), set_state (accepted item s) w)).
Proof.
  intros s Hd Hro. pose proof (wf_sto _ (durable_wf _ Hd)) as Hwf.
  unfold commit_put, _item_with_id, _pending_put_intent. run. rewrite find_item by done. fold s.
  split_and!; [by intros item ->|intros -> Hp; run; rewrite find_put by done; fold s; by rewrite Hp|].
  intros p item Hp Hitem. pose proof (item_of_inv _ _ Hitem) as Hi.
  assert (put_item_id p = id) as <- by by eapply (wf_put_key _ Hwf).
  assert (st_store_items s !! put_item_id p = None) as Hn.
  { destruct (st_store_items s !! put_item_id p) as [x|] eqn:Hx; [|done].
    pose proof (wf_item_put _ Hwf _ _ Hx) as Hap. cbn in Hap.
    rewrite (wf_item_key _ Hwf _ _ Hx) in Hap. congruence. }
  rewrite Hn. run. rewrite find_put by done. fold s. rewrite Hp. run. rewrite Hitem. run.
  destruct (wf_put_def _ Hwf _ _ Hp) as [d Hdef].
  destruct (commit_put_body (put_item_id p) p item (begin_uow s)) as [x u] eqn:Eb.
  assert (x = Ok tt ∧ uow_working u = accepted item s) as [-> Hu].
  { revert Eb. unfold commit_put_body, get_store_put_intent, delete_store_put_intent,
      save_store_item, working, write. run. cbn. unfold fork_state. rewrite Hp. cbn [differs].
    rewrite (proj2 (eqb_of_true p p)) by done. cbn. subst item. cbn.
    unfold present, absent. rewrite Hdef, lookup_delete_eq, Hn. cbn.
    intros [= <- <-]. done. }
  rewrite <-Hu. eapply run_bind_eq; [eapply tx_run; [done|exact Eb|]|done].
  apply commit_ok; rewrite Hu; apply Hd.
Qed.
End properties.

(** *** A queue of one item, selected by one request *)

Definition queue_of (l : list (store_action queue_backend)) : world queue_backend :=
  run_actions ∅ (DefineStore (mkStoreDefinition "q" Fifo None) :: l) new_process.

Lemma queue_inv l : store_inv (durable_state (queue_of l)).
Proof. apply (store_run_actions_inv ∅ _ new_process). apply empty_store_inv. Qed.

Definition first_item : DurableStoreItem := mkDurableStoreItem "i1" "q" (PInt 7) 100 1.
Definition first_offer : StoreItem := mkStoreItem "i1" "q" (PInt 7) 100.
Definition first_result (t : datetime) : StoreGetResult :=
  mkStoreGetResult "g1" "q" first_item t 2.

Definition put_first : store_action queue_backend := EnsurePut "q" "i1" (PInt 7) 5 100.
Definition ask (id : string) : store_action queue_backend := GetItem "q" id 6 None None.
Definition offer (id : string) : store_action queue_backend :=
  Callback (Received (mkReceivedCallback id None) first_offer).


Lemma commit_get_selects_witness :
  (commit_get "g1" first_offer 9 (queue_of [put_first; ask "g1"])).1 = Ok (first_result 9).
Proof.
  rewrite (commit_get_selects (queue_of [put_first; ask "g1"]) "g1" first_offer 9
    (mkStoreGetRequest "g1" "q" 6 2 None) first_item (first_result 9)
    (si_durable _ (queue_inv _))); try (vm_compute; reflexivity).
  left. vm_compute. reflexivity.
Defined.

Lemma selection_final_witness :
  let w := (commit_get "g1" first_offer 9 (queue_of [put_first; ask "g1"])).2 in
  commit_get "g1" (mkStoreItem "i2" "q" (PInt 8) 100) 12 w = (Ok (first_result 9), w).
Proof.
  intros w.
  refine (selection_final (queue_of [put_first; ask "g1"]) "g1" first_offer 9 _ w
    (mkStoreItem "i2" "q" (PInt 8) 100) 12 (si_durable _ (queue_inv _)) _).
  vm_compute. reflexivity.
Defined.

Lemma ensure_put_retry_witness :
  let w := queue_of [put_first; ask "g1"; offer "g1"] in
  ensure_put (store_handler) "q" "i1" (PInt 7) 20 100 w = (Ok (Some first_item), w).
Proof.
  intros w.
  refine (ensure_put_retry w store_handler "q" "i1" (PInt 7) 20 100 first_item (queue_inv _) _).
  right. split; [vm_compute; reflexivity|].
  exists "g1", (first_result 0). repeat split; vm_compute; reflexivity.
Defined.

Definition putting : world queue_backend :=
  (put "q" "i1" (PInt 7) 5 100 None (queue_of [])).2.

Lemma putting_durable : durable (durable_state putting).
Proof.
  exact (put_bt "q" "i1" (PInt 7) 5 100 None durable durable_tx_stable _ (si_durable _ (queue_inv []))).
Qed.

Lemma commit_put_accepts_witness : (commit_put "i1" putting).1 = Ok (Some first_item).
Proof.
  rewrite (proj2 (proj2 (commit_put_accepts putting "i1" putting_durable eq_refl))
    (mkStorePutIntent "i1" "q" (PInt 7) 100 5 1) first_item); vm_compute; reflexivity.
Defined.

Lemma rebuild_in_order_witness :
  let w := queue_of [put_first; ask "g1"; RestartStores (new_queue_backend 0) (mkClock 0 1 0)] in
  rebuild_backend ∅ w = on_backend (restore_stores (durable_state w)) w.
Proof.
  intros w. refine (proj1 (rebuild_in_order ∅ w _ _)).
  - apply (wf_sto _ (durable_wf _ (si_durable _ (queue_inv _)))).
  - vm_compute. reflexivity.
Defined.
