(* ===== verification/Resources.v ===== *)
(** * Durable resources

    [src/src/sose/core/resources.py]: [DurableResourceManager].  A demand becomes
    a reservation when the backend grants it; a release is recorded before the
    backend is told, so that an interrupted one is finished by recovery.
    [MemoryPersistence] has no [business_resource_guard], so [_release_guard] is
    a null context here. *)
From S2P Require Import Prelude Encoding Records Memory MemoryFacts World QueueBackend.
Open Scope string_scope.
Open Scope Z_scope.

Section resources.
Context {B : Type} `{!TemporalBackend B, !ResourceBackend B, !Uuid5}.
Context (handler : invocation → prog (world B) unit).
Abbreviation P := (prog (world B)).

Definition reservation_for (request_id : string) : P (option ResourceReservation) :=
  reads (λ s, find_first (λ r, eqb_of (rsv_request_id r) request_id) (resource_reservations s)).

(** [next((d for d in demands if d.request_id == request_id), None)]. *)
Definition demand_for (request_id : string) : P (option ResourceDemand) :=
  reads (λ s, find_first (λ d, eqb_of (dem_request_id d) request_id) (resource_demands s)).

Definition has_request (request_id : string) : P bool :=
  reservation ← reservation_for request_id ;
  pending ← reads (λ s, existsb (λ d, eqb_of (dem_request_id d) request_id) (resource_demands s)) ;
  mret (negb (bool_decide (reservation = None)) || pending).

Definition _next_sequence (s : state) : Z :=
  py_max_default 0 ((dem_sequence <$> resource_demands s)
                      ++ (rsv_sequence <$> resource_reservations s))%list + 1.

Definition request (resource_name request_id : string) (requested_at : datetime) (priority : Z)
    (on_acquired : option string) : P ResourceDemand :=
  known ← reads (λ s, existsb (λ d, eqb_of (rdef_name d) resource_name) (resource_definitions s)) ;
  raise_if (negb known) (KeyError ("unknown resource definition: " +:+ resource_name)) ;;
  exists_ ← reads (λ s, existsb (λ d, eqb_of (dem_request_id d) request_id) (resource_demands s)
              || existsb (λ r, eqb_of (rsv_request_id r) request_id) (resource_reservations s)) ;
  raise_if exists_ (ValueError ("resource request already exists: " +:+ request_id)) ;;
  sequence ← reads _next_sequence ;
  demand ← lift (ResourceDemand_new request_id resource_name priority requested_at sequence) ;
  tx (save_resource_demand demand) ;;
  match on_acquired with
  | Some cb => modify (λ w, w <| w_callbacks ::= <[request_id := cb]> |>)
  | None => mret tt
  end ;;
  on_backend (request_resource resource_name request_id priority (RecordGrant request_id)) ;;
  mret demand.

Definition grant_body (request_id : string) (demand : ResourceDemand)
    (reservation : ResourceReservation) : uprog unit :=
  persisted ← get_resource_demand request_id ;
  raise_if (differs eqb_of persisted demand)
    (RuntimeError ("resource demand changed before grant: " +:+ request_id)) ;;
  delete_resource_demand request_id ;;
  save_resource_reservation reservation.

(** The reservation a demand becomes. *)
Definition reservation_of (demand : ResourceDemand) (acquired_at : datetime) : ResourceReservation :=
  mkResourceReservation
    (deterministic_id "resource-reservation"
       [PStr (dem_resource_name demand); PStr (dem_request_id demand)])
    (dem_request_id demand) (dem_resource_name demand) acquired_at (dem_sequence demand).

Definition commit_grant (request_id : string) (acquired_at : datetime) : P ResourceReservation :=
  existing ← reservation_for request_id ;
  match existing with
  | Some r => mret r
  | None =>
    demand ← demand_for request_id ;
    demand ← found demand (KeyError ("unknown resource demand: " +:+ request_id)) ;
    let reservation := reservation_of demand acquired_at in
    tx (grant_body request_id demand reservation) ;;
    mret reservation
  end.

Definition _record_grant (request_id : string) (lease : ResourceLease) : P ResourceReservation :=
  reservation ← commit_grant request_id (lease_acquired_at lease) ;
  modify (λ w, w <| w_leases ::= <[rsv_reservation_id reservation := lease]> |>) ;;
  callback ← gets (λ w, w_callbacks w !! request_id) ;
  modify (λ w, w <| w_callbacks ::= delete request_id |>) ;;
  notify callback (λ c, NotifiedReservation c reservation) ;;
  mret reservation.

(** The closures handed to the backend. *)
Definition acquired (cb : lease_callback) (lease : ResourceLease) : P unit :=
  match cb with
  | StoreLease reservation_id =>
    modify (λ w, w <| w_leases ::= <[reservation_id := lease]> |>)
  | RecordGrant request_id => _record_grant request_id lease ;; mret tt
  end.

Definition cancel_body (request_id : string) (demand : ResourceDemand) : uprog unit :=
  persisted ← get_resource_demand request_id ;
  raise_if (differs eqb_of persisted demand)
    (RuntimeError ("resource demand changed during cancellation: " +:+ request_id)) ;;
  delete_resource_demand request_id.

Definition cancel_pending (request_id : string) : P bool :=
  demand ← demand_for request_id ;
  match demand with
  | None => mret false
  | Some demand =>
    cancelled ← on_backend (cancel_resource_request request_id) ;
    if negb cancelled then mret false else
    tx (cancel_body request_id demand) ;;
    modify (λ w, w <| w_callbacks ::= delete request_id |>) ;;
    mret true
  end.

(** *** Releasing *)

Definition finalize_body (intent : ResourceReleaseIntent) (reservation : ResourceReservation) :
    uprog unit :=
  persisted_intent ← get_resource_release_intent (rel_intent_id intent) ;
  persisted_reservation ← get_resource_reservation (rsv_reservation_id reservation) ;
  raise_if (differs eqb_of persisted_intent intent)
    (RuntimeError ("resource release intent changed: " +:+ rel_intent_id intent)) ;;
  raise_if (differs eqb_of persisted_reservation reservation)
    (RuntimeError ("resource reservation changed during release: "
                     +:+ rsv_reservation_id reservation)) ;;
  delete_resource_reservation (rsv_reservation_id reservation) ;;
  delete_resource_release_intent (rel_intent_id intent).

Definition _finalize_release_intent (intent : ResourceReleaseIntent)
    (reservation : ResourceReservation) : P unit :=
  tx (finalize_body intent reservation).

(** [false]: the reservation changed meanwhile, nothing is recorded. *)
Definition release_body (reservation_id : string) (reservation : ResourceReservation)
    (intent : ResourceReleaseIntent) : uprog bool :=
  persisted ← get_resource_reservation reservation_id ;
  if differs eqb_of persisted reservation then mret false
  else save_resource_release_intent intent ;; mret true.

Definition release_intent (reservation : ResourceReservation) (at_ : datetime) :
    ResourceReleaseIntent :=
  mkResourceReleaseIntent
    (deterministic_id "resource-release" [PStr (rsv_reservation_id reservation)])
    (rsv_reservation_id reservation) (rsv_resource_name reservation) at_.

Definition release (reservation_id : string) : P bool :=
  reservation ← reads (λ s, find_first (λ r, eqb_of (rsv_reservation_id r) reservation_id)
                              (resource_reservations s)) ;
  match reservation with
  | None => mret false
  | Some reservation =>
    lease ← gets (λ w, w_leases w !! reservation_id) ;
    lease ← found lease (RuntimeError ("backend lease is not reconstructed for reservation: "
                                         +:+ reservation_id)) ;
    at_ ← gets (λ w, now (w_backend w)) ;
    let intent := release_intent reservation at_ in
    recorded ← tx (release_body reservation_id reservation intent) ;
    if negb recorded then mret false else
    on_backend (release_resource lease) ;;
    _finalize_release_intent intent reservation ;;
    modify (λ w, w <| w_leases ::= delete reservation_id |>) ;;
    mret true
  end.

(** *** Recovery *)

Definition finalize_interrupted (discovered : ResourceReleaseIntent) : P unit :=
  intent ← reads (λ s, find_first (λ i, eqb_of (rel_intent_id i) (rel_intent_id discovered))
                         (resource_release_intents s)) ;
  reservation ← reads (λ s, find_first (λ r, eqb_of (rsv_reservation_id r)
                              (rel_reservation_id discovered)) (resource_reservations s)) ;
  match intent with
  | None => mret tt
  | Some intent =>
    raise_if (negb (eqb_of intent discovered))
      (RuntimeError ("resource release intent changed: " +:+ rel_intent_id discovered)) ;;
    match reservation with
    | None => tx (delete_resource_release_intent (rel_intent_id intent))
    | Some reservation => _finalize_release_intent intent reservation
    end
  end.

Definition _finalize_interrupted_releases : P unit :=
  discovered ← reads resource_release_intents ;
  for_each discovered finalize_interrupted.

Definition rebuild_backend : P Z :=
  modify (λ w, w <| w_callbacks := ∅ |>) ;;
  _finalize_interrupted_releases ;;
  definitions ← reads resource_definitions ;
  for_each definitions (λ d, on_backend (create_resource (rdef_name d) (rdef_capacity d))) ;;
  reservations ← reads resource_reservations ;
  n ← sum_each reservations (λ r,
    on_backend (request_resource (rsv_resource_name r) (rsv_request_id r) 0
                  (StoreLease (rsv_reservation_id r))) ;;
    mret 1) ;
  demands ← reads resource_demands ;
  m ← sum_each demands (λ d,
    on_backend (request_resource (dem_resource_name d) (dem_request_id d) (dem_priority d)
                  (RecordGrant (dem_request_id d))) ;;
    mret 1) ;
  mret (n + m).

(** *** Idempotent requests *)

Definition ensure_requested (resource_name request_id : string) (requested_at : datetime)
    (priority : Z) (on_acquired : option string) : P (option ResourceReservation) :=
  known ← has_request request_id ;
  (if negb known then
     request resource_name request_id requested_at priority on_acquired ;; mret tt
   else
     match on_acquired with
     | Some cb =>
       reservation ← reservation_for request_id ;
       match reservation with
       | None => modify (λ w, w <| w_callbacks ::= <[request_id := cb]> |>)
       | Some _ => mret tt
       end
     | None => mret tt
     end) ;;
  at_ ← gets (λ w, now (w_backend w)) ;
  run_until handler at_ ;;
  reservation_for request_id.

Definition withdraw (request_id : string) : P bool :=
  changed ← cancel_pending request_id ;
  reservation ← reservation_for request_id ;
  changed ← match reservation with
            | Some r => released ← release (rsv_reservation_id r) ; mret (released || changed)
            | None => mret changed
            end ;
  at_ ← gets (λ w, now (w_backend w)) ;
  run_until handler at_ ;;
  mret changed.
End resources.

(** ** Reading the durable dictionaries *)

Section resource_lookups.
Context (s : state) (Hwf : wf_resources s).

Lemma resource_find_demand id :
  find_first (λ d, eqb_of (dem_request_id d) id) (resource_demands s) = st_resource_demands s !! id.
Proof. apply find_first_key; [apply elem_of_values_on|apply Hwf]. Qed.

Lemma resource_find_reservation id :
  find_first (λ r, eqb_of (rsv_reservation_id r) id) (resource_reservations s)
  = st_resource_reservations s !! id.
Proof. apply find_first_key; [apply elem_of_sorted_values|apply Hwf]. Qed.

Lemma find_release id :
  find_first (λ i, eqb_of (rel_intent_id i) id) (resource_release_intents s)
  = st_resource_release_intents s !! id.
Proof. apply find_first_key; [apply elem_of_sorted_values|apply Hwf]. Qed.

(** The reservation of a request, found by its request identity. *)
Lemma resource_find_reservation_for k r :
  st_resource_reservations s !! k = Some r →
  find_first (λ x, eqb_of (rsv_request_id x) (rsv_request_id r)) (resource_reservations s) = Some r.
Proof.
  apply (find_first_unique_field rsv_request_id); [apply elem_of_sorted_values|apply Hwf].
Qed.

Lemma find_reservation_none id :
  (∀ k r, st_resource_reservations s !! k = Some r → rsv_request_id r ≠ id) →
  find_first (λ x, eqb_of (rsv_request_id x) id) (resource_reservations s) = None.
Proof.
  intros H. apply find_first_None. intros r [k Hr]%elem_of_sorted_values.
  apply eqb_of_false. by eapply H.
Qed.

(** A pending request has no reservation. *)
Lemma resource_pending_not_reserved id d :
  st_resource_demands s !! id = Some d →
  ∀ k r, st_resource_reservations s !! k = Some r → rsv_request_id r ≠ id.
Proof.
  intros Hd k r Hr E. pose proof (wf_rsv_dem _ Hwf _ _ Hr) as Ha. cbn in Ha. congruence.
Qed.
End resource_lookups.

(** ** What the operations do *)

(** The state after a grant. *)
Definition granted (r : ResourceReservation) (s : state) : state :=
  s <| st_resource_demands ::= delete (rsv_request_id r) |>
    <| st_resource_reservations ::= <[rsv_reservation_id r := r]> |>.

(** The state after a release. *)
Definition released (reservation_id intent_id : string) (s : state) : state :=
  s <| st_resource_reservations ::= delete reservation_id |>
    <| st_resource_release_intents ::= delete intent_id |>.

(** The state in which a release is recorded and not yet carried out. *)
Definition releasing (i : ResourceReleaseIntent) (s : state) : state :=
  s <| st_resource_release_intents ::= <[rel_intent_id i := i]> |>.

(** The state with the releases [l] carried out. *)
Definition released_all (l : list ResourceReleaseIntent) (s : state) : state :=
  s <| st_resource_reservations ::= filter (λ kr, kr.1 ∉ (rel_reservation_id <$> l)) |>
    <| st_resource_release_intents ::= filter (λ ki, ki.1 ∉ (rel_intent_id <$> l)) |>.

(** The state with every recorded release carried out. *)
Definition settled (s : state) : state :=
  s <| st_resource_reservations ::=
         filter (λ kr, kr.1 ∉ (rel_reservation_id <$> resource_release_intents s)) |>
    <| st_resource_release_intents := ∅ |>.

Lemma resource_released_all_cons i l s :
  released_all (i :: l) s = released_all l (released (rel_reservation_id i) (rel_intent_id i) s).
Proof.
  unfold released_all, released. destruct s. unfold update_field; cbn. f_equal; symmetry;
    apply delete_filter_cons.
Qed.

Lemma resource_released_all_nil s : released_all [] s = s.
Proof.
  unfold released_all. destruct s. unfold update_field; cbn.
  f_equal; apply map_filter_id; intros; apply not_elem_of_nil.
Qed.

(** Carrying out the only recorded release. *)
Lemma released_releasing i s :
  st_resource_release_intents s = ∅ →
  released (rel_reservation_id i) (rel_intent_id i) (releasing i s)
  = s <| st_resource_reservations ::= delete (rel_reservation_id i) |>.
Proof.
  unfold released, releasing. destruct s. unfold update_field; cbn. intros ->.
  by rewrite delete_insert_eq, delete_empty.
Qed.

Lemma resource_released_all_settled s :
  wf_resources s → released_all (resource_release_intents s) s = settled s.
Proof.
  intros Hwf. unfold released_all, settled.
  assert (filter (λ ki, ki.1 ∉ (rel_intent_id <$> resource_release_intents s))
            (st_resource_release_intents s) = ∅) as E.
  { apply map_empty. intros k. apply map_lookup_filter_None. right. intros i Hi Hk. cbn in Hk.
    apply Hk. rewrite <-(wf_rel_key _ Hwf _ _ Hi). apply list_elem_of_fmap_2, elem_of_sorted_values.
    by exists k. }
  destruct s. unfold update_field; cbn in *. by rewrite E.
Qed.

Section operation_facts.
Context {B : Type} `{!TemporalBackend B, !ResourceBackend B, !Uuid5}.
Implicit Types w : world B.

Lemma grant_run w id d r :
  durable (durable_state w) → mp_read_only (w_store w) = false →
  st_resource_demands (durable_state w) !! id = Some d →
  rsv_request_id r = id → rsv_resource_name r = dem_resource_name d →
  tx (grant_body id d r) w = (Ok tt, set_state (granted r (durable_state w)) w).
Proof.
  intros Hd Hro Hdem <- Hres. pose proof (wf_res _ (durable_wf _ Hd)) as Hwf.
  destruct (grant_body (rsv_request_id r) d r (begin_uow (durable_state w))) as [x u] eqn:E.
  assert (x = Ok tt ∧ uow_working u = granted r (durable_state w)) as [-> Hu].
  { revert E. unfold grant_body, get_resource_demand, delete_resource_demand,
      save_resource_reservation, working, write. run. cbn. unfold fork_state.
    rewrite Hdem. cbn [differs]. rewrite (proj2 (eqb_of_true d d)) by done. cbn.
    unfold present, absent. rewrite lookup_delete_eq, Hres.
    destruct (wf_dem_def _ Hwf _ _ Hdem) as [df ->]. cbn.
    assert (any_value (λ c, eqb_of (rsv_request_id c) (rsv_request_id r)
      && negb (eqb_of (rsv_reservation_id c) (rsv_reservation_id r)))
      (st_resource_reservations (durable_state w)) = false) as ->.
    { destruct (any_value _ _) eqn:Ea; [|done]. apply any_value_true in Ea as (k & y & Hy & Hp).
      apply andb_prop in Hp as [Hp _]. apply (proj1 (eqb_of_true _ _)) in Hp.
      by destruct (resource_pending_not_reserved _ Hwf _ _ Hdem _ _ Hy). }
    by intros [= <- <-]. }
  rewrite <-Hu. eapply tx_apart; try done; by rewrite Hu.
Qed.

Lemma resource_finalize_run w i r :
  durable (durable_state w) → mp_read_only (w_store w) = false →
  st_resource_release_intents (durable_state w) !! rel_intent_id i = Some i →
  st_resource_reservations (durable_state w) !! rsv_reservation_id r = Some r →
  tx (finalize_body i r) w
  = (Ok tt, set_state (released (rsv_reservation_id r) (rel_intent_id i) (durable_state w)) w).
Proof.
  intros Hd Hro Hi Hr.
  destruct (finalize_body i r (begin_uow (durable_state w))) as [x u] eqn:E.
  assert (x = Ok tt ∧ uow_working u = released (rsv_reservation_id r) (rel_intent_id i) (durable_state w))
    as [-> Hu].
  { revert E. unfold finalize_body, get_resource_release_intent, get_resource_reservation,
      delete_resource_reservation, delete_resource_release_intent, write. run. cbn. unfold fork_state.
    rewrite Hi, Hr. cbn [differs]. rewrite !(proj2 (eqb_of_true _ _)) by done.
    by intros [= <- <-]. }
  rewrite <-Hu. eapply tx_apart; try done; by rewrite Hu.
Qed.

(** One step of recovery removes the reservation and the intent of one release. *)
Lemma resource_finalize_interrupted_run w i :
  durable (durable_state w) → mp_read_only (w_store w) = false →
  st_resource_release_intents (durable_state w) !! rel_intent_id i = Some i →
  finalize_interrupted i w
  = (Ok tt, set_state (released (rel_reservation_id i) (rel_intent_id i) (durable_state w)) w).
Proof.
  intros Hd Hro Hi. pose proof (wf_res _ (durable_wf _ Hd)) as Hwf. unfold finalize_interrupted.
  run. rewrite find_release, resource_find_reservation by done. rewrite Hi. run.
  rewrite (proj2 (eqb_of_true i i)) by done. cbn [negb].
  destruct (st_resource_reservations (durable_state w) !! rel_reservation_id i) as [r|] eqn:Hr.
  - assert (rsv_reservation_id r = rel_reservation_id i) as Hid by by eapply (wf_rsv_key _ Hwf).
    rewrite <-Hid. unfold _finalize_release_intent. apply resource_finalize_run; by rewrite ?Hid.
  - destruct (delete_resource_release_intent (rel_intent_id i) (begin_uow (durable_state w)))
      as [x u] eqn:E.
    assert (x = Ok tt ∧ uow_working u
            = released (rel_reservation_id i) (rel_intent_id i) (durable_state w)) as [-> Hu].
    { injection E as <- <-. split; [done|]. cbn. unfold released, fork_state.
      f_equal. symmetry. destruct (durable_state w); cbn in *. unfold update_field; cbn.
      by rewrite delete_id. }
    rewrite <-Hu. eapply tx_apart; try done; by rewrite Hu.
Qed.

Lemma resource_finalize_interrupted_bt i : by_transactions (finalize_interrupted (B:=B) i).
Proof.
  unfold finalize_interrupted, _finalize_release_intent, finalize_body,
    get_resource_release_intent, get_resource_reservation. solve_bt.
Qed.

Lemma commit_grant_bt id t : by_transactions (commit_grant (B:=B) id t).
Proof.
  unfold commit_grant, reservation_for, demand_for, grant_body, get_resource_demand. solve_bt.
Qed.

Lemma resource_request_bt n id t p cb : by_transactions (request (B:=B) n id t p cb).
Proof. unfold request. solve_bt. Qed.

Lemma record_grant_bt id lease : by_transactions (_record_grant (B:=B) id lease).
Proof. unfold _record_grant. pose proof commit_grant_bt. solve_bt. Qed.

(** Recovery carries out every recorded release. *)
Lemma resource_finalize_all_run w l :
  durable (durable_state w) → mp_read_only (w_store w) = false →
  NoDup (rel_intent_id <$> l) →
  (∀ i, i ∈ l → st_resource_release_intents (durable_state w) !! rel_intent_id i = Some i) →
  for_each l finalize_interrupted w = (Ok tt, set_state (released_all l (durable_state w)) w).
Proof.
  revert w. induction l as [|i l IH]; intros w Hd Hro Hnd Hl; cbn [for_each].
  - rewrite resource_released_all_nil. destruct w as [[]]. done.
  - cbn in Hnd. apply NoDup_cons in Hnd as [Hni Hnd].
    assert (finalize_interrupted i w = (Ok tt, set_state (released (rel_reservation_id i)
              (rel_intent_id i) (durable_state w)) w)) as E.
    { apply resource_finalize_interrupted_run; [done..|]. apply Hl. by constructor. }
    pose proof (resource_finalize_interrupted_bt i durable durable_tx_stable w Hd) as Hd'.
    rewrite E in Hd'. eapply run_bind_eq; [exact E|]. rewrite IH; try done.
    + by rewrite resource_released_all_cons.
    + intros j Hj. cbn. rewrite lookup_delete_ne; [apply Hl; by constructor|].
      intros Heq. apply Hni. rewrite Heq. by apply list_elem_of_fmap_2.
Qed.

Lemma resource_settle_run w :
  durable (durable_state w) → mp_read_only (w_store w) = false →
  _finalize_interrupted_releases w = (Ok tt, set_state (settled (durable_state w)) w).
Proof.
  intros Hd Hro. pose proof (wf_res _ (durable_wf _ Hd)) as Hwf.
  unfold _finalize_interrupted_releases. run. rewrite <-resource_released_all_settled by done.
  apply resource_finalize_all_run; try done.
  - apply NoDup_sorted_values, Hwf.
  - intros i [k Hi]%elem_of_sorted_values. by rewrite (wf_rel_key _ Hwf _ _ Hi).
Qed.

Lemma release_body_run w r i :
  durable (durable_state w) → mp_read_only (w_store w) = false →
  st_resource_reservations (durable_state w) !! rsv_reservation_id r = Some r →
  rel_reservation_id i = rsv_reservation_id r →
  st_resource_release_intents (durable_state w) !! rel_intent_id i = None →
  tx (release_body (rsv_reservation_id r) r i) w
  = (Ok true, set_state (releasing i (durable_state w)) w)
  ∧ durable (releasing i (durable_state w)).
Proof.
  intros Hd Hro Hr Hid Hi.
  destruct (release_body (rsv_reservation_id r) r i (begin_uow (durable_state w))) as [x u] eqn:E.
  assert (x = Ok true ∧ uow_working u = releasing i (durable_state w)) as [-> Hu].
  { revert E. unfold release_body, get_resource_reservation, save_resource_release_intent,
      working, write. run. cbn. unfold fork_state. rewrite Hr. cbn [differs].
    rewrite (proj2 (eqb_of_true r r)) by done. cbn. unfold absent. run. cbn. unfold fork_state. rewrite Hid, Hr, Hi. cbn.
    by intros [= <- <-]. }
  assert (tx (release_body (rsv_reservation_id r) r i) w
          = (Ok true, set_state (releasing i (durable_state w)) w)) as Htx.
  { rewrite <-Hu. eapply tx_apart; try done; by rewrite Hu. }
  split; [done|].
  assert (uow_body (release_body (rsv_reservation_id r) r i)) as Hb
    by (unfold release_body, get_resource_reservation; solve_bt).
  pose proof (bt_tx (B:=B) _ Hb durable durable_tx_stable w Hd) as Hd'. by rewrite Htx in Hd'.
Qed.
End operation_facts.

Lemma settled_releasing i s :
  wf_resources (releasing i s) → st_resource_release_intents s = ∅ →
  settled (releasing i s) = s <| st_resource_reservations ::= delete (rel_reservation_id i) |>.
Proof.
  intros Hwf Hn. rewrite <-resource_released_all_settled by done.
  assert (resource_release_intents (releasing i s) = [i]) as ->.
  { unfold resource_release_intents, sorted_values, releasing. cbn. rewrite Hn.
    by rewrite insert_empty, map_to_list_singleton. }
  rewrite resource_released_all_cons, resource_released_all_nil. by apply released_releasing.
Qed.

(** What recovery must tell the backend: the resources; then a request for every
    reservation, at the highest priority; then one for every demand, in order. *)
Definition restore_resources {B} `{ResourceBackend B} (s : state) : prog B Z :=
  for_each (resource_definitions s) (λ d, create_resource (rdef_name d) (rdef_capacity d)) ;;
  n ← sum_each (resource_reservations s) (λ r,
    request_resource (rsv_resource_name r) (rsv_request_id r) 0 (StoreLease (rsv_reservation_id r)) ;;
    mret 1) ;
  m ← sum_each (resource_demands s) (λ d,
    request_resource (dem_resource_name d) (dem_request_id d) (dem_priority d)
      (RecordGrant (dem_request_id d)) ;;
    mret 1) ;
  mret (n + m).

(** *** Properties *)

Section properties.
Context {B : Type} `{!TemporalBackend B, !ResourceBackend B, !Uuid5}.
Implicit Types w : world B.

(** A release interrupted by a crash is the release carried out: once its
    intent is durable, recovery from that state, in any process and with any
    backend, leaves exactly the durable state that the uninterrupted
    [release] leaves, and both remove the reservation and the intent only. *)
Theorem interrupted_release_recovers w id r lease b :
  let s := durable_state w in
  let i := release_intent r (now (w_backend w)) in
  durable s → mp_read_only (w_store w) = false →
  st_resource_release_intents s = ∅ → st_resource_reservations s !! id = Some r →
  w_leases w !! id = Some lease → release_resource lease (w_backend w) = (Ok tt, b) →
  (release id w).1 = Ok true ∧
  durable_state (release id w).2 = s <| st_resource_reservations ::= delete id |> ∧
  ∀ w1, durable_state w1 = releasing i s → mp_read_only (w_store w1) = false →
    (_finalize_interrupted_releases w1).1 = Ok tt ∧
    durable_state (_finalize_interrupted_releases w1).2 = durable_state (release id w).2.
Proof.
  intros s i Hd Hro Hni Hr Hl Hb. pose proof (wf_res _ (durable_wf _ Hd)) as Hwf.
  assert (rsv_reservation_id r = id) as <- by by eapply (wf_rsv_key _ Hwf).
  destruct (release_body_run w r i) as [Htx Hd']; try done; [by fold s; rewrite Hni|].
  assert (durable_state (release (rsv_reservation_id r) w).2
          = s <| st_resource_reservations ::= delete (rsv_reservation_id r) |>
          ∧ (release (rsv_reservation_id r) w).1 = Ok true) as [Hs Hrel].
  { unfold release. run. rewrite resource_find_reservation by done. fold s. rewrite Hr. run.
    rewrite Hl. run. fold i. rewrite (run_bind _ _ _ _ _ Htx). cbn [negb].
    set (w1 := set_state _ w).
    assert (on_backend (release_resource lease) w1 = (Ok tt, w1 <| w_backend := b |>)) as Hob
      by (unfold on_backend, focus; change (w_backend w1) with (w_backend w); by rewrite Hb).
    rewrite (run_bind _ _ _ _ _ Hob). unfold _finalize_release_intent.
    assert (durable_state (w1 <| w_backend := b |>) = releasing i s) as Hw2 by done.
    rewrite (run_bind _ _ _ _ _ (resource_finalize_run (w1 <| w_backend := b |>) i r
      ltac:(by rewrite Hw2) Hro ltac:(rewrite Hw2; apply lookup_insert_eq)
      ltac:(by rewrite Hw2))).
    split; [|done]. rewrite Hw2. by apply released_releasing. }
  split_and!; [done..|]. intros w1 Hw1 Hro1. rewrite resource_settle_run by by rewrite ?Hw1.
  split; [done|]. cbn. rewrite Hw1, Hs.
  apply settled_releasing; [|done]. apply (wf_res _ (durable_wf _ Hd')).
Qed.

(** A grant turns the pending demand into one reservation, in one
    transaction; granting again, at any time, returns that reservation and
    changes nothing; a request that is neither pending nor reserved is a
    [KeyError] and changes nothing. *)
Theorem grant_once w id t :
  let s := durable_state w in
  durable s → mp_read_only (w_store w) = false →
  (∀ d, st_resource_demands s !! id = Some d →
     let r := reservation_of d t in
     let w' := set_state (granted r s) w in
     commit_grant id t w = (Ok r, w') ∧ durable (granted r s) ∧
     ∀ t', commit_grant id t' w' = (Ok r, w')) ∧
  (st_resource_demands s !! id = None →
   (∀ k r, st_resource_reservations s !! k = Some r → rsv_request_id r ≠ id) →
   commit_grant id t w = (Err (KeyError ("unknown resource demand: " +:+ id)), w)).
Proof.
  intros s Hd Hro. pose proof (wf_res _ (durable_wf _ Hd)) as Hwf. split.
  - intros d Hdem r w'.
    assert (dem_request_id d = id) as <- by by eapply (wf_dem_key _ Hwf).
    assert (commit_grant (dem_request_id d) t w = (Ok r, w')) as E.
    { unfold commit_grant, reservation_for, demand_for. run.
      rewrite find_reservation_none by by apply (resource_pending_not_reserved _ Hwf _ _ Hdem).
      run. rewrite resource_find_demand by done. fold s. rewrite Hdem. run.
      by rewrite (run_bind _ _ _ _ _ (grant_run w _ d r Hd Hro Hdem eq_refl eq_refl)). }
    pose proof (commit_grant_bt (dem_request_id d) t durable durable_tx_stable w Hd) as Hd'.
    rewrite E in Hd'. split_and!; [done..|]. intros t'.
    unfold commit_grant, reservation_for. run.
    assert (find_first (λ x, eqb_of (rsv_request_id x) (dem_request_id d))
              (resource_reservations (durable_state w')) = Some r) as ->; [|done].
    apply (resource_find_reservation_for (durable_state w') (wf_res _ (durable_wf _ Hd'))
      (rsv_reservation_id r) r (lookup_insert_eq _ _ _)).
  - intros Hn Hr. unfold commit_grant, reservation_for, demand_for. run.
    rewrite find_reservation_none by done. run. rewrite resource_find_demand by done. fold s. by rewrite Hn.
Qed.

(** Cancelling a demand is decided by the backend: when it refuses, or
    when nothing is pending, the answer is [false] and nothing durable
    changes; when it accepts, exactly that demand is removed. *)
Theorem cancel_pending_decided w id d b cancelled :
  let s := durable_state w in
  durable s → mp_read_only (w_store w) = false →
  cancel_resource_request id (w_backend w) = (Ok cancelled, b) →
  (st_resource_demands s !! id = None → cancel_pending id w = (Ok false, w)) ∧
  (st_resource_demands s !! id = Some d →
   (cancel_pending id w).1 = Ok cancelled ∧
   durable_state (cancel_pending id w).2
   = if cancelled then s <| st_resource_demands ::= delete id |> else s).
Proof.
  intros s Hd Hro Hc. pose proof (wf_res _ (durable_wf _ Hd)) as Hwf.
  unfold cancel_pending, demand_for. run. rewrite resource_find_demand by done. fold s.
  split; [by intros ->|]. intros Hdem. rewrite Hdem. run. set (w1 := w <| w_backend := b |>).
  assert (on_backend (cancel_resource_request id) w = (Ok cancelled, w1)) as Hob
    by (unfold on_backend, focus; by rewrite Hc).
  rewrite (run_bind _ _ _ _ _ Hob). destruct cancelled; [|done]. cbn [negb].
  assert (durable_state w1 = s) as Hw1 by done.
  destruct (cancel_body id d (begin_uow s)) as [x u] eqn:E.
  assert (x = Ok tt ∧ uow_working u = s <| st_resource_demands ::= delete id |>) as [-> Hu].
  { revert E. unfold cancel_body, get_resource_demand, delete_resource_demand, write. run. cbn.
    unfold fork_state. rewrite Hdem. cbn [differs]. rewrite (proj2 (eqb_of_true d d)) by done.
    by intros [= <- <-]. }
  rewrite <-Hu. rewrite (run_bind _ _ _ _ _
    (tx_apart (cancel_body id d) w1 tt u ltac:(by rewrite Hw1) Hro ltac:(by rewrite Hw1)
      ltac:(by rewrite Hu) ltac:(by rewrite Hu) ltac:(by rewrite Hu) ltac:(by rewrite Hu))).
  done.
Qed.

(** Recovery first carries out every interrupted release, then hands the
    new backend the resources, a request for each remaining reservation and a
    request for each demand in priority order, and never fails on a durable
    state of its own. *)
Theorem rebuild_after_settling w :
  let s := durable_state w in
  durable s → mp_read_only (w_store w) = false →
  rebuild_backend w
  = on_backend (restore_resources (settled s))
      (set_state (settled s) w <| w_callbacks := ∅ |>).
Proof.
  intros s Hd Hro. unfold rebuild_backend, restore_resources. run.
  set (w0 := w <| w_callbacks := ∅ |>).
  assert (durable_state w0 = s) as Hw0 by done.
  rewrite (run_bind _ _ _ _ _ (resource_settle_run w0 ltac:(by rewrite Hw0) Hro)). rewrite Hw0.
  change (set_state (settled s) w <| w_callbacks := ∅ |>) with (set_state (settled s) w0).
  set (w1 := set_state (settled s) w0). set (s1 := settled s).
  assert (durable_state w1 = s1) as Hw1 by done. run. rewrite Hw1, on_backend_bind.
  apply run_bind_cong; [apply for_each_on_backend|]. intros [] w2 (b2 & _ & ->)%on_backend_inv.
  run. change (durable_state (w1 <| w_backend := b2 |>)) with s1. rewrite on_backend_bind.
  apply run_bind_cong.
  { rewrite <-sum_each_on_backend. apply sum_each_ext. intros r w3 _. rewrite on_backend_bind.
    apply run_bind_cong; [done|]. intros [] w4 _. by rewrite on_backend_ret. }
  intros n w3 (b3 & _ & ->)%on_backend_inv. run.
  change (durable_state (w1 <| w_backend := b2 |> <| w_backend := b3 |>)) with s1.
  rewrite on_backend_bind. apply run_bind_cong.
  { rewrite <-sum_each_on_backend. apply sum_each_ext. intros r w4 _. rewrite on_backend_bind.
    apply run_bind_cong; [done|]. intros [] w5 _. by rewrite on_backend_ret. }
  intros m w4 _. by rewrite on_backend_ret.
Qed.
End properties.

(** *** A desk with one reservation and one waiting request *)

#[local] Existing Instance plain_uuid5.

Definition desk : ResourceDefinition := mkResourceDefinition "desk" 1.
Definition desk_defined : world queue_backend := (tx (save_resource_definition desk) new_process).2.
Definition desk_requested : world queue_backend := (request "desk" "r1" 5 100 None desk_defined).2.
Definition desk_lease : ResourceLease := mkResourceLease "lease:r1" "r1" "desk" 0.
Definition desk_reserved : world queue_backend := (_record_grant "r1" desk_lease desk_requested).2.
Definition desk_demand : ResourceDemand := mkResourceDemand 100 1 "r1" "desk" 5.

Lemma desk_requested_durable : durable (durable_state desk_requested).
Proof.
  apply (resource_request_bt "desk" "r1" 5 100 None durable durable_tx_stable).
  apply (bt_tx _ (body_op _ (op_save_resource_definition desk)) durable durable_tx_stable).
  apply durable_empty.
Qed.

Lemma desk_reserved_durable : durable (durable_state desk_reserved).
Proof.
  apply (record_grant_bt "r1" desk_lease durable durable_tx_stable), desk_requested_durable.
Qed.

Lemma grant_once_witness :
  (commit_grant "r1" 7 desk_requested).1 = Ok (reservation_of desk_demand 7).
Proof.
  refine (f_equal fst (proj1 (proj1 (grant_once desk_requested "r1" 7 desk_requested_durable eq_refl)
    desk_demand _))). vm_compute. reflexivity.
Defined.

Lemma cancel_pending_decided_witness :
  (cancel_pending "r1" desk_requested).1 = Ok true.
Proof.
  refine (proj1 (proj2 (cancel_pending_decided desk_requested "r1" desk_demand
    (w_backend desk_requested) true desk_requested_durable eq_refl _) _)); vm_compute; reflexivity.
Defined.

Lemma interrupted_release_recovers_witness :
  let r := reservation_of desk_demand 0 in
  (release (rsv_reservation_id r) desk_reserved).1 = Ok true.
Proof.
  intros r.
  refine (proj1 (interrupted_release_recovers desk_reserved (rsv_reservation_id r) r desk_lease
    (w_backend desk_reserved) desk_reserved_durable eq_refl _ _ _ _)); vm_compute; reflexivity.
Defined.

Lemma rebuild_after_settling_witness : (rebuild_backend desk_reserved).1 = Ok 1.
Proof.
  rewrite (rebuild_after_settling desk_reserved desk_reserved_durable eq_refl).
  vm_compute. reflexivity.
Defined.
