(* ===== verification/Preemption.v ===== *)
(** * Durable preemptive resources

    [src/src/sose/core/preemption.py]: [DurablePreemptiveResourceManager].  A
    preemption reaches the manager as two callbacks, the loss of the displaced
    lease and the acquisition of the new one, in either order; only when both
    have arrived is it committed, in one transaction. *)
From S2P Require Import Prelude Encoding Records Memory MemoryFacts World QueueBackend.
Open Scope string_scope.
Open Scope Z_scope.

(** The reservation a demand becomes, and the record of the preemption of
    [displaced]: [_build_preemption_outcome]. *)
Section outcome.
Context `{!Uuid5}.

Definition reservation_of (demand : PreemptiveResourceDemand) (acquired_at : datetime) :
    res PreemptiveResourceReservation :=
  PreemptiveResourceReservation_new
    (deterministic_id "preemptive-resource-reservation"
       [PStr (pdem_resource_name demand); PStr (pdem_request_id demand)])
    (pdem_request_id demand) (pdem_resource_name demand) acquired_at (pdem_priority demand)
    (pdem_sequence demand).

Definition _build_preemption_outcome (demand : PreemptiveResourceDemand)
    (displaced : PreemptiveResourceReservation) (preempted_at acquired_at : datetime) :
    res (PreemptiveResourceReservation * ResourcePreemptionResult) :=
  successor ← reservation_of demand acquired_at ;
  result ← ResourcePreemptionResult_new
    (deterministic_id "resource-preemption"
       [PStr (prsv_reservation_id displaced); PStr (pdem_request_id demand)])
    (pdem_resource_name demand) (prsv_reservation_id displaced) (prsv_request_id displaced)
    (pdem_request_id demand) (prsv_reservation_id successor) preempted_at
    (pdem_sequence demand) ;
  mret (successor, result).
End outcome.

Section preemption.
Context {B : Type} `{!TemporalBackend B, !PreemptiveResourceBackend B, !Uuid5}.
Context (handler : invocation → prog (world B) unit).
Abbreviation P := (prog (world B)).

Definition define (definition : PreemptiveResourceDefinition) : P unit :=
  tx (save_preemptive_resource_definition definition).

Definition _definition (name : string) : P PreemptiveResourceDefinition :=
  definition ← reads (λ s, find_first (λ d, eqb_of (pdef_name d) name)
                             (preemptive_resource_definitions s)) ;
  found definition (KeyError ("unknown preemptive resource definition: " +:+ name)).

Definition reservation_for (request_id : string) : P (option PreemptiveResourceReservation) :=
  reads (λ s, find_first (λ r, eqb_of (prsv_request_id r) request_id)
                (preemptive_resource_reservations s)).

Definition _demand_for_request (request_id : string) : P (option PreemptiveResourceDemand) :=
  reads (λ s, find_first (λ d, eqb_of (pdem_request_id d) request_id)
                (preemptive_resource_demands s)).

Definition _request_exists (request_id : string) : P bool :=
  reads (λ s,
    existsb (λ d, eqb_of (pdem_request_id d) request_id) (preemptive_resource_demands s)
    || existsb (λ r, eqb_of (prsv_request_id r) request_id) (preemptive_resource_reservations s)).

Definition _next_sequence (s : state) : Z :=
  py_max_default 0 ((pdem_sequence <$> preemptive_resource_demands s)
                      ++ (prsv_sequence <$> preemptive_resource_reservations s)
                      ++ (pres_sequence <$> resource_preemption_results s))%list + 1.

(** *** Validation *)

Definition _validate_preemptive_references
    (definitions : list (string * PreemptiveResourceDefinition))
    (reservations : list PreemptiveResourceReservation)
    (demands : list PreemptiveResourceDemand) (releases : list PreemptiveResourceReleaseIntent) :
    P unit :=
  for_each reservations (λ r,
    raise_if (bool_decide (dict_get (prsv_resource_name r) definitions = None))
      (RuntimeError ("preemptive reservation references unknown definition: "
                       +:+ prsv_reservation_id r))) ;;
  for_each demands (λ d,
    raise_if (bool_decide (dict_get (pdem_resource_name d) definitions = None))
      (RuntimeError ("preemptive demand references unknown definition: " +:+ pdem_request_id d))) ;;
  for_each releases (λ i,
    match find_first (λ r, eqb_of (prsv_reservation_id r) (prel_reservation_id i)) reservations with
    | None => raise (RuntimeError ("preemptive release references unknown reservation: "
                                     +:+ prel_intent_id i))
    | Some r =>
      raise_if (negb (eqb_of (prsv_resource_name r) (prel_resource_name i)))
        (RuntimeError ("preemptive release targets wrong resource: " +:+ prel_intent_id i))
    end).

Definition _validate_preemptive_capacities
    (definitions : list (string * PreemptiveResourceDefinition))
    (reservations : list PreemptiveResourceReservation) : P unit :=
  for_each definitions (λ '(name, definition),
    let active := length (filter (λ r, prsv_resource_name r = name) reservations) in
    raise_if (pdef_capacity definition <? Z.of_nat active)
      (RuntimeError ("preemptive resource " +:+ name +:+ " exceeds durable capacity"))).

Definition _validate_request_overlap (demands : list PreemptiveResourceDemand)
    (reservations : list PreemptiveResourceReservation) : P unit :=
  let overlap := filter (λ k, k ∈ (prsv_request_id <$> reservations)) (pdem_request_id <$> demands) in
  raise_if (negb (bool_decide (overlap = [])))
    (RuntimeError "preemptive requests are both pending and reserved").

Definition _validate_preemption_results
    (definitions : list (string * PreemptiveResourceDefinition)) : P unit :=
  results ← reads resource_preemption_results ;
  for_each results (λ r,
    raise_if (bool_decide (dict_get (pres_resource_name r) definitions = None))
      (RuntimeError ("preemption result references unknown definition: " +:+ pres_result_id r))).

Definition validate_rebuild : P unit :=
  definitions ← reads (λ s, dict_of pdef_name (preemptive_resource_definitions s)) ;
  reservations ← reads preemptive_resource_reservations ;
  demands ← reads preemptive_resource_demands ;
  releases ← reads preemptive_resource_release_intents ;
  _validate_preemptive_references definitions reservations demands releases ;;
  _validate_preemptive_capacities definitions reservations ;;
  _validate_request_overlap demands reservations ;;
  _validate_preemption_results definitions.

(** *** Granting *)

Definition _submit_demand (demand : PreemptiveResourceDemand) : P unit :=
  on_backend (request_preemptive_resource (pdem_resource_name demand) (pdem_request_id demand)
                (pdem_priority demand) (pdem_preempt demand)).

Definition request (resource_name request_id : string) (requested_at : datetime) (priority : Z)
    (preempt : bool) (on_acquired : option string) : P PreemptiveResourceDemand :=
  _definition resource_name ;;
  known ← _request_exists request_id ;
  raise_if known (ValueError ("preemptive resource request already exists: " +:+ request_id)) ;;
  sequence ← reads _next_sequence ;
  demand ← lift (PreemptiveResourceDemand_new request_id resource_name priority preempt
                   requested_at sequence) ;
  tx (save_preemptive_resource_demand demand) ;;
  match on_acquired with
  | Some cb => modify (λ w, w <| w_pcallbacks ::= <[request_id := cb]> |>)
  | None => mret tt
  end ;;
  _submit_demand demand ;;
  mret demand.

Definition _notify_acquired (reservation : PreemptiveResourceReservation) : P unit :=
  callback ← gets (λ w, w_pcallbacks w !! prsv_request_id reservation) ;
  modify (λ w, w <| w_pcallbacks ::= delete (prsv_request_id reservation) |>) ;;
  notify callback (λ c, NotifiedPreemptive c reservation).

(** [false]: the demand or the displaced reservation changed meanwhile. *)
Definition preemption_body (demand : PreemptiveResourceDemand)
    (displaced successor : PreemptiveResourceReservation) (result : ResourcePreemptionResult) :
    uprog bool :=
  persisted_demand ← get_preemptive_resource_demand (pdem_request_id demand) ;
  if differs eqb_of persisted_demand demand then mret false else
  persisted ← get_preemptive_resource_reservation (prsv_reservation_id displaced) ;
  if differs eqb_of persisted displaced then mret false else
  delete_preemptive_resource_demand (pdem_request_id demand) ;;
  delete_preemptive_resource_reservation (prsv_reservation_id displaced) ;;
  save_preemptive_resource_reservation successor ;;
  save_resource_preemption_result result ;;
  mret true.

Definition _try_commit_preemption (preempting_request_id : string) : P bool :=
  lease ← gets (λ w, dict_get preempting_request_id (w_pgrants w)) ;
  event ← gets (λ w, w_ppreemptions w !! preempting_request_id) ;
  match lease, event with
  | Some lease, Some event =>
    demand ← _demand_for_request preempting_request_id ;
    displaced ← reservation_for (pre_request_id event) ;
    match demand, displaced with
    | Some demand, Some displaced =>
      raise_if (negb (eqb_of (pdem_resource_name demand) (prsv_resource_name displaced)))
        (RuntimeError ("preemption pair crosses resources: " +:+ preempting_request_id)) ;;
      outcome ← lift (_build_preemption_outcome demand displaced (pre_preempted_at event)
                        (lease_acquired_at lease)) ;
      let '(successor, result) := outcome in
      done_ ← tx (preemption_body demand displaced successor result) ;
      if negb done_ then mret false else
      modify (λ w, w <| w_pleases ::= λ m,
                <[prsv_reservation_id successor := lease]> (delete (prsv_reservation_id displaced) m) |>
                <| w_pgrants ::= dict_pop preempting_request_id |>
                <| w_ppreemptions ::= delete preempting_request_id |>) ;;
      _notify_acquired successor ;;
      mret true
    | _, _ => mret false
    end
  | _, _ => mret false
  end.

(** [Some]: the request was granted meanwhile.  [published] is the state the
    persistence shows while the transaction is open. *)
Definition normal_grant_body (published : state) (demand : PreemptiveResourceDemand)
    (reservation : PreemptiveResourceReservation) : uprog (option PreemptiveResourceReservation) :=
  persisted ← get_preemptive_resource_demand (pdem_request_id demand) ;
  if differs eqb_of persisted demand then
    match find_first (λ r, eqb_of (prsv_request_id r) (pdem_request_id demand))
            (preemptive_resource_reservations published) with
    | Some existing => mret (Some existing)
    | None => raise (RuntimeError ("preemptive demand changed before grant: "
                                     +:+ pdem_request_id demand))
    end
  else
    delete_preemptive_resource_demand (pdem_request_id demand) ;;
    save_preemptive_resource_reservation reservation ;;
    mret None.

Definition _commit_normal_grant (demand : PreemptiveResourceDemand) (lease : ResourceLease) :
    P PreemptiveResourceReservation :=
  reservation ← lift (reservation_of demand (lease_acquired_at lease)) ;
  published ← reads (λ s, s) ;
  existing ← tx (normal_grant_body published demand reservation) ;
  match existing with
  | Some existing => mret existing
  | None =>
    modify (λ w, w <| w_pleases ::= <[prsv_reservation_id reservation := lease]> |>) ;;
    mret reservation
  end.

Definition _try_commit_normal_grant (request_id : string) : P bool :=
  lease ← gets (λ w, dict_get request_id (w_pgrants w)) ;
  demand ← _demand_for_request request_id ;
  match lease, demand with
  | Some lease, Some demand =>
    definition ← _definition (pdem_resource_name demand) ;
    active ← reads (λ s, filter (λ r, prsv_resource_name r = pdem_resource_name demand)
                           (preemptive_resource_reservations s)) ;
    releasing ← reads (λ s, filter (λ i, prel_resource_name i = pdem_resource_name demand)
                              (preemptive_resource_release_intents s)) ;
    if negb (bool_decide (releasing = [])) then mret false else
    if pdef_capacity definition <=? Z.of_nat (length active) then mret false else
    reservation ← _commit_normal_grant demand lease ;
    modify (λ w, w <| w_pgrants ::= dict_pop request_id |>) ;;
    _notify_acquired reservation ;;
    mret true
  | _, _ => mret false
  end.

(** The [on_acquired] closure. *)
Definition _record_acquired (request_id : string) (lease : ResourceLease) : P unit :=
  existing ← reservation_for request_id ;
  match existing with
  | Some r => modify (λ w, w <| w_pleases ::= <[prsv_reservation_id r := lease]> |>)
  | None =>
    demand ← _demand_for_request request_id ;
    match demand with
    | None => mret tt
    | Some _ =>
      modify (λ w, w <| w_pgrants ::= dict_set request_id lease |>) ;;
      committed ← _try_commit_preemption request_id ;
      if committed : bool then mret tt
      else _try_commit_normal_grant request_id ;; mret tt
    end
  end.

(** The [on_preempted] closure. *)
Definition _record_preempted (event : ResourcePreemption) : P unit :=
  match pre_preempted_by event with
  | None => raise (RuntimeError ("preemption is missing preempting request identity: "
                                   +:+ pre_request_id event))
  | Some by_ =>
    raise_if (is_empty by_) (RuntimeError ("preemption is missing preempting request identity: "
                                             +:+ pre_request_id event)) ;;
    displaced ← reservation_for (pre_request_id event) ;
    match displaced with
    | None => mret tt
    | Some displaced =>
      raise_if (negb (eqb_of (prsv_resource_name displaced) (pre_resource_name event)))
        (RuntimeError ("preemption callback targets wrong resource: " +:+ pre_request_id event)) ;;
      modify (λ w, w <| w_ppreemptions ::= <[by_ := event]> |>) ;;
      _try_commit_preemption by_ ;;
      mret tt
    end
  end.

Definition _reconcile_pending_grants (resource_name : string) : P unit :=
  grants ← gets w_pgrants ;
  for_each grants (λ '(request_id, lease),
    if negb (eqb_of (lease_resource_name lease) resource_name) then mret tt else
    committed ← _try_commit_preemption request_id ;
    if committed : bool then mret tt
    else _try_commit_normal_grant request_id ;; mret tt).

(** *** Cancelling and releasing *)

Definition cancel_body (request_id : string) (demand : PreemptiveResourceDemand) : uprog unit :=
  persisted ← get_preemptive_resource_demand request_id ;
  raise_if (differs eqb_of persisted demand)
    (RuntimeError ("preemptive resource demand changed during cancellation: " +:+ request_id)) ;;
  delete_preemptive_resource_demand request_id.

Definition cancel_pending (request_id : string) : P bool :=
  demand ← _demand_for_request request_id ;
  match demand with
  | None => mret false
  | Some demand =>
    cancelled ← on_backend (cancel_preemptive_resource_request request_id) ;
    if negb cancelled then mret false else
    tx (cancel_body request_id demand) ;;
    modify (λ w, w <| w_pcallbacks ::= delete request_id |> <| w_pgrants ::= dict_pop request_id |>
                   <| w_ppreemptions ::= delete request_id |>) ;;
    mret true
  end.

Definition finalize_body (intent : PreemptiveResourceReleaseIntent)
    (reservation : PreemptiveResourceReservation) : uprog unit :=
  persisted_intent ← get_preemptive_resource_release_intent (prel_intent_id intent) ;
  persisted_reservation ← get_preemptive_resource_reservation (prsv_reservation_id reservation) ;
  raise_if (differs eqb_of persisted_intent intent)
    (RuntimeError ("preemptive release intent changed: " +:+ prel_intent_id intent)) ;;
  raise_if (differs eqb_of persisted_reservation reservation)
    (RuntimeError ("preemptive reservation changed during release: "
                     +:+ prsv_reservation_id reservation)) ;;
  delete_preemptive_resource_reservation (prsv_reservation_id reservation) ;;
  delete_preemptive_resource_release_intent (prel_intent_id intent).

Definition _finalize_release_intent (intent : PreemptiveResourceReleaseIntent)
    (reservation : PreemptiveResourceReservation) : P unit :=
  tx (finalize_body intent reservation).

Definition release_body (reservation_id : string) (reservation : PreemptiveResourceReservation)
    (intent : PreemptiveResourceReleaseIntent) : uprog bool :=
  persisted ← get_preemptive_resource_reservation reservation_id ;
  if differs eqb_of persisted reservation then mret false
  else save_preemptive_resource_release_intent intent ;; mret true.

Definition release_intent (reservation : PreemptiveResourceReservation) (at_ : datetime) :
    PreemptiveResourceReleaseIntent :=
  mkPreemptiveResourceReleaseIntent
    (deterministic_id "preemptive-resource-release" [PStr (prsv_reservation_id reservation)])
    (prsv_reservation_id reservation) (prsv_resource_name reservation) at_.

Definition release (reservation_id : string) : P bool :=
  reservation ← reads (λ s, find_first (λ r, eqb_of (prsv_reservation_id r) reservation_id)
                              (preemptive_resource_reservations s)) ;
  match reservation with
  | None => mret false
  | Some reservation =>
    lease ← gets (λ w, w_pleases w !! reservation_id) ;
    lease ← found lease (RuntimeError
      ("backend lease is not reconstructed for preemptive reservation: " +:+ reservation_id)) ;
    at_ ← gets (λ w, now (w_backend w)) ;
    let intent := release_intent reservation at_ in
    recorded ← tx (release_body reservation_id reservation intent) ;
    if negb recorded then mret false else
    on_backend (release_preemptive_resource lease) ;;
    _finalize_release_intent intent reservation ;;
    modify (λ w, w <| w_pleases ::= delete reservation_id |>) ;;
    _reconcile_pending_grants (prsv_resource_name reservation) ;;
    mret true
  end.

(** *** Recovery *)

Definition _clear_ephemeral_state : P unit :=
  modify (λ w, w <| w_pleases := ∅ |> <| w_pgrants := [] |> <| w_ppreemptions := ∅ |>
                 <| w_pcallbacks := ∅ |>).

Definition finalize_interrupted (intent : PreemptiveResourceReleaseIntent) : P unit :=
  reservation ← reads (λ s, find_first (λ r, eqb_of (prsv_reservation_id r)
                              (prel_reservation_id intent)) (preemptive_resource_reservations s)) ;
  match reservation with
  | None => tx (delete_preemptive_resource_release_intent (prel_intent_id intent))
  | Some reservation => _finalize_release_intent intent reservation
  end.

Definition _finalize_interrupted_releases : P unit :=
  intents ← reads preemptive_resource_release_intents ;
  for_each intents finalize_interrupted.

Definition rebuild_backend : P Z :=
  _clear_ephemeral_state ;;
  validate_rebuild ;;
  _finalize_interrupted_releases ;;
  definitions ← reads (λ s, dict_of pdef_name (preemptive_resource_definitions s)) ;
  for_each definitions (λ '(_, d),
    on_backend (create_preemptive_resource (pdef_name d) (pdef_capacity d))) ;;
  reservations ← reads preemptive_resource_reservations ;
  n ← sum_each reservations (λ r,
    on_backend (request_preemptive_resource (prsv_resource_name r) (prsv_request_id r)
                  (prsv_priority r) false) ;;
    mret 1) ;
  demands ← reads preemptive_resource_demands ;
  m ← sum_each demands (λ d, _submit_demand d ;; mret 1) ;
  mret (n + m).

(** *** Idempotent requests *)

Definition ensure_requested (resource_name request_id : string) (requested_at : datetime)
    (priority : Z) (preempt : bool) (on_acquired : option string) :
    P (option PreemptiveResourceReservation) :=
  known ← _request_exists request_id ;
  (if negb known then
     request resource_name request_id requested_at priority preempt on_acquired ;; mret tt
   else
     match on_acquired with
     | Some cb =>
       reservation ← reservation_for request_id ;
       match reservation with
       | None => modify (λ w, w <| w_pcallbacks ::= <[request_id := cb]> |>)
       | Some _ => mret tt
       end
     | None => mret tt
     end) ;;
  at_ ← gets (λ w, now (w_backend w)) ;
  run_until handler at_ ;;
  reservation_for request_id.

Definition withdraw (request_id : string) : P bool :=
  changed ← cancel_pending request_id ;
  reservation ← reservation_for request_id ;
  changed ← match reservation with
            | Some r => released ← release (prsv_reservation_id r) ; mret (released || changed)
            | None => mret changed
            end ;
  at_ ← gets (λ w, now (w_backend w)) ;
  run_until handler at_ ;;
  mret changed.
End preemption.

(** ** Reading the durable dictionaries *)

Section preemptive_lookups.
Context (s : state) (Hwf : wf_preemptive s).

Lemma preemptive_find_definition name :
  find_first (λ d, eqb_of (pdef_name d) name) (preemptive_resource_definitions s)
  = st_preemptive_resource_definitions s !! name.
Proof. apply find_first_key; [apply elem_of_sorted_values|apply Hwf]. Qed.

Lemma preemptive_find_demand id :
  find_first (λ d, eqb_of (pdem_request_id d) id) (preemptive_resource_demands s)
  = st_preemptive_resource_demands s !! id.
Proof. apply find_first_key; [apply elem_of_values_on|apply Hwf]. Qed.

Lemma preemptive_find_reservation id :
  find_first (λ r, eqb_of (prsv_reservation_id r) id) (preemptive_resource_reservations s)
  = st_preemptive_resource_reservations s !! id.
Proof. apply find_first_key; [apply elem_of_values_on|apply Hwf]. Qed.

Lemma preemptive_find_reservation_for k r :
  st_preemptive_resource_reservations s !! k = Some r →
  find_first (λ x, eqb_of (prsv_request_id x) (prsv_request_id r))
    (preemptive_resource_reservations s) = Some r.
Proof.
  apply (find_first_unique_field prsv_request_id); [apply elem_of_values_on|apply Hwf].
Qed.

(** A pending request has no reservation. *)
Lemma preemptive_pending_not_reserved id d :
  st_preemptive_resource_demands s !! id = Some d →
  find_first (λ x, eqb_of (prsv_request_id x) id) (preemptive_resource_reservations s) = None.
Proof.
  intros Hd. apply find_first_None. intros r [k Hr]%elem_of_values_on. apply eqb_of_false.
  intros E. pose proof (wf_prsv_dem _ Hwf _ _ Hr) as Ha. cbn in Ha. congruence.
Qed.
End preemptive_lookups.

(** ** Capacity *)

(** How many reservations of [m] hold the resource [name]. *)
Definition held (name : string) (m : gmap string PreemptiveResourceReservation) : nat :=
  size (filter (λ kr, prsv_resource_name kr.2 = name) m).

Lemma filter_values_size {A} (P : A → Prop) `{∀ x, Decision (P x)} (m : gmap string A) :
  length (filter P (map_to_list m).*2) = size (filter (λ kv : string * A, P kv.2) m).
Proof.
  induction m as [|k x m Hk IH] using map_ind.
  - by rewrite map_filter_empty, map_size_empty, map_to_list_empty.
  - rewrite map_to_list_insert by done. cbn [fmap list_fmap snd]. rewrite filter_cons.
    case_decide as Hp.
    + rewrite map_filter_insert_True by done.
      rewrite map_size_insert_None by (apply map_lookup_filter_None; by left). cbn. by rewrite IH.
    + rewrite map_filter_insert_False, delete_id by done. done.
Qed.

Lemma held_length name s :
  length (filter (λ r, prsv_resource_name r = name) (preemptive_resource_reservations s))
  = held name (st_preemptive_resource_reservations s).
Proof.
  unfold preemptive_resource_reservations, values_on. rewrite sort_on_perm.
  apply filter_values_size.
Qed.

Lemma held_delete name k m : (held name (delete k m) ≤ held name m)%nat.
Proof. unfold held. rewrite map_filter_delete. apply map_subseteq_size, delete_subseteq. Qed.

Lemma held_delete_holder k m x :
  m !! k = Some x → (S (held (prsv_resource_name x) (delete k m)) = held (prsv_resource_name x) m)%nat.
Proof.
  intros Hk. unfold held. rewrite map_filter_delete.
  rewrite map_size_delete_Some by (eexists; by apply map_lookup_filter_Some).
  enough (size (filter (λ kr : string * _, prsv_resource_name kr.2 = prsv_resource_name x) m) ≠ 0)%nat by lia.
  intros Hz%map_size_empty_inv. apply (f_equal (.!! k)) in Hz. rewrite lookup_empty in Hz.
  apply map_lookup_filter_None in Hz as [Hz|Hz]; [congruence|by apply (Hz x)].
Qed.

Lemma held_insert name k x m :
  (held name (<[k := x]> m)
   ≤ (if bool_decide (prsv_resource_name x = name) then 1 else 0) + held name m)%nat.
Proof.
  unfold held. case_bool_decide as Hx.
  - rewrite map_filter_insert_True by done. rewrite map_size_insert. case_match; cbn; lia.
  - rewrite map_filter_insert_False by done. rewrite map_filter_delete.
    apply map_subseteq_size, delete_subseteq.
Qed.

(** The invariant: the durable one, no resource is reserved beyond its capacity,
    and the recorded preemptions are of known resources. *)
Record preemptive_inv (s : state) : Prop := {
  pi_durable : durable s;
  pi_capacity : ∀ name d, st_preemptive_resource_definitions s !! name = Some d →
    Z.of_nat (held name (st_preemptive_resource_reservations s)) ≤ pdef_capacity d;
  pi_results : refers pres_resource_name (st_resource_preemption_results s)
                 (st_preemptive_resource_definitions s) }.

Lemma preemptive_inv_frame s s' :
  st_preemptive_resource_definitions s' = st_preemptive_resource_definitions s →
  st_preemptive_resource_reservations s' = st_preemptive_resource_reservations s →
  st_resource_preemption_results s' = st_resource_preemption_results s →
  durable s' → preemptive_inv s → preemptive_inv s'.
Proof. intros E1 E2 E3 Hd [_ Hc Hr]. constructor; [done|by rewrite E1, E2|by rewrite E1, E3]. Qed.

(** The state after a grant within capacity. *)
Definition granted (r : PreemptiveResourceReservation) (s : state) : state :=
  s <| st_preemptive_resource_demands ::= delete (prsv_request_id r) |>
    <| st_preemptive_resource_reservations ::= <[prsv_reservation_id r := r]> |>.

(** The state after a preemption. *)
Definition preempted (displaced successor : PreemptiveResourceReservation)
    (result : ResourcePreemptionResult) (s : state) : state :=
  s <| st_preemptive_resource_demands ::= delete (prsv_request_id successor) |>
    <| st_preemptive_resource_reservations ::= λ m,
         <[prsv_reservation_id successor := successor]> (delete (prsv_reservation_id displaced) m) |>
    <| st_resource_preemption_results ::= <[pres_result_id result := result]> |>.

(** The state after a release. *)
Definition released (reservation_id intent_id : string) (s : state) : state :=
  s <| st_preemptive_resource_reservations ::= delete reservation_id |>
    <| st_preemptive_resource_release_intents ::= delete intent_id |>.

Lemma granted_inv s r d :
  preemptive_inv s → st_preemptive_resource_definitions s !! prsv_resource_name r = Some d →
  Z.of_nat (held (prsv_resource_name r) (st_preemptive_resource_reservations s)) < pdef_capacity d →
  durable (granted r s) → preemptive_inv (granted r s).
Proof.
  intros [_ Hc Hres] Hd Hlt Hd'. constructor; [done| |done]. intros name d' Hdef. cbn in *.
  pose proof (held_insert name (prsv_reservation_id r) r (st_preemptive_resource_reservations s)) as Hi.
  specialize (Hc _ _ Hdef). case_bool_decide as E; [|lia]. subst name. simplify_eq. lia.
Qed.

Lemma preempted_inv s displaced successor result :
  preemptive_inv s →
  st_preemptive_resource_reservations s !! prsv_reservation_id displaced = Some displaced →
  prsv_resource_name successor = prsv_resource_name displaced →
  pres_resource_name result = prsv_resource_name displaced →
  durable (preempted displaced successor result s) →
  preemptive_inv (preempted displaced successor result s).
Proof.
  intros [Hd0 Hc Hres] Hr Hn Hn' Hd'. constructor; [done| |].
  2:{ cbn. unfold refers in *. apply map_Forall_insert_2; [|done]. rewrite Hn'.
      by apply (wf_prsv_def _ (wf_pre _ (durable_wf _ Hd0)) _ _ Hr). }
  intros name d Hdef. cbn in *.
  set (m := st_preemptive_resource_reservations s) in *.
  pose proof (held_insert name (prsv_reservation_id successor) successor
                (delete (prsv_reservation_id displaced) m)) as Hi.
  pose proof (held_delete name (prsv_reservation_id displaced) m).
  pose proof (held_delete_holder _ _ _ Hr) as Hh. specialize (Hc _ _ Hdef).
  case_bool_decide as E; [|lia]. rewrite <-Hn, E in Hh. lia.
Qed.

Lemma released_inv s k i : preemptive_inv s → durable (released k i s) → preemptive_inv (released k i s).
Proof.
  intros [_ Hc Hres] Hd'. constructor; [done| |done]. intros name d Hdef. cbn in *.
  pose proof (held_delete name k (st_preemptive_resource_reservations s)).
  specialize (Hc _ _ Hdef). lia.
Qed.

Lemma preemptive_defined_inv s d :
  preemptive_inv s → 0 ≤ pdef_capacity d →
  conflicts eqb_of (st_preemptive_resource_definitions s !! pdef_name d) d = false →
  durable (s <| st_preemptive_resource_definitions ::= <[pdef_name d := d]> |>) →
  preemptive_inv (s <| st_preemptive_resource_definitions ::= <[pdef_name d := d]> |>).
Proof.
  intros [Hd0 Hc Hres] Hcap Hcf Hd'. constructor; [done| |].
  2:{ cbn. intros k r Hr. destruct (Hres k r Hr) as [x Hx].
      destruct (decide (pdef_name d = pres_resource_name r)) as [->|Hne].
      - exists d. apply lookup_insert_eq.
      - exists x. by rewrite lookup_insert_ne. }
  intros name d' Hdef. cbn in *.
  apply lookup_insert_Some in Hdef as [[<- <-]|[_ Hdef]]; [|by apply Hc].
  apply conflicts_false in Hcf as [Hn|Hs]; [|by apply Hc].
  replace (held (pdef_name d) (st_preemptive_resource_reservations s)) with 0%nat; [done|].
  symmetry. unfold held. apply map_size_empty_iff, map_empty. intros k. apply map_lookup_filter_None.
  right. intros r Hr E. cbn in E.
  pose proof (wf_prsv_def _ (wf_pre _ (durable_wf _ Hd0)) _ _ Hr) as [x Hx]. cbn in Hx. congruence.
Qed.

(** ** The transactions *)

Section transactions.
Context {B : Type} `{!TemporalBackend B, !PreemptiveResourceBackend B, !Uuid5}.
Implicit Types w : world B.

Lemma preemption_body_body d x y r : uow_body (preemption_body d x y r).
Proof. unfold preemption_body, get_preemptive_resource_demand, get_preemptive_resource_reservation. solve_bt. Qed.

Lemma normal_grant_body_body s d r : uow_body (normal_grant_body s d r).
Proof. unfold normal_grant_body, get_preemptive_resource_demand. solve_bt. Qed.

Lemma cancel_body_body id d : uow_body (cancel_body id d).
Proof. unfold cancel_body, get_preemptive_resource_demand. solve_bt. Qed.

Lemma finalize_body_body i r : uow_body (finalize_body i r).
Proof.
  unfold finalize_body, get_preemptive_resource_release_intent, get_preemptive_resource_reservation.
  solve_bt.
Qed.

Lemma release_body_body id r i : uow_body (release_body id r i).
Proof. unfold release_body, get_preemptive_resource_reservation. solve_bt. Qed.
Hint Resolve preemption_body_body normal_grant_body_body cancel_body_body finalize_body_body
  release_body_body : bt.

(** What a committed preemption did. *)
Lemma preemption_inv w d x y r b w' :
  prsv_request_id y = pdem_request_id d →
  tx (preemption_body d x y r) w = (b, w') →
  (w' = w ∧ b ≠ Ok true)
  ∨ (b = Ok true ∧ w' = set_state (preempted x y r (durable_state w)) w ∧
     st_preemptive_resource_demands (durable_state w) !! pdem_request_id d = Some d ∧
     st_preemptive_resource_reservations (durable_state w) !! prsv_reservation_id x = Some x).
Proof.
  intros Hy Hrun. unfold preemption_body, get_preemptive_resource_demand,
    get_preemptive_resource_reservation, delete_preemptive_resource_demand,
    delete_preemptive_resource_reservation, save_preemptive_resource_reservation,
    save_resource_preemption_result, working, write in Hrun.
  inv_world; cbn in *; unfold fork_state in *; try (left; split; [|done]; by rewrite ?set_state_same).
  right. split; [done|]. unfold preempted. rewrite Hy.
  split; [done|]. split; by apply differs_false.
Qed.

Lemma normal_grant_inv s w d r b w' :
  prsv_request_id r = pdem_request_id d →
  tx (normal_grant_body s d r) w = (b, w') →
  w' = w ∨ (b = Ok None ∧ w' = set_state (granted r (durable_state w)) w ∧
            st_preemptive_resource_demands (durable_state w) !! pdem_request_id d = Some d).
Proof.
  intros Hr Hrun. unfold normal_grant_body, get_preemptive_resource_demand,
    delete_preemptive_resource_demand, save_preemptive_resource_reservation, working, write in Hrun.
  inv_world; cbn in *; unfold fork_state in *; try (left; by rewrite ?set_state_same).
  right. split; [done|]. unfold granted. rewrite Hr. split; [done|]. by apply differs_false.
Qed.

Lemma finalize_inv i r w b w' :
  tx (finalize_body i r) w = (b, w') →
  w' = w ∨ w' = set_state (released (prsv_reservation_id r) (prel_intent_id i) (durable_state w)) w.
Proof.
  intros Hrun. unfold finalize_body, get_preemptive_resource_release_intent,
    get_preemptive_resource_reservation, delete_preemptive_resource_reservation,
    delete_preemptive_resource_release_intent, write in Hrun.
  inv_world; [by left|by right].
Qed.

(** Transactions that touch neither definitions nor reservations. *)
Lemma tx_frame_keeps {A} (body : uprog A) :
  uow_body body →
  (∀ u b u', body u = (b, u') →
     st_preemptive_resource_definitions (uow_working u')
       = st_preemptive_resource_definitions (uow_working u) ∧
     st_preemptive_resource_reservations (uow_working u')
       = st_preemptive_resource_reservations (uow_working u) ∧
     st_resource_preemption_results (uow_working u')
       = st_resource_preemption_results (uow_working u)) →
  keeps (stored (B:=B) preemptive_inv) (tx body).
Proof.
  intros Hb Hf w Hw. pose proof (bt_tx (B:=B) body Hb durable durable_tx_stable w (pi_durable _ Hw)) as Hd.
  destruct (tx body w) as [b w'] eqn:E. unfold stored in *. cbn in *.
  apply tx_inv in E as [(e & -> & ->)|(a & u & Eb & -> & ->)]; [done|].
  destruct (Hf _ _ _ Eb) as (E1 & E2 & E3). by apply (preemptive_inv_frame (durable_state w)).
Qed.

Lemma finalize_keeps i r : keeps (stored (B:=B) preemptive_inv) (_finalize_release_intent i r).
Proof.
  intros w Hw. unfold _finalize_release_intent.
  pose proof (bt_tx (B:=B) _ (finalize_body_body i r) durable durable_tx_stable w (pi_durable _ Hw)) as Hd.
  destruct (tx _ w) as [b w'] eqn:E. cbn in *.
  apply finalize_inv in E as [->| ->]; [done|]. by apply released_inv.
Qed.

Lemma preemptive_define_keeps d :
  0 ≤ pdef_capacity d → keeps (stored (B:=B) preemptive_inv) (define d).
Proof.
  intros Hc w Hw. unfold define.
  pose proof (bt_tx (B:=B) _ (body_op _ (op_save_preemptive_resource_definition d)) durable
    durable_tx_stable w (pi_durable _ Hw)) as Hd.
  destruct (tx _ w) as [b w'] eqn:E. unfold stored in *. cbn in *.
  inv_world; [done|]. unfold save_preemptive_resource_definition, working, write in *. inv_world.
  by apply preemptive_defined_inv.
Qed.

Lemma release_tx_keeps id r i : keeps (stored (B:=B) preemptive_inv) (tx (release_body id r i)).
Proof.
  apply tx_frame_keeps; [apply release_body_body|]. intros u b u' Hrun.
  unfold release_body, get_preemptive_resource_reservation,
    save_preemptive_resource_release_intent, working, write in Hrun. by inv_prog.
Qed.

Lemma cancel_tx_keeps id d : keeps (stored (B:=B) preemptive_inv) (tx (cancel_body id d)).
Proof.
  apply tx_frame_keeps; [apply cancel_body_body|]. intros u b u' Hrun.
  unfold cancel_body, get_preemptive_resource_demand, delete_preemptive_resource_demand, write in Hrun.
  by inv_prog.
Qed.

Lemma save_demand_keeps d :
  keeps (stored (B:=B) preemptive_inv) (tx (save_preemptive_resource_demand d)).
Proof.
  apply tx_frame_keeps; [apply body_op; constructor|]. intros u b u' Hrun.
  unfold save_preemptive_resource_demand, working, write in Hrun. by inv_prog.
Qed.

Lemma drop_intent_keeps i :
  keeps (stored (B:=B) preemptive_inv) (tx (delete_preemptive_resource_release_intent i)).
Proof.
  apply tx_frame_keeps; [apply body_op; constructor|]. intros u b u' Hrun.
  unfold delete_preemptive_resource_release_intent, write in Hrun. by inv_prog.
Qed.
End transactions.

(** ** The manager keeps the invariant *)

Section manager_invariant.
Context {B : Type} `{!TemporalBackend B, !TemporalBackendLaws B, !PreemptiveResourceBackend B, !Uuid5}.
Context (handler : invocation → prog (world B) unit).
Context (Hhandler : ∀ i, keeps (stored preemptive_inv) (handler i)).
Implicit Types w : world B.
Abbreviation kept m := (keeps (stored (B:=B) preemptive_inv) m).

Lemma reservation_of_inv d t r :
  reservation_of d t = Ok r →
  prsv_request_id r = pdem_request_id d ∧ prsv_resource_name r = pdem_resource_name d.
Proof.
  unfold reservation_of, PreemptiveResourceReservation_new. intros Hr. symmetry in Hr. by inv_prog.
Qed.

Lemma outcome_inv d x t1 t2 y r :
  _build_preemption_outcome d x t1 t2 = Ok (y, r) →
  prsv_request_id y = pdem_request_id d ∧ prsv_resource_name y = pdem_resource_name d ∧
  pres_resource_name r = pdem_resource_name d.
Proof.
  unfold _build_preemption_outcome. intros Ho. symmetry in Ho. inv_prog.
  repeat match goal with H : reservation_of _ _ = Ok _ |- _ => apply reservation_of_inv in H as [??] end.
  unfold ResourcePreemptionResult_new in *.
  match goal with H : _ ≫= _ = Ok _ |- _ => symmetry in H end. by inv_prog.
Qed.

Lemma notify_acquired_stored r I : keeps (stored (B:=B) I) (_notify_acquired r).
Proof. unfold _notify_acquired. solve_keeps. Qed.

Lemma try_preemption_keeps id : kept (_try_commit_preemption id).
Proof.
  intros w Hw.
  assert (by_transactions (_try_commit_preemption (B:=B) id)) as Hbt.
  { unfold _try_commit_preemption, _demand_for_request, reservation_for, _notify_acquired.
    pose proof preemption_body_body. solve_bt; auto using bt_tx. }
  pose proof (Hbt durable durable_tx_stable w (pi_durable _ Hw)) as Hd.
  destruct (_try_commit_preemption id w) as [b w'] eqn:E. cbn in *.
  unfold _try_commit_preemption, _demand_for_request, reservation_for in E.
  inv_calls; try done.
  all: match goal with Ho : Ok _ = _build_preemption_outcome _ _ _ _ |- _ =>
    symmetry in Ho; apply outcome_inv in Ho as (Hid & Hname & Hname') end.
  all: match goal with Ht : tx _ _ = _ |- _ =>
    apply preemption_inv in Ht as [[-> Hf]|(Hb & -> & _ & Hx)]; simplify_eq; try done end.
  all: try (match goal with x : bool |- _ => destruct x end; done).
  all: match goal with Hn : _notify_acquired _ _ = _ |- _ =>
    apply (stored_same _ _ _ _ (λ I, notify_acquired_stored _ I)) in Hn as Hs end.
  all: unfold stored in *; rewrite Hs in *; apply preempted_inv; try done.
  all: guard_facts; congruence.
Qed.

Lemma try_normal_keeps id : kept (_try_commit_normal_grant id).
Proof.
  intros w Hw.
  assert (by_transactions (_try_commit_normal_grant (B:=B) id)) as Hbt.
  { unfold _try_commit_normal_grant, _demand_for_request, _definition, _commit_normal_grant,
      _notify_acquired.
    pose proof normal_grant_body_body. solve_bt; auto using bt_tx. }
  pose proof (Hbt durable durable_tx_stable w (pi_durable _ Hw)) as Hd.
  destruct (_try_commit_normal_grant id w) as [b w'] eqn:E. cbn in *.
  unfold _try_commit_normal_grant, _demand_for_request, _definition, _commit_normal_grant in E.
  inv_calls; try done.
  all: match goal with Hr : Ok _ = reservation_of _ _ |- _ =>
    symmetry in Hr; apply reservation_of_inv in Hr as [Hid Hname] end.
  all: match goal with Ht : tx _ _ = _ |- _ =>
    apply normal_grant_inv in Ht as [->|(Hb & -> & Hx)]; simplify_eq; try done end.
  all: try match goal with Hn : _notify_acquired _ _ = _ |- _ =>
    apply (stored_same _ _ _ _ (λ I, notify_acquired_stored _ I)) in Hn as Hs end.
  all: unfold stored in *; try rewrite Hs in *; try done.
  all: rewrite held_length in *; rewrite preemptive_find_definition in * by apply wf_pre, durable_wf, Hw.
  all: eapply granted_inv; try done; rewrite ?Hname; try done; guard_facts; lia.
Qed.

Hint Resolve try_preemption_keeps try_normal_keeps finalize_keeps release_tx_keeps
  cancel_tx_keeps save_demand_keeps drop_intent_keeps : keeps.

Lemma record_acquired_keeps id lease : kept (_record_acquired id lease).
Proof. unfold _record_acquired, reservation_for, _demand_for_request. solve_keeps. Qed.

Lemma record_preempted_keeps event : kept (_record_preempted event).
Proof. unfold _record_preempted, reservation_for. solve_keeps. Qed.

Lemma reconcile_keeps name : kept (_reconcile_pending_grants name).
Proof. unfold _reconcile_pending_grants. solve_keeps. Qed.
Hint Resolve reconcile_keeps : keeps.

Lemma preemptive_request_keeps name id t priority preempt cb : kept (request name id t priority preempt cb).
Proof. unfold request, _definition, _request_exists, _submit_demand. solve_keeps. Qed.

Lemma cancel_pending_keeps id : kept (cancel_pending id).
Proof. unfold cancel_pending, _demand_for_request. solve_keeps. Qed.

Lemma release_keeps id : kept (release id).
Proof. unfold release. solve_keeps. Qed.

Lemma validate_rebuild_stored I : keeps (stored (B:=B) I) validate_rebuild.
Proof.
  unfold validate_rebuild, _validate_preemptive_references, _validate_preemptive_capacities,
    _validate_request_overlap, _validate_preemption_results. solve_keeps.
Qed.
Hint Resolve validate_rebuild_stored : keeps.

Lemma rebuild_keeps : kept rebuild_backend.
Proof.
  unfold rebuild_backend, _finalize_interrupted_releases, finalize_interrupted, _submit_demand,
    _clear_ephemeral_state.
  solve_keeps.
Qed.
Hint Resolve preemptive_request_keeps cancel_pending_keeps release_keeps : keeps.

Lemma run_until_stored at_ : kept (run_until handler at_).
Proof. by apply run_until_keeps. Qed.
Hint Resolve run_until_stored : keeps.

Lemma ensure_requested_keeps name id t priority preempt cb :
  kept (ensure_requested handler name id t priority preempt cb).
Proof. unfold ensure_requested, _request_exists, reservation_for. solve_keeps. Qed.

Lemma withdraw_keeps id : kept (withdraw handler id).
Proof. unfold withdraw, reservation_for. solve_keeps. Qed.
End manager_invariant.

(** ** Successful runs *)

Section successful_runs.
Context {B : Type} `{!TemporalBackend B, !PreemptiveResourceBackend B, !Uuid5}.
Implicit Types w : world B.

Lemma outcome_fields d x t1 t2 y r :
  _build_preemption_outcome d x t1 t2 = Ok (y, r) →
  pres_successor_reservation_id r = prsv_reservation_id y ∧
  pres_displaced_reservation_id r = prsv_reservation_id x ∧
  pres_preempting_request_id r = pdem_request_id d.
Proof.
  unfold _build_preemption_outcome. intros Ho. symmetry in Ho. inv_prog.
  unfold ResourcePreemptionResult_new in *.
  match goal with H : _ ≫= _ = Ok _ |- _ => symmetry in H end. by inv_prog.
Qed.

Lemma preemption_run w d x y r :
  let s := durable_state w in
  durable s → mp_read_only (w_store w) = false →
  st_preemptive_resource_demands s !! pdem_request_id d = Some d →
  st_preemptive_resource_reservations s !! prsv_reservation_id x = Some x →
  prsv_request_id y = pdem_request_id d → prsv_resource_name y = pdem_resource_name d →
  prsv_reservation_id y ≠ prsv_reservation_id x →
  pres_successor_reservation_id r = prsv_reservation_id y →
  pres_displaced_reservation_id r = prsv_reservation_id x →
  pres_preempting_request_id r = pdem_request_id d →
  st_resource_preemption_results s !! pres_result_id r = None →
  tx (preemption_body d x y r) w = (Ok true, set_state (preempted x y r s) w).
Proof.
  intros s Hd Hro Hdem Hx Hy1 Hy2 Hne Hr1 Hr2 Hr3 Hr. pose proof (wf_pre _ (durable_wf _ Hd)) as Hwf.
  destruct (preemption_body d x y r (begin_uow s)) as [z u] eqn:E.
  assert (z = Ok true ∧ uow_working u = preempted x y r s) as [-> Hu].
  { revert E. unfold preemption_body, get_preemptive_resource_demand,
      get_preemptive_resource_reservation, delete_preemptive_resource_demand,
      delete_preemptive_resource_reservation, save_preemptive_resource_reservation,
      save_resource_preemption_result, working, write. run. cbn. unfold fork_state.
    rewrite Hdem, differs_self. run. cbn. unfold fork_state. rewrite Hx, differs_self. run. cbn.
    unfold present, absent, fork_state. rewrite Hy1, Hy2, lookup_delete_eq.
    destruct (wf_pdem_def _ Hwf _ _ Hdem) as [df ->]. cbn.
    rewrite (not_true_is_false (any_value _ _)).
    2:{ intros (k & z' & [Hk Hz]%lookup_delete_Some & Hp)%any_value_true.
        apply andb_prop in Hp as [Hp _].
        pose proof (wf_prsv_dem _ Hwf _ _ Hz) as Ha. cbn in Ha. apply (proj1 (eqb_of_true _ _)) in Hp. congruence. }
    run. cbn. rewrite Hr1, lookup_insert_eq. cbn. rewrite Hy1, Hr3, (proj2 (eqb_of_true _ _)) by done.
    run. cbn. rewrite Hr2, lookup_insert_ne, lookup_delete_eq by done. cbn. rewrite Hr. cbn.
    intros [= <- <-]. split; [done|]. cbn. unfold preempted. by rewrite Hy1. }
  rewrite <-Hu. eapply tx_apart; try done; by rewrite Hu.
Qed.

(** A demand waiting for a resource at capacity is not granted. *)
Lemma try_normal_full w id d df lease :
  let s := durable_state w in
  wf_preemptive s → st_preemptive_resource_demands s !! id = Some d →
  st_preemptive_resource_definitions s !! pdem_resource_name d = Some df →
  pdef_capacity df ≤ Z.of_nat (held (pdem_resource_name d) (st_preemptive_resource_reservations s)) →
  dict_get id (w_pgrants w) = Some lease →
  _try_commit_normal_grant id w = (Ok false, w).
Proof.
  intros s Hwf Hd Hdf Hfull Hl. unfold _try_commit_normal_grant, _demand_for_request, _definition.
  run. rewrite Hl. rewrite preemptive_find_demand by done. fold s. rewrite Hd. run.
  rewrite preemptive_find_definition by done. fold s. rewrite Hdf. run.
  rewrite held_length. fold s. rewrite (proj2 (Z.leb_le _ _) Hfull). by destruct (negb _).
Qed.
End successful_runs.

(** ** What can happen to the preemptive resources *)

(** Calls of the manager's methods, the two callbacks of the backend (with any
    argument, repeated, in any order), and a restart with a new backend, of which
    nothing in memory survives. *)
Inductive preemptive_action (B : Type) :=
  | Define (name : string) (capacity : Z)
  | Request (name id : string) (at_ : datetime) (priority : Z) (preempt : bool) (cb : option string)
  | Grant (id : string) (lease : ResourceLease)
  | Lose (event : ResourcePreemption)
  | Cancel (id : string)
  | Release (id : string)
  | Ensure (name id : string) (at_ : datetime) (priority : Z) (preempt : bool) (cb : option string)
  | Withdraw (id : string)
  | Rebuild
  | Restart (b : B) (c : clock).
Arguments Define {B}.
Arguments Request {B}.
Arguments Grant {B}.
Arguments Lose {B}.
Arguments Cancel {B}.
Arguments Release {B}.
Arguments Ensure {B}.
Arguments Withdraw {B}.
Arguments Rebuild {B}.
Arguments Restart {B}.

Section actions.
Context {B : Type} `{!TemporalBackend B, !TemporalBackendLaws B, !PreemptiveResourceBackend B, !Uuid5}.

(** The closures of this manager, run. *)
Definition preemptive_handler (i : invocation) : prog (world B) unit :=
  match i with
  | PreemptiveAcquired id lease => _record_acquired id lease
  | Preempted event => _record_preempted event
  | _ => mret tt
  end.

Lemma handler_keeps i : keeps (stored preemptive_inv) (preemptive_handler i).
Proof.
  destruct i; cbn; try apply keeps_ret; [apply record_acquired_keeps|apply record_preempted_keeps].
Qed.

(** The world an action leaves, whether it returns or raises. *)
Definition act (a : preemptive_action B) (w : world B) : world B :=
  match a with
  | Define name capacity =>
    (d ← lift (PreemptiveResourceDefinition_new name capacity) ; define d) w
  | Request n id t p b cb => (request n id t p b cb ;; mret tt) w
  | Grant id lease => _record_acquired id lease w
  | Lose event => _record_preempted event w
  | Cancel id => (cancel_pending id ;; mret tt) w
  | Release id => (release id ;; mret tt) w
  | Ensure n id t p b cb => (ensure_requested preemptive_handler n id t p b cb ;; mret tt) w
  | Withdraw id => (withdraw preemptive_handler id ;; mret tt) w
  | Rebuild => (rebuild_backend ;; mret tt) w
  | Restart b c => (Ok tt, fresh_world (w_store w) b c)
  end.2.

Definition run_actions (l : list (preemptive_action B)) (w : world B) : world B :=
  foldl (λ w a, act a w) w l.

Lemma keeps_drop {A} (m : prog (world B) A) I :
  keeps (stored I) m → keeps (stored I) (m ;; mret tt).
Proof. intros Hm. apply keeps_bind; [done|]. intros _. apply keeps_ret. Qed.

Lemma preemptive_act_inv a w : stored preemptive_inv w → stored preemptive_inv (act a w).
Proof.
  pose proof handler_keeps as Hh.
  destruct a; unfold act.
  - intros Hw. unfold PreemptiveResourceDefinition_new.
    destruct (is_empty name); [exact Hw|]. destruct (Z.ltb_spec capacity 1); [exact Hw|].
    apply preemptive_define_keeps; [cbn; lia|done].
  - apply keeps_drop, preemptive_request_keeps.
  - apply record_acquired_keeps.
  - apply record_preempted_keeps.
  - apply keeps_drop, cancel_pending_keeps.
  - apply keeps_drop, release_keeps.
  - by apply keeps_drop, ensure_requested_keeps.
  - by apply keeps_drop, withdraw_keeps.
  - apply keeps_drop, rebuild_keeps.
  - done.
Qed.

Lemma preemptive_run_actions_inv l w : stored preemptive_inv w → stored preemptive_inv (run_actions l w).
Proof. revert w. induction l as [|a l IH]; intros w Hw; [done|]. by apply IH, preemptive_act_inv. Qed.
End actions.

Lemma empty_preemptive_inv : preemptive_inv empty_state.
Proof.
  constructor; [apply durable_empty| |apply map_Forall_empty].
  intros name d H. cbn in H. by rewrite lookup_empty in H.
Qed.

(** ** The handshake *)

Section handshake.
Context {B : Type} `{!TemporalBackend B, !PreemptiveResourceBackend B, !Uuid5}.
Implicit Types w : world B.
Context (d : PreemptiveResourceDemand) (df : PreemptiveResourceDefinition)
  (x y : PreemptiveResourceReservation) (r : ResourcePreemptionResult)
  (lease : ResourceLease) (event : ResourcePreemption).
Abbreviation pid := (pdem_request_id d).

(** [d] waits for a full resource, [x] is its reservation that [event] took,
    and [y], [r] are what the preemption must record. *)
Record pairing (w : world B) : Prop := {
  pr_durable : durable (durable_state w);
  pr_writable : mp_read_only (w_store w) = false;
  pr_demand : st_preemptive_resource_demands (durable_state w) !! pid = Some d;
  pr_definition : st_preemptive_resource_definitions (durable_state w) !! pdem_resource_name d
                  = Some df;
  pr_full : pdef_capacity df
    ≤ Z.of_nat (held (pdem_resource_name d) (st_preemptive_resource_reservations (durable_state w)));
  pr_displaced : st_preemptive_resource_reservations (durable_state w) !! prsv_reservation_id x
                 = Some x;
  pr_same : prsv_resource_name x = pdem_resource_name d;
  pr_by : pre_preempted_by event = Some pid;
  pr_named : pid ≠ "";
  pr_victim : pre_request_id event = prsv_request_id x;
  pr_resource : pre_resource_name event = prsv_resource_name x;
  pr_outcome : _build_preemption_outcome d x (pre_preempted_at event) (lease_acquired_at lease)
               = Ok (y, r);
  pr_fresh : prsv_reservation_id y ≠ prsv_reservation_id x;
  pr_new : st_resource_preemption_results (durable_state w) !! pres_result_id r = None }.

(** Both halves received. *)
Definition paired w : world B :=
  w <| w_pgrants ::= dict_set pid lease |> <| w_ppreemptions ::= <[pid := event]> |>.

(** The preemption carried out. *)
Definition preempted_world w : world B :=
  (_notify_acquired y (set_state (preempted x y r (durable_state w)) w <| w_pleases ::= λ m,
     <[prsv_reservation_id y := lease]> (delete (prsv_reservation_id x) m) |>)).2.

Lemma commit_paired w :
  pairing w → dict_get pid (w_pgrants w) = None → w_ppreemptions w !! pid = None →
  _try_commit_preemption pid (paired w) = (Ok true, preempted_world w).
Proof.
  intros [] Hg Hp. pose proof (wf_pre _ (durable_wf _ pr_durable0)) as Hwf.
  destruct (outcome_inv _ _ _ _ _ _ pr_outcome0) as (Hy1 & Hy2 & _).
  destruct (outcome_fields _ _ _ _ _ _ pr_outcome0) as (Hr1 & Hr2 & Hr3).
  unfold _try_commit_preemption, _demand_for_request, reservation_for, paired. run. cbn.
  rewrite dict_get_set, bool_decide_eq_true_2, lookup_insert_eq by done.
  run. cbn. change (durable_state (w <| w_pgrants ::= _ |> <| w_ppreemptions ::= _ |>)) with (durable_state w).
  rewrite preemptive_find_demand, pr_demand0 by done. rewrite pr_victim0.
  rewrite (preemptive_find_reservation_for _ Hwf _ _ pr_displaced0).
  rewrite pr_same0, (proj2 (eqb_of_true _ _)) by done. run. rewrite pr_outcome0. run.
  erewrite run_bind by by apply preemption_run. run. cbn [negb]. run.
  unfold preempted_world. set (v := set_state (preempted x y r (durable_state w)) w <| w_pleases ::= _ |>).
  match goal with |- _ ?u = _ => replace u with v end.
  { rewrite (run_bind _ _ _ tt (_notify_acquired y v).2); [done|].
    unfold _notify_acquired, notify. run. by case_match. }
  transitivity (v <| w_pgrants := dict_pop pid (dict_set pid lease (w_pgrants w)) |>
                  <| w_ppreemptions := delete pid (<[pid := event]> (w_ppreemptions w)) |>); [|reflexivity].
  rewrite dict_pop_set, delete_insert_id by done. by destruct w.
Qed.

Lemma pairing_same w w1 :
  durable_state w1 = durable_state w → mp_read_only (w_store w1) = mp_read_only (w_store w) →
  pairing w → pairing w1.
Proof. intros E E' []. by constructor; rewrite ?E, ?E'. Qed.

Lemma find_victim w :
  pairing w →
  find_first (λ z, eqb_of (prsv_request_id z) (pre_request_id event))
    (preemptive_resource_reservations (durable_state w)) = Some x.
Proof.
  intros []. rewrite pr_victim0. by eapply preemptive_find_reservation_for; [apply wf_pre, durable_wf|].
Qed.

Lemma find_waiting w :
  pairing w →
  find_first (λ z, eqb_of (pdem_request_id z) pid) (preemptive_resource_demands (durable_state w))
  = Some d ∧
  find_first (λ z, eqb_of (prsv_request_id z) pid) (preemptive_resource_reservations (durable_state w))
  = None.
Proof.
  intros []. pose proof (wf_pre _ (durable_wf _ pr_durable0)) as Hwf.
  split; [by rewrite preemptive_find_demand|by eapply preemptive_pending_not_reserved].
Qed.

(** The acquisition: the lease is kept, then a commit is tried. *)
Lemma record_acquired_run w :
  pairing w → dict_get pid (w_pgrants w) = None →
  _record_acquired pid lease w
  = (committed ← _try_commit_preemption pid ;
     if committed : bool then mret tt else _try_commit_normal_grant pid ;; mret tt)
      (w <| w_pgrants ::= dict_set pid lease |>).
Proof.
  intros Hw Hg. destruct (find_waiting w Hw) as [E1 E2].
  unfold _record_acquired, reservation_for, _demand_for_request. run. rewrite E2. run.
  by rewrite E1.
Qed.

Lemma record_preempted_run w :
  pairing w →
  _record_preempted event w
  = (_try_commit_preemption pid ;; mret tt) (w <| w_ppreemptions ::= <[pid := event]> |>).
Proof.
  intros Hw. pose proof (find_victim w Hw) as E. destruct Hw.
  unfold _record_preempted, reservation_for. rewrite pr_by0. unfold is_empty.
  rewrite bool_decide_eq_false_2 by done. run. rewrite E. run.
  by rewrite pr_resource0, (proj2 (eqb_of_true _ _)) by done.
Qed.

(** Half a handshake commits nothing. *)
Lemma acquired_alone w :
  pairing w → dict_get pid (w_pgrants w) = None → w_ppreemptions w !! pid = None →
  _record_acquired pid lease w = (Ok tt, w <| w_pgrants ::= dict_set pid lease |>).
Proof.
  intros Hw Hg Hp. rewrite record_acquired_run by done. set (w1 := _ <| _ ::= _ |>).
  assert (_try_commit_preemption pid w1 = (Ok false, w1)) as E.
  { unfold _try_commit_preemption. run. cbn. rewrite Hp. by case_match. }
  rewrite (run_bind _ _ _ _ _ E). destruct Hw.
  erewrite run_bind; [done|]. eapply (try_normal_full w1 pid d df lease); try done.
  - apply wf_pre, durable_wf, pr_durable0.
  - cbn. by rewrite dict_get_set, bool_decide_eq_true_2.
Qed.

Lemma preempted_alone w :
  pairing w → dict_get pid (w_pgrants w) = None →
  _record_preempted event w = (Ok tt, w <| w_ppreemptions ::= <[pid := event]> |>).
Proof.
  intros Hw Hg. rewrite record_preempted_run by done. erewrite run_bind; [done|].
  unfold _try_commit_preemption. run. cbn. by rewrite Hg.
Qed.
End handshake.

(** ** Recovery *)

(** The state with the releases [l] carried out. *)
Definition released_all (l : list PreemptiveResourceReleaseIntent) (s : state) : state :=
  s <| st_preemptive_resource_reservations ::= filter (λ kr, kr.1 ∉ (prel_reservation_id <$> l)) |>
    <| st_preemptive_resource_release_intents ::= filter (λ ki, ki.1 ∉ (prel_intent_id <$> l)) |>.

(** The state with every recorded release carried out. *)
Definition settled (s : state) : state :=
  s <| st_preemptive_resource_reservations ::=
         filter (λ kr, kr.1 ∉ (prel_reservation_id <$> preemptive_resource_release_intents s)) |>
    <| st_preemptive_resource_release_intents := ∅ |>.

(** What recovery must tell the backend: the resources; a request for every
    reservation, by priority, none of which may preempt; then every demand. *)
Definition restore_preemptive {B} `{PreemptiveResourceBackend B} (s : state) : prog B Z :=
  for_each (preemptive_resource_definitions s) (λ d,
    create_preemptive_resource (pdef_name d) (pdef_capacity d)) ;;
  n ← sum_each (preemptive_resource_reservations s) (λ r,
    request_preemptive_resource (prsv_resource_name r) (prsv_request_id r) (prsv_priority r) false ;;
    mret 1) ;
  m ← sum_each (preemptive_resource_demands s) (λ d,
    request_preemptive_resource (pdem_resource_name d) (pdem_request_id d) (pdem_priority d)
      (pdem_preempt d) ;;
    mret 1) ;
  mret (n + m).

(** The manager with nothing in memory. *)
Definition forgotten {B} (w : world B) : world B :=
  w <| w_pleases := ∅ |> <| w_pgrants := [] |> <| w_ppreemptions := ∅ |> <| w_pcallbacks := ∅ |>.

(** Every recorded release is of an existing reservation of its resource. *)
Definition releases_match (s : state) : Prop :=
  map_Forall (λ _ i, ∃ r,
    st_preemptive_resource_reservations s !! prel_reservation_id i = Some r
    ∧ prsv_resource_name r = prel_resource_name i) (st_preemptive_resource_release_intents s).

Lemma preemptive_released_all_cons i l s :
  released_all (i :: l) s = released_all l (released (prel_reservation_id i) (prel_intent_id i) s).
Proof.
  unfold released_all, released. destruct s. unfold update_field; cbn. f_equal; symmetry;
    apply delete_filter_cons.
Qed.

Lemma preemptive_released_all_nil s : released_all [] s = s.
Proof.
  unfold released_all. destruct s. unfold update_field; cbn.
  f_equal; apply map_filter_id; intros; apply not_elem_of_nil.
Qed.

Lemma preemptive_released_all_settled s :
  wf_preemptive s → released_all (preemptive_resource_release_intents s) s = settled s.
Proof.
  intros Hwf. unfold released_all, settled.
  assert (filter (λ ki, ki.1 ∉ (prel_intent_id <$> preemptive_resource_release_intents s))
            (st_preemptive_resource_release_intents s) = ∅) as E.
  { apply map_empty. intros k. apply map_lookup_filter_None. right. intros i Hi Hk. cbn in Hk.
    apply Hk. rewrite <-(wf_prel_key _ Hwf _ _ Hi). apply list_elem_of_fmap_2, elem_of_sorted_values.
    by exists k. }
  destruct s. unfold update_field; cbn in *. by rewrite E.
Qed.

Section recovery.
Context {B : Type} `{!TemporalBackend B, !PreemptiveResourceBackend B, !Uuid5}.
Implicit Types w : world B.

Lemma preemptive_finalize_run w i r :
  durable (durable_state w) → mp_read_only (w_store w) = false →
  st_preemptive_resource_release_intents (durable_state w) !! prel_intent_id i = Some i →
  st_preemptive_resource_reservations (durable_state w) !! prsv_reservation_id r = Some r →
  tx (finalize_body i r) w
  = (Ok tt, set_state (released (prsv_reservation_id r) (prel_intent_id i) (durable_state w)) w).
Proof.
  intros Hd Hro Hi Hr.
  destruct (finalize_body i r (begin_uow (durable_state w))) as [z u] eqn:E.
  assert (z = Ok tt ∧ uow_working u
          = released (prsv_reservation_id r) (prel_intent_id i) (durable_state w)) as [-> Hu].
  { revert E. unfold finalize_body, get_preemptive_resource_release_intent,
      get_preemptive_resource_reservation, delete_preemptive_resource_reservation,
      delete_preemptive_resource_release_intent, write. run. cbn. unfold fork_state.
    rewrite Hi, Hr, !differs_self. by intros [= <- <-]. }
  rewrite <-Hu. eapply tx_apart; try done; by rewrite Hu.
Qed.

Lemma preemptive_finalize_interrupted_run w i :
  durable (durable_state w) → mp_read_only (w_store w) = false →
  st_preemptive_resource_release_intents (durable_state w) !! prel_intent_id i = Some i →
  finalize_interrupted i w
  = (Ok tt, set_state (released (prel_reservation_id i) (prel_intent_id i) (durable_state w)) w).
Proof.
  intros Hd Hro Hi. pose proof (wf_pre _ (durable_wf _ Hd)) as Hwf. unfold finalize_interrupted.
  run. rewrite preemptive_find_reservation by done.
  destruct (st_preemptive_resource_reservations (durable_state w) !! prel_reservation_id i)
    as [r|] eqn:Hr.
  - assert (prsv_reservation_id r = prel_reservation_id i) as Hid by by eapply (wf_prsv_key _ Hwf).
    rewrite <-Hid. unfold _finalize_release_intent. apply preemptive_finalize_run; by rewrite ?Hid.
  - destruct (delete_preemptive_resource_release_intent (prel_intent_id i)
                (begin_uow (durable_state w))) as [x u] eqn:E.
    assert (x = Ok tt ∧ uow_working u
            = released (prel_reservation_id i) (prel_intent_id i) (durable_state w)) as [-> Hu].
    { injection E as <- <-. split; [done|]. cbn. unfold released, fork_state.
      f_equal. symmetry. destruct (durable_state w); cbn in *. unfold update_field; cbn.
      by rewrite delete_id. }
    rewrite <-Hu. eapply tx_apart; try done; by rewrite Hu.
Qed.

Lemma preemptive_finalize_interrupted_bt i : by_transactions (finalize_interrupted (B:=B) i).
Proof.
  unfold finalize_interrupted, _finalize_release_intent. pose proof finalize_body_body. solve_bt.
Qed.

Lemma preemptive_finalize_all_run w l :
  durable (durable_state w) → mp_read_only (w_store w) = false →
  NoDup (prel_intent_id <$> l) →
  (∀ i, i ∈ l → st_preemptive_resource_release_intents (durable_state w) !! prel_intent_id i = Some i) →
  for_each l finalize_interrupted w = (Ok tt, set_state (released_all l (durable_state w)) w).
Proof.
  revert w. induction l as [|i l IH]; intros w Hd Hro Hnd Hl; cbn [for_each].
  - rewrite preemptive_released_all_nil. destruct w as [[]]. done.
  - cbn in Hnd. apply NoDup_cons in Hnd as [Hni Hnd].
    assert (finalize_interrupted i w = (Ok tt, set_state (released (prel_reservation_id i)
              (prel_intent_id i) (durable_state w)) w)) as E.
    { apply preemptive_finalize_interrupted_run; [done..|]. apply Hl. by constructor. }
    pose proof (preemptive_finalize_interrupted_bt i durable durable_tx_stable w Hd) as Hd'.
    rewrite E in Hd'. eapply run_bind_eq; [exact E|]. rewrite IH; try done.
    + by rewrite preemptive_released_all_cons.
    + intros j Hj. cbn. rewrite lookup_delete_ne; [apply Hl; by constructor|].
      intros Heq. apply Hni. rewrite Heq. by apply list_elem_of_fmap_2.
Qed.

Lemma preemptive_settle_run w :
  durable (durable_state w) → mp_read_only (w_store w) = false →
  _finalize_interrupted_releases w = (Ok tt, set_state (settled (durable_state w)) w).
Proof.
  intros Hd Hro. pose proof (wf_pre _ (durable_wf _ Hd)) as Hwf.
  unfold _finalize_interrupted_releases. run. rewrite <-preemptive_released_all_settled by done.
  apply preemptive_finalize_all_run; try done.
  - apply NoDup_sorted_values, Hwf.
  - intros i [k Hi]%elem_of_sorted_values. by rewrite (wf_prel_key _ Hwf _ _ Hi).
Qed.

Section dictionaries.
Context (s : state) (Hinv : preemptive_inv s).
Let Hwf : wf_preemptive s := wf_pre _ (durable_wf _ (pi_durable _ Hinv)).

Lemma preemptive_definitions_dict :
  dict_of pdef_name (preemptive_resource_definitions s)
  = (λ d, (pdef_name d, d)) <$> preemptive_resource_definitions s.
Proof. apply dict_of_distinct, NoDup_sorted_values, Hwf. Qed.

Lemma preemptive_get_definition name :
  is_Some (st_preemptive_resource_definitions s !! name) →
  ∃ d, dict_get name ((λ d, (pdef_name d, d)) <$> preemptive_resource_definitions s) = Some d.
Proof.
  intros [d Hd]. exists d. rewrite <-(wf_pdef_key _ Hwf _ _ Hd). apply dict_get_distinct.
  - apply NoDup_sorted_values, Hwf.
  - apply elem_of_sorted_values. by exists name.
Qed.
End dictionaries.

(** Of a state with the invariant, recovery only questions the releases. *)
Lemma validate_releases w :
  preemptive_inv (durable_state w) →
  validate_rebuild w
  = for_each (preemptive_resource_release_intents (durable_state w)) (λ i,
      match st_preemptive_resource_reservations (durable_state w) !! prel_reservation_id i with
      | None => raise (RuntimeError ("preemptive release references unknown reservation: "
                                       +:+ prel_intent_id i))
      | Some r =>
        raise_if (negb (eqb_of (prsv_resource_name r) (prel_resource_name i)))
          (RuntimeError ("preemptive release targets wrong resource: " +:+ prel_intent_id i))
      end) w.
Proof.
  intros Hinv. set (s := durable_state w) in *. unfold validate_rebuild.
  pose proof (wf_pre _ (durable_wf _ (pi_durable _ Hinv))) as Hwf.
  run. fold s. rewrite preemptive_definitions_dict by done.
  unfold _validate_preemptive_references. rewrite run_assoc.
  rewrite (run_bind _ _ _ tt w).
  2:{ apply for_each_pass. intros r [k Hr]%elem_of_values_on.
      destruct (preemptive_get_definition s Hinv _ (wf_prsv_def _ Hwf _ _ Hr)) as [d ->].
      by rewrite bool_decide_eq_false_2. }
  rewrite run_assoc. rewrite (run_bind _ _ _ tt w).
  2:{ apply for_each_pass. intros r [k Hr]%elem_of_values_on.
      destruct (preemptive_get_definition s Hinv _ (wf_pdem_def _ Hwf _ _ Hr)) as [d ->].
      by rewrite bool_decide_eq_false_2. }
  etrans; [|apply run_ret_r]. apply run_bind_cong.
  { apply for_each_ext. intros i w' _. by rewrite preemptive_find_reservation. }
  intros [] w' Hrun. apply for_each_pass_inv in Hrun as [-> _].
  2:{ intros i v ->. by repeat case_match. }
  rewrite (run_bind _ _ _ tt w).
  2:{ apply for_each_pass. intros ? (d & -> & [k Hd]%elem_of_sorted_values)%list_elem_of_fmap.
      rewrite held_length. fold s. pose proof (wf_pdef_key _ Hwf _ _ Hd) as <-.
      pose proof (pi_capacity _ Hinv _ _ Hd).
      cbv zeta. rewrite (proj2 (Z.ltb_ge _ _)); done. }
  rewrite (run_bind _ _ _ tt w).
  2:{ unfold _validate_request_overlap. rewrite bool_decide_eq_true_2; [done|].
      apply filter_none. intros k (d & -> & [j Hd]%elem_of_values_on)%list_elem_of_fmap
        (r & E & [i Hr]%elem_of_values_on)%list_elem_of_fmap.
      pose proof (wf_prsv_dem _ Hwf _ _ Hr) as Ha. cbn in Ha. rewrite <-E in Ha.
      rewrite (wf_pdem_key _ Hwf _ _ Hd) in Ha. congruence. }
  apply for_each_pass. intros r [k Hr]%elem_of_values_on.
  destruct (preemptive_get_definition s Hinv _ (pi_results _ Hinv _ _ Hr)) as [d ->].
  by rewrite bool_decide_eq_false_2.
Qed.

Lemma restore_run w :
  preemptive_inv (durable_state w) →
  (definitions ← reads (λ s, dict_of pdef_name (preemptive_resource_definitions s)) ;
   for_each definitions (λ '(_, d),
     on_backend (create_preemptive_resource (pdef_name d) (pdef_capacity d))) ;;
   reservations ← reads preemptive_resource_reservations ;
   n ← sum_each reservations (λ r,
     on_backend (request_preemptive_resource (prsv_resource_name r) (prsv_request_id r)
                   (prsv_priority r) false) ;;
     mret 1) ;
   demands ← reads preemptive_resource_demands ;
   m ← sum_each demands (λ d, _submit_demand d ;; mret 1) ;
   mret (n + m)) w = on_backend (restore_preemptive (durable_state w)) w.
Proof.
  intros Hinv. set (s := durable_state w). unfold restore_preemptive. run. fold s.
  rewrite preemptive_definitions_dict, on_backend_bind by done. apply run_bind_cong.
  { rewrite for_each_fmap. apply for_each_on_backend. }
  intros [] w2 (b2 & _ & ->)%on_backend_inv. run.
  change (durable_state (w <| w_backend := b2 |>)) with s. rewrite on_backend_bind.
  apply run_bind_cong.
  { rewrite <-sum_each_on_backend. apply sum_each_ext. intros r w3 _. rewrite on_backend_bind.
    apply run_bind_cong; [done|]. intros [] w4 _. by rewrite on_backend_ret. }
  intros n w3 (b3 & _ & ->)%on_backend_inv. run.
  change (durable_state (w <| w_backend := b2 |> <| w_backend := b3 |>)) with s.
  rewrite on_backend_bind. apply run_bind_cong.
  { rewrite <-sum_each_on_backend. apply sum_each_ext. intros r w4 _. rewrite on_backend_bind.
    apply run_bind_cong; [done|]. intros [] w5 _. by rewrite on_backend_ret. }
  intros m w4 _. by rewrite on_backend_ret.
Qed.
End recovery.

(** *** Properties *)

Section properties.
Context {B : Type} `{!TemporalBackend B, !TemporalBackendLaws B, !PreemptiveResourceBackend B, !Uuid5}.
Implicit Types w : world B.

(** C7. A resource is never reserved beyond its capacity, and no request is
    both pending and reserved, after any sequence of definitions, requests,
    cancellations, releases, callbacks of the backend (with any argument, in
    any order, repeated), failed calls, recoveries and restarts from an empty
    store. *)
Theorem capacity_respected (l : list (preemptive_action B)) w name d k r :
  durable_state w = empty_state →
  let s := durable_state (run_actions l w) in
  st_preemptive_resource_definitions s !! name = Some d →
  st_preemptive_resource_reservations s !! k = Some r →
  Z.of_nat (length (filter (λ r, prsv_resource_name r = name)
                      (preemptive_resource_reservations s))) ≤ pdef_capacity d
  ∧ st_preemptive_resource_demands s !! prsv_request_id r = None.
Proof.
  intros Hw s Hd Hr.
  assert (preemptive_inv s) as Hinv.
  { apply preemptive_run_actions_inv. unfold stored. rewrite Hw. apply empty_preemptive_inv. }
  split; [rewrite held_length; by apply (pi_capacity _ Hinv)|].
  apply (wf_prsv_dem _ (wf_pre _ (durable_wf _ (pi_durable _ Hinv))) k r Hr).
Qed.

(** C27. The two callbacks of a preemption commute.  On a full resource, the
    acquisition alone commits nothing and the loss alone commits nothing;
    when both have arrived, in either order, one transaction has replaced the
    displaced reservation by that of the pending demand and recorded the
    preemption, the manager holds the new lease in place of the old one, no
    half of the handshake is left over, and the caller was notified once. *)
Theorem preemption_handshake w d df x y r lease event :
  let s := durable_state w in
  let pid := pdem_request_id d in
  let w' := preempted_world x y r lease w in
  pairing d df x y r lease event w →
  dict_get pid (w_pgrants w) = None → w_ppreemptions w !! pid = None →
  durable_state (_record_acquired pid lease w).2 = s ∧
  durable_state (_record_preempted event w).2 = s ∧
  (_record_acquired pid lease ;; _record_preempted event) w = (Ok tt, w') ∧
  (_record_preempted event ;; _record_acquired pid lease) w = (Ok tt, w') ∧
  durable_state w' = preempted x y r s.
Proof.
  intros s pid w' Hw Hg Hp. subst pid. pose proof (commit_paired _ _ _ _ _ _ _ _ Hw Hg Hp) as Hc.
  rewrite (acquired_alone _ _ _ _ _ _ _ _ Hw Hg Hp), (preempted_alone _ _ _ _ _ _ _ _ Hw Hg).
  split_and!; [done..| | |].
  - rewrite (run_bind _ _ _ _ _ (acquired_alone _ _ _ _ _ _ _ _ Hw Hg Hp)).
    rewrite (record_preempted_run d df x y r lease event) by by apply (pairing_same _ _ _ _ _ _ _ w).
    by rewrite (run_bind _ _ _ _ _ Hc).
  - rewrite (run_bind _ _ _ _ _ (preempted_alone _ _ _ _ _ _ _ _ Hw Hg)).
    rewrite (record_acquired_run d df x y r lease event); [|by apply (pairing_same _ _ _ _ _ _ _ w)|done].
    by rewrite (run_bind _ _ _ _ _ Hc).
  - unfold w', preempted_world.
    destruct (_notify_acquired y _) as [z v] eqn:E.
    by apply (stored_same _ _ _ _ (λ I, notify_acquired_stored _ I)) in E.
Qed.


(** A recorded release whose reservation is gone (its backend call had
    failed, and a preemption then displaced the reservation) makes recovery
    impossible: [rebuild_backend] raises a [RuntimeError] before it reaches
    the step that would drop such a release, and leaves the durable state as
    it was, so that every further attempt fails in the same way. *)
Theorem dangling_release_blocks_recovery w k i :
  let s := durable_state w in
  preemptive_inv s → st_preemptive_resource_release_intents s !! k = Some i →
  st_preemptive_resource_reservations s !! prel_reservation_id i = None →
  ∃ message, rebuild_backend w = (Err (RuntimeError message), forgotten w).
Proof.
  intros s Hinv Hi Hr. unfold rebuild_backend, _clear_ephemeral_state. run. fold (forgotten w).
  enough (∃ e, (∃ m, e = RuntimeError m) ∧ validate_rebuild (forgotten w) = (Err e, forgotten w))
    as (e & [m ->] & E).
  { exists m. unfold mbind, prog_bind. by rewrite E. }
  rewrite validate_releases by done.
  eapply (for_each_fails _ _ _ _ i); [|apply elem_of_sorted_values; by exists k|].
  - intros j _. destruct (_ !! prel_reservation_id j) as [r|]; [|right; eauto].
    destruct (negb _); [right; eauto|by left].
  - change (durable_state (forgotten w)) with s. by rewrite Hr.
Qed.
End properties.

(** *** A crane that "a" holds and "b" preempts *)

#[local] Existing Instance plain_uuid5.

Definition crane_lease (id : string) : ResourceLease := mkResourceLease ("lease:" +:+ id) id "crane" 3.
Definition crane_lost : ResourcePreemption := mkResourcePreemption "lease:a" "a" "crane" 4 (Some "b").
Definition crane_actions : list (preemptive_action queue_backend) :=
  [Define "crane" 1; Request "crane" "a" 0 5 false None; Grant "a" (crane_lease "a");
   Request "crane" "b" 2 1 true (Some "granted")].
Definition crane_waiting : world queue_backend := run_actions crane_actions new_process.

Lemma crane_inv : preemptive_inv (durable_state crane_waiting).
Proof. apply (preemptive_run_actions_inv _ new_process), empty_preemptive_inv. Qed.

Definition crane_definition : PreemptiveResourceDefinition := mkPreemptiveResourceDefinition "crane" 1.
Definition crane_demand : PreemptiveResourceDemand :=
  mkPreemptiveResourceDemand 1 2 "b" "crane" true 2.
Definition crane_reservation (id : string) (at_ priority sequence : Z) : PreemptiveResourceReservation :=
  mkPreemptiveResourceReservation
    (deterministic_id "preemptive-resource-reservation" [PStr "crane"; PStr id])
    id "crane" at_ priority sequence.
Definition crane_held : PreemptiveResourceReservation := crane_reservation "a" 3 5 1.
Definition crane_taken : PreemptiveResourceReservation := crane_reservation "b" 3 1 2.
Definition crane_result : ResourcePreemptionResult :=
  mkResourcePreemptionResult
    (deterministic_id "resource-preemption" [PStr (prsv_reservation_id crane_held); PStr "b"])
    "crane" (prsv_reservation_id crane_held) "a" "b" (prsv_reservation_id crane_taken) 4 2.

Lemma capacity_respected_witness :
  let s := durable_state (run_actions
    (crane_actions ++ [Lose crane_lost; Grant "b" (crane_lease "b"); Grant "b" (crane_lease "b")])%list
    new_process) in
  Z.of_nat (length (filter (λ r, prsv_resource_name r = "crane") (preemptive_resource_reservations s))) ≤ 1.
Proof.
  intros s.
  refine (proj1 (capacity_respected (_ ++ _)%list new_process "crane"
    crane_definition
    (prsv_reservation_id crane_taken) crane_taken eq_refl _ _)); vm_compute; reflexivity.
Defined.

Lemma preemption_handshake_witness :
  (_record_preempted crane_lost ;; _record_acquired "b" (crane_lease "b")) crane_waiting
  = (Ok tt, preempted_world crane_held crane_taken crane_result (crane_lease "b") crane_waiting)
  ∧ w_log (preempted_world crane_held crane_taken crane_result (crane_lease "b") crane_waiting)
    = [NotifiedPreemptive "granted" crane_taken].
Proof.
  split; [|vm_compute; reflexivity].
  refine (proj1 (proj2 (proj2 (proj2 (preemption_handshake crane_waiting crane_demand
    crane_definition crane_held crane_taken crane_result (crane_lease "b") crane_lost _ _ _)))));
    [constructor; [apply crane_inv|..]|..]; vm_compute; try reflexivity; discriminate.
Defined.

Lemma crane_releases : releases_match (durable_state crane_waiting).
Proof.
  unfold releases_match.
  assert (st_preemptive_resource_release_intents (durable_state crane_waiting) = ∅) as ->
    by (vm_compute; reflexivity).
  apply map_Forall_empty.
Qed.


(** A backend that has taken the lease back already, as SimPy's has once it has
    preempted the holder. *)
#[local] Instance preempting_backend : PreemptiveResourceBackend queue_backend := {
  create_preemptive_resource := create_preemptive_resource;
  request_preemptive_resource := request_preemptive_resource;
  cancel_preemptive_resource_request := cancel_preemptive_resource_request;
  release_preemptive_resource lease :=
    raise (KeyError ("unknown preemptive resource lease: " +:+ lease_lease_id lease)) }.

(** "a" releases while the preemption by "b" is half reported. *)
Definition crane_dangling : world queue_backend :=
  run_actions (crane_actions ++ [Lose crane_lost; Release (prsv_reservation_id crane_held);
                                 Grant "b" (crane_lease "b")])%list new_process.

Lemma dangling_release_blocks_recovery_witness :
  ∃ message, rebuild_backend crane_dangling = (Err (RuntimeError message), forgotten crane_dangling).
Proof.
  refine (dangling_release_blocks_recovery crane_dangling
    (prel_intent_id (release_intent crane_held 0)) (release_intent crane_held 0)
    (preemptive_run_actions_inv _ new_process empty_preemptive_inv) _ _); vm_compute; reflexivity.
Defined.
