(* ===== verification/Recovery.v ===== *)
(** * Recovery

    [RecoveryParticipant] and [RuntimeRebuilder] ([src/src/sose/core/durable.py])
    and [Engine.rebuild_backend] ([core/engine.py]): the runtime of an owner is
    reconstructed from the durable store on a fresh backend.  What the rebuilder
    needs of a manager is the class [RecoverableManager]; the managers of
    resources, stores, preemptive resources and containers are its instances. *)
From S2P Require Import Prelude Encoding Records Memory MemoryFacts World QueueBackend.
From S2P Require Import Scenarios Scheduling Factories Warehouse Probability Attestation Engine.
From S2P Require Import EngineFacts.
From S2P Require Resources Stores Preemption Containers.
Open Scope string_scope.
Open Scope Z_scope.

Section recovery.
Context {B : Type} `{!TemporalBackend B, !SchedulingBackend B}.
Abbreviation P := (prog (world B)).

(** A manager seen through [getattr]: [validate_rebuild] and [rebuild_backend],
    which may be missing; [rebuild_backend] returns a number or [None]. *)
Record RecoveryParticipant := mkRecoveryParticipant {
  part_name : string;
  part_validate : option (P unit);
  part_rebuild : option (P (option Z)) }.

Definition no_rebuild (p : RecoveryParticipant) : exn :=
  TypeError ("recovery participant '" +:+ part_name p +:+ "' has no rebuild_backend()").

(** [RecoveryParticipant.validate] and [RecoveryParticipant.rebuild]. *)
Definition participant_validate (p : RecoveryParticipant) : P unit :=
  match part_rebuild p with
  | None => raise (no_rebuild p)
  | Some _ => match part_validate p with Some validate => validate | None => mret tt end
  end.

Definition participant_rebuild (p : RecoveryParticipant) : P Z :=
  match part_rebuild p with
  | None => raise (no_rebuild p)
  | Some rebuild => restored ← rebuild ; mret (default 0 restored)
  end.

(** ** [RuntimeRebuilder] *)

(** The constructor's fields; the context, when given, is the world's. *)
Record RuntimeRebuilder := mkRuntimeRebuilder {
  rb_owner_id : string;
  rb_has_context : bool;
  rb_participants : list RecoveryParticipant;
  rb_filter : option (DurableScheduledItem → bool) }.

Definition RuntimeRebuilder_new (owner_id : string) (has_context : bool) (participants : list RecoveryParticipant)
    (filter : option (DurableScheduledItem → bool)) : res RuntimeRebuilder :=
  check_owner owner_id ;;
  mret (mkRuntimeRebuilder owner_id has_context participants filter).

Section rebuilder.
Context (self : RuntimeRebuilder).

Definition phase_names : list string :=
  ("context" :: (part_name <$> rb_participants self) ++ ["scheduled-work"])%list.

Definition _restore_context_from_position (position : option SimulationPosition)
    (scenario_state : option ScenarioRuntimeState) : P unit :=
  if negb (rb_has_context self) then mret tt else
  match position with
  | Some p => modify (λ w, w <| w_clock ::= λ c, c <| clk_now := pos_logical_time p |> <| clk_tick := pos_logical_tick p |> |>)
  | None => mret tt
  end ;;
  restore_state scenario_state.

(** The transaction of [_recovery_snapshot]. *)
Definition snapshot_body :
    uprog (option SimulationPosition * option ScenarioRuntimeState * list DurableScheduledItem) :=
  position ← get_simulation_position (rb_owner_id self) ;
  scenario_state ← get_scenario_state (rb_owner_id self) ;
  works ← uow_scheduled_work ;
  items ← collect works (λ work,
    if negb (eqb_of (work_owner_id work) (rb_owner_id self)) then mret [] else
    command ← get_command (work_command_id work) ;
    match command with
    | None => raise (missing_command work)
    | Some command =>
      raise_if (negb (eqb_of (cmd_owner_id command) (Some (rb_owner_id self))))
        (PermissionError "scheduled command belongs to a different owner") ;;
      mret [mkDurableScheduledItem work command]
    end) ;
  mret (position, scenario_state, items).

Definition _recovery_snapshot :
    P (option SimulationPosition * option ScenarioRuntimeState * list DurableScheduledItem) :=
  tx_as (rb_owner_id self) snapshot_body.

Definition _validate_scheduled_items (items : list DurableScheduledItem) (boundary : datetime) : P unit :=
  for_each items (λ item,
    raise_if (work_due_at (sched_work item) <? boundary)
      (RuntimeError ("scheduled work " +:+ work_work_id (sched_work item) +:+ " is before recovery boundary"))).

Definition schedule_item (item : DurableScheduledItem) : prog B unit :=
  schedule_at (work_due_at (sched_work item)) (BoundOnDue item) (work_priority (sched_work item))
    [PStr "durable-work"; PStr (work_work_id (sched_work item))].

Definition _schedule_pending_items (items : list DurableScheduledItem) : P unit :=
  for_each items (λ item, on_backend (schedule_item item)).

(** The work this domain is authorized to dispatch. *)
Definition authorized (items : list DurableScheduledItem) : list DurableScheduledItem :=
  match rb_filter self with Some f => filter (λ i, f i = true) items | None => items end.

Definition rebuild : P Z :=
  snapshot ← _recovery_snapshot ;
  let '(position, scenario_state, items) := snapshot in
  at_ ← gets (λ w, now (w_backend w)) ;
  raise_if (match position with Some p => negb (at_ =? pos_logical_time p) | None => false end)
    (RuntimeError "backend logical time does not match persisted recovery boundary") ;;
  let boundary := match position with Some p => pos_logical_time p | None => at_ end in
  let items := authorized items in
  _validate_scheduled_items items boundary ;;
  for_each (rb_participants self) participant_validate ;;
  _restore_context_from_position position scenario_state ;;
  for_each (rb_participants self) (λ p, participant_rebuild p ;; mret tt) ;;
  _schedule_pending_items items ;;
  mret (Z.of_nat (length items)).
End rebuilder.
End recovery.
Arguments RecoveryParticipant : clear implicits.
Arguments RuntimeRebuilder : clear implicits.

(** ** [Engine.rebuild_backend] *)

Section engine.
Context {B Wh : Type} `{!TemporalBackend B, !SchedulingBackend B, !ResourceBackend B, !StoreBackend B}.
Context `{!PreemptiveResourceBackend B, !ContainerBackend B, !Uuid5}.
Abbreviation P := (prog (world B)).

(** The managers of the engine; [filters] are the registered store filters. *)
Definition resource_participant : RecoveryParticipant B :=
  mkRecoveryParticipant "resources" None (Some (n ← Resources.rebuild_backend ; mret (Some n))).
Definition store_participant (filters : gset string) : RecoveryParticipant B :=
  mkRecoveryParticipant "stores" (Some (Stores.validate_rebuild filters))
    (Some (n ← Stores.rebuild_backend filters ; mret (Some n))).
Definition preemptive_participant : RecoveryParticipant B :=
  mkRecoveryParticipant "preemptive-resources" (Some Preemption.validate_rebuild)
    (Some (n ← Preemption.rebuild_backend ; mret (Some n))).
Definition container_participant : RecoveryParticipant B :=
  mkRecoveryParticipant "containers" (Some Containers.validate_rebuild)
    (Some (n ← Containers.rebuild_backend ; mret (Some n))).

Definition engine_rebuilder (self : engine B Wh) (filters : gset string) : RuntimeRebuilder B :=
  mkRuntimeRebuilder (eng_owner_id self) true
    [resource_participant; store_participant filters; preemptive_participant; container_participant]
    (Some (λ item, supports (eng_registry self) (cmd_entity_type (sched_command item)))).

Definition rebuild_backend (self : engine B Wh) (filters : gset string) : P Z :=
  detach_backend ;;
  rebuilt ← rebuild (engine_rebuilder self filters) ;
  attach_backend ;;
  mret rebuilt.
End engine.

(** ** What a manager may touch *)

(** The durable records of scheduling, and the part of the world that belongs to
    the context and the schedulers. *)
Definition schedule_part (s : state) :=
  (st_scheduled_work s, st_commands s, st_simulation_positions s, st_scenario_states s).
Definition context_part {B} (w : world B) :=
  (w_clock w, w_scenarios w, w_attached w, mp_read_only (w_store w), schedule_part (durable_state w)).

(** A program on the managers' own objects and records. *)
Definition spares {B A} (m : prog (world B) A) : Prop := ∀ x, keeps (λ w, context_part w = x) m.
Definition spares_uow {A} (m : uprog A) : Prop := ∀ x, keeps (λ u, schedule_part (uow_working u) = x) m.

Section spares.
Context {B : Type}.

Lemma spares_tx {A} (body : uprog A) : spares_uow body → spares (B:=B) (tx body).
Proof.
  intros Hb x w Hw. destruct (tx body w) as [r w'] eqn:E. apply tx_inv in E as [(e & _ & ->)|(a & u & Eu & _ & ->)]; [done|].
  cbn. pose proof (Hb (schedule_part (durable_state w)) (begin_uow (durable_state w)) eq_refl) as Hu. rewrite Eu in Hu.
  cbn in Hu. subst x. unfold context_part. f_equal. exact Hu.
Qed.

Lemma spares_on_backend {A} (m : prog B A) : spares (on_backend m).
Proof. intros x w <-. unfold on_backend, focus. by destruct (m (w_backend w)). Qed.

Lemma spares_reads {A} (f : state → A) : spares (B:=B) (reads f).
Proof. intros x w <-. done. Qed.

Lemma spares_inv {A} (m : prog (world B) A) w r w' : spares m → m w = (r, w') → context_part w' = context_part w.
Proof. intros Hm E. pose proof (Hm _ w eq_refl) as Hw. by rewrite E in Hw. Qed.

Lemma spares_lift_option {A} (m : prog (world B) A) : spares m → spares (a ← m ; mret (Some a)).
Proof. intros Hm x. apply keeps_bind; [apply Hm|]. intros a. apply keeps_ret. Qed.
End spares.

Ltac solve_spares :=
  repeat match goal with
  | |- ∀ _, _ => intros
  | |- spares _ => intros ?
  | |- spares_uow _ => intros ?
  | |- keeps _ (match ?x with _ => _ end) => destruct x
  | |- keeps _ (_ ≫= _) => apply keeps_bind
  | |- keeps _ (for_each _ _) => apply keeps_for_each
  | |- keeps _ (sum_each _ _) => apply keeps_sum_each
  | |- keeps _ (let _ := _ in _) => cbv zeta
  | |- keeps _ (tx _) => apply spares_tx
  | |- keeps _ (on_backend _) => apply spares_on_backend
  | |- keeps _ (reads _) => apply spares_reads
  | |- keeps _ (modify _) => apply keeps_modify; intros; assumption
  | |- _ => solve [auto with keeps]
  end.

(** The interface: the validation of a manager only reads, and its rebuild works
    on its own records. *)
Class RecoverableManager {B} (p : RecoveryParticipant B) : Prop := {
  validate_reads validate w : part_validate p = Some validate → (validate w).2 = w;
  rebuild_spares rebuild : part_rebuild p = Some rebuild → spares rebuild }.

(** *** The managers of the engine *)

Section managers.
Context {B : Type} `{!TemporalBackend B, !ResourceBackend B, !StoreBackend B}.
Context `{!PreemptiveResourceBackend B, !ContainerBackend B, !Uuid5}.

Lemma resources_rebuild_spares : spares (B:=B) Resources.rebuild_backend.
Proof.
  unfold Resources.rebuild_backend, Resources._finalize_interrupted_releases, Resources.finalize_interrupted,
    Resources._finalize_release_intent, Resources.finalize_body, get_resource_release_intent, get_resource_reservation,
    delete_resource_reservation, delete_resource_release_intent, write.
  solve_spares.
Qed.

#[export] Instance resource_recoverable : RecoverableManager (B:=B) resource_participant.
Proof. split; [done|]. intros m [= <-]. apply spares_lift_option, resources_rebuild_spares. Qed.

Lemma reads_only {A} (m : prog (world B) A) : (∀ w, keeps (λ v, v = w) m) → ∀ w, (m w).2 = w.
Proof. intros Hm w. by apply Hm. Qed.

Lemma stores_validate_reads filters w : (Stores.validate_rebuild (B:=B) filters w).2 = w.
Proof.
  apply reads_only. intros v. unfold Stores.validate_rebuild, Stores._validate_store_records, Stores._validate_store_capacities,
    Stores._filter, reads.
  solve_keeps.
Qed.

Lemma stores_rebuild_spares filters : spares (B:=B) (Stores.rebuild_backend filters).
Proof.
  unfold Stores.rebuild_backend, Stores.validate_rebuild, Stores._validate_store_records, Stores._validate_store_capacities,
    Stores._create_stores_on_backend, Stores._restore_store_items, Stores._restore_pending_operations,
    Stores._submit_put_intent, Stores._submit_get_request, Stores._filter.
  solve_spares.
Qed.

#[export] Instance store_recoverable filters : RecoverableManager (B:=B) (store_participant filters).
Proof.
  split; intros m; [intros w|]; intros [= <-]; [apply stores_validate_reads|].
  apply spares_lift_option, stores_rebuild_spares.
Qed.

Lemma preemption_validate_reads w : (Preemption.validate_rebuild (B:=B) w).2 = w.
Proof.
  apply reads_only. intros v. unfold Preemption.validate_rebuild, Preemption._validate_preemptive_references,
    Preemption._validate_preemptive_capacities, Preemption._validate_request_overlap, Preemption._validate_preemption_results, reads.
  solve_keeps.
Qed.

Lemma preemption_rebuild_spares : spares (B:=B) Preemption.rebuild_backend.
Proof.
  unfold Preemption.rebuild_backend, Preemption._clear_ephemeral_state, Preemption.validate_rebuild,
    Preemption._validate_preemptive_references, Preemption._validate_preemptive_capacities,
    Preemption._validate_request_overlap, Preemption._validate_preemption_results,
    Preemption._finalize_interrupted_releases, Preemption.finalize_interrupted, Preemption._submit_demand,
    Preemption._finalize_release_intent, Preemption.finalize_body, get_preemptive_resource_release_intent,
    get_preemptive_resource_reservation, delete_preemptive_resource_reservation, delete_preemptive_resource_release_intent, write.
  solve_spares.
Qed.

#[export] Instance preemptive_recoverable : RecoverableManager (B:=B) preemptive_participant.
Proof.
  split; intros m; [intros w|]; intros [= <-]; [apply preemption_validate_reads|].
  apply spares_lift_option, preemption_rebuild_spares.
Qed.

Lemma containers_validate_reads w : (Containers.validate_rebuild (B:=B) w).2 = w.
Proof.
  apply reads_only. intros v. unfold Containers.validate_rebuild, Containers._validate_definitions_and_states,
    Containers._validate_pending_and_completed_operations, Containers._validate_result_record, reads.
  solve_keeps.
Qed.

Lemma containers_rebuild_spares : spares (B:=B) Containers.rebuild_backend.
Proof.
  unfold Containers.rebuild_backend, Containers.validate_rebuild, Containers._validate_definitions_and_states,
    Containers._validate_pending_and_completed_operations, Containers._validate_result_record, Containers._submit_intent, found.
  solve_spares.
Qed.

#[export] Instance container_recoverable : RecoverableManager (B:=B) container_participant.
Proof.
  split; intros m; [intros w|]; intros [= <-]; [apply containers_validate_reads|].
  apply spares_lift_option, containers_rebuild_spares.
Qed.
End managers.

(** ** The plan of a recovery *)

Section plan.
Context {B : Type} `{!TemporalBackend B, !SchedulingBackend B}.
Context (self : RuntimeRebuilder B).
Abbreviation owner := (rb_owner_id self).
Implicit Types w : world B.

Definition saved_position w : option SimulationPosition := st_simulation_positions (durable_state w) !! owner.
Definition saved_scenarios w : option ScenarioRuntimeState := st_scenario_states (durable_state w) !! owner.
Definition recovered_items w : list DurableScheduledItem := authorized self (items_of owner (durable_state w)).
Definition boundary w : datetime :=
  match saved_position w with Some p => pos_logical_time p | None => now (w_backend w) end.

(** The plan is accepted: the backend stands at the saved position, no work is
    before it, and every participant accepts the store. *)
Record admissible w : Prop := {
  plan_position : now (w_backend w) = boundary w;
  plan_items i : i ∈ recovered_items w → boundary w ≤ work_due_at (sched_work i);
  plan_participants p : p ∈ rb_participants self → participant_validate p w = (Ok tt, w) }.

(** The world with the saved context. *)
Definition with_context w : world B :=
  if negb (rb_has_context self) then w else
  match saved_position w with
  | Some p => w <| w_clock ::= λ c, c <| clk_now := pos_logical_time p |> <| clk_tick := pos_logical_tick p |> |>
  | None => w
  end <| w_scenarios := restored (saved_scenarios w) |>.

Lemma restore_context_run w :
  _restore_context_from_position self (saved_position w) (saved_scenarios w) w = (Ok tt, with_context w).
Proof.
  unfold _restore_context_from_position, with_context. destruct (negb _); [done|].
  destruct (saved_position w); run; reflexivity.
Qed.

Lemma snapshot_run w :
  schedule_inv (durable_state w) → writable w → blank owner = false →
  _recovery_snapshot self w = (Ok (saved_position w, saved_scenarios w, items_of owner (durable_state w)), w).
Proof.
  intros [Hd Hc _] Hro Ho. unfold _recovery_snapshot. rewrite tx_as_tx by (right; by apply blank_not_empty).
  transitivity (Ok (saved_position w, saved_scenarios w, items_of owner (durable_state w)), set_state (durable_state w) w);
    [|by rewrite set_state_same].
  set (s := durable_state w) in *. eapply tx_run; [done| |apply (commit_ok (begin_uow s)); apply Hd]. fold s.
  unfold snapshot_body, get_simulation_position, get_scenario_state, require_owner, uow_scheduled_work. rewrite Ho. run.
  erewrite run_bind; [reflexivity|]. apply collect_pass. intros x [k Hx]%elem_of_values_on. cbn in Hx.
  destruct (eqb_of (work_owner_id x) owner) eqn:Hox; [|done]. cbn. unfold get_command. run. cbn.
  destruct (Hc _ _ Hx) as (c & Hk & Hoc). unfold fork_state. rewrite Hk.
  apply (proj1 (eqb_of_true _ _)) in Hox. run. by rewrite Hoc, Hox, (proj2 (eqb_of_true _ _) eq_refl).
Qed.

Lemma validate_items_keeps items b w : (_validate_scheduled_items (B:=B) items b w).2 = w.
Proof. apply reads_only. intros v. unfold _validate_scheduled_items. solve_keeps. Qed.

Lemma validate_items_ok items b w :
  _validate_scheduled_items (B:=B) items b w = (Ok tt, w) ↔ ∀ i, i ∈ items → b ≤ work_due_at (sched_work i).
Proof.
  unfold _validate_scheduled_items. split.
  - intros Hr i Hi. apply for_each_pass_inv in Hr as [_ Hr]; [|by intros ? v ->].
    specialize (Hr i Hi). unfold raise_if, lift, fail_if in Hr. destruct (_ <? _) eqn:E; [done|lia].
  - intros Hi. apply for_each_pass. intros i Hin. specialize (Hi i Hin). unfold raise_if, lift, fail_if.
    by replace (work_due_at (sched_work i) <? b) with false by lia.
Qed.

Lemma participants_validate_keeps w :
  (∀ p, p ∈ rb_participants self → RecoverableManager p) →
  (for_each (rb_participants self) participant_validate w).2 = w
  ∧ (for_each (rb_participants self) participant_validate w = (Ok tt, w) ↔
     ∀ p, p ∈ rb_participants self → participant_validate p w = (Ok tt, w)).
Proof.
  intros Hp.
  assert (∀ p, p ∈ rb_participants self → ∀ v, (participant_validate p v).2 = v) as Hv.
  { intros p Hin v. unfold participant_validate. destruct (part_rebuild p); [|done].
    destruct (part_validate p) eqn:E; [|done]. by apply (Hp p Hin). }
  revert Hv. generalize (rb_participants self) as l. intros l Hv. split.
  - revert w. induction l as [|p l IH]; intros w; [done|]. cbn. unfold mbind, prog_bind.
    pose proof (Hv p ltac:(constructor) w) as Hw. destruct (participant_validate p w) as [[[]|e] v]; cbn in Hw; subst v; [|done].
    apply IH. intros q Hq. apply Hv. by constructor.
  - split; [|intros Hl; by apply for_each_pass]. revert w. induction l as [|p l IH]; intros w Hr q Hq; [by apply not_elem_of_nil in Hq|].
    cbn in Hr. apply bind_inv in Hr as [([] & v & E & Hr)|(?&_&?)]; [|done].
    pose proof (Hv p ltac:(constructor) w) as Hw. rewrite E in Hw. cbn in Hw. subst v.
    apply elem_of_cons in Hq as [->|Hq]; [done|]. apply IH; [intros; apply Hv; by constructor|done|done].
Qed.

Lemma participants_spare w :
  (∀ p, p ∈ rb_participants self → RecoverableManager p) →
  context_part (for_each (rb_participants self) (λ p, participant_rebuild p ;; mret tt) w).2 = context_part w.
Proof.
  intros Hp. revert Hp. generalize (rb_participants self) as l. intros l Hp.
  enough (spares (for_each l (λ p : RecoveryParticipant B, participant_rebuild p ;; mret tt))) as Hs by by apply (Hs _ w).
  induction l as [|p l IH]; intros x; [apply keeps_ret|]. cbn [for_each]. apply keeps_bind.
  - apply keeps_bind; [|intros; apply keeps_ret]. unfold participant_rebuild. destruct (part_rebuild p) as [m|] eqn:E; [|apply keeps_raise].
    apply keeps_bind; [|intros; apply keeps_ret]. by apply (Hp p ltac:(constructor)).
  - intros _. apply IH. intros q Hq. apply Hp. by constructor.
Qed.
End plan.

(** ** What a recovery does *)

Section properties.
Context {B : Type} `{!TemporalBackend B, !SchedulingBackend B}.

(** After the plan: the context, the participants in their order, the pending work. *)
Definition reconstruct (self : RuntimeRebuilder B) (items : list DurableScheduledItem) : prog (world B) Z :=
  for_each (rb_participants self) (λ p, participant_rebuild p ;; mret tt) ;;
  _schedule_pending_items items ;;
  mret (Z.of_nat (length items)).

Lemma recovery_rebuild_run (self : RuntimeRebuilder B) w :
  schedule_inv (durable_state w) → writable w → blank (rb_owner_id self) = false →
  (∀ p, p ∈ rb_participants self → RecoverableManager p) →
  (admissible self w ∧ rebuild self w = reconstruct self (recovered_items self w) (with_context self w))
  ∨ (¬ admissible self w ∧ ∃ e, rebuild self w = (Err e, w)).
Proof.
  intros Hs Hro Ho Hp. destruct (participants_validate_keeps self w Hp) as [Hk Hv].
  unfold rebuild. rewrite (run_bind _ _ _ _ _ (snapshot_run self w Hs Hro Ho)). cbv beta iota. run.
  destruct (match saved_position self w with Some p => negb (now (w_backend w) =? pos_logical_time p) | None => false end) eqn:Hb.
  { right. split; [|by eexists]. intros [Hn _ _]. unfold boundary in Hn.
    destruct (saved_position self w); [|done]. by rewrite Hn, Z.eqb_refl in Hb. }
  cbv zeta. fold (recovered_items self w). fold (boundary self w).
  assert (now (w_backend w) = boundary self w) as Hn.
  { unfold boundary. destruct (saved_position self w); [|done]. apply negb_false_iff in Hb. by apply Z.eqb_eq. }
  pose proof (validate_items_keeps (recovered_items self w) (boundary self w) w) as Hki.
  destruct (_validate_scheduled_items (recovered_items self w) (boundary self w) w) as [[[]|e] w1] eqn:Ei; cbn in Hki; subst w1.
  2: { right. split; [|exists e; unfold mbind, prog_bind; by rewrite Ei]. intros [_ Hi _].
       apply (validate_items_ok _ _ w) in Hi. congruence. }
  rewrite (run_bind _ _ _ _ _ Ei).
  destruct (for_each (rb_participants self) participant_validate w) as [[[]|e] w1] eqn:Ep; cbn in Hk; subst w1.
  2: { right. split; [|exists e; unfold mbind, prog_bind; by rewrite Ep]. intros [_ _ Hp'].
       apply Hv in Hp'. congruence. }
  rewrite (run_bind _ _ _ _ _ Ep), (run_bind _ _ _ _ _ (restore_context_run self w)). left. split; [|done].
  split; [done| |by apply Hv]. by apply (validate_items_ok _ _ w).
Qed.

Lemma reconstruct_inv (self : RuntimeRebuilder B) items w r w' :
  (∀ p, p ∈ rb_participants self → RecoverableManager p) → reconstruct self items w = (r, w') →
  context_part w' = context_part w
  ∧ ∀ n, r = Ok n → n = Z.of_nat (length items)
      ∧ ∃ v, for_each (rb_participants self) (λ p, participant_rebuild p ;; mret tt) w = (Ok tt, v)
             ∧ on_backend (for_each items schedule_item) v = (Ok tt, w').
Proof.
  intros Hp E. unfold reconstruct in E. pose proof (participants_spare self w Hp) as Hsp.
  destruct (for_each (rb_participants self) (λ p, participant_rebuild p ;; mret tt) w) as [[[]|x] v] eqn:Ev; cbn in Hsp.
  2: { rewrite (run_bind_err _ _ _ _ _ Ev) in E. injection E as <- <-. by split. }
  rewrite (run_bind _ _ _ _ _ Ev) in E. unfold _schedule_pending_items in E.
  pose proof (spares_on_backend (for_each items schedule_item) _ v eq_refl) as Hb. cbv beta in Hb.
  pose proof (for_each_on_backend items schedule_item v) as Hl.
  destruct (on_backend (for_each items schedule_item) v) as [[[]|x] v'] eqn:El; cbn in Hb.
  - rewrite (run_bind _ _ _ _ _ Hl) in E. apply ret_inv in E as [-> ->]. split; [congruence|].
    intros n [= <-]. split; [done|]. by exists v.
  - rewrite (run_bind_err _ _ _ _ _ Hl) in E. injection E as <- <-. split; [congruence|done].
Qed.

(** C29. A recovery checks its whole plan before it changes anything.  If the
    saved position is not the backend's time, some pending work lies before it
    or some participant refuses the store, the recovery raises and the world
    is untouched.  Otherwise the clock and the scenarios are the saved ones,
    whatever happens next (the pending work, its commands, the positions and
    scenario states of the store are not changed by the participants); and if it
    returns, it returns the number of the owner's pending works that the domain
    may dispatch, which were handed to the backend in their order of execution,
    after every participant had been rebuilt. *)
Theorem recovery_plan_first (self : RuntimeRebuilder B) w r w' :
  schedule_inv (durable_state w) → writable w → blank (rb_owner_id self) = false →
  (∀ p, p ∈ rb_participants self → RecoverableManager p) → rebuild self w = (r, w') →
  (¬ admissible self w ∧ (∃ e, r = Err e) ∧ w' = w)
  ∨ (admissible self w ∧ context_part w' = context_part (with_context self w)
     ∧ ∀ n, r = Ok n → n = Z.of_nat (length (recovered_items self w))
         ∧ ∃ v, for_each (rb_participants self) (λ p, participant_rebuild p ;; mret tt) (with_context self w) = (Ok tt, v)
                ∧ on_backend (for_each (recovered_items self w) schedule_item) v = (Ok tt, w')).
Proof.
  intros Hs Hro Ho Hp E. destruct (recovery_rebuild_run self w Hs Hro Ho Hp) as [[Ha Er]|(Ha & e & Er)]; rewrite Er in E.
  2: { injection E as <- <-. left. by split_and!; [|eexists|]. }
  right. split; [done|]. by apply reconstruct_inv in E.
Qed.
End properties.

(** ** The recovery of an engine *)

Section engine_properties.
Context {B Wh : Type} `{!TemporalBackend B, !SchedulingBackend B, !ResourceBackend B, !StoreBackend B}.
Context `{!PreemptiveResourceBackend B, !ContainerBackend B, !Uuid5}.

(** What the engine's transactions save with every step: its clock and scenarios. *)
Definition saves_context (self : engine B Wh) (w : world B) : Prop :=
  (∃ p, st_simulation_positions (durable_state w) !! eng_owner_id self = Some p
        ∧ pos_logical_time p = clk_now (w_clock w) ∧ pos_logical_tick p = clk_tick (w_clock w))
  ∧ st_scenario_states (durable_state w) !! eng_owner_id self = Some (snapshot_state (w_scenarios w))
  ∧ wf_memory (w_scenarios w).

Lemma engine_recoverable (self : engine B Wh) filters q :
  q ∈ rb_participants (engine_rebuilder self filters) → RecoverableManager q.
Proof. cbn. rewrite !elem_of_cons. intros [->|[->|[->|[->|Hq]]]]; try apply _. by apply not_elem_of_nil in Hq. Qed.

End engine_properties.

(** ** A doorman restarts

    The agenda of the doors (EngineFacts), saved at its start; a new process
    recovers it. *)
#[local] Existing Instance plain_uuid5.

Definition saved_at (owner : string) (p : SimulationPosition) (st : ScenarioRuntimeState) (s : state) : state :=
  s <| st_simulation_positions := {[ owner := p ]} |> <| st_scenario_states := {[ owner := st ]} |>.

Lemma saved_at_inv owner p st s : schedule_inv s → schedule_inv (saved_at owner p st s).
Proof. intros [[[[] [] [] [] []] ??] Hc Hu]. repeat constructor; assumption. Qed.

Definition resting : world queue_backend :=
  set_state (saved_at "sim" (mkSimulationPosition 0 4 4 0) (mkScenarioRuntimeState [] []) (durable_state waiting_hallway))
    waiting_hallway.
Definition restarted : world queue_backend := fresh_world (w_store resting) (new_queue_backend 0) (mkClock 77 30 9).

Lemma resting_inv : schedule_inv (durable_state resting).
Proof. exact (saved_at_inv _ _ _ (durable_state waiting_hallway) (proj1 waiting_inv)). Qed.

Lemma resting_writable : writable resting.
Proof. vm_compute. reflexivity. Qed.

Lemma resting_saved : saves_context porter resting.
Proof.
  split; [exists (mkSimulationPosition 0 4 4 0); vm_compute; by split_and!|]. split; [vm_compute; reflexivity|].
  replace (w_scenarios resting) with (mkScenarioMemory ∅ ∅) by (vm_compute; reflexivity). split; apply map_Forall_empty.
Qed.

Lemma recovery_plan_first_witness :
  let self := engine_rebuilder porter ∅ in
  let late := restarted <| w_backend := new_queue_backend 500 |> in
  rebuild self late = (Err (RuntimeError "backend logical time does not match persisted recovery boundary"), late).
Proof.
  intros self late.
  assert (rebuild self late = (Err (RuntimeError "backend logical time does not match persisted recovery boundary"),
                               (rebuild self late).2)) as E by (apply pair_fst; vm_compute; reflexivity).
  destruct (recovery_plan_first self late _ _ resting_inv resting_writable eq_refl (engine_recoverable porter ∅) E)
    as [(_ & _ & Hw)|([Hn _ _] & _)].
  - rewrite E. f_equal; exact Hw.
  - exfalso. revert Hn. vm_compute. discriminate.
Defined.

